(* ===== verification/_CoqProject ===== *)
-Q . S2P
Prelude.v
Interleave.v
GoString.v
GoTime.v
GoFloat.v
Regexp.v
Json.v
JsonText.v
GoFlag.v
Sha256.v
Storage.v
PgAst.v
SqlAnalyzer.v
Policy.v
Postgres.v
Sqlite.v
DbWait.v
MetadataSchema.v
MetadataQuery.v
GatewayMetrics.v
Manifest.v
AgentIdentity.v
Approval.v
Pause.v
PauseConcurrent.v
Auth.v
GatewayMetadata.v
GatewayWorld.v
Behavior.v
Impact.v
SnapshotVerifier.v
McpServer.v
GatewayCalls.v
BehaviorConcurrent.v
Gateway.v
ConcurrencyLimit.v
GatewaySafety.v
GatewayProperties.v
GatewayBucket.v
GatewayConcurrent.v
GatewayAudit.v
SyncDelta.v
SyncBypass.v
SyncMetrics.v
SyncWorld.v
SyncSnapshot.v
EndToEnd.v
SyncPoller.v
SyncPollerProperties.v
SyncProvenance.v
SyncDurability.v
Startup.v
GatewayCommand.v
SyncProgress.v
SyncMain.v
SyncCommand.v
System.v
GatewayLifecycle.v
GatewayShutdown.v
