(* ===== verification/Prelude.v ===== *)
(** * Backstop: a verification library for the Go gateway and sidecar

    Backstop stands between AI agents and a PostgreSQL database.  It has two Go
    services.  The gateway (src/gateway) is a JSON-RPC server: it classifies an
    agent's SQL, decides by policy whether it runs, is refused or waits for an
    operator, and lets destructive statements run only behind a verified
    recovery point.  The sidecar (src/sync) polls the database, captures table
    snapshots into an S3 bucket, reports dropped tables and writes a heartbeat.
    The two share the bucket and a SQLite metadata database.  Their clients in
    Python and TypeScript (src/sdk, src/packages) are not modelled.

    ** How the model relates to the code

    Definitions carry the names of the Go functions and types they translate and
    follow them branch by branch.  Where one Go name occurs twice, or would hide
    another, the Rocq name has a prefix ([req_ID], [S3_LatestSidecarSnapshot]).
    - A value and an error is a [result]; an error is its text.
    - An int or int64 is a Z whose additions wrap ([wrap64]); a Duration
      saturates where Go's arithmetic does ([sat64]); a float64 is the standard
      library's [SpecFloat] (GoFloat); a string is a list of bytes (GoString).
    - A method that changes state is a state transformer [ST], over
      [GatewayWorld.World] or [SyncWorld.SWorld], which hold what the process
      owns and the outside world it acts on.
    - JSON is read from and written to bytes: JsonText is the grammar with its
      escapes, nesting limit and repair of invalid UTF-8, Json the decoding into
      Go structs with their case-insensitive keys and kept zero values.  Time,
      regular expressions, SHA-256, quoting and network addresses are
      implemented too, because the code's meaning depends on them.
    - Code outside the repository is a parameter: [Postgres] and [SyncEnv]
      (databases, bucket, parquet writer, random source, webhook), [GatewayEnv]
      (webhook, net/url), [Sqlite] (the driver of the metadata file), the AWS
      SDK's loader of configurations and the parser of PostgreSQL, the argument
      [Parse] of the analyzer.  Each class has a concrete instance on which the
      examples and witnesses run.  Three have laws, documented behaviour that
      some theorems rely on: [BucketLaws] (a get returns what the last put wrote,
      other keys keep their object), [BucketAtomic] (a put that reports an error
      stored the object or left what was there, a delete concerns its key alone)
      and [SqliteLaws] (what CREATE TABLE IF NOT
      EXISTS, ALTER TABLE ADD COLUMN and PRAGMA table_info do to the columns).
    - Maps whose iteration order Go leaves open are gmaps; where the order shows
      ([recoveryGroupForTable]) it is a parameter ([visited]).

    ** The files

    Shared: Prelude (this file), GoString, GoTime, GoFloat, Regexp, Json, JsonText,
    Sha256, GoFlag (fragments of Go's standard library), Interleave (goroutines
    as trees of atomic actions, pools of them, and rules to reason about them), Postgres, Sqlite, PgAst (what the
    drivers and the parser return), Storage (storage.go, the same in both
    services, up to the client it asks the AWS SDK for), DbWait (waitForDB of both
    main.go, on a clock), MetadataSchema (how both metadata_store.go open their
    common file).

    The gateway, one file per Go file unless said otherwise:
    - SqlAnalyzer: sql_analyzer.go; Policy: policy.go; Impact: impact.go;
      Behavior and BehaviorConcurrent: behavior.go (risky attempts and quarantine).
    - Manifest and SnapshotVerifier: snapshot_verifier.go.
    - Approval: approval.go, as a step relation over the pending requests;
      Pause and PauseConcurrent: pause.go; Auth: auth.go; AgentIdentity: agent_identity.go;
      GatewayMetrics: metrics.go; GatewayMetadata: the rows metadata_store.go
      writes and reads; MetadataQuery: the texts of its filtered queries.
    - GatewayWorld: the state of the process, and alert.go.
    - McpServer: mcp_server.go.  A query that waits for an operator is cut in
      two: [toolExecuteQuery] runs up to the wait and yields an [inflight]
      request, [resumeExecuteQuery] runs from the engine's answer on.
    - GatewayCalls: the same handlers as trees of atomic actions, and the proof
      that a request by itself does what McpServer says ([requests_alone]).
    - Gateway: the HTTP endpoints of main.go, up to [serve]; ConcurrencyLimit: its
      limitConcurrent, with requests that come and go.
    - GatewaySafety: the transition system of a running gateway ([gstep],
      [reachable]): requests, waits, returns, the clock and outside changes, each
      labelled with what it means to the approval engine; its invariant.
    - GatewayProperties: the theorems about runs; GatewayBucket: that handlers only
      read the bucket; GatewayAudit: that every executed
      statement is audited first; GatewayConcurrent: runs in which the requests
      interleave at every action ([cstep], [creachable]).
    - Startup: main.go's start; GatewayCommand: its command line;
      GatewayLifecycle: the process from its command line to its exit, with the
      signal and the shutdown ([pstep]); GatewayShutdown: the shutdown action by
      action, with requests in the middle of their handlers ([sstep]).

    The sidecar:
    - SyncDelta: delta.go; SyncBypass: bypass.go; SyncMetrics: metrics.go.
    - SyncWorld: the state of the process, alert.go and metadata_store.go.
    - SyncSnapshot: snapshot.go, with the relation [captured], which lists the ways
      a capture ends, for the proofs of the files behind it.
    - SyncPoller: poller.go, and the frames of its parts; SyncPollerProperties
      and SyncProgress: what a poll guarantees; SyncMain: main.go and Run;
      SyncCommand: the command line of main.go.
    - SyncProvenance: the bucket under a sidecar that captures and may die in a
      capture ([later]), and that a poll refines it; SyncDurability: what a capture
      leaves in the bucket, whatever fails in it, and that what was captured stays.

    Both services:
    - EndToEnd: what the sidecar captures, the gateway accepts ([handover]).
    - System: the two processes over one bucket and one metadata database, their
      steps in any order ([sys_step]).

    Interfaces: [Incidental] and [Unlogged] (GatewaySafety) say which parts of the
    gateway's state a handler may touch without touching what an observation
    sees; [QuietVerifier] is what the gateway's theorems ask of any snapshot
    verifier, and [S3_verifier_quiet] discharges it for the one in the code.

    ** What is shown

    Safety of the gateway: no agent's statement reaches PostgreSQL that neither
    the policy lets run at once nor an operator approved with that very text;
    the gateway refines the approval engine, whose first decision wins; a pause
    stops also what was approved before; scopes guard every effect (a request without
    approval:write may at most register its own query); a destructive
    query waits only behind a ready recovery point; what runs for an agent is in
    the audit trail before it runs; main starts in a state all this holds from,
    fails closed without a token, and is closed unless a flag on the command
    line opens it.
    The whole system: when gateway and sidecar run together, a critical statement
    that waited for an operator executes only behind a manifest that the sidecar
    captured in this run, and the data it names is still there, even when the
    sidecar died in the middle of captures and started again.  The process of the
    gateway executes only what is allowed from its command line to its exit.  Told
    to stop, and when nothing comes in any more, it executes for requests whose wait
    had been decided and for those in the middle of their handlers only, and from ten
    seconds on it only ends.
    Concurrency: the same safety when requests interleave at every action; what a
    pause no longer stops, the requests that looked at it before; waiting requests are never lost; the limit on
    concurrent requests; pauses one after the other survive a restart, also after saves that failed, once
    one succeeded, and
    attempts of different agents do not disturb each other - overlapping pauses
    and overlapping attempts of one agent do not have these properties, which is
    shown too.
    Recovery points: a capture is all or nothing, unless the bucket stores a manifest
    whose put it reports as failed; the sidecar only holds valid
    points and captures every table that stays as it is; a snapshot once captured
    is neither changed nor deleted; the heartbeat is healthy
    exactly when all tables are recoverable; the gateway accepts what the
    sidecar captures and nothing else, and a table captured and reported by the
    sidecar unblocks the destructive query that names its snapshot, until the
    sidecar stops.
    Start-up: the wait for the database ends; however often the two services
    start on one metadata file, old or new, its columns come out the same and
    serve every statement sent afterwards, and no filter value becomes SQL text;
    every configuration of a service can be given on its command line.
    Classification: the level of a query is its statements' highest; SAFE and
    recoverable queries are characterised exactly; what is unknown fails closed;
    the default policy's decision for every query.
    Components: round trips of the audit log (whose history is lost when one
    line has 64 KiB), the pause file, the metadata
    record, quoted identifiers and the shell words of the restore command;
    quarantine by attempts within one window; the tracker; the bypass detector and its networks.
    Some theorems state behaviour that the code's documentation does not
    suggest: recovery points that are never renewed, snapshots on start-up that
    are never taken, schemas that are conflated, an impact that lifts a block, a
    late attempt that lifts a quarantine, one bad manifest that hides all others,
    one without data that stops every critical query on its table.

    ** Recursion and bounds

    Recursion is structural.  A few functions recurse on a fuel that is enough by
    construction: [Regexp.replace_from] consumes a byte a step of a text shorter
    than its fuel; [GoString.hex_digits] writes the at most 16 digits of a 64-bit
    number; [Sha256.schedule] and [Sha256.blocks] count the rounds and the blocks
    of the padded text; [SyncBypass.hex_group] reads at most four digits, as Go
    does, and refuses a fifth.  The JSON reader's fuel is twice the length of
    the text, and [JsonText.parse_enough] shows that more reads the same; its
    nesting limit is Go's 10000.  [DbWait.wait_loop] runs with the 31 pings
    that fit into its minute, and DbWait shows that it stops before they
    run out.  [GoFlag.duration_terms] takes a unit a step; [duration_terms_enough]
    shows that the length of the text is enough.  Loops of the code over lists are folds or [for_range].  Times are proved to format
    and parse back for the years 1970 to 9999 ([year_9999_end]).

    ** What is left out

    TLS and what net/http does below a request; logging, the usage text;
    temporary files, apart from the failures of opening them; what SQLite
    makes of a filtered SELECT (its text and its rows' reading are modelled).
    Concurrency is modelled where requests share state that matters:
    execute_query, the pause, the quarantine, the limit of requests.  An impact
    analysis, a check of the recovery point and the posting of an alert count as one
    action there, as does each critical section of a lock; the memory model
    below that is not modelled.  The other endpoints are one step each, and the poller is
    the sidecar's only writer, so that its locks per table are never contended.  In
    System a poll is one step unless the sidecar dies in it: the gateway does not
    look at the bucket in the middle of a capture that goes on.  In
    GatewaySafety and GatewayLifecycle a handler has its effects in one step, before
    the signal or behind it; GatewayConcurrent and GatewayShutdown take the requests
    of agents apart.  A fresh approval id is assumed not to be pending.  The clients in Python and TypeScript. *)
From Stdlib Require Export ZArith Lia Ascii.
From stdpp Require Export base gmap sets list strings pretty sorting.
From Stdlib Require String.
From stdpp Require Import options.

Declare Scope go_scope.
Delimit Scope go_scope with go.

(** ** Results of fallible Go functions

    A Go function that returns [(T, error)] and whose value is meaningless on
    error returns a [result T].  Error values are their message, the text
    [err.Error()] yields; the sentinel errors the code compares with
    [errors.Is] have inductive types of their own in the file that declares
    them. *)
Abbreviation error := string (only parsing).

Inductive result (A : Type) : Type :=
  | Ok (a : A)
  | Err (e : error).
Arguments Ok {A} a.
Arguments Err {A} e.

#[export] Instance result_ret : MRet result := fun A a => Ok a.
#[export] Instance result_bind : MBind result := fun A B f m =>
  match m with Ok a => f a | Err e => Err e end.
#[export] Instance result_fmap : FMap result := fun A B f m =>
  match m with Ok a => Ok (f a) | Err e => Err e end.
#[export] Instance result_eq_dec `{EqDecision A} : EqDecision (result A).
Proof. solve_decision. Defined.

Definition is_ok {A} (r : result A) : bool :=
  match r with Ok _ => true | Err _ => false end.

(** A sequence that succeeds: both parts did. *)
Lemma bind_ok {A B} (m : result A) (f : A -> result B) b :
  m ≫= f = Ok b <-> exists a, m = Ok a /\ f a = Ok b.
Proof. destruct m; cbn; naive_solver. Qed.

(** [err.Error()] of a failure. *)
Definition err_text {A} (r : result A) : string :=
  match r with Ok _ => EmptyString | Err e => e end.

(** [fmt.Errorf] with a prefix and a wrapped error. *)
Definition wrap_err {A} (prefix : string) (r : result A) : result A :=
  match r with Ok a => Ok a | Err e => Err (prefix +:+ e) end.

(** ** The state monad of a handler

    A handler of the gateway or of the sidecar reads and writes the state [S]
    of its process. *)
Definition ST (S A : Type) : Type := S -> A * S.

#[export] Instance st_ret {S} : MRet (ST S) := fun A a s => (a, s).
#[export] Instance st_bind {S} : MBind (ST S) := fun A B f m s =>
  let (a, s') := m s in f a s'.

Definition gets {S A} (f : S -> A) : ST S A := fun s => (f s, s).
Definition modify {S} (f : S -> S) : ST S unit := fun s => (tt, f s).
Definition when {S} (b : bool) (m : ST S unit) : ST S unit :=
  if b then m else mret tt.
Definition run_state {S A} (m : ST S A) (s : S) : S := snd (m s).
Definition run_value {S A} (m : ST S A) (s : S) : A := fst (m s).

(** A handler's call of a fallible operation, returning its error at once. *)
Definition try {S A B} (m : ST S (result A)) (f : A -> ST S (result B)) : ST S (result B) :=
  fun s => let (r, s') := m s in match r with Ok a => f a s' | Err e => (Err e, s') end.
Notation "x ←? m ; f" := (try m (fun x => f))
  (at level 20, m at level 100, f at level 200, only parsing) : stdpp_scope.
Definition wrap_call {S A} (prefix : string) (m : ST S (result A)) : ST S (result A) :=
  fun s => let (r, s') := m s in (wrap_err prefix r, s').

Lemma try_ok {S A B} (m : ST S (result A)) (f : A -> ST S (result B)) s b s' :
  try m f s = (Ok b, s') -> exists a s1, m s = (Ok a, s1) /\ f a s1 = (Ok b, s').
Proof. unfold try. destruct (m s) as [[a|e] s1]; [eauto|done]. Qed.

Lemma wrap_call_ok {S A} prefix (m : ST S (result A)) s a s' :
  wrap_call prefix m s = (Ok a, s') <-> m s = (Ok a, s').
Proof.
  unfold wrap_call. destruct (m s) as [[x|e] s1]; cbn; split; intros; simplify_eq; done.
Qed.

(** [for _, x := range xs { body }] over a slice. *)
Fixpoint for_range {S A} (xs : list A) (body : A -> ST S unit) : ST S unit :=
  match xs with
  | [] => mret tt
  | x :: xs => body x ;; for_range xs body
  end.

Lemma run_ret {S A} (a : A) (s : S) : (mret a : ST S A) s = (a, s).
Proof. done. Qed.

Lemma run_bind {S A B} (m : ST S A) (f : A -> ST S B) (s : S) :
  (m ≫= f) s = f (run_value m s) (run_state m s).
Proof. unfold mbind, st_bind, run_value, run_state. by destruct (m s). Qed.

Lemma run_gets {S A} (f : S -> A) (s : S) : gets f s = (f s, s).
Proof. done. Qed.

Lemma run_modify {S} (f : S -> S) (s : S) : modify f s = (tt, f s).
Proof. done. Qed.

(** A handler keeps [P] when it keeps it from every state; the rules below
    follow the structure of the handler. *)
Definition preserves {S A} (P : S -> Prop) (m : ST S A) : Prop :=
  forall s, P s -> P (run_state m s).

Section preserves.
Context {S : Type} (P : S -> Prop).

Lemma preserves_ret {A} (a : A) : preserves P (mret a : ST S A).
Proof. by intros s Hs. Qed.

Lemma preserves_gets {A} (f : S -> A) : preserves P (gets f).
Proof. by intros s Hs. Qed.

Lemma preserves_modify (f : S -> S) :
  (forall s, P s -> P (f s)) -> preserves P (modify f).
Proof. intros Hf s Hs. by apply Hf. Qed.

Lemma preserves_bind {A B} (m : ST S A) (f : A -> ST S B) :
  preserves P m -> (forall a, preserves P (f a)) -> preserves P (m ≫= f).
Proof.
  intros Hm Hf s Hs. unfold run_state. rewrite run_bind.
  by apply Hf, Hm.
Qed.

Lemma preserves_when (b : bool) (m : ST S unit) :
  preserves P m -> preserves P (when b m).
Proof. destruct b; [done|]. intros _. apply preserves_ret. Qed.

Lemma preserves_for_range {A} (xs : list A) (body : A -> ST S unit) :
  (forall x, preserves P (body x)) -> preserves P (for_range xs body).
Proof.
  intros Hbody. induction xs as [|x xs IH]; simpl; [apply preserves_ret|].
  apply preserves_bind; [apply Hbody|]. by intros _.
Qed.
End preserves.

Create HintDb preserves.
#[export] Hint Resolve preserves_ret preserves_gets preserves_when
  preserves_for_range : preserves.

(** [preserve] takes a handler apart down to its primitive updates. *)
Ltac preserve :=
  repeat first
    [ apply preserves_ret
    | apply preserves_gets
    | apply preserves_bind; [|intros ?]
    | apply preserves_when
    | apply preserves_for_range; intros ?
    | match goal with
      | |- preserves _ (match ?x with _ => _ end) => destruct x
      end
    | solve [eauto with preserves] ].

(** ** Machine integers

    Go's [int] and [int64] are 64-bit two's complement; arithmetic wraps. *)
Open Scope Z_scope.

Definition int64_min : Z := - 2 ^ 63.
Definition int64_max : Z := 2 ^ 63 - 1.
Definition wrap64 (z : Z) : Z := (z + 2 ^ 63) mod 2 ^ 64 - 2 ^ 63.
Definition sat64 (z : Z) : Z := Z.max int64_min (Z.min int64_max z).
Definition int64_range (z : Z) : Prop := int64_min <= z <= int64_max.

Lemma wrap64_range z : int64_range (wrap64 z).
Proof.
  unfold int64_range, wrap64, int64_min, int64_max.
  pose proof (Z.mod_pos_bound (z + 2 ^ 63) (2 ^ 64) ltac:(lia)). lia.
Qed.

Lemma wrap64_id z : int64_range z -> wrap64 z = z.
Proof.
  unfold int64_range, wrap64, int64_min, int64_max. intros H.
  rewrite Z.mod_small; lia.
Qed.

Lemma sat64_range z : int64_range (sat64 z).
Proof. unfold int64_range, sat64, int64_min, int64_max. lia. Qed.

Lemma sat64_id z : int64_range z -> sat64 z = z.
Proof. unfold int64_range, sat64, int64_min, int64_max. lia. Qed.

(** ** Tactics *)

(** Case analysis on every [if] and [match] of the goal, keeping equations. *)
Ltac split_cases :=
  repeat match goal with
  | |- context [match ?x with _ => _ end] => destruct x eqn:?
  end.

Ltac bool_simpl :=
  repeat match goal with
  | H : _ && _ = true |- _ => apply andb_true_iff in H as [??]
  | H : _ || _ = false |- _ => apply orb_false_iff in H as [??]
  | H : negb _ = true |- _ => apply negb_true_iff in H
  | H : negb _ = false |- _ => apply negb_false_iff in H
  end.

(** ** Lists *)
Lemma existsb_exists_iff {A} (f : A -> bool) (l : list A) :
  existsb f l = true <-> exists x, x ∈ l /\ f x = true.
Proof.
  rewrite existsb_exists. split; intros (x & Hx & Hf); exists x;
    rewrite ?list_elem_of_In in *; done.
Qed.

Lemma existsb_false_iff {A} (f : A -> bool) (l : list A) :
  existsb f l = false <-> forall x, x ∈ l -> f x = false.
Proof.
  rewrite <- not_true_iff_false, existsb_exists_iff. split.
  - intros H x Hx. apply not_true_iff_false. eauto.
  - intros H (x & Hx & Hf). by rewrite H in Hf.
Qed.

Lemma forallb_forall_iff {A} (f : A -> bool) (l : list A) :
  forallb f l = true <-> forall x, x ∈ l -> f x = true.
Proof.
  rewrite forallb_forall. split; intros H x Hx; apply H;
    rewrite ?list_elem_of_In in *; done.
Qed.
