(* ===== verification/Interleave.v ===== *)
(** * Calls that interleave

    Go serves every request in a goroutine of its own.  A [call] is a goroutine's
    run as a tree of atomic actions on the state the goroutines share: the critical
    sections of its locks, the statements it sends to a database, the operations of
    package sync.  What it does between two actions is its own.  A [pool] is a set
    of calls; its steps move one call by one action.

    [alone] runs a call without the others.  [acts] is what a call does whatever the
    others do between its actions; [safe] is what it does when the others keep to a
    relation, and [rely_guarantee] lets calls that respect each other run together. *)
From S2P Require Import Prelude.
From stdpp Require Import options.

(** A call returns, or does an action as soon as it is enabled and goes on with what
    it read. *)
Inductive call (S A : Type) : Type :=
  | Ret (a : A)
  | Act (enabled : S -> bool) (action : S -> S) (next : S -> call S A).
Arguments Ret {S A} a.
Arguments Act {S A} enabled action next.

#[export] Instance call_ret {S} : MRet (call S) := fun A a => Ret a.
#[export] Instance call_bind {S} : MBind (call S) := fun A B f =>
  fix go m :=
    match m with
    | Ret a => f a
    | Act e g k => Act e g (fun s => go (k s))
    end.

(** One action that never blocks. *)
Definition atomic {S A} (m : ST S A) : call S A :=
  Act (fun _ => true) (run_state m) (fun s => Ret (run_value m s)).

(** An action that waits until it is enabled. *)
Definition await {S} (enabled : S -> bool) (action : S -> S) : call S unit :=
  Act enabled action (fun _ => Ret tt).

Definition cwhen {S} (b : bool) (m : call S unit) : call S unit :=
  if b then m else mret tt.

(** ** A call by itself *)
Fixpoint alone {S A} (c : call S A) (s : S) : option (A * S) :=
  match c with
  | Ret a => Some (a, s)
  | Act e f k => if e s then alone (k s) (f s) else None
  end.

(** [sequentially m c]: by itself, [c] is the handler [m]. *)
Definition sequentially {S A} (m : ST S A) (c : call S A) : Prop :=
  forall s, alone c s = Some (m s).

Section sequential.
Context {S : Type}.

Lemma alone_bind {A B} (m : call S A) (f : A -> call S B) s :
  alone (m ≫= f) s = '(a, s1) ← alone m s; alone (f a) s1.
Proof.
  revert s. induction m as [a|e g k IH]; intros s; [done|]. cbn.
  destruct (e s); [|done]. apply IH.
Qed.

Lemma seq_ret {A} (a : A) : sequentially (mret a : ST S A) (mret a).
Proof. done. Qed.

Lemma seq_atomic {A} (m : ST S A) : sequentially m (atomic m).
Proof. intros s. cbn. unfold run_value, run_state. by destruct (m s). Qed.

Lemma seq_bind {A B} (m : ST S A) (f : A -> ST S B) c g :
  sequentially m c -> (forall a, sequentially (f a) (g a)) -> sequentially (m ≫= f) (c ≫= g).
Proof.
  intros Hm Hf s. rewrite alone_bind, Hm, run_bind. unfold run_value, run_state.
  destruct (m s) as [a s1]. apply Hf.
Qed.

Lemma seq_when b (m : ST S unit) c : sequentially m c -> sequentially (when b m) (cwhen b c).
Proof. by destruct b. Qed.
End sequential.

Create HintDb sequential.
#[export] Hint Resolve seq_ret seq_atomic : sequential.

(** [sequence] follows a handler and its call together. *)
Ltac sequence :=
  repeat first
    [ assumption | simple apply seq_ret | simple apply seq_atomic
    | simple apply seq_bind; [|intros ?]
    | simple apply seq_when
    | solve [auto 2 with sequential nocore]
    | match goal with
      | |- sequentially (match ?x with _ => _ end) _ => destruct x
      | |- sequentially (if ?x then _ else _) _ => destruct x
      end ].

(** ** Pools *)
Record pool (S A : Type) := { shared : S; calls : list (call S A) }.
Arguments Build_pool {S A} shared calls.
Arguments shared {S A} p.
Arguments calls {S A} p.

Section pools.
Context {S A : Type}.
Implicit Types (p : pool S A) (c : call S A).

(** The next action of the [i]-th call. *)
Definition move (i : nat) p : option (pool S A) :=
  match calls p !! i with
  | Some (Act e f k) =>
      if e (shared p) then
        Some {| shared := f (shared p); calls := <[i := k (shared p)]> (calls p) |}
      else None
  | _ => None
  end.

(** A schedule names the call that moves next. *)
Fixpoint schedule (js : list nat) p : option (pool S A) :=
  match js with
  | [] => Some p
  | i :: js => move i p ≫= schedule js
  end.

(** Calls move, calls come in, and the rest of the world changes the state. *)
Variable arrives : pool S A -> call S A -> Prop.
Variable elsewhere : relation S.

Inductive pstep : relation (pool S A) :=
  | p_move i p p' : move i p = Some p' -> pstep p p'
  | p_arrive c p :
      arrives p c -> pstep p {| shared := shared p; calls := calls p ++ [c] |}
  | p_elsewhere s' p :
      elsewhere (shared p) s' -> pstep p {| shared := s'; calls := calls p |}.

Definition preaches : relation (pool S A) := rtc pstep.

Lemma schedule_preaches js p p' : schedule js p = Some p' -> preaches p p'.
Proof.
  revert p. induction js as [|i js IH]; intros p; cbn; [by intros [= ->]|].
  destruct (move i p) as [p1|] eqn:Hm; [|done]. intros H%IH.
  by eapply rtc_l; [eapply p_move|].
Qed.

Lemma move_inv i p p' : move i p = Some p' ->
  exists e f k, calls p !! i = Some (Act e f k) /\ e (shared p) = true
    /\ p' = {| shared := f (shared p); calls := <[i := k (shared p)]> (calls p) |}.
Proof.
  unfold move. destruct (calls p !! i) as [[a|e f k]|]; [done| |done].
  destruct (e (shared p)) eqn:He; [|done]. intros [= <-]. by exists e, f, k.
Qed.

(** An invariant of pools, by cases on the step. *)
Lemma preaches_ind (I : pool S A -> Prop) p p' :
  I p -> (forall q q', I q -> pstep q q' -> I q') -> preaches p p' -> I p'.
Proof. intros Hp Hstep Hr. revert Hp. induction Hr as [|x y z Hxy _ IH]; [done|]. eauto. Qed.

Definition returned c : bool := match c with Ret _ => true | _ => false end.

(** Every call has returned. *)
Definition quiescent p : Prop := Forall (fun c => returned c = true) (calls p).
End pools.

(** ** Calls among others that do anything

    [G h s s'] is what an action from [s] to [s'] is allowed to be after the actions
    [h] of the same call, [Q h a] what its result is to be. *)
Section acts.
Context {S A : Type}.
Implicit Types (h : list (S * S)).

Fixpoint acts (G : list (S * S) -> relation S) (Q : list (S * S) -> A -> Prop) h
    (c : call S A) : Prop :=
  match c with
  | Ret a => Q h a
  | Act e f k => forall s, e s = true -> G h s (f s) /\ acts G Q (h ++ [(s, f s)]) (k s)
  end.
End acts.

Section acts_rules.
Context {S : Type}.
Implicit Types (h : list (S * S)).

Lemma acts_ret {A} G Q h (a : A) : Q h a -> acts G Q h (mret a).
Proof. done. Qed.

Lemma acts_bind {A B} G (P : list (S * S) -> A -> Prop) Q h (m : call S A) (f : A -> call S B) :
  acts G P h m -> (forall h' a, h `prefix_of` h' -> P h' a -> acts G Q h' (f a)) ->
  acts G Q h (m ≫= f).
Proof.
  revert h. induction m as [a|e g k IH]; intros h Hm Hf; [by apply Hf|].
  intros s He. destruct (Hm s He) as [Hg Hk]. split; [done|].
  apply IH; [done|]. intros h' a Hh. apply Hf. etransitivity; [|exact Hh].
  by apply prefix_app_r.
Qed.

Lemma acts_atomic {A} G Q h (m : ST S A) :
  (forall s, G h s (run_state m s) /\ Q (h ++ [(s, run_state m s)]) (run_value m s)) ->
  acts G Q h (atomic m).
Proof. intros H s _. apply H. Qed.

Lemma acts_mono {A} (G G' : list (S * S) -> relation S) (Q Q' : list (S * S) -> A -> Prop) h c :
  (forall h' s s', h `prefix_of` h' -> G h' s s' -> G' h' s s') ->
  (forall h' a, h `prefix_of` h' -> Q h' a -> Q' h' a) ->
  acts G Q h c -> acts G' Q' h c.
Proof.
  revert h. induction c as [a|e f k IH]; intros h HG HQ Hc; [by apply HQ|].
  intros s He. destruct (Hc s He) as [Hg Hk]. split; [by apply HG|].
  apply IH; [| |done]; intros h' *; intros Hh; [apply HG|apply HQ];
    (etransitivity; [by apply prefix_app_r|exact Hh]).
Qed.

Lemma acts_when G h b (c : call S unit) :
  acts G (fun _ _ => True) h c -> acts G (fun _ _ => True) h (cwhen b c).
Proof. by destruct b. Qed.

(** What [acts] says holds of the calls of a pool: each has a history of its own
    actions so far. *)
Lemma acts_move {A} G (Q : list (S * S) -> A -> Prop) h i (p p' : pool S A) c :
  calls p !! i = Some c -> acts G Q h c -> move i p = Some p' ->
  G h (shared p) (shared p')
  /\ exists c', calls p' = <[i := c']> (calls p) /\ acts G Q (h ++ [(shared p, shared p')]) c'.
Proof.
  intros Hi Hc (e & f & k & Hi' & He & ->)%move_inv. rewrite Hi in Hi'.
  injection Hi' as ->. destruct (Hc _ He) as [Hg Hk]. split; [done|]. by eexists.
Qed.
End acts_rules.

(** ** Calls among others that keep to a relation *)
Section rely.
Context {S A : Type}.

Fixpoint safe (R G : relation S) (Q : A -> S -> Prop) (c : call S A) (s : S) : Prop :=
  forall s', rtc R s s' ->
  match c with
  | Ret a => Q a s'
  | Act e f k => e s' = true -> G s' (f s') /\ safe R G Q (k s') (f s')
  end.

Lemma safe_rely R G Q c s s' : safe R G Q c s -> rtc R s s' -> safe R G Q c s'.
Proof.
  destruct c as [a|e f k]; cbn; intros H Hr s2 H2; apply H; by etransitivity.
Qed.

Lemma safe_post R G (Q Q' : A -> S -> Prop) c s :
  (forall a s, Q a s -> Q' a s) -> safe R G Q c s -> safe R G Q' c s.
Proof.
  intros HQ. revert s. induction c as [a|e f k IH]; intros s H s' Hr; [by apply HQ, H|].
  intros He. destruct (H s' Hr He) as [Hg Hk]. split; [done|]. by apply IH.
Qed.

(** Calls that guarantee what the others rely on stay safe together. *)
Theorem rely_guarantee (R G : nat -> relation S) (Q : nat -> A -> S -> Prop)
    (elsewhere : relation S) p p' :
  (forall i j, i <> j -> forall s s', G i s s' -> R j s s') ->
  (forall i s s', elsewhere s s' -> R i s s') ->
  (forall i c, calls p !! i = Some c -> safe (R i) (G i) (Q i) c (shared p)) ->
  preaches (fun _ _ => False) elsewhere p p' ->
  forall i c, calls p' !! i = Some c -> safe (R i) (G i) (Q i) c (shared p').
Proof.
  intros HG Helse Hp.
  refine (preaches_ind _ _ (fun p => forall i c, calls p !! i = Some c ->
    safe (R i) (G i) (Q i) c (shared p)) p p' Hp _). clear p p' Hp.
  intros p p' IH Hstep i c. destruct Hstep as [j p p' Hm|c' p []|s' p Hs].
  - apply move_inv in Hm as (e & f & k & Hj & He & ->). cbn [calls shared].
    destruct (IH _ _ Hj (shared p) (rtc_refl _ _) He) as [Hg Hk].
    destruct (decide (i = j)) as [->|Hne].
    + rewrite list_lookup_insert_eq by (by eapply lookup_lt_Some). by intros [= <-].
    + rewrite list_lookup_insert_ne by done. intros Hi. eapply safe_rely; [by apply IH|].
      apply rtc_once. by apply (HG j i).
  - cbn. intros Hi. eapply safe_rely; [by apply IH|]. apply rtc_once. by apply Helse.
Qed.
End rely.

(** ** Calls one after the other

    When a call only comes in after all others have returned, what a call with the
    answer [a] establishes by itself, [P (Some a)], holds whenever none is running
    and the last one has answered [a]. *)
Section serial.
Context {S A : Type}.
Variable P : option A -> S -> Prop.
Variable arrives : pool S A -> call S A -> Prop.
Variable elsewhere : relation S.
Hypothesis stable : forall o s s', P o s -> elsewhere s s' -> P o s'.
Hypothesis one_by_one : forall p c, arrives p c ->
  quiescent p
  /\ forall o s, P o s -> safe elsewhere (fun _ _ => True) (fun a => P (Some a)) c s.

(** What the last call answered, if there was one and it has. *)
Definition answer_of (c : call S A) : option A :=
  match c with Ret a => Some a | _ => None end.
Definition last_answer (p : pool S A) : option A := last (calls p) ≫= answer_of.

(** The last call is safe if it runs; if it does not, [P] holds of its answer. *)
Definition serial_inv (p : pool S A) : Prop :=
  (quiescent p /\ P (last_answer p) (shared p))
  \/ exists before c, calls p = before ++ [c]
       /\ Forall (fun c => returned c = true) before
       /\ safe elsewhere (fun _ _ => True) (fun a => P (Some a)) c (shared p).

Lemma serial_answered p : serial_inv p -> quiescent p -> P (last_answer p) (shared p).
Proof using Type.
  intros [[_ ?]|(before & c & Hc & _ & Hsafe)] Hq; [done|].
  unfold quiescent, last_answer in *. rewrite Hc in Hq |- *. rewrite last_snoc.
  apply Forall_app in Hq as [_ Hq%Forall_inv]. destruct c as [a|]; [|done].
  apply (Hsafe _ (rtc_refl _ _)).
Qed.

Lemma serial_step p p' : serial_inv p -> pstep arrives elsewhere p p' -> serial_inv p'.
Proof using All.
  intros Hinv Hstep. destruct Hstep as [j p p' Hm|c p Ha|s' p Hs].
  - apply move_inv in Hm as (e & f & k & Hj & He & ->).
    destruct Hinv as [[Hq _]|(before & c & Hc & Hbefore & Hsafe)].
    { eapply Forall_lookup_1 in Hq; [|exact Hj]. done. }
    rewrite Hc in Hj. apply lookup_app_Some in Hj as [Hj|[Hle Hj]].
    { eapply Forall_lookup_1 in Hbefore; [|exact Hj]. done. }
    apply list_lookup_singleton_Some in Hj as [Hj ->].
    destruct (Hsafe _ (rtc_refl _ _) He) as [_ Hk].
    right. exists before, (k (shared p)). cbn [calls shared]. split; [|done].
    rewrite Hc, insert_app_r_alt by done. by rewrite Hj.
  - pose proof (one_by_one _ _ Ha) as [Hq Hc].
    right. exists (calls p), c. split; [done|]. split; [exact Hq|].
    by apply (Hc _ _ (serial_answered _ Hinv Hq)).
  - destruct Hinv as [[Hq HP]|(before & c & Hc & Hbefore & Hsafe)].
    + left. split; [done|]. by eapply stable.
    + right. exists before, c. split; [done|]. split; [done|].
      eapply safe_rely; [exact Hsafe|]. by apply rtc_once.
Qed.

Lemma serial_quiescent p p' :
  quiescent p -> P (last_answer p) (shared p) -> preaches arrives elsewhere p p' ->
  quiescent p' -> P (last_answer p') (shared p').
Proof using All.
  intros Hq HP Hr. apply serial_answered.
  refine (preaches_ind _ _ serial_inv p p' _ serial_step Hr). by left.
Qed.
End serial.

(** ** Schedules built call by call *)
Section solo.
Context {S A : Type}.

(** The first [m] actions of a call, with nothing between them. *)
Fixpoint solo (m : nat) (c : call S A) (s : S) : option (call S A * S) :=
  match m with
  | O => Some (c, s)
  | Datatypes.S m =>
      match c with
      | Act e f k => if e s then solo m (k s) (f s) else None
      | Ret _ => None
      end
  end.

Lemma schedule_app js js' (p : pool S A) :
  schedule (js ++ js') p = schedule js p ≫= schedule js'.
Proof. revert p. induction js as [|j js IH]; intros p; cbn; [done|]. destruct (move j p); cbn; auto. Qed.

Lemma solo_schedule m c s c' s' (before after : list (call S A)) :
  solo m c s = Some (c', s') ->
  schedule (replicate m (length before)) {| shared := s; calls := before ++ c :: after |}
    = Some {| shared := s'; calls := before ++ c' :: after |}.
Proof.
  revert c s. induction m as [|m IH]; intros c s; cbn; [by intros [= <- <-]|].
  destruct c as [a|e f k]; [done|]. unfold move. cbn [calls shared].
  rewrite list_lookup_middle by done. destruct (e s); [|done]. cbn.
  rewrite <- (Nat.add_0_r (length before)), insert_app_r, Nat.add_0_r. cbn. apply IH.
Qed.

(** One call after the other does its share of actions. *)
Lemma run_each (P : S -> Prop) cs cs' :
  Forall2 (fun c c' => forall s, P s -> exists m s', solo m c s = Some (c', s') /\ P s') cs cs' ->
  forall before s, P s -> exists js s',
    schedule js {| shared := s; calls := before ++ cs |}
      = Some {| shared := s'; calls := before ++ cs' |} /\ P s'.
Proof.
  induction 1 as [|c c' cs cs' Hc _ IH]; intros before s HP.
  { exists [], s. by split. }
  destruct (Hc s HP) as (m & s1 & Hsolo & HP1).
  destruct (IH (before ++ [c']) s1 HP1) as (js & s2 & Hrun & HP2).
  exists (replicate m (length before) ++ js), s2. split; [|done].
  rewrite schedule_app, (solo_schedule _ _ _ _ _ _ _ Hsolo). cbn.
  by rewrite <- !app_assoc in Hrun.
Qed.
End solo.
