(* ===== verification/GoString.v ===== *)
(** * Go's [strings], [strconv] and [fmt] as far as the code uses them

    A Go string is its bytes.  [TrimSpace] removes exactly the bytes Go's
    removes, the non-ASCII white space included.  [EqualFold], [ToLower] and
    [ToUpper] fold the ASCII letters; bytes from 0x80 on are compared as they
    are (the simple case folding of non-ASCII letters is not modelled). *)
From S2P Require Import Prelude.
From Stdlib Require String.
From stdpp Require Import options.

Open Scope Z_scope.

(** ** Bytes *)
Definition byte_of (c : ascii) : Z := Z.of_N (N_of_ascii c).
Definition chr (n : Z) : ascii := ascii_of_N (Z.to_N n).
Definition in_range (lo hi : Z) (c : ascii) : bool :=
  (lo <=? byte_of c) && (byte_of c <=? hi).

Definition is_upper : ascii -> bool := in_range 65 90.
Definition is_lower : ascii -> bool := in_range 97 122.
Definition is_digit : ascii -> bool := in_range 48 57.
Definition lower (c : ascii) : ascii :=
  if is_upper c then chr (byte_of c + 32) else c.
Definition upper (c : ascii) : ascii :=
  if is_lower c then chr (byte_of c - 32) else c.

Definition dquote : ascii := chr 34.
Definition squote : ascii := chr 39.
Definition backslash : ascii := chr 92.
Definition newline : ascii := chr 10.
Definition str1 (c : ascii) : string := String c EmptyString.

Fixpoint string_map (f : ascii -> ascii) (s : string) : string :=
  match s with
  | EmptyString => EmptyString
  | String c s => String (f c) (string_map f s)
  end.

Definition ToLower : string -> string := string_map lower.
Definition ToUpper : string -> string := string_map upper.
Definition EqualFold (s t : string) : bool := String.eqb (ToLower s) (ToLower t).
Infix "=~" := EqualFold (at level 70, no associativity) : go_scope.

(** ** Prefixes, suffixes, substrings *)
Fixpoint HasPrefix (s p : string) : bool :=
  match p, s with
  | EmptyString, _ => true
  | String _ _, EmptyString => false
  | String a p, String b s => Ascii.eqb a b && HasPrefix s p
  end.

Fixpoint drop_bytes (n : nat) (s : string) : string :=
  match n, s with
  | O, _ => s
  | _, EmptyString => EmptyString
  | S n, String _ s => drop_bytes n s
  end.

Fixpoint rev_append (s acc : string) : string :=
  match s with
  | EmptyString => acc
  | String c s => rev_append s (String c acc)
  end.
Definition rev_string (s : string) : string := rev_append s EmptyString.

Definition TrimPrefix (s p : string) : string :=
  if HasPrefix s p then drop_bytes (String.length p) s else s.
Definition HasSuffix (s p : string) : bool :=
  HasPrefix (rev_string s) (rev_string p).
Definition TrimSuffix (s p : string) : string :=
  if HasSuffix s p then rev_string (drop_bytes (String.length p) (rev_string s))
  else s.

Fixpoint Contains (s sub : string) : bool :=
  HasPrefix s sub ||
  match s with
  | EmptyString => false
  | String _ s => Contains s sub
  end.

(** ** Trimming *)
Definition ascii_space (c : ascii) : bool :=
  in_range 9 13 c || (byte_of c =? 32).
(** U+0085 and U+00A0. *)
Definition space2 (a b : ascii) : bool :=
  (byte_of a =? 194) && ((byte_of b =? 133) || (byte_of b =? 160)).
(** U+1680, U+2000 to U+200A, U+2028, U+2029, U+202F, U+205F and U+3000. *)
Definition space3 (a b c : ascii) : bool :=
  ((byte_of a =? 225) && (byte_of b =? 154) && (byte_of c =? 128))
  || ((byte_of a =? 226) && (byte_of b =? 128) &&
      (in_range 128 138 c || (byte_of c =? 168) || (byte_of c =? 169)
       || (byte_of c =? 175)))
  || ((byte_of a =? 226) && (byte_of b =? 129) && (byte_of c =? 159))
  || ((byte_of a =? 227) && (byte_of b =? 128) && (byte_of c =? 128)).

Fixpoint trim_left (s : string) : string :=
  match s with
  | EmptyString => s
  | String a r =>
      if ascii_space a then trim_left r else
      match r with
      | String b r2 =>
          if space2 a b then trim_left r2 else
          match r2 with
          | String c r3 => if space3 a b c then trim_left r3 else s
          | EmptyString => s
          end
      | EmptyString => s
      end
  end.

(** The same on a reversed string: a white space rune's bytes come last first. *)
Fixpoint trim_left_rev (s : string) : string :=
  match s with
  | EmptyString => s
  | String a r =>
      if ascii_space a then trim_left_rev r else
      match r with
      | String b r2 =>
          if space2 b a then trim_left_rev r2 else
          match r2 with
          | String c r3 => if space3 c b a then trim_left_rev r3 else s
          | EmptyString => s
          end
      | EmptyString => s
      end
  end.

Definition TrimSpace (s : string) : string :=
  rev_string (trim_left_rev (rev_string (trim_left s))).

(** [strings.Trim(s, cutset)] for a cutset of one byte. *)
Fixpoint trim_left_byte (c : ascii) (s : string) : string :=
  match s with
  | String a r => if Ascii.eqb a c then trim_left_byte c r else s
  | EmptyString => s
  end.
Definition Trim (s : string) (c : ascii) : string :=
  rev_string (trim_left_byte c (rev_string (trim_left_byte c s))).

(** ** Splitting and joining, for separators of one byte *)
Fixpoint Split (s : string) (sep : ascii) : list string :=
  match s with
  | EmptyString => [EmptyString]
  | String c r =>
      if Ascii.eqb c sep then EmptyString :: Split r sep
      else match Split r sep with
           | w :: ws => String c w :: ws
           | [] => [String c EmptyString]
           end
  end.

(** [strings.SplitN(s, sep, 2)]: the part before the first separator, and the
    rest when there is one. *)
Fixpoint SplitN2 (s : string) (sep : ascii) : string * option string :=
  match s with
  | EmptyString => (EmptyString, None)
  | String c r =>
      if Ascii.eqb c sep then (EmptyString, Some r)
      else let (a, b) := SplitN2 r sep in (String c a, b)
  end.

Fixpoint Join (parts : list string) (sep : string) : string :=
  match parts with
  | [] => EmptyString
  | [p] => p
  | p :: ps => p +:+ sep +:+ Join ps sep
  end.

(** [strings.ReplaceAll(s, old, new)] for an [old] of one byte. *)
Fixpoint ReplaceAll (s : string) (old : ascii) (new : string) : string :=
  match s with
  | EmptyString => EmptyString
  | String c r =>
      if Ascii.eqb c old then new +:+ ReplaceAll r old new
      else String c (ReplaceAll r old new)
  end.

(** ** Code points

    The width of the UTF-8 sequence at the head of a string that starts with
    byte [a]: 1 for an invalid one, as [utf8.DecodeRune] has it. *)
Definition cont (c : ascii) : bool := in_range 128 191 c.
Definition rune_width (a : ascii) (rest : string) : nat :=
  match rest with
  | String b r =>
      if in_range 194 223 a && cont b then 2%nat
      else
        match r with
        | String c r =>
            if cont c
               && ((byte_of a =? 224) && in_range 160 191 b
                   || ((in_range 225 236 a || in_range 238 239 a) && cont b)
                   || (byte_of a =? 237) && in_range 128 159 b) then 3%nat
            else
              match r with
              | String d _ =>
                  if cont c && cont d
                     && ((byte_of a =? 240) && in_range 144 191 b
                         || (in_range 241 243 a && cont b)
                         || (byte_of a =? 244) && in_range 128 143 b) then 4%nat
                  else 1%nat
              | EmptyString => 1%nat
              end
        | EmptyString => 1%nat
        end
  | EmptyString => 1%nat
  end.

(** [%d] and [strconv.FormatInt(v, 10)]. *)
Definition itoa (z : Z) : string := pretty z.

(** [%x] of an int64. *)
Definition hex_char (d : Z) : ascii := if d <? 10 then chr (48 + d) else chr (87 + d).
Fixpoint hex_digits (fuel : nat) (n : Z) (acc : string) : string :=
  match fuel with
  | O => acc
  | S fuel =>
      let acc := String (hex_char (n mod 16)) acc in
      if n <? 16 then acc else hex_digits fuel (n / 16) acc
  end.
Definition itoa_hex (z : Z) : string :=
  if z <? 0 then String "-" (hex_digits 16 (- z) EmptyString) else hex_digits 16 z EmptyString.

(** [%t]. *)
Definition fmt_bool (b : bool) : string := if b then "true" else "false".

(** ** Lemmas *)
Lemma append_nil_l s : EmptyString +:+ s = s.
Proof. done. Qed.

Lemma append_cons c s t : String c s +:+ t = String c (s +:+ t).
Proof. done. Qed.

Lemma append_nil_r s : s +:+ EmptyString = s.
Proof. induction s as [|c s IH]; [done|]. by rewrite append_cons, IH. Qed.

Lemma append_assoc s t u : (s +:+ t) +:+ u = s +:+ (t +:+ u).
Proof. induction s as [|c s IH]; [done|]. by rewrite !append_cons, IH. Qed.

Lemma append_inj_l s t u : s +:+ t = s +:+ u -> t = u.
Proof. induction s as [|c s IH]; [done|]. rewrite !append_cons. naive_solver. Qed.

Create Rewrite HintDb gostr.
#[export] Hint Rewrite append_nil_l append_cons append_nil_r append_assoc : gostr.

Fixpoint has_byte (c : ascii) (s : string) : bool :=
  match s with
  | EmptyString => false
  | String a r => Ascii.eqb a c || has_byte c r
  end.

Lemma has_byte_append c s t : has_byte c (s +:+ t) = has_byte c s || has_byte c t.
Proof.
  induction s as [|a s IH]; [done|]. rewrite append_cons. simpl.
  by rewrite IH, orb_assoc.
Qed.

Lemma HasPrefix_append p s : HasPrefix (p +:+ s) p = true.
Proof.
  induction p as [|c p IH]; [by destruct s|]. rewrite append_cons. simpl.
  by rewrite Ascii.eqb_refl.
Qed.

Lemma HasPrefix_true s p : HasPrefix s p = true <-> exists r, s = p +:+ r.
Proof.
  split; [|intros [r ->]; apply HasPrefix_append].
  revert s. induction p as [|a p IH]; intros s; [by exists s|].
  destruct s as [|b s]; [done|]. simpl. intros [Hab Hp]%andb_true_iff.
  apply Ascii.eqb_eq in Hab as ->. destruct (IH s Hp) as [r ->].
  exists r. done.
Qed.

Lemma Contains_byte s c : Contains s (str1 c) = has_byte c s.
Proof.
  induction s as [|a s IH]; [done|]. simpl.
  rewrite <- IH. destruct (Ascii.eqb_spec c a) as [->|Hne].
  - rewrite Ascii.eqb_refl. by destruct s.
  - destruct (Ascii.eqb_spec a c) as [->|_]; [done|]. done.
Qed.

Lemma ReplaceAll_absent s old new :
  has_byte old s = false -> ReplaceAll s old new = s.
Proof.
  induction s as [|a s IH]; [done|]. simpl. intros [-> H]%orb_false_iff.
  by rewrite IH.
Qed.

(** *** Case folding *)
Lemma EqualFold_refl s : EqualFold s s = true.
Proof. apply String.eqb_refl. Qed.

Lemma EqualFold_sym s t : EqualFold s t = EqualFold t s.
Proof. apply String.eqb_sym. Qed.

Lemma EqualFold_true s t : EqualFold s t = true <-> ToLower s = ToLower t.
Proof. apply String.eqb_eq. Qed.

Lemma EqualFold_trans s t u :
  EqualFold s t = true -> EqualFold t u = true -> EqualFold s u = true.
Proof. rewrite !EqualFold_true. congruence. Qed.

(** *** ASCII *)
Fixpoint all_ascii (s : string) : bool :=
  match s with
  | EmptyString => true
  | String c r => (byte_of c <? 128) && all_ascii r
  end.

Lemma all_ascii_append s t : all_ascii (s +:+ t) = all_ascii s && all_ascii t.
Proof.
  induction s as [|c s IH]; [done|]. rewrite append_cons. cbn [all_ascii].
  by rewrite IH, andb_assoc.
Qed.

(** *** Splitting *)
Lemma Split_not_nil s sep : Split s sep <> [].
Proof. destruct s; simpl; [done|]. by repeat case_match. Qed.

Lemma Join_cons p ps sep : ps <> [] -> Join (p :: ps) sep = p +:+ sep +:+ Join ps sep.
Proof. by destruct ps. Qed.

(** [strings.Join(strings.Split(s, sep), sep)] is [s]. *)
Lemma Join_Split s sep : Join (Split s sep) (str1 sep) = s.
Proof.
  induction s as [|c s IH]; [done|]. simpl.
  destruct (Ascii.eqb_spec c sep) as [->|_].
  - rewrite Join_cons by apply Split_not_nil. by rewrite IH.
  - pose proof (Split_not_nil s sep) as Hne.
    destruct (Split s sep) as [|w ws]; [done|]. subst s.
    destruct ws as [|w' ws]; [done|]. simpl. by rewrite append_cons.
Qed.

Lemma Split_no_sep s sep w : w ∈ Split s sep -> has_byte sep w = false.
Proof.
  revert w. induction s as [|c s IH]; intros w; simpl.
  - by intros ->%list_elem_of_singleton.
  - destruct (Ascii.eqb_spec c sep) as [->|Hne].
    + intros [->|Hw]%elem_of_cons; [done|]. by apply IH.
    + destruct (Split s sep) as [|v vs].
      * intros ->%list_elem_of_singleton. simpl.
        destruct (Ascii.eqb_spec c sep); done.
      * intros [->|Hw]%elem_of_cons; [|apply IH; by right].
        simpl. destruct (Ascii.eqb_spec c sep); [done|]. simpl.
        apply IH. by left.
Qed.

Lemma Split_cons s sep t :
  has_byte sep s = false -> Split (s +:+ String sep t) sep = s :: Split t sep.
Proof.
  induction s as [|c s IH]; intros Hs.
  - change (EmptyString +:+ String sep t) with (String sep t). cbn [Split].
    by rewrite Ascii.eqb_refl.
  - cbn [has_byte] in Hs. apply orb_false_iff in Hs as [Hc Hs].
    rewrite append_cons. cbn [Split]. by rewrite Hc, IH.
Qed.

Lemma Split_absent s sep : has_byte sep s = false -> Split s sep = [s].
Proof.
  induction s as [|c s IH]; [done|]. cbn [has_byte]. intros [Hc Hs]%orb_false_iff.
  cbn [Split]. by rewrite Hc, IH.
Qed.

Lemma SplitN2_join a b sep :
  has_byte sep a = false ->
  SplitN2 (a +:+ str1 sep +:+ b) sep = (a, Some b).
Proof.
  induction a as [|c a IH]; intros Ha.
  - change (EmptyString +:+ str1 sep +:+ b) with (String sep b).
    simpl. by rewrite Ascii.eqb_refl.
  - simpl in Ha. apply orb_false_iff in Ha as [Hc Ha].
    rewrite append_cons. simpl. by rewrite Hc, (IH Ha).
Qed.

Lemma SplitN2_absent a sep : has_byte sep a = false -> SplitN2 a sep = (a, None).
Proof.
  induction a as [|c a IH]; [done|]. simpl. intros [-> Ha]%orb_false_iff.
  by rewrite IH.
Qed.

Lemma Join_has_sep c p q ps : has_byte c (Join (p :: q :: ps) (str1 c)) = true.
Proof.
  rewrite Join_cons by done. rewrite !has_byte_append. simpl.
  rewrite Ascii.eqb_refl. simpl. by rewrite orb_true_r.
Qed.

(** *** Reversal and trimming *)
Lemma rev_append_spec s acc : rev_append s acc = rev_string s +:+ acc.
Proof.
  unfold rev_string. revert acc.
  induction s as [|c s IH]; intros acc; [done|]. simpl.
  rewrite IH, (IH (String c EmptyString)), append_assoc. done.
Qed.

Lemma rev_string_cons c s : rev_string (String c s) = rev_string s +:+ str1 c.
Proof. unfold rev_string at 1. simpl. apply rev_append_spec. Qed.

Lemma rev_string_append s t : rev_string (s +:+ t) = rev_string t +:+ rev_string s.
Proof.
  induction s as [|c s IH]; [by rewrite append_nil_r|].
  by rewrite append_cons, !rev_string_cons, IH, append_assoc.
Qed.

Lemma rev_string_involutive s : rev_string (rev_string s) = s.
Proof.
  induction s as [|c s IH]; [done|].
  rewrite rev_string_cons, rev_string_append, IH. done.
Qed.

Lemma HasSuffix_true s p : HasSuffix s p = true <-> exists r, s = r +:+ p.
Proof.
  unfold HasSuffix. rewrite HasPrefix_true. split; intros [r Hr].
  - exists (rev_string r).
    by rewrite <- (rev_string_involutive s), Hr, rev_string_append,
      rev_string_involutive.
  - exists (rev_string r). by rewrite Hr, rev_string_append.
Qed.

Lemma TrimSuffix_append r p : TrimSuffix (r +:+ p) p = r.
Proof.
  unfold TrimSuffix.
  assert (HasSuffix (r +:+ p) p = true) as ->
    by (apply HasSuffix_true; by exists r).
  rewrite rev_string_append.
  assert (forall q s, drop_bytes (String.length q) (q +:+ s) = s) as Hdrop.
  { intros q s. induction q as [|c q IH]; [by destruct s|]. done. }
  assert (String.length p = String.length (rev_string p)) as ->.
  { clear. induction p as [|c p IH]; [done|].
    rewrite rev_string_cons. simpl. rewrite IH.
    assert (forall s, String.length (s +:+ str1 c) = S (String.length s)) as ->; [|done].
    intros s. induction s as [|a s IHs]; [done|]. rewrite append_cons. simpl. by rewrite IHs. }
  by rewrite Hdrop, rev_string_involutive.
Qed.

Lemma TrimPrefix_append p s : TrimPrefix (p +:+ s) p = s.
Proof.
  unfold TrimPrefix. rewrite HasPrefix_append.
  induction p as [|c p IH]; [by destruct s|]. done.
Qed.

Lemma TrimSpace_empty : TrimSpace EmptyString = EmptyString.
Proof. done. Qed.
