(* ===== verification/GoTime.v ===== *)
(** * Go's [time] as far as the code uses it

    A [time.Time] is an instant in nanoseconds since the Unix epoch, in UTC;
    a [time.Duration] is an [int64] of nanoseconds, so the product with
    [time.Second] wraps and [Time.Sub] saturates.  Formatting and parsing
    follow the layouts the code passes: RFC3339, RFC3339Nano and
    2006-01-02T15:04:05.999999-07:00. *)
From S2P Require Import Prelude GoString.
From Stdlib Require String.
From stdpp Require Import options.

Open Scope Z_scope.

Abbreviation time := Z (only parsing).
Abbreviation duration := Z (only parsing).

Definition Second : duration := 1000000000.
(** The zero [time.Time], January 1 of year 1. *)
Definition zero_time : time := - 62135596800 * Second.

(** [time.Duration(n) * time.Second]. *)
Definition seconds (n : Z) : duration := wrap64 (n * Second).
Definition Sub (a b : time) : duration := sat64 (a - b).
Definition Add (a : time) (d : duration) : time := a + d.
Definition After (a b : time) : bool := b <? a.
Definition Before (a b : time) : bool := a <? b.

(** ** The proleptic Gregorian calendar *)
Definition is_leap (y : Z) : bool :=
  (y mod 4 =? 0) && (negb (y mod 100 =? 0) || (y mod 400 =? 0)).

Definition days_in (m y : Z) : Z :=
  if m =? 2 then (if is_leap y then 29 else 28)
  else if (m =? 4) || (m =? 6) || (m =? 9) || (m =? 11) then 30 else 31.

Definition days_from_civil (y m d : Z) : Z :=
  let y := if m <=? 2 then y - 1 else y in
  let era := y / 400 in
  let yoe := y mod 400 in
  let mp := if 2 <? m then m - 3 else m + 9 in
  let doy := (153 * mp + 2) / 5 + d - 1 in
  era * 146097 + (yoe * 365 + yoe / 4 - yoe / 100 + doy) - 719468.

(** Year of the 400-year era, month and day of a day of that era; the era's
    years start in March. *)
Definition civil_of_doe (doe : Z) : Z * Z * Z :=
  let yoe := (doe - doe / 1460 + doe / 36524 - doe / 146096) / 365 in
  let doy := doe - (365 * yoe + yoe / 4 - yoe / 100) in
  let mp := (5 * doy + 2) / 153 in
  let d := doy - (153 * mp + 2) / 5 + 1 in
  let m := if mp <? 10 then mp + 3 else mp - 9 in
  (yoe, m, d).

Definition civil_from_days (z : Z) : Z * Z * Z :=
  let z := z + 719468 in
  let '(yoe, m, d) := civil_of_doe (z mod 146097) in
  (yoe + 400 * (z / 146097) + (if m <=? 2 then 1 else 0), m, d).

(** ** Digits *)
Definition digit_char (d : Z) : ascii := chr (48 + d).
Definition digit_val (c : ascii) : Z := byte_of c - 48.

Fixpoint digits_fixed (w : nat) (n : Z) : string :=
  match w with
  | O => EmptyString
  | S w => String (digit_char (n / 10 ^ Z.of_nat w))
                  (digits_fixed w (n mod 10 ^ Z.of_nat w))
  end.

(** A fraction of [k] digits without its trailing zeros. *)
Fixpoint frac_digits (k : nat) (n : Z) : string :=
  match k with
  | O => EmptyString
  | S k' => if n mod 10 =? 0 then frac_digits k' (n / 10) else digits_fixed k n
  end.

(** A year has at least four digits. *)
Definition fmt_year (y : Z) : string :=
  if (0 <=? y) && (y <=? 9999) then digits_fixed 4 y
  else if 0 <=? y then itoa y
  else str1 "-"%char +:+
       (if - y <=? 9999 then digits_fixed 4 (- y) else itoa (- y)).

Definition fmt_date_time (t : time) : string :=
  let s := t / Second in
  let '(y, m, d) := civil_from_days (s / 86400) in
  let sod := s mod 86400 in
  fmt_year y +:+ "-" +:+ digits_fixed 2 m +:+ "-" +:+ digits_fixed 2 d
  +:+ "T" +:+ digits_fixed 2 (sod / 3600) +:+ ":"
  +:+ digits_fixed 2 (sod / 60 mod 60) +:+ ":" +:+ digits_fixed 2 (sod mod 60).

(** [t.UTC().Format(time.RFC3339)]. *)
Definition Format_RFC3339 (t : time) : string := fmt_date_time t +:+ "Z".

(** [t.UTC().Format(time.RFC3339Nano)]. *)
Definition Format_RFC3339Nano (t : time) : string :=
  let f := frac_digits 9 (t mod Second) in
  fmt_date_time t +:+ (if String.eqb f EmptyString then f else "." +:+ f) +:+ "Z".

(** [t.UTC().Format("20060102T150405.000000000")]. *)
Definition Format_compact_nano (t : time) : string :=
  let s := t / Second in
  let '(y, m, d) := civil_from_days (s / 86400) in
  let sod := s mod 86400 in
  fmt_year y +:+ digits_fixed 2 m +:+ digits_fixed 2 d
  +:+ "T" +:+ digits_fixed 2 (sod / 3600) +:+ digits_fixed 2 (sod / 60 mod 60)
  +:+ digits_fixed 2 (sod mod 60) +:+ "." +:+ digits_fixed 9 (t mod Second).

(** ** Durations as text *)
Definition frac_part (k : nat) (n : Z) : string :=
  let f := frac_digits k n in if String.eqb f EmptyString then f else "." +:+ f.

(** [Duration.String()]; the micro sign is U+00B5. *)
Definition fmt_duration (d : duration) : string :=
  if d =? 0 then "0s"
  else
    let u := Z.abs d in
    (if d <? 0 then "-" else "") +:+
    (if u <? 1000 then itoa u +:+ "ns"
     else if u <? 1000000 then itoa (u / 1000) +:+ frac_part 3 (u mod 1000) +:+ "µs"
     else if u <? Second then itoa (u / 1000000) +:+ frac_part 6 (u mod 1000000) +:+ "ms"
     else
       let s := u / Second in
       (if 3600 <=? s then itoa (s / 3600) +:+ "h" +:+ itoa (s / 60 mod 60) +:+ "m"
        else if 60 <=? s then itoa (s / 60) +:+ "m" else "")
       +:+ itoa (s mod 60) +:+ frac_part 9 (u mod Second) +:+ "s").

(** [d.Round(m)] for [0 < m], half away from zero, saturating. *)
Definition Round (d m : duration) : duration :=
  let r := Z.rem d m in
  if d <? 0 then (if (- r) + (- r) <? m then d - r else sat64 (d - r - m))
  else (if r + r <? m then d - r else sat64 (d - r + m)).

Example fmt_duration_hour : fmt_duration (Round (3661499999999) Second) = "1h1m1s".
Proof. reflexivity. Qed.

(** ** Parsing *)
Definition skip (c : ascii) (s : string) : option string :=
  match s with
  | String a r => if Ascii.eqb a c then Some r else None
  | EmptyString => None
  end.

(** [getnum]: one or two digits, exactly two when [fixed]. *)
Definition getnum (fixed : bool) (s : string) : option (Z * string) :=
  match s with
  | String a r =>
      if is_digit a then
        match r with
        | String b r2 =>
            if is_digit b then Some (digit_val a * 10 + digit_val b, r2)
            else if fixed then None else Some (digit_val a, r)
        | EmptyString => if fixed then None else Some (digit_val a, r)
        end
      else None
  | EmptyString => None
  end.

Definition get_year (s : string) : option (Z * string) :=
  match s with
  | String a (String b (String c (String d r))) =>
      if is_digit a && is_digit b && is_digit c && is_digit d then
        Some (((digit_val a * 10 + digit_val b) * 10 + digit_val c) * 10
              + digit_val d, r)
      else None
  | _ => None
  end.

(** The digits a fraction starts with, at most [k] of them counted into the
    value, and how many were counted. *)
Fixpoint get_frac (k : nat) (acc : Z) (s : string) : Z * nat * string :=
  match s with
  | String a r =>
      if is_digit a then
        match k with
        | S k => get_frac k (acc * 10 + digit_val a) r
        | O => get_frac O acc r
        end
      else (acc, k, s)
  | EmptyString => (acc, k, s)
  end.

(** The optional fraction of a second, in nanoseconds. *)
Definition get_nanos (s : string) : Z * string :=
  match s with
  | String a (String b _ as r) =>
      if (Ascii.eqb a "."%char || Ascii.eqb a ","%char) && is_digit b then
        let '(v, unread, r) := get_frac 9 0 r in (v * 10 ^ Z.of_nat unread, r)
      else (0, s)
  | _ => (0, s)
  end.

(** The zone: [Z] when the layout allows it, or a signed offset. *)
Definition get_offset (s : string) : option Z :=
  match s with
  | String sign r =>
      '(hh, r) ← getnum true r;
      r ← skip ":"%char r;
      '(mm, r) ← getnum true r;
      if negb (String.eqb r EmptyString) || (24 <? hh) || (60 <? mm) then None
      else if Ascii.eqb sign "+"%char then Some ((hh * 60 + mm) * 60)
      else if Ascii.eqb sign "-"%char then Some (- ((hh * 60 + mm) * 60))
      else None
  | EmptyString => None
  end.

Definition get_zone (allowZ : bool) (s : string) : option Z :=
  if allowZ && String.eqb s "Z" then Some 0 else get_offset s.

Definition parse_layout (allowZ : bool) (s : string) : option time :=
  '(y, s) ← get_year s; s ← skip "-"%char s;
  '(mo, s) ← getnum true s; s ← skip "-"%char s;
  '(d, s) ← getnum true s; s ← skip "T"%char s;
  '(h, s) ← getnum false s; s ← skip ":"%char s;
  '(mi, s) ← getnum true s; s ← skip ":"%char s;
  '(sec, s) ← getnum true s;
  let (ns, s) := get_nanos s in
  off ← get_zone allowZ s;
  if (mo <? 1) || (12 <? mo) || (d <? 1) || (days_in mo y <? d)
     || (23 <? h) || (59 <? mi) || (59 <? sec) then None
  else Some ((days_from_civil y mo d * 86400 + h * 3600 + mi * 60 + sec - off)
             * Second + ns).

(** [time.Parse] with the layouts time.RFC3339 and time.RFC3339Nano, which
    accept the same texts: a fraction is optional for both. *)
Definition Parse_RFC3339 : string -> option time := parse_layout true.
(** [time.Parse] with the layout 2006-01-02T15:04:05.999999-07:00. *)
Definition Parse_micro_offset : string -> option time := parse_layout false.

(** ** Lemmas: the calendar *)
Fixpoint all_from (n : nat) (z : Z) (f : Z -> bool) : bool :=
  match n with O => true | S n => f z && all_from n (z + 1) f end.

Lemma all_from_spec n z f :
  all_from n z f = true -> forall k, z <= k < z + Z.of_nat n -> f k = true.
Proof.
  revert z. induction n as [|n IH]; intros z H k Hk; [lia|].
  simpl in H. apply andb_true_iff in H as [H1 H2].
  destruct (decide (k = z)) as [->|]; [done|].
  apply (IH (z + 1)); [done|lia].
Qed.

Definition yoe_of (doe : Z) : Z :=
  (doe - doe / 1460 + doe / 36524 - doe / 146096) / 365.
Definition year_start (yoe : Z) : Z := 365 * yoe + yoe / 4 - yoe / 100.

Lemma yoe_range doe : 0 <= doe < 146097 -> 0 <= yoe_of doe < 400.
Proof. unfold yoe_of. intros. Z.div_mod_to_equations; lia. Qed.

Lemma doy_range doe :
  0 <= doe < 146097 -> 0 <= doe - year_start (yoe_of doe) < 366.
Proof. unfold yoe_of, year_start. intros. Z.div_mod_to_equations; lia. Qed.

Lemma doy_leap doe e :
  0 <= doe < 146097 -> doe - year_start (yoe_of doe) = 365 ->
  is_leap (yoe_of doe + 400 * e + 1) = true.
Proof.
  unfold yoe_of, year_start, is_leap. intros.
  rewrite andb_true_iff, orb_true_iff, negb_true_iff, Z.eqb_neq, !Z.eqb_eq.
  Z.div_mod_to_equations; lia.
Qed.

Definition month_day (doy : Z) : Z * Z :=
  let mp := (5 * doy + 2) / 153 in
  (if mp <? 10 then mp + 3 else mp - 9, doy - (153 * mp + 2) / 5 + 1).

(** What every day of a year satisfies; February 29 is the year's last day. *)
Definition month_day_ok (doy : Z) : bool :=
  let (m, d) := month_day doy in
  let mp := if 2 <? m then m - 3 else m + 9 in
  (1 <=? m) && (m <=? 12) && (1 <=? d)
  && ((153 * mp + 2) / 5 + d - 1 =? doy)
  && (if m =? 2 then (d <=? 28) || ((d =? 29) && (doy =? 365))
      else d <=? days_in m 1).

Lemma month_day_all doy : 0 <= doy < 366 -> month_day_ok doy = true.
Proof.
  assert (all_from 366 0 month_day_ok = true) as H by (vm_compute; done).
  apply (all_from_spec _ _ _ H).
Qed.

Lemma civil_from_days_spec z :
  let '(y, m, d) := civil_from_days z in
  days_from_civil y m d = z /\ 1 <= m <= 12 /\ 1 <= d <= days_in m y.
Proof.
  unfold civil_from_days, civil_of_doe.
  set (w := z + 719468). set (doe := w mod 146097). set (e := w / 146097).
  assert (0 <= doe < 146097) as Hdoe by (apply Z.mod_pos_bound; lia).
  assert (w = 146097 * e + doe) as Hw by (apply Z.div_mod; lia).
  fold (yoe_of doe). fold (year_start (yoe_of doe)).
  pose proof (yoe_range doe Hdoe) as Hyoe. pose proof (doy_range doe Hdoe) as Hdoy.
  pose proof (doy_leap doe e Hdoe) as Hleap.
  set (doy := doe - year_start (yoe_of doe)) in *.
  pose proof (month_day_all doy Hdoy) as Hmd.
  unfold month_day_ok, month_day in Hmd. cbv beta zeta.
  set (m := if _ <? 10 then _ else _) in *. set (d := doy - _ + 1) in *.
  rewrite !andb_true_iff, !Z.leb_le, Z.eqb_eq in Hmd.
  destruct Hmd as ((((Hm1 & Hm2) & Hd1) & Hdoy') & Hd2).
  split; [|split; [lia|split; [lia|]]].
  - unfold days_from_civil.
    replace (if m <=? 2 then _ - 1 else _) with (yoe_of doe + e * 400)
      by (destruct (m <=? 2); lia).
    rewrite Z.div_add, Z.mod_add by lia.
    rewrite Z.div_small, Z.mod_small by lia.
    unfold year_start in doy. lia.
  - unfold days_in in *. destruct (Z.eqb_spec m 2) as [Hm|Hm].
    + rewrite Hm at 1. simpl. rewrite orb_true_iff, andb_true_iff, !Z.eqb_eq, Z.leb_le in Hd2.
      destruct Hd2 as [?|[? ?]]; [destruct (is_leap _); lia|].
      rewrite Hleap by done. lia.
    + apply Z.leb_le in Hd2. lia.
Qed.

Lemma civil_year_range z :
  0 <= z <= 2932896 -> 0 <= (civil_from_days z).1.1 <= 9999.
Proof.
  intros Hz. unfold civil_from_days, civil_of_doe.
  set (w := z + 719468). assert (w = z + 719468) as Hz' by done.
  assert (0 <= w mod 146097 < 146097) as Hdoe by (apply Z.mod_pos_bound; lia).
  assert (w = 146097 * (w / 146097) + w mod 146097) as Hw by (apply Z.div_mod; lia).
  set (doe := w mod 146097) in *. set (e := w / 146097) in *.
  fold (yoe_of doe). fold (year_start (yoe_of doe)).
  pose proof (yoe_range doe Hdoe) as Hyoe. pose proof (doy_range doe Hdoe) as Hdoy.
  cbv beta zeta. simpl.
  set (doy := doe - year_start (yoe_of doe)) in *.
  assert (4 <= e <= 24) as He by lia.
  destruct (decide (e = 24 /\ yoe_of doe = 399)) as [[-> H399]|Hn].
  - unfold year_start in doy. rewrite H399 in *.
    assert (doy <= 305).
    { unfold doy. rewrite H399. change (399 / 4) with 99.
      change (399 / 100) with 3. lia. }
    assert ((5 * doy + 2) / 153 < 10) by (apply Z.div_lt_upper_bound; lia).
    assert (0 <= (5 * doy + 2) / 153) by (apply Z.div_pos; lia).
    destruct (Z.ltb_spec ((5 * doy + 2) / 153) 10); [|lia].
    destruct (Z.leb_spec ((5 * doy + 2) / 153 + 3) 2); lia.
  - match goal with |- context [if ?b then 1 else 0] => destruct b end; lia.
Qed.

(** ** Lemmas: digits *)
Lemma byte_of_chr n : 0 <= n < 256 -> byte_of (chr n) = n.
Proof.
  intros Hn. unfold byte_of, chr. rewrite N_ascii_embedding by lia. lia.
Qed.

Lemma is_digit_char d : 0 <= d < 10 -> is_digit (digit_char d) = true.
Proof.
  intros Hd. unfold is_digit, in_range, digit_char.
  rewrite byte_of_chr, andb_true_iff, !Z.leb_le by lia. lia.
Qed.

Lemma digit_val_char d : 0 <= d < 10 -> digit_val (digit_char d) = d.
Proof. intros Hd. unfold digit_val, digit_char. rewrite byte_of_chr; lia. Qed.

Lemma digits_2 n :
  0 <= n < 100 ->
  digits_fixed 2 n = String (digit_char (n / 10)) (str1 (digit_char (n mod 10))).
Proof. intros. simpl. by rewrite Z.div_1_r. Qed.

Lemma getnum_digits fixed n r :
  0 <= n < 100 -> getnum fixed (digits_fixed 2 n +:+ r) = Some (n, r).
Proof.
  intros Hn. rewrite digits_2 by done. unfold str1. rewrite !append_cons. simpl.
  assert (0 <= n / 10 < 10) by (Z.div_mod_to_equations; lia).
  assert (0 <= n mod 10 < 10) by (Z.div_mod_to_equations; lia).
  rewrite !is_digit_char, !digit_val_char by done. repeat f_equal.
  Z.div_mod_to_equations; lia.
Qed.

Lemma get_year_digits y r :
  0 <= y <= 9999 -> get_year (digits_fixed 4 y +:+ r) = Some (y, r).
Proof.
  intros Hy. cbn [digits_fixed].
  change (10 ^ Z.of_nat 3) with 1000. change (10 ^ Z.of_nat 2) with 100.
  change (10 ^ Z.of_nat 1) with 10. change (10 ^ Z.of_nat 0) with 1.
  rewrite !append_cons. simpl.
  assert (0 <= y / 1000 < 10) by (Z.div_mod_to_equations; lia).
  assert (0 <= (y mod 1000) / 100 < 10) by (Z.div_mod_to_equations; lia).
  assert (0 <= ((y mod 1000) mod 100) / 10 < 10) by (Z.div_mod_to_equations; lia).
  assert (0 <= (((y mod 1000) mod 100) mod 10) / 1 < 10)
    by (Z.div_mod_to_equations; lia).
  rewrite !is_digit_char, !digit_val_char by done. simpl. repeat f_equal.
  Z.div_mod_to_equations; lia.
Qed.

Lemma digits_fixed_head w n :
  0 <= n < 10 ^ Z.of_nat (S w) ->
  0 <= n / 10 ^ Z.of_nat w < 10 /\ 0 <= n mod 10 ^ Z.of_nat w < 10 ^ Z.of_nat w.
Proof.
  intros Hn. rewrite Nat2Z.inj_succ, Z.pow_succ_r in Hn by lia.
  assert (0 < 10 ^ Z.of_nat w) by (apply Z.pow_pos_nonneg; lia).
  split; [|by apply Z.mod_pos_bound].
  split; [apply Z.div_pos; lia|apply Z.div_lt_upper_bound; lia].
Qed.

(** Reading back [w] digits, when [k] of them are still counted. *)
Lemma get_frac_digits w k acc n r :
  (w <= k)%nat -> 0 <= n < 10 ^ Z.of_nat w ->
  (forall a s, r = String a s -> is_digit a = false) ->
  get_frac k acc (digits_fixed w n +:+ r)
  = (acc * 10 ^ Z.of_nat w + n, (k - w)%nat, r).
Proof.
  revert k acc n. induction w as [|w IH]; intros k acc n Hw Hn Hr.
  - replace (k - 0)%nat with k by lia. change (10 ^ Z.of_nat 0) with 1 in *.
    replace n with 0 by lia. rewrite Z.mul_1_r, Z.add_0_r. simpl.
    rewrite append_nil_l. destruct r as [|a s]; [by destruct k|].
    destruct k; simpl; by rewrite (Hr a s).
  - destruct k as [|k]; [lia|].
    destruct (digits_fixed_head w n Hn) as [Hq Hm].
    simpl. rewrite is_digit_char by done.
    rewrite IH by (done || lia). rewrite digit_val_char by done.
    rewrite Nat2Z.inj_succ, Z.pow_succ_r by lia. do 2 f_equal.
    pose proof (Z.div_mod n (10 ^ Z.of_nat w)) as Hdm.
    assert (0 < 10 ^ Z.of_nat w) by (apply Z.pow_pos_nonneg; lia). lia.
Qed.

Lemma digits_fixed_first w n r :
  0 <= n < 10 ^ Z.of_nat (S w) ->
  exists a s, digits_fixed (S w) n +:+ r = String a s /\ is_digit a = true.
Proof.
  intros Hn. destruct (digits_fixed_head w n Hn) as [Hq _].
  simpl. rewrite append_cons. do 2 eexists. split; [done|]. by apply is_digit_char.
Qed.

(** A fraction without its trailing zeros is some [j] digits of its value. *)
Lemma frac_digits_spec k n :
  0 <= n < 10 ^ Z.of_nat k ->
  exists j v, (j <= k)%nat /\ frac_digits k n = digits_fixed j v
    /\ 0 <= v < 10 ^ Z.of_nat j /\ n = v * 10 ^ Z.of_nat (k - j).
Proof.
  revert n. induction k as [|k IH]; intros n Hn.
  - exists 0%nat, 0. change (10 ^ Z.of_nat 0) with 1 in *.
    change (10 ^ Z.of_nat (0 - 0)) with 1. repeat split; lia.
  - simpl. destruct (Z.eqb_spec (n mod 10) 0) as [H0|_].
    + rewrite Nat2Z.inj_succ, Z.pow_succ_r in Hn by lia.
      assert (n = 10 * (n / 10)) as Hn10 by (Z.div_mod_to_equations; lia).
      destruct (IH (n / 10)) as (j & v & Hj & -> & Hv & Heq); [lia|].
      exists j, v. repeat split; [lia|lia|lia|].
      replace (S k - j)%nat with (S (k - j)) by lia.
      rewrite Nat2Z.inj_succ, Z.pow_succ_r by lia. lia.
    + exists (S k), n. rewrite Nat.sub_diag. change (10 ^ Z.of_nat 0) with 1.
      repeat split; (done || lia).
Qed.

Lemma get_nanos_frac ns :
  0 <= ns < Second ->
  let f := frac_digits 9 ns in
  get_nanos ((if String.eqb f EmptyString then f else "." +:+ f) +:+ "Z")
  = (ns, "Z").
Proof.
  intros Hns. destruct (frac_digits_spec 9 ns Hns) as (j & v & Hj & -> & Hv & ->).
  cbv zeta. destruct j as [|j].
  - change (10 ^ Z.of_nat 0) with 1 in Hv. replace v with 0 by lia. done.
  - destruct (digits_fixed_first j v "Z" Hv) as (a & s & Has & Ha).
    destruct (String.eqb_spec (digits_fixed (S j) v) EmptyString) as [?|_]; [done|].
    rewrite append_assoc.
    change ("." +:+ digits_fixed (S j) v +:+ "Z")
      with (String "." (digits_fixed (S j) v +:+ "Z")).
    pose proof (get_frac_digits (S j) 9 0 v "Z" Hj Hv) as Hfrac.
    rewrite Has in Hfrac |- *. unfold get_nanos. rewrite Ha. simpl Ascii.eqb.
    cbv beta iota delta [andb orb].
    rewrite Hfrac; [by rewrite Z.mul_0_l, Z.add_0_l|].
    intros a' s'. injection 1 as <- <-. done.
Qed.

Lemma get_nanos_Z : get_nanos "Z" = (0, "Z").
Proof. done. Qed.

Lemma skip_byte c r : skip c (str1 c +:+ r) = Some r.
Proof. unfold str1. rewrite append_cons. simpl. by rewrite Ascii.eqb_refl. Qed.

(** ** Round trips

    Every instant from 1970 to 9999 is read back as it was written:
    nanoseconds with RFC3339Nano, whole seconds with RFC3339. *)
Definition year_9999_end : time := 253402300800 * Second.

Lemma parse_date_time t tail ns :
  0 <= t < year_9999_end -> get_nanos tail = (ns, "Z") ->
  Parse_RFC3339 (fmt_date_time t +:+ tail) = Some (t / Second * Second + ns).
Proof.
  unfold year_9999_end. intros Ht Htail.
  set (s := t / Second).
  assert (0 <= s < 253402300800) as Hs.
  { unfold s, Second in *. Z.div_mod_to_equations; lia. }
  assert (0 <= s / 86400 <= 2932896) as Hday by (Z.div_mod_to_equations; lia).
  pose proof (civil_from_days_spec (s / 86400)) as Hciv.
  pose proof (civil_year_range (s / 86400) Hday) as Hy.
  unfold Parse_RFC3339, parse_layout, fmt_date_time. fold s.
  destruct (civil_from_days (s / 86400)) as [[y m] d]. simpl in Hy.
  destruct Hciv as (Hz & Hm & Hd).
  assert (days_in m y <= 31) as Hdi.
  { unfold days_in. by repeat case_match. }
  set (sod := s mod 86400).
  assert (0 <= sod < 86400) by (apply Z.mod_pos_bound; lia).
  assert (0 <= sod / 3600 < 24) by (Z.div_mod_to_equations; lia).
  assert (0 <= sod / 60 mod 60 < 60) by (Z.div_mod_to_equations; lia).
  assert (0 <= sod mod 60 < 60) by (Z.div_mod_to_equations; lia).
  unfold fmt_year. destruct (Z.leb_spec 0 y); [|lia].
  destruct (Z.leb_spec y 9999); [|lia]. cbn [andb].
  rewrite !append_assoc, get_year_digits by lia. cbn [mbind option_bind].
  change "-" with (str1 "-"). change "T" with (str1 "T"). change ":" with (str1 ":").
  repeat first [ rewrite skip_byte; cbn [mbind option_bind]
               | rewrite getnum_digits by lia; cbn [mbind option_bind] ].
  rewrite Htail. cbn [mbind option_bind].
  assert ((m <? 1) || (12 <? m) || (d <? 1) || (days_in m y <? d)
    || (23 <? sod / 3600) || (59 <? sod / 60 mod 60) || (59 <? sod mod 60) = false)
    as ->.
  { rewrite !orb_false_iff, !Z.ltb_ge. lia. }
  assert (s / 86400 * 86400 + sod / 3600 * 3600 + sod / 60 mod 60 * 60
    + sod mod 60 = s) as Hsum by (unfold sod; Z.div_mod_to_equations; lia).
  rewrite Hz. change (get_zone true "Z") with (Some 0).
  cbn [mbind option_bind]. by rewrite Z.sub_0_r, Hsum.
Qed.

Lemma Parse_Format_RFC3339Nano t :
  0 <= t < year_9999_end -> Parse_RFC3339 (Format_RFC3339Nano t) = Some t.
Proof.
  intros Ht. unfold Format_RFC3339Nano.
  rewrite (parse_date_time t _ (t mod Second)); [|done|].
  - f_equal. unfold Second. Z.div_mod_to_equations; lia.
  - apply get_nanos_frac, Z.mod_pos_bound. done.
Qed.

Lemma Parse_Format_RFC3339 t :
  0 <= t < year_9999_end ->
  Parse_RFC3339 (Format_RFC3339 t) = Some (t / Second * Second).
Proof.
  intros Ht. unfold Format_RFC3339.
  rewrite (parse_date_time t _ 0 Ht get_nanos_Z). f_equal. lia.
Qed.

(** The texts of times are ASCII. *)
Lemma digit_char_ascii d : 0 <= d < 10 -> (byte_of (digit_char d) <? 128) = true.
Proof. intros Hd. unfold digit_char. rewrite byte_of_chr, Z.ltb_lt by lia. lia. Qed.

Lemma digits_fixed_ascii w n : 0 <= n < 10 ^ Z.of_nat w -> all_ascii (digits_fixed w n) = true.
Proof.
  revert n. induction w as [|w IH]; intros n Hn; [done|].
  destruct (digits_fixed_head w n Hn) as [Hq Hm]. cbn [digits_fixed all_ascii].
  by rewrite digit_char_ascii, IH.
Qed.

Lemma fmt_date_time_ascii t : 0 <= t < year_9999_end -> all_ascii (fmt_date_time t) = true.
Proof.
  unfold year_9999_end. intros Ht. unfold fmt_date_time. set (s := t / Second).
  assert (0 <= s < 253402300800) as Hs by (unfold s, Second in *; Z.div_mod_to_equations; lia).
  assert (0 <= s / 86400 <= 2932896) as Hday by (Z.div_mod_to_equations; lia).
  pose proof (civil_from_days_spec (s / 86400)) as Hciv.
  pose proof (civil_year_range (s / 86400) Hday) as Hy.
  destruct (civil_from_days (s / 86400)) as [[y m] d]. simpl in Hy.
  destruct Hciv as (_ & Hm & Hd).
  assert (days_in m y <= 31) as Hdi by (unfold days_in; by repeat case_match).
  set (sod := s mod 86400).
  assert (0 <= sod < 86400) by (apply Z.mod_pos_bound; lia).
  assert (0 <= sod / 3600 < 24) by (Z.div_mod_to_equations; lia).
  assert (0 <= sod / 60 mod 60 < 60) by (Z.div_mod_to_equations; lia).
  assert (0 <= sod mod 60 < 60) by (Z.div_mod_to_equations; lia).
  unfold fmt_year. destruct (Z.leb_spec 0 y); [|lia].
  destruct (Z.leb_spec y 9999); [|lia]. cbn [andb].
  rewrite !all_ascii_append, !digits_fixed_ascii by (cbn; lia). done.
Qed.

Lemma Format_RFC3339_ascii t : 0 <= t < year_9999_end -> all_ascii (Format_RFC3339 t) = true.
Proof. intros Ht. unfold Format_RFC3339. by rewrite all_ascii_append, fmt_date_time_ascii. Qed.

Lemma Format_RFC3339Nano_ascii t :
  0 <= t < year_9999_end -> all_ascii (Format_RFC3339Nano t) = true.
Proof.
  intros Ht. unfold Format_RFC3339Nano. rewrite !all_ascii_append, fmt_date_time_ascii by done.
  destruct (frac_digits_spec 9 (t mod Second)) as (j & v & _ & -> & Hv & _);
    [by apply Z.mod_pos_bound|].
  destruct (String.eqb _ _); rewrite ?all_ascii_append, digits_fixed_ascii by done; done.
Qed.

(** ** Lemmas: durations *)
Lemma seconds_small n : 0 <= n <= 9223372036 -> seconds n = n * Second.
Proof.
  intros Hn. apply wrap64_id. unfold int64_range, int64_min, int64_max, Second. lia.
Qed.

Lemma Sub_small a b : int64_range (a - b) -> Sub a b = a - b.
Proof. apply sat64_id. Qed.
