(* ===== verification/GoFloat.v ===== *)
(** * Go's float64

    Go's [float64] is IEEE 754 binary64: the Standard Library's executable
    specification at precision 53 and exponent bound 1024, rounding to nearest
    even. *)
From Stdlib Require Import SpecFloat.
From S2P Require Import Prelude GoString.
From stdpp Require Import options.

Abbreviation float64 := spec_float (only parsing).

Definition f64 (z : Z) : float64 := binary_normalize 53 1024 z 0 false.
Definition fmul : float64 -> float64 -> float64 := SFmul 53 1024.
Definition fdiv : float64 -> float64 -> float64 := SFdiv 53 1024.
Definition fadd : float64 -> float64 -> float64 := SFadd 53 1024.
Definition fgeb (x y : float64) : bool := SFleb y x.
Definition fgtb (x y : float64) : bool := SFltb y x.

(** The value nearest to [m * 10 ^ e], as [strconv.ParseFloat] reads a decimal
    literal. *)
Definition f64_decimal (m e : Z) : float64 :=
  if 0 <=? e then f64 (m * 10 ^ e)
  else
    match m, 10 ^ (- e) with
    | Z0, _ => S754_zero false
    | Zpos p, Zpos q =>
        let '(mz, ez, lz) := SFdiv_core_binary 53 1024 (Zpos p) 0 (Zpos q) 0 in
        binary_round_aux 53 1024 false mz ez lz
    | Zneg p, Zpos q =>
        let '(mz, ez, lz) := SFdiv_core_binary 53 1024 (Zpos p) 0 (Zpos q) 0 in
        binary_round_aux 53 1024 true mz ez lz
    | _, _ => S754_nan
    end.

Definition is_finite (x : float64) : bool :=
  match x with S754_zero _ | S754_finite _ _ _ => true | _ => false end.

(** The integer nearest to a float64, a tie to the even one, as [%.0f] prints it;
    [None] for an infinity and for NaN. *)
Definition round_to_even (x : float64) : option Z :=
  match x with
  | S754_zero _ => Some 0
  | S754_finite s m e =>
      let a :=
        if 0 <=? e then Z.pos m * 2 ^ e
        else
          let q := Z.pos m / 2 ^ (- e) in
          let r := Z.pos m mod 2 ^ (- e) in
          let half := 2 ^ (- e - 1) in
          if (half <? r) || ((half =? r) && Z.odd q) then q + 1 else q in
      Some (if s then - a else a)
  | _ => None
  end.

(** ** [strconv.FormatFloat] with the verb g and the shortest precision

    The digits are the shortest decimal that reads back as the number, and the
    nearest of them to it. *)

(** [n] decimals behind the point [dp]: the digits, as an integer, below and above
    [num / den], and how it compares to the middle between them. *)
Definition decimals (num den : Z) (scale : Z) : Z * comparison :=
  let a := if 0 <=? scale then num * 10 ^ scale else num in
  let b := if 0 <=? scale then den else den * 10 ^ (- scale) in
  (a / b, (2 * (a mod b)) ?= b).

Fixpoint shortest_from (fuel : nat) (n : Z) (x : float64) (num den dp : Z) : Z * Z :=
  let scale := n - dp in
  let '(low, half) := decimals num den scale in
  let reads d := SFeqb (f64_decimal d (- scale)) x in
  let nearest :=
    match half with
    | Lt => low
    | Gt => low + 1
    | Eq => if Z.odd low then low + 1 else low
    end in
  match fuel, reads low, reads (low + 1) with
  | O, _, _ => (nearest, - scale)
  | _, true, true => (nearest, - scale)
  | _, true, false => (low, - scale)
  | _, false, true => (low + 1, - scale)
  | S fuel, false, false => shortest_from fuel (n + 1) x num den dp
  end.

Definition decimal_length (z : Z) : Z := Z.of_nat (String.length (itoa z)).

(** The decimal [d * 10 ^ e] of a positive number [m * 2 ^ e2]; seventeen digits
    always read back. *)
Definition shortest (m e2 : Z) : Z * Z :=
  let num := if 0 <=? e2 then m * 2 ^ e2 else m in
  let den := if 0 <=? e2 then 1 else 2 ^ (- e2) in
  let dp := decimal_length (num * 10 ^ 400 / den) - 400 in
  shortest_from 17 1 (binary_normalize 53 1024 m e2 false) num den dp.

(** Trailing zeros do not count as digits. *)
Fixpoint trim_zeros (fuel : nat) (d e : Z) : Z * Z :=
  match fuel with
  | O => (d, e)
  | S fuel => if d mod 10 =? 0 then trim_zeros fuel (d / 10) (e + 1) else (d, e)
  end.

Fixpoint zeros (n : nat) : string :=
  match n with O => "" | S n => String "0" (zeros n) end.

(** The digits [ds] with the point before the digit [dp], and with an exponent. *)
Definition fmt_f (ds : string) (dp : Z) : string :=
  let nd := Z.of_nat (String.length ds) in
  if dp <=? 0 then "0." +:+ zeros (Z.to_nat (- dp)) +:+ ds
  else if nd <=? dp then ds +:+ zeros (Z.to_nat (dp - nd))
  else String.substring 0 (Z.to_nat dp) ds +:+ "." +:+ drop_bytes (Z.to_nat dp) ds.

Definition fmt_e (ds : string) (dp : Z) : string :=
  let exp := dp - 1 in
  String.substring 0 1 ds
  +:+ (if (1 <? String.length ds)%nat then "." +:+ drop_bytes 1 ds else "")
  +:+ (if exp <? 0 then "e-" else "e+")
  +:+ (if Z.abs exp <? 10 then "0" else "") +:+ itoa (Z.abs exp).

Definition FormatFloat (x : float64) : string :=
  match x with
  | S754_nan => "NaN"
  | S754_infinity s => if s then "-Inf" else "+Inf"
  | S754_zero s => if s then "-0" else "0"
  | S754_finite s m e =>
      let '(d, e10) := shortest (Z.pos m) e in
      let '(d, e10) := trim_zeros 18 d e10 in
      let ds := itoa d in
      let dp := Z.of_nat (String.length ds) + e10 in
      (if s then "-" else "")
      +:+ (if (dp - 1 <? -4) || (6 <=? dp - 1) then fmt_e ds dp else fmt_f ds dp)
  end.

Example f64_quarter : f64_decimal 25 (-2) = fdiv (f64 1) (f64 4).
Proof. reflexivity. Qed.

Example f64_tenth : f64_decimal 1 (-1) = S754_finite false 7205759403792794 (-56).
Proof. reflexivity. Qed.

Example f64_big : f64 (2 ^ 53 + 1) = f64 (2 ^ 53).
Proof. reflexivity. Qed.

Example FormatFloat_examples :
  map FormatFloat [f64_decimal 1 (-1); f64 100; f64 1000000; f64_decimal 123456789 0;
                   f64_decimal (-15) (-1); f64_decimal 1 (-5); f64_decimal 3 (-4);
                   f64_decimal 5 (-324); f64_decimal 17976931348623157 292;
                   fdiv (f64 2) (f64 3); f64 (2 ^ 53); f64_decimal 9007199254740993 (-1)]
  = ["0.1"; "100"; "1e+06"; "1.23456789e+08"; "-1.5"; "1e-05"; "0.0003";
     "5e-324"; "1.7976931348623157e+308"; "0.6666666666666666"; "9.007199254740992e+15";
     "9.007199254740992e+14"].
Proof. vm_compute. reflexivity. Qed.
