(* ===== verification/Regexp.v ===== *)
(** * The regular expressions of the Go code

    A matcher for the subset of Go's [regexp] the code uses: concatenation,
    capture groups, greedy and lazy repetition of one character class, word
    boundaries, the end of the text.  Go prefers the leftmost match and, at one
    position, the one a backtracking search finds first; the matcher is that
    search, written with continuations.  Text is matched byte by byte: the
    classes of the patterns contain every byte from 0x80 on or none. *)
From S2P Require Import Prelude GoString.
From stdpp Require Import options.

Open Scope Z_scope.

Definition cls : Type := ascii -> bool.

Inductive re :=
  | Cls (c : cls)
  | Star (c : cls)
  | LazyStar (c : cls)
  | WordB
  | EndText
  | Seq (r1 r2 : re)
  | Group (r : re)
  | Alt (r1 r2 : re).

Definition Plus (c : cls) : re := Seq (Cls c) (Star c).
Definition LazyPlus (c : cls) : re := Seq (Cls c) (LazyStar c).

(** A position: the byte before it and the text after it. *)
Record pos := { before : option ascii; after : string }.

Definition is_word (c : ascii) : bool :=
  is_digit c || is_upper c || is_lower c || (byte_of c =? 95).
Definition word_before (p : pos) : bool :=
  match before p with Some c => is_word c | None => false end.
Definition word_after (p : pos) : bool :=
  match after p with String c _ => is_word c | EmptyString => false end.

(** The text between a position and a later one. *)
Definition between (p q : pos) : string :=
  String.substring 0 (String.length (after p) - String.length (after q)) (after p).

Section matcher.
Context {R : Type}.
Implicit Type k : pos -> list string -> option R.

Fixpoint star_from (greedy : bool) (c : cls) (b : option ascii) (s : string)
    (k : pos -> option R) : option R :=
  let here := k {| before := b; after := s |} in
  match s with
  | EmptyString => here
  | String a s' =>
      if c a then
        let next := star_from greedy c (Some a) s' k in
        if greedy then match next with Some r => Some r | None => here end
        else match here with Some r => Some r | None => next end
      else here
  end.

(** [caps] are the groups closed so far, the last one first. *)
Fixpoint run (r : re) (p : pos) (caps : list string) (k : pos -> list string -> option R)
    : option R :=
  match r with
  | Cls c =>
      match after p with
      | String a s => if c a then k {| before := Some a; after := s |} caps else None
      | EmptyString => None
      end
  | Star c => star_from true c (before p) (after p) (fun q => k q caps)
  | LazyStar c => star_from false c (before p) (after p) (fun q => k q caps)
  | WordB => if xorb (word_before p) (word_after p) then k p caps else None
  | EndText => match after p with EmptyString => k p caps | _ => None end
  | Seq r1 r2 => run r1 p caps (fun q caps' => run r2 q caps' k)
  | Group r => run r p caps (fun q caps' => k q (between p q :: caps'))
  | Alt r1 r2 =>
      match run r1 p caps k with
      | Some x => Some x
      | None => run r2 p caps k
      end
  end.
End matcher.

(** The match at a position: its end and its groups, in order. *)
Definition match_at (r : re) (p : pos) : option (pos * list string) :=
  run r p [] (fun q caps => Some (q, reverse caps)).

(** [FindStringSubmatch]: the groups of the leftmost match. *)
Fixpoint find_from (r : re) (b : option ascii) (s : string) : option (list string) :=
  match match_at r {| before := b; after := s |} with
  | Some (_, caps) => Some caps
  | None =>
      match s with
      | EmptyString => None
      | String a s' => find_from r (Some a) s'
      end
  end.
Definition FindStringSubmatch (r : re) (s : string) : option (list string) :=
  find_from r None s.

(** [ReplaceAllString] for patterns that never match the empty string; the
    template is a function of the groups. *)
Fixpoint replace_from (fuel : nat) (r : re) (tmpl : list string -> string)
    (b : option ascii) (s : string) : string :=
  match fuel with
  | O => s
  | S fuel =>
      match s with
      | EmptyString => EmptyString
      | String a s' =>
          match match_at r {| before := b; after := s |} with
          | Some (q, caps) => tmpl caps +:+ replace_from fuel r tmpl (before q) (after q)
          | None => String a (replace_from fuel r tmpl (Some a) s')
          end
      end
  end.
Definition ReplaceAllString (r : re) (tmpl : list string -> string) (s : string) : string :=
  replace_from (S (String.length s)) r tmpl None s.

(** ** Building patterns *)
Definition lit (c : ascii) : re := Cls (fun a => Ascii.eqb a c).
Definition byte_seq (codes : list Z) : re :=
  fold_right (fun z r => Seq (lit (chr z)) r) (Star (fun _ => false)) codes.
(** A letter under [(?i)]: two letters also fold with a rune that is not ASCII, s with
    U+017F and k with U+212A. *)
Definition lit_fold (c : ascii) : re :=
  let either := Cls (fun a => Ascii.eqb (lower a) (lower c)) in
  if Ascii.eqb (lower c) "s" then Alt either (byte_seq [197; 191])
  else if Ascii.eqb (lower c) "k" then Alt either (byte_seq [226; 132; 170])
  else either.
Fixpoint word (mk : ascii -> re) (s : string) (rest : re) : re :=
  match s with
  | EmptyString => rest
  | String c s => Seq (mk c) (word mk s rest)
  end.
(** [\s] *)
Definition re_space : cls := fun c =>
  (byte_of c =? 9) || (byte_of c =? 10) || (byte_of c =? 12) || (byte_of c =? 13)
  || (byte_of c =? 32).
Definition re_nonspace : cls := fun c => negb (re_space c).
Definition any_byte : cls := fun _ => true.
Definition not_in (cs : list ascii) (spaces : bool) : cls := fun c =>
  negb (existsb (Ascii.eqb c) cs) && negb (spaces && re_space c).

(** ** Lemmas *)

(** A match consumes what lies between its ends: the text after the end is a
    suffix of the text after the start. *)
Definition suffix_of (q p : pos) : Prop := exists l, after p = l +:+ after q.

Lemma suffix_refl p : suffix_of p p.
Proof. by exists "". Qed.

Lemma suffix_trans p q r : suffix_of r q -> suffix_of q p -> suffix_of r p.
Proof. intros [l Hl] [m Hm]. exists (m +:+ l). by rewrite Hm, Hl, append_assoc. Qed.

Lemma star_from_inv {R} greedy c b s (k : pos -> option R) x :
  star_from greedy c b s k = Some x ->
  exists q, suffix_of q {| before := b; after := s |} /\ k q = Some x.
Proof.
  revert b. induction s as [|a s IH]; intros b; simpl.
  - intros H. exists {| before := b; after := EmptyString |}. split; [apply suffix_refl|done].
  - assert (k {| before := b; after := String a s |} = Some x ->
      exists q, suffix_of q {| before := b; after := String a s |} /\ k q = Some x) as Hhere.
    { intros H. eexists. split; [apply suffix_refl|done]. }
    assert (star_from greedy c (Some a) s k = Some x ->
      exists q, suffix_of q {| before := b; after := String a s |} /\ k q = Some x) as Hnext.
    { intros (q & [l Hl] & Hq)%IH. exists q. split; [|done].
      exists (String a l). simpl in *. by rewrite Hl. }
    destruct (c a); [|exact Hhere].
    destruct greedy, (star_from _ c (Some a) s k) eqn:Hs, (k _) eqn:Hk; intros H;
      simplify_eq; auto.
Qed.

Lemma run_inv {R} r p caps (k : pos -> list string -> option R) x :
  run r p caps k = Some x -> exists q caps', suffix_of q p /\ k q caps' = Some x.
Proof.
  revert p caps k. induction r as [c|c|c| | |r1 IH1 r2 IH2|r IH|r1 IH1 r2 IH2];
    intros p caps k; simpl.
  - destruct (after p) as [|a s] eqn:Hp; [done|]. destruct (c a); [|done]. intros H.
    eexists _, _. split; [|exact H]. exists (str1 a). by rewrite Hp.
  - intros (q & Hq & Hk)%star_from_inv. destruct p. eauto.
  - intros (q & Hq & Hk)%star_from_inv. destruct p. eauto.
  - destruct (xorb _ _); [|done]. intros H. eexists _, _. split; [apply suffix_refl|done].
  - destruct (after p); [|done]. intros H. eexists _, _. split; [apply suffix_refl|done].
  - intros (q & caps1 & Hq & H)%IH1. apply IH2 in H as (q2 & caps2 & Hq2 & H).
    exists q2, caps2. split; [by eapply suffix_trans|done].
  - intros (q & caps1 & Hq & H)%IH. eauto.
  - destruct (run r1 p caps k) as [y|] eqn:H1; [intros [= <-]; eauto|apply IH2].
Qed.
