(* ===== verification/Json.v ===== *)
(** * encoding/json on syntax trees

    A JSON document is its syntax tree; a text that does not parse (JsonText) is
    [None] where one is read.  The decoders follow [json.Unmarshal]: object keys
    match field names up to case, later members win, [null] leaves a scalar as
    it was, a number written with a fraction or an exponent is no integer.
    [Unmarshal] reports a type error after decoding the rest, and the callers
    drop the value then, so an error is all that is kept. *)
From Stdlib Require Import SpecFloat.
From S2P Require Import Prelude GoString GoFloat.
From stdpp Require Import options.

Open Scope Z_scope.

(** [JInt z] is a literal without fraction and exponent, [JDec m e] the literal
    [m * 10 ^ e] written with one. *)
Inductive json :=
  | JNull
  | JBool (b : bool)
  | JInt (z : Z)
  | JDec (m e : Z)
  | JString (s : string)
  | JArray (items : list json)
  | JObject (members : list (string * json)).

Definition type_error {A} : result A := Err "json: cannot unmarshal value".

(** ** Values of Go's [any]

    What [json.Unmarshal] builds in an [any], and what the handlers put into
    their responses. *)
Inductive any :=
  | AnyNil
  | AnyBool (b : bool)
  | AnyInt (z : Z)
  | AnyFloat (f : float64)
  | AnyString (s : string)
  | AnyList (items : list any)
  | AnyMap (entries : list (string * any)).

(** [v[key]] of a map; a later duplicate of a key wins. *)
Fixpoint any_get (key : string) (entries : list (string * any)) : option any :=
  match entries with
  | [] => None
  | (k, v) :: entries =>
      match any_get key entries with
      | Some v' => Some v'
      | None => if String.eqb k key then Some v else None
      end
  end.

(** Unmarshal into an [any]: numbers become float64. *)
Fixpoint to_any (v : json) : any :=
  match v with
  | JNull => AnyNil
  | JBool b => AnyBool b
  | JInt z => AnyFloat (f64 z)
  | JDec m e => AnyFloat (f64_decimal m e)
  | JString s => AnyString s
  | JArray items => AnyList (map to_any items)
  | JObject members => AnyMap (map (fun '(k, w) => (k, to_any w)) members)
  end.

(** The elements of a response object. *)
Definition obj_get (key : string) (v : any) : option any :=
  match v with AnyMap entries => any_get key entries | _ => None end.

(** ** Decoders into an existing value *)
Definition decoder (A : Type) : Type := A -> json -> result A.

Definition dec_string : decoder string := fun old v =>
  match v with
  | JString s => Ok s
  | JNull => Ok old
  | _ => type_error
  end.

Definition dec_bool : decoder bool := fun old v =>
  match v with
  | JBool b => Ok b
  | JNull => Ok old
  | _ => type_error
  end.

Definition dec_int : decoder Z := fun old v =>
  match v with
  | JInt z => if (int64_min <=? z) && (z <=? int64_max) then Ok z else type_error
  | JNull => Ok old
  | _ => type_error
  end.

Definition dec_float : decoder float64 := fun old v =>
  let check x := if is_finite x then Ok x else type_error in
  match v with
  | JInt z => check (f64 z)
  | JDec m e => check (f64_decimal m e)
  | JNull => Ok old
  | _ => type_error
  end.

(** A slice is decoded over the elements it had: [null] keeps the element
    that was there. *)
Fixpoint dec_items {A} (dec : decoder A) (zero : A) (old : list A) (items : list json)
    : result (list A) :=
  match items with
  | [] => Ok []
  | v :: items =>
      x ← dec (hd zero old) v;
      xs ← dec_items dec zero (tl old) items;
      mret (x :: xs)
  end.

Definition dec_slice {A} (dec : decoder A) (zero : A) : decoder (list A) := fun old v =>
  match v with
  | JArray items => dec_items dec zero old items
  | JNull => Ok []
  | _ => type_error
  end.

(** A map keeps the entries it had; every member is decoded afresh. *)
Fixpoint dec_entries {A} (dec : decoder A) (zero : A) (old : gmap string A)
    (members : list (string * json)) : result (gmap string A) :=
  match members with
  | [] => Ok old
  | (k, v) :: members =>
      x ← dec zero v;
      dec_entries dec zero (<[k := x]> old) members
  end.

(** A nil map is [None]. *)
Definition dec_map {A} (dec : decoder A) (zero : A) : decoder (option (gmap string A)) :=
  fun old v =>
  match v with
  | JObject members => Some <$> dec_entries dec zero (default ∅ old) members
  | JNull => Ok None
  | _ => type_error
  end.

(** A pointer: [null] sets nil. *)
Definition dec_ptr {A} (dec : decoder A) (zero : A) : decoder (option A) := fun old v =>
  match v with
  | JNull => Ok None
  | _ => Some <$> dec (default zero old) v
  end.

(** The field [name] of a struct after the members of an object. *)
Fixpoint field {A} (dec : decoder A) (name : string) (old : A)
    (members : list (string * json)) : result A :=
  match members with
  | [] => Ok old
  | (k, v) :: members =>
      if EqualFold k name then x ← dec old v; field dec name x members
      else field dec name old members
  end.

(** A struct is decoded from an object; [null] leaves it as it was. *)
Definition dec_struct {A} (dec : A -> list (string * json) -> result A) : decoder A :=
  fun old v =>
  match v with
  | JObject members => dec old members
  | JNull => Ok old
  | _ => type_error
  end.

(** [json.Unmarshal] of a document into [old]. *)
Definition Unmarshal {A} (dec : decoder A) (doc : option json) (old : A) : result A :=
  match doc with
  | None => Err "invalid JSON"
  | Some v => dec old v
  end.

(** ** Lemmas *)
Lemma field_absent {A} (dec : decoder A) name old members :
  (forall k v, (k, v) ∈ members -> EqualFold k name = false) ->
  field dec name old members = Ok old.
Proof.
  induction members as [|[k v] members IH]; intros H; [done|]. simpl.
  rewrite (H k v) by set_solver. apply IH. set_solver.
Qed.

Lemma dec_items_length {A} (dec : decoder A) zero old items xs :
  dec_items dec zero old items = Ok xs -> length xs = length items.
Proof.
  revert old xs. induction items as [|v items IH]; intros old xs; simpl.
  - by intros [= <-].
  - destruct (dec (hd zero old) v) as [x|]; [|done]. simpl.
    destruct (dec_items dec zero (tl old) items) as [ys|] eqn:Hy; [|done].
    simpl. intros [= <-]. simpl. by rewrite (IH _ _ Hy).
Qed.

Lemma dec_int_range old v z : int64_range old -> dec_int old v = Ok z -> int64_range z.
Proof.
  unfold dec_int, int64_range. destruct v; intros Hold H; simplify_eq; [done|].
  destruct (int64_min <=? _) eqn:?, (_ <=? int64_max) eqn:?; simpl in *; simplify_eq.
  lia.
Qed.

Lemma field_inv {A} (P : A -> Prop) (dec : decoder A) name old members x :
  (forall a v b, P a -> dec a v = Ok b -> P b) ->
  P old -> field dec name old members = Ok x -> P x.
Proof.
  intros Hdec. revert old. induction members as [|[k v] members IH]; intros old Hold; simpl.
  - by intros [= <-].
  - destruct (EqualFold k name); [|by apply IH].
    destruct (dec old v) as [a|] eqn:Ha; [|done]. simpl. apply IH. eauto.
Qed.
