(* ===== verification/JsonText.v ===== *)
(** * encoding/json on texts

    The texts [json.Marshal], [json.MarshalIndent] and an [Encoder] write for a
    syntax tree, and the reading of a text into its tree: the scanner's grammar,
    the unquoting of strings, the nesting limit.  Object members come in the
    order of the tree; strings are written with the HTML characters escaped.  The
    code writes no number with a fraction.  The reader's fuel is twice the length
    of the text; [parse_enough] shows that more changes nothing. *)
From S2P Require Import Prelude GoString Json.
From stdpp Require Import options.

Open Scope Z_scope.

(** ** Strings *)

(** U+FFFD, for a byte that is in no UTF-8 sequence. *)
Definition replacement : string := String (chr 239) (String (chr 191) (str1 (chr 189))).

(** U+2028 and U+2029 at the head of a string. *)
Definition is_separator (a : ascii) (r : string) : bool :=
  match r with
  | String b (String c _) =>
      (byte_of a =? 226) && (byte_of b =? 128)
      && ((byte_of c =? 168) || (byte_of c =? 169))
  | _ => false
  end.

Definition escape_ascii (c : ascii) : string :=
  let b := byte_of c in
  let short (x : ascii) := String backslash (str1 x) in
  if b =? 34 then short dquote
  else if b =? 92 then short backslash
  else if b =? 8 then short "b"%char
  else if b =? 12 then short "f"%char
  else if b =? 10 then short "n"%char
  else if b =? 13 then short "r"%char
  else if b =? 9 then short "t"%char
  else if (b <? 32) || (b =? 38) || (b =? 60) || (b =? 62) then
    String backslash ("u00" +:+ String (hex_char (b / 16)) (str1 (hex_char (b mod 16))))
  else str1 c.

(** [appendString] with HTML escaping; [k] bytes of a sequence are left to copy. *)
Fixpoint quote_body (k : nat) (s : string) : string :=
  match s with
  | EmptyString => EmptyString
  | String c r =>
      match k with
      | S k => String c (quote_body k r)
      | O =>
          if byte_of c <? 128 then escape_ascii c +:+ quote_body 0 r
          else
            match rune_width c r with
            | 1%nat => String backslash "ufffd" +:+ quote_body 0 r
            | w =>
                if is_separator c r then
                  match r with
                  | String _ (String d r) =>
                      String backslash "u202" +:+ String (chr (byte_of d - 112)) (quote_body 0 r)
                  | _ => EmptyString
                  end
                else String c (quote_body (Nat.pred w) r)
            end
      end
  end.

Definition json_quote (s : string) : string :=
  String dquote (quote_body 0 s +:+ str1 dquote).

Definition hex_digit_value (c : ascii) : option Z :=
  let b := byte_of c in
  if (48 <=? b) && (b <=? 57) then Some (b - 48)
  else if (97 <=? b) && (b <=? 102) then Some (b - 87)
  else if (65 <=? b) && (b <=? 70) then Some (b - 55)
  else None.

Definition getu4 (a b c d : ascii) : option Z :=
  a ← hex_digit_value a; b ← hex_digit_value b; c ← hex_digit_value c; d ← hex_digit_value d;
  Some (((a * 16 + b) * 16 + c) * 16 + d).

(** [utf8.EncodeRune] of a code point that is no surrogate. *)
Definition encode_rune (n : Z) : string :=
  if n <? 128 then str1 (chr n)
  else if n <? 2048 then String (chr (192 + n / 64)) (str1 (chr (128 + n mod 64)))
  else if n <? 65536 then
    String (chr (224 + n / 4096))
      (String (chr (128 + n / 64 mod 64)) (str1 (chr (128 + n mod 64))))
  else
    String (chr (240 + n / 262144))
      (String (chr (128 + n / 4096 mod 64))
        (String (chr (128 + n / 64 mod 64)) (str1 (chr (128 + n mod 64))))).

Definition is_surrogate (n : Z) : bool := (55296 <=? n) && (n <=? 57343).

(** [utf16.DecodeRune] of two code units. *)
Definition surrogate_pair (hi lo : Z) : option Z :=
  if (hi <? 56320) && (56320 <=? lo) && (lo <=? 57343) then
    Some ((hi - 55296) * 1024 + (lo - 56320) + 65536)
  else None.

Definition simple_escape (e : ascii) : option ascii :=
  let b := byte_of e in
  if (b =? 34) || (b =? 92) || (b =? 47) then Some e
  else if b =? 98 then Some (chr 8)
  else if b =? 102 then Some (chr 12)
  else if b =? 110 then Some (chr 10)
  else if b =? 114 then Some (chr 13)
  else if b =? 116 then Some (chr 9)
  else None.

Definition prepend (u : string) (x : option (string * string)) : option (string * string) :=
  match x with Some (v, rest) => Some (u +:+ v, rest) | None => None end.

(** The string literal after its opening quote: its value and what follows it. *)
Fixpoint unquote (k : nat) (s : string) : option (string * string) :=
  match s with
  | EmptyString => None
  | String c r =>
      match k with
      | S k => prepend (str1 c) (unquote k r)
      | O =>
          if Ascii.eqb c dquote then Some (EmptyString, r)
          else if Ascii.eqb c backslash then
            match r with
            | EmptyString => None
            | String e r =>
                match simple_escape e with
                | Some x => prepend (str1 x) (unquote 0 r)
                | None =>
                    if negb (Ascii.eqb e "u"%char) then None
                    else
                      match r with
                      | String a (String b (String c (String d r))) =>
                          match getu4 a b c d with
                          | None => None
                          | Some n =>
                              if is_surrogate n then
                                match r with
                                | String x (String y (String a (String b (String c (String d t))))) =>
                                    if Ascii.eqb x backslash && Ascii.eqb y "u"%char then
                                      match getu4 a b c d ≫= surrogate_pair n with
                                      | Some p => prepend (encode_rune p) (unquote 0 t)
                                      | None => prepend replacement (unquote 0 r)
                                      end
                                    else prepend replacement (unquote 0 r)
                                | _ => prepend replacement (unquote 0 r)
                                end
                              else prepend (encode_rune n) (unquote 0 r)
                          end
                      | _ => None
                      end
                end
            end
          else if byte_of c <? 32 then None
          else if byte_of c <? 128 then prepend (str1 c) (unquote 0 r)
          else
            match rune_width c r with
            | 1%nat => prepend replacement (unquote 0 r)
            | w => prepend (str1 c) (unquote (Nat.pred w) r)
            end
      end
  end.

(** What a string reads back as: itself, when it is UTF-8. *)
Fixpoint to_valid_utf8 (k : nat) (s : string) : string :=
  match s with
  | EmptyString => EmptyString
  | String c r =>
      match k with
      | S k => String c (to_valid_utf8 k r)
      | O =>
          if byte_of c <? 128 then String c (to_valid_utf8 0 r)
          else
            match rune_width c r with
            | 1%nat => replacement +:+ to_valid_utf8 0 r
            | w => String c (to_valid_utf8 (Nat.pred w) r)
            end
      end
  end.

(** ** Writing *)
Section encode.
(** What comes before an element, or a closing bracket, at a depth; and after the
    colon of a member. *)
Variables (ws : nat -> string) (sp : string).

Definition bracket (l r : ascii) (d : nat) (parts : list string) : string :=
  match parts with
  | [] => String l (str1 r)
  | _ => String l (ws (S d) +:+ Join parts ("," +:+ ws (S d)) +:+ ws d +:+ str1 r)
  end.

Fixpoint encode (d : nat) (v : json) : string :=
  match v with
  | JNull => "null"
  | JBool b => fmt_bool b
  | JInt z => itoa z
  | JDec m e => itoa m +:+ "e" +:+ itoa e
  | JString s => json_quote s
  | JArray items => bracket "[" "]" d (map (encode (S d)) items)
  | JObject members =>
      bracket "{" "}" d
        (map (fun '(k, v) => json_quote k +:+ ":" +:+ sp +:+ encode (S d) v) members)
  end.
End encode.

(** [json.Marshal]; [json.MarshalIndent] with two spaces; an [Encoder]'s line. *)
Definition json_text (v : json) : string := encode (fun _ => "") "" 0 v.

Fixpoint spaces (n : nat) : string :=
  match n with O => "" | S n => "  " +:+ spaces n end.
Definition json_indent (v : json) : string :=
  encode (fun d => String newline (spaces d)) " " 0 v.

Definition json_line (v : json) : string := json_text v +:+ str1 newline.

(** The document of a map: its keys sorted, a later value of a key counting. *)
Definition json_map (entries : list (string * json)) : json :=
  let m : gmap string json := list_to_map (reverse entries) in
  JObject (map (fun k => (k, default JNull (m !! k)))
             (merge_sort String.le (map fst (map_to_list m)))).

Definition json_strings (l : list string) : json := JArray (map JString l).

(** A member of a struct with the omitempty option. *)
Definition omitempty (key value : string) : list (string * json) :=
  if String.eqb value "" then [] else [(key, JString value)].

(** ** Reading *)
Definition is_json_space (c : ascii) : bool :=
  let b := byte_of c in (b =? 32) || (b =? 9) || (b =? 10) || (b =? 13).

Fixpoint skip_ws (s : string) : string :=
  match s with
  | EmptyString => EmptyString
  | String c r => if is_json_space c then skip_ws r else s
  end.

(** The value of the digits at the head, after [acc]; how many; the rest. *)
Fixpoint read_digits (acc : Z) (n : nat) (s : string) : Z * nat * string :=
  match s with
  | String c r =>
      if is_digit c then read_digits (acc * 10 + (byte_of c - 48)) (S n) r else (acc, n, s)
  | EmptyString => (acc, n, s)
  end.

(** No digit but a zero may follow a leading zero. *)
Definition read_int (s : string) : option (Z * string) :=
  match s with
  | String c r =>
      if Ascii.eqb c "0" then Some (0, r)
      else if is_digit c then
        let '(m, _, r) := read_digits 0 0 s in Some (m, r)
      else None
  | EmptyString => None
  end.

(** The fraction: the digits of [m] go on. *)
Definition read_frac (m : Z) (s : string) : option (option (Z * nat) * string) :=
  match s with
  | String c r =>
      if Ascii.eqb c "." then
        let '(m, n, r) := read_digits m 0 r in
        if (n =? 0)%nat then None else Some (Some (m, n), r)
      else Some (None, s)
  | EmptyString => Some (None, s)
  end.

Definition exp_sign (s : string) : bool * string :=
  match s with
  | String x t =>
      if Ascii.eqb x "-" then (true, t)
      else if Ascii.eqb x "+" then (false, t) else (false, s)
  | EmptyString => (false, s)
  end.

Definition read_exp (s : string) : option (option Z * string) :=
  match s with
  | String c r =>
      if Ascii.eqb c "e" || Ascii.eqb c "E" then
        let '(neg, r) := exp_sign r in
        let '(e, n, r) := read_digits 0 0 r in
        if (n =? 0)%nat then None else Some (Some (if neg then - e else e), r)
      else Some (None, s)
  | EmptyString => Some (None, s)
  end.

Definition read_number (s : string) : option (json * string) :=
  let '(neg, s) :=
    match s with
    | String c r => if Ascii.eqb c "-" then (true, r) else (false, s)
    | EmptyString => (false, s)
    end in
  let sgn (m : Z) := if neg then - m else m in
  '(m, s) ← read_int s;
  '(frac, s) ← read_frac m s;
  '(exp, s) ← read_exp s;
  Some (match frac, exp with
        | None, None => JInt (sgn m)
        | None, Some e => JDec (sgn m) e
        | Some (m, n), _ => JDec (sgn m) (default 0 exp - Z.of_nat n)
        end, s).

Definition literal (s : string) : option (json * string) :=
  if HasPrefix s "true" then Some (JBool true, drop_bytes 4 s)
  else if HasPrefix s "false" then Some (JBool false, drop_bytes 5 s)
  else if HasPrefix s "null" then Some (JNull, drop_bytes 4 s)
  else read_number s.

Fixpoint parse_value (fuel : nat) (depth : Z) (s : string) : option (json * string) :=
  match fuel with
  | O => None
  | S fuel =>
      match skip_ws s with
      | EmptyString => None
      | String c r =>
          if Ascii.eqb c "{" then
            if depth <=? 0 then None
            else
              match skip_ws r with
              | EmptyString => None
              | String c' t =>
                  if Ascii.eqb c' "}" then Some (JObject [], t)
                  else '(members, t) ← parse_members fuel (depth - 1) r; Some (JObject members, t)
              end
          else if Ascii.eqb c "[" then
            if depth <=? 0 then None
            else
              match skip_ws r with
              | EmptyString => None
              | String c' t =>
                  if Ascii.eqb c' "]" then Some (JArray [], t)
                  else '(items, t) ← parse_items fuel (depth - 1) r; Some (JArray items, t)
              end
          else if Ascii.eqb c dquote then '(v, t) ← unquote 0 r; Some (JString v, t)
          else literal (String c r)
      end
  end
with parse_items (fuel : nat) (depth : Z) (s : string) : option (list json * string) :=
  match fuel with
  | O => None
  | S fuel =>
      '(v, r) ← parse_value fuel depth s;
      match skip_ws r with
      | EmptyString => None
      | String c t =>
          if Ascii.eqb c "," then '(vs, t) ← parse_items fuel depth t; Some (v :: vs, t)
          else if Ascii.eqb c "]" then Some ([v], t) else None
      end
  end
with parse_members (fuel : nat) (depth : Z) (s : string)
    : option (list (string * json) * string) :=
  match fuel with
  | O => None
  | S fuel =>
      match skip_ws s with
      | EmptyString => None
      | String q r =>
          if negb (Ascii.eqb q dquote) then None
          else
            '(k, r) ← unquote 0 r;
            match skip_ws r with
            | EmptyString => None
            | String c r =>
                if negb (Ascii.eqb c ":") then None
                else
                  '(v, r) ← parse_value fuel depth r;
                  match skip_ws r with
                  | EmptyString => None
                  | String c t =>
                      if Ascii.eqb c "," then
                        '(vs, t) ← parse_members fuel depth t; Some ((k, v) :: vs, t)
                      else if Ascii.eqb c "}" then Some ([(k, v)], t) else None
                  end
            end
      end
  end.

(** The scanner's limit on nested arrays and objects. *)
Definition maxNestingDepth : Z := 10000.
Definition parse_fuel (s : string) : nat := 2 * String.length s + 2.

(** The document a whole text is, as [json.Unmarshal] takes it. *)
Definition json_document (s : string) : option json :=
  '(v, r) ← parse_value (parse_fuel s) maxNestingDepth s;
  if String.eqb (skip_ws r) "" then Some v else None.

(** The first value of a text, as [Decoder.Decode] takes it: what follows an array
    or an object is not looked at, what follows another value is one byte. *)
Definition json_first (s : string) : option json :=
  '(v, r) ← parse_value (parse_fuel s) maxNestingDepth s;
  match v, r with
  | (JArray _ | JObject _), _ | _, EmptyString => Some v
  | _, String c _ => if is_json_space c then Some v else None
  end.

Example json_text_example :
  json_text (JObject [("a", JArray [JInt (-3); JNull; JBool true]); ("<", JString "x&y")])
  = ReplaceAll "{`a`:[-3,null,true],`\u003c`:`x\u0026y`}" "`" (str1 dquote).
Proof. vm_compute. reflexivity. Qed.

Example json_document_example :
  json_document (ReplaceAll " { `a`:[ -3 , null,1.50e2], `\ud83d\ude00\/`:{} } " "`" (str1 dquote))
  = Some (JObject [("a", JArray [JInt (-3); JNull; JDec 150 0]);
                   (encode_rune 128512 +:+ "/", JObject [])]).
Proof. vm_compute. reflexivity. Qed.

(** ** Strings read back *)
Lemma prepend_prepend u v x : prepend u (prepend v x) = prepend (u +:+ v) x.
Proof. destruct x as [[w t]|]; simpl; [|done]. by rewrite append_assoc. Qed.

Lemma unquote_ascii c t :
  byte_of c < 128 -> unquote 0 (escape_ascii c +:+ t) = prepend (str1 c) (unquote 0 t).
Proof.
  destruct c as [[] [] [] [] [] [] [] []]; intros H;
    try (exfalso; vm_compute in H; discriminate H); reflexivity.
Qed.

Lemma rune_width_cases c r :
  rune_width c r = 1%nat
  \/ (exists b t, r = String b t /\ rune_width c r = 2%nat /\ 194 <= byte_of c <= 223
        /\ 128 <= byte_of b)
  \/ (exists b d t, r = String b (String d t) /\ rune_width c r = 3%nat
        /\ 224 <= byte_of c <= 239 /\ 128 <= byte_of b /\ 128 <= byte_of d)
  \/ (exists b d e t, r = String b (String d (String e t)) /\ rune_width c r = 4%nat
        /\ 240 <= byte_of c <= 244 /\ 128 <= byte_of b /\ 128 <= byte_of d /\ 128 <= byte_of e).
Proof.
  destruct r as [|b r]; [by left|]. unfold rune_width at 1 2 3 4.
  destruct (in_range 194 223 c && cont b) eqn:E2.
  { unfold cont, in_range in E2. right. left. exists b, r. repeat split; lia. }
  destruct r as [|d r]; [by left|].
  match goal with |- context [if ?x then 3%nat else _] => destruct x eqn:E3 end.
  { right. right. left. exists b, d, r. unfold cont, in_range in E3. repeat split; lia. }
  destruct r as [|e r]; [by left|].
  match goal with |- context [if ?x then 4%nat else _] => destruct x eqn:E4 end; [|by left].
  right. right. right. exists b, d, e, r. unfold cont, in_range in E4. repeat split; lia.
Qed.

Lemma chr_byte_of c : chr (byte_of c) = c.
Proof. unfold chr, byte_of. by rewrite N2Z.id, ascii_N_embedding. Qed.

Lemma byte_inv c n : byte_of c = n -> c = chr n.
Proof. intros <-. by rewrite chr_byte_of. Qed.

Lemma rune_width_2 c b t t' :
  rune_width c (String b t) = 2%nat -> rune_width c (String b t') = 2%nat.
Proof.
  unfold rune_width. destruct (in_range 194 223 c && cont b); [done|].
  destruct t as [|d t]; [done|]. case_match; [done|]. destruct t; [done|]. by case_match.
Qed.

Lemma rune_width_3 c b d t t' :
  rune_width c (String b (String d t)) = 3%nat -> rune_width c (String b (String d t')) = 3%nat.
Proof.
  unfold rune_width. destruct (in_range 194 223 c && cont b); [done|].
  case_match; [done|]. destruct t; [done|]. by case_match.
Qed.

Lemma rune_width_4 c b d e t t' :
  rune_width c (String b (String d (String e t))) = rune_width c (String b (String d (String e t'))).
Proof. reflexivity. Qed.

Lemma rune_width_ascii c r : byte_of c < 128 -> rune_width c r = 1%nat.
Proof.
  intros Hc. destruct (rune_width_cases c r) as [->|[(?&?&_&_&?&_)|[(?&?&?&_&_&?&_)|(?&?&?&?&_&_&?&_)]]];
    [done|lia..].
Qed.

(** A byte from 0x80 on is no quote, no backslash and no control character. *)
Lemma unquote_high c r :
  128 <= byte_of c ->
  unquote 0 (String c r) =
    match rune_width c r with
    | 1%nat => prepend replacement (unquote 0 r)
    | w => prepend (str1 c) (unquote (Nat.pred w) r)
    end.
Proof.
  intros Hc. cbn [unquote].
  destruct (Ascii.eqb_spec c dquote) as [->|_]; [by vm_compute in Hc|].
  destruct (Ascii.eqb_spec c backslash) as [->|_]; [by vm_compute in Hc|].
  by rewrite (proj2 (Z.ltb_ge (byte_of c) 32)), (proj2 (Z.ltb_ge (byte_of c) 128)) by lia.
Qed.

Lemma unquote_S k c r : unquote (S k) (String c r) = prepend (str1 c) (unquote k r).
Proof. done. Qed.

Lemma separator_inv c r :
  is_separator c r = true ->
  exists d t, r = String (chr 128) (String d t) /\ c = chr 226 /\ (d = chr 168 \/ d = chr 169).
Proof.
  unfold is_separator. destruct r as [|b [|d t]]; [done..|].
  rewrite !andb_true_iff, orb_true_iff, !Z.eqb_eq. intros [[Hc%byte_inv Hb%byte_inv] Hd].
  exists d, t. subst. split_and!; [done..|]. destruct Hd as [H%byte_inv|H%byte_inv]; auto.
Qed.

Lemma unquote_fffd t :
  unquote 0 (String backslash "ufffd" +:+ t) = prepend replacement (unquote 0 t).
Proof. reflexivity. Qed.

Lemma unquote_separator d t :
  d = chr 168 \/ d = chr 169 ->
  unquote 0 (String backslash "u202" +:+ String (chr (byte_of d - 112)) t)
  = prepend (String (chr 226) (String (chr 128) (str1 d))) (unquote 0 t).
Proof. intros [->| ->]; reflexivity. Qed.

(** A string literal reads back as what it was written from, its invalid bytes
    replaced. *)
Lemma unquote_quote_body k s t :
  (k <= String.length s)%nat ->
  unquote k (quote_body k s +:+ String dquote t) = Some (to_valid_utf8 k s, t).
Proof.
  remember (String.length s) as n eqn:Hn. revert k s Hn.
  induction n as [n IH] using lt_wf_ind. intros k s -> Hk.
  destruct s as [|c r]; [by destruct k; [|cbn in Hk; lia]|].
  assert (forall k u, (String.length u <= String.length r)%nat -> (k <= String.length u)%nat ->
    unquote k (quote_body k u +:+ String dquote t) = Some (to_valid_utf8 k u, t)) as IH'.
  { intros k' u Hu Hku. eapply (IH (String.length u)); [cbn; lia|done|done]. }
  clear IH. destruct k as [|k].
  2:{ cbn [quote_body to_valid_utf8]. rewrite append_cons, unquote_S, IH';
        [done|done|cbn in Hk; lia]. }
  cbn [quote_body to_valid_utf8]. destruct (byte_of c <? 128) eqn:Hc.
  { apply Z.ltb_lt in Hc. by rewrite append_assoc, unquote_ascii, IH' by lia. }
  apply Z.ltb_ge in Hc.
  destruct (rune_width_cases c r) as [Hw|[(b&u&->&Hw&Hr&_)|[(b&d&u&->&Hw&Hr&_)|(b&d&e&u&->&Hw&Hr&_)]]];
    rewrite Hw; cbn [Nat.pred].
  - by rewrite append_assoc, unquote_fffd, IH' by lia.
  - destruct (is_separator c (String b u)) eqn:Hsep.
    { apply separator_inv in Hsep as (?&?&_&->&_). vm_compute in Hr. by destruct Hr. }
    cbn [quote_body]. rewrite !append_cons, unquote_high by done.
    rewrite (rune_width_2 c b u) by done. cbn [Nat.pred].
    rewrite unquote_S, IH' by (cbn; lia). done.
  - destruct (is_separator c (String b (String d u))) eqn:Hsep.
    + apply separator_inv in Hsep as (d0&u0&[= -> -> ->]&->&Hd).
      rewrite append_assoc, (append_cons (chr (byte_of d0 - 112))), unquote_separator, IH' by (done || cbn; lia). done.
    + cbn [quote_body]. rewrite !append_cons, unquote_high by done.
      rewrite (rune_width_3 c b d u) by done. cbn [Nat.pred].
      rewrite !unquote_S, IH' by (cbn; lia). done.
  - destruct (is_separator c (String b (String d (String e u)))) eqn:Hsep.
    { apply separator_inv in Hsep as (?&?&_&->&_). vm_compute in Hr. by destruct Hr. }
    cbn [quote_body]. rewrite !append_cons, unquote_high by done.
    rewrite (rune_width_4 c b d e _ u), Hw.
    cbn [Nat.pred]. rewrite !unquote_S, IH' by (cbn; lia). done.
Qed.

(** ** Numbers read back *)

(** What may follow a value in a text that is written. *)
Definition delimited (t : string) : bool :=
  match t with
  | EmptyString => true
  | String c _ =>
      is_json_space c || Ascii.eqb c "," || Ascii.eqb c "]" || Ascii.eqb c "}"
  end.

Lemma delimited_head c t :
  delimited (String c t) = true ->
  is_digit c = false /\ Ascii.eqb c "." = false
  /\ Ascii.eqb c "e" = false /\ Ascii.eqb c "E" = false.
Proof.
  destruct c as [[] [] [] [] [] [] [] []]; intros H; first [discriminate H|by repeat split].
Qed.

Lemma pretty_N_go_app x s t : pretty_N_go x s +:+ t = pretty_N_go x (s +:+ t).
Proof.
  revert s. induction (N.lt_wf_0 x) as [x _ IH]; intros s.
  destruct (decide (x = 0%N)) as [->|Hx]; [done|].
  rewrite !(pretty_N_go_step x) by lia. rewrite IH; [done|]. apply N.div_lt; lia.
Qed.

Lemma pretty_digit d :
  (d < 10)%N ->
  is_digit (pretty_N_char d) = true /\ byte_of (pretty_N_char d) - 48 = Z.of_N d.
Proof.
  intros Hd. assert (d = 0 \/ d = 1 \/ d = 2 \/ d = 3 \/ d = 4 \/ d = 5 \/ d = 6 \/ d = 7
    \/ d = 8 \/ d = 9)%N as Hcases by lia.
  by destruct_or! Hcases; subst.
Qed.

Lemma read_pretty x n s :
  exists k, read_digits 0 n (pretty_N_go x s) = read_digits (Z.of_N x) (k + n) s
    /\ ((0 < x)%N -> (0 < k)%nat).
Proof.
  revert n s. induction (N.lt_wf_0 x) as [x _ IH]; intros n s.
  destruct (decide (x = 0%N)) as [->|Hx]; [by exists 0%nat|].
  rewrite (pretty_N_go_step x) by lia.
  assert ((x / 10 < x)%N) as Hlt by (apply N.div_lt; lia).
  destruct (IH _ Hlt n (String (pretty_N_char (x mod 10)) s)) as (k & -> & _).
  assert (x mod 10 < 10)%N as Hm by (apply N.mod_lt; lia).
  destruct (pretty_digit _ Hm) as [Hd Hv]. cbn [read_digits]. rewrite Hd, Hv.
  exists (S k). split; [|lia].
  replace (Z.of_N (x / 10) * 10 + Z.of_N (x mod 10)) with (Z.of_N x); [done|].
  rewrite (N.div_mod x 10) at 1 by lia. lia.
Qed.

(** The first digit of a number above zero is none. *)
Lemma pretty_first x s :
  (0 < x)%N ->
  exists c t, pretty_N_go x s = String c t /\ is_digit c = true /\ Ascii.eqb c "0" = false
    /\ Ascii.eqb c "-" = false.
Proof.
  revert s. induction (N.lt_wf_0 x) as [x _ IH]; intros s Hx.
  rewrite (pretty_N_go_step x) by lia.
  destruct (decide (x < 10)%N) as [Hs|Hs].
  - rewrite N.div_small, N.mod_small by done. exists (pretty_N_char x), s.
    split; [done|].
    assert (x = 1 \/ x = 2 \/ x = 3 \/ x = 4 \/ x = 5 \/ x = 6 \/ x = 7 \/ x = 8 \/ x = 9)%N
      as Hcases by lia.
    by destruct_or! Hcases; subst.
  - apply IH; [apply N.div_lt; lia|]. apply N.div_str_pos. lia.
Qed.

Lemma read_digits_stop acc n t : delimited t = true -> read_digits acc n t = (acc, n, t).
Proof.
  destruct t as [|c t]; [done|]. intros [H _]%delimited_head. cbn [read_digits]. by rewrite H.
Qed.

Definition stops (t : string) : Prop := forall acc n, read_digits acc n t = (acc, n, t).

Lemma pretty_N_pos (x : N) : (0 < x)%N -> pretty x = pretty_N_go x "".
Proof. intros Hx. unfold pretty, pretty_N. by rewrite decide_False by lia. Qed.

Lemma read_int_N (x : N) t : stops t -> read_int (pretty x +:+ t) = Some (Z.of_N x, t).
Proof.
  intros Ht. destruct (decide (x = 0%N)) as [->|Hx]; [done|].
  rewrite pretty_N_pos, pretty_N_go_app, append_nil_l by lia.
  destruct (pretty_first x t) as (c & u & Hc & Hd & Hz & _); [lia|].
  unfold read_int. rewrite Hc, Hz, Hd. rewrite <- Hc.
  destruct (read_pretty x 0 t) as (k & -> & _). by rewrite Ht.
Qed.

(** The sign and the digits of an integer. *)
Lemma itoa_sign z :
  itoa z = if z <? 0 then String "-" (pretty (Z.to_N (- z))) else pretty (Z.to_N z).
Proof. by destruct z. Qed.

Lemma pretty_N_head (x : N) : exists c u, pretty x = String c u /\ is_digit c = true /\ Ascii.eqb c "-" = false.
Proof.
  destruct (decide (x = 0%N)) as [->|Hx]; [by exists "0"%char, ""|].
  rewrite pretty_N_pos by lia. destruct (pretty_first x "") as (c & u & Hc & Hd & _ & Hm); [lia|].
  by exists c, u.
Qed.

Lemma split_sign z t :
  stops t ->
  match itoa z +:+ t with
  | String c r => if Ascii.eqb c "-" then (true, r) else (false, itoa z +:+ t)
  | EmptyString => (false, itoa z +:+ t)
  end = (z <? 0, pretty (Z.to_N (Z.abs z)) +:+ t).
Proof.
  intros Ht. rewrite itoa_sign. destruct (z <? 0) eqn:Hz.
  - replace (Z.abs z) with (- z) by lia. by rewrite append_cons.
  - replace (Z.abs z) with z by lia. destruct (pretty_N_head (Z.to_N z)) as (c & u & -> & _ & Hm).
    by rewrite append_cons, Hm.
Qed.

Lemma signed z : (if z <? 0 then - Z.of_N (Z.to_N (Z.abs z)) else Z.of_N (Z.to_N (Z.abs z))) = z.
Proof. destruct (z <? 0) eqn:?; lia. Qed.

Lemma delimited_stops t : delimited t = true -> stops t.
Proof. intros H acc n. by apply read_digits_stop. Qed.

Lemma delimited_no_exp t : delimited t = true -> read_exp t = Some (None, t).
Proof. destruct t as [|c t]; [done|]. intros (_&_&He&HE)%delimited_head. unfold read_exp. by rewrite He, HE. Qed.

Lemma delimited_no_frac m t : delimited t = true -> read_frac m t = Some (None, t).
Proof. destruct t as [|c t]; [done|]. intros (_&Hp&_)%delimited_head. unfold read_frac. by rewrite Hp. Qed.

Lemma read_number_int z t : delimited t = true -> read_number (itoa z +:+ t) = Some (JInt z, t).
Proof.
  intros Ht. unfold read_number. rewrite split_sign by by apply delimited_stops.
  rewrite read_int_N by by apply delimited_stops. cbn [mbind option_bind].
  rewrite delimited_no_frac by done. cbn [mbind option_bind].
  rewrite delimited_no_exp by done. cbn [mbind option_bind]. by rewrite signed.
Qed.

Lemma read_digits_N (x : N) t :
  stops t ->
  exists k, (0 < k)%nat /\ read_digits 0 0 (pretty x +:+ t) = (Z.of_N x, k, t).
Proof.
  intros Ht. destruct (decide (x = 0%N)) as [->|Hx].
  - exists 1%nat. split; [lia|]. cbn. apply Ht.
  - rewrite pretty_N_pos, pretty_N_go_app, append_nil_l by lia.
    destruct (read_pretty x 0 t) as (k & -> & Hk). exists k. rewrite Ht.
    split; [apply Hk; lia|]. by rewrite Nat.add_0_r.
Qed.

Lemma read_exp_int e t :
  delimited t = true -> read_exp ("e" +:+ itoa e +:+ t) = Some (Some e, t).
Proof.
  intros Ht%delimited_stops. change (read_exp ("e" +:+ itoa e +:+ t)) with
    (let '(neg, r) := exp_sign (itoa e +:+ t) in
     let '(e, n, r) := read_digits 0 0 r in
     if (n =? 0)%nat then None else Some (Some (if (neg : bool) then - e else e), r)).
  assert (exp_sign (itoa e +:+ t) = (e <? 0, pretty (Z.to_N (Z.abs e)) +:+ t)) as ->.
  { rewrite itoa_sign. destruct (e <? 0) eqn:He.
    - replace (Z.abs e) with (- e) by lia. by rewrite append_cons.
    - replace (Z.abs e) with e by lia. destruct (pretty_N_head (Z.to_N e)) as (c & u & -> & Hd & Hm).
      rewrite append_cons. unfold exp_sign. rewrite Hm.
      destruct (Ascii.eqb_spec c "+") as [->|_]; done. }
  destruct (read_digits_N (Z.to_N (Z.abs e)) t Ht) as (k & Hk & ->).
  destruct (Nat.eqb_spec k 0) as [->|_]; [lia|]. by rewrite signed.
Qed.

Lemma no_frac_exp m u : read_frac m ("e" +:+ u) = Some (None, "e" +:+ u).
Proof. done. Qed.

Lemma read_number_dec m e t :
  delimited t = true -> read_number (itoa m +:+ "e" +:+ itoa e +:+ t) = Some (JDec m e, t).
Proof.
  intros Ht. unfold read_number. assert (stops ("e" +:+ itoa e +:+ t)) as Hs by done.
  rewrite split_sign, read_int_N by done. cbn [mbind option_bind].
  rewrite no_frac_exp. cbn [mbind option_bind].
  rewrite read_exp_int by done. cbn [mbind option_bind]. by rewrite signed.
Qed.

(** ** Documents read back *)

(** Induction that reaches the elements of arrays and objects. *)
Section json_induction.
Variable P : json -> Prop.
Hypothesis (Hnull : P JNull) (Hbool : forall b, P (JBool b)) (Hint : forall z, P (JInt z))
  (Hdec : forall m e, P (JDec m e)) (Hstr : forall s, P (JString s))
  (Harr : forall items, Forall P items -> P (JArray items))
  (Hobj : forall members, Forall (fun m => P m.2) members -> P (JObject members)).

Fixpoint json_nested_ind (v : json) : P v :=
  match v with
  | JNull => Hnull
  | JBool b => Hbool b
  | JInt z => Hint z
  | JDec m e => Hdec m e
  | JString s => Hstr s
  | JArray items =>
      Harr items ((fix go (items : list json) : Forall P items := match items with
        | [] => Forall_nil_2 _
        | v :: items => Forall_cons_2 _ _ _ (json_nested_ind v) (go items)
        end) items)
  | JObject members =>
      Hobj members ((fix go (members : list (string * json)) : Forall (fun m => P m.2) members := match members with
        | [] => Forall_nil_2 _
        | m :: members => Forall_cons_2 (fun m => P m.2) _ _ (json_nested_ind m.2) (go members)
        end) members)
  end.
End json_induction.

(** A document with the invalid bytes of its strings replaced. *)
Fixpoint valid_json (v : json) : json :=
  match v with
  | JString s => JString (to_valid_utf8 0 s)
  | JArray items => JArray (map valid_json items)
  | JObject members => JObject (map (fun '(k, v) => (to_valid_utf8 0 k, valid_json v)) members)
  | _ => v
  end.

Fixpoint nesting (v : json) : Z :=
  match v with
  | JArray items => 1 + foldr (fun v n => Z.max (nesting v) n) 0 items
  | JObject members => 1 + foldr (fun '(_, v) n => Z.max (nesting v) n) 0 members
  | _ => 0
  end.

Fixpoint blank (u : string) : bool :=
  match u with EmptyString => true | String c u => is_json_space c && blank u end.

Lemma skip_ws_blank u t : blank u = true -> skip_ws (u +:+ t) = skip_ws t.
Proof.
  induction u as [|c u IH]; [done|]. cbn [blank]. intros [Hc Hu]%andb_true_iff.
  rewrite append_cons. cbn [skip_ws]. rewrite Hc. by apply IH.
Qed.

Lemma blank_delimited u t : blank u = true -> delimited t = true -> delimited (u +:+ t) = true.
Proof.
  destruct u as [|c u]; [done|]. cbn [blank]. intros [Hc _]%andb_true_iff _.
  rewrite append_cons. cbn [delimited]. by rewrite Hc.
Qed.

Lemma parse_value_blank f d u t :
  blank u = true -> parse_value f d (u +:+ t) = parse_value f d t.
Proof. intros Hu. destruct f as [|f]; [done|]. cbn [parse_value]. by rewrite skip_ws_blank. Qed.

Lemma parse_items_blank f d u t :
  blank u = true -> parse_items f d (u +:+ t) = parse_items f d t.
Proof. intros Hu. destruct f as [|f]; [done|]. cbn [parse_items]. by rewrite parse_value_blank. Qed.

Lemma parse_members_blank f d u t :
  blank u = true -> parse_members f d (u +:+ t) = parse_members f d t.
Proof. intros Hu. destruct f as [|f]; [done|]. cbn [parse_members]. by rewrite skip_ws_blank. Qed.

(** The first byte of a value tells its kind. *)
Definition starts_number (c : ascii) : bool := is_digit c || Ascii.eqb c "-".

Lemma number_start c r :
  starts_number c = true ->
  is_json_space c = false /\ Ascii.eqb c "{" = false /\ Ascii.eqb c "[" = false
  /\ Ascii.eqb c dquote = false /\ Ascii.eqb c "]" = false
  /\ literal (String c r) = read_number (String c r).
Proof.
  destruct c as [[] [] [] [] [] [] [] []]; intros H; first [discriminate H|by repeat split].
Qed.

Lemma itoa_head z : exists c u, itoa z = String c u /\ starts_number c = true.
Proof.
  rewrite itoa_sign. destruct (z <? 0).
  - by eexists _, _.
  - destruct (pretty_N_head (Z.to_N z)) as (c & u & -> & Hd & _). exists c, u.
    unfold starts_number. by rewrite Hd.
Qed.

Lemma parse_number f d z t :
  parse_value (S f) d (itoa z +:+ t) = read_number (itoa z +:+ t).
Proof.
  destruct (itoa_head z) as (c & u & Hz & Hc).
  rewrite Hz, append_cons. destruct (number_start c (u +:+ t) Hc) as (Hs&Hb&Hk&Hq&_&Hl).
  cbn [parse_value skip_ws]. by rewrite Hs, Hb, Hk, Hq, Hl.
Qed.

Section encoded.
Variables (ws : nat -> string) (sp : string).
Hypotheses (Hws : forall d, blank (ws d) = true) (Hsp : blank sp = true).

(** What a proof about [parse_value] shows of one value. *)
Definition reads_back (v : json) : Prop :=
  forall d f depth t,
    delimited t = true -> nesting v <= depth ->
    (2 * String.length (encode ws sp d v) <= f)%nat ->
    parse_value f depth (encode ws sp d v +:+ t) = Some (valid_json v, t).

Lemma length_append s t : String.length (s +:+ t) = (String.length s + String.length t)%nat.
Proof. induction s as [|c s IH]; [done|]. rewrite append_cons. cbn. by rewrite IH. Qed.

Lemma encode_head d v :
  exists c u, encode ws sp d v = String c u /\ is_json_space c = false /\ Ascii.eqb c "]" = false.
Proof.
  destruct v as [|[]|z|m e|s|items|members]; try by eexists _, _.
  - destruct (itoa_head z) as (c & u & Hz & Hc). exists c, u.
    destruct (number_start c u Hc) as (?&_&_&_&?&_). done.
  - destruct (itoa_head m) as (c & u & Hm & Hc). exists c, (u +:+ "e" +:+ itoa e). cbn [encode].
    rewrite Hm. destruct (number_start c u Hc) as (?&_&_&_&?&_). done.
  - cbn [encode]. unfold bracket. destruct (map _ items); by eexists _, _.
  - cbn [encode]. unfold bracket. destruct (map _ members); by eexists _, _.
Qed.

Lemma encode_length d v : (1 <= String.length (encode ws sp d v))%nat.
Proof. destruct (encode_head d v) as (c & u & -> & _). cbn. lia. Qed.

Lemma closing_delimited d c t :
  Ascii.eqb c "]" || Ascii.eqb c "}" = true -> delimited (ws d +:+ String c t) = true.
Proof using Hws.
  intros Hc. apply blank_delimited; [done|]. cbn [delimited].
  destruct (Ascii.eqb c "]"), (Ascii.eqb c "}"); first [done|by rewrite !orb_true_r].
Qed.

Lemma items_read_back items d f depth t :
  items <> [] -> Forall reads_back items -> Forall (fun v => nesting v <= depth) items ->
  (2 * String.length (Join (map (encode ws sp (S d)) items) ("," +:+ ws (S d))) + 1 <= f)%nat ->
  parse_items f depth
    (Join (map (encode ws sp (S d)) items) ("," +:+ ws (S d)) +:+ ws d +:+ String "]" t)
  = Some (map valid_json items, t).
Proof using Hws.
  intros Hne Hall. revert f Hne. induction Hall as [|v items Hv Hall IH]; intros f Hne Hd Hf; [done|].
  apply Forall_cons in Hd as [Hdv Hd]. destruct f as [|f]; [lia|].
  destruct items as [|v' items].
  - cbn [map Join] in *. cbn [parse_items].
    rewrite Hv by (done || (by apply closing_delimited) || lia). cbn [mbind option_bind].
    by rewrite skip_ws_blank.
  - set (rest := v' :: items) in *.
    rewrite (map_cons _ v rest), Join_cons in * by done.
    rewrite !append_assoc, append_cons, append_nil_l. cbn [parse_items].
    rewrite !length_append in Hf. cbn [String.length] in Hf.
    pose proof (encode_length (S d) v).
    rewrite Hv by (done || lia). cbn [mbind option_bind skip_ws].
    change (is_json_space ",") with false. cbv match.
    change (Ascii.eqb "," ",") with true. cbv match.
    rewrite parse_items_blank, IH by (done || lia). done.
Qed.

Definition member_text (d : nat) (m : string * json) : string :=
  json_quote m.1 +:+ ":" +:+ sp +:+ encode ws sp d m.2.

Definition valid_member (m : string * json) : string * json :=
  (to_valid_utf8 0 m.1, valid_json m.2).

Lemma member_text_app d m t :
  member_text d m +:+ t
  = String dquote (quote_body 0 m.1 +:+ String dquote (String ":" (sp +:+ encode ws sp d m.2 +:+ t))).
Proof.
  unfold member_text, json_quote. repeat (rewrite append_assoc || rewrite append_cons). reflexivity.
Qed.

Lemma member_text_length d m :
  (3 + String.length (encode ws sp d m.2) <= String.length (member_text d m))%nat.
Proof.
  rewrite <- (append_nil_r (member_text d m)), member_text_app, append_nil_r. cbn [String.length].
  rewrite !length_append. cbn [String.length]. rewrite length_append. lia.
Qed.

(** One member, up to what follows its value. *)
Lemma member_reads_back m d f depth t :
  reads_back m.2 -> nesting m.2 <= depth -> delimited t = true ->
  (2 * String.length (member_text d m) <= f)%nat ->
  parse_members (S f) depth (member_text d m +:+ t) =
    match skip_ws t with
    | EmptyString => None
    | String c t =>
        if Ascii.eqb c "," then
          '(vs, t) ← parse_members f depth t; Some (valid_member m :: vs, t)
        else if Ascii.eqb c "}" then Some ([valid_member m], t) else None
    end.
Proof using Hsp.
  destruct m as [k v]. cbn [fst snd]. intros Hv Hd Ht Hf.
  rewrite member_text_app. cbn [parse_members skip_ws fst snd].
  change (is_json_space dquote) with false. cbv match.
  change (negb (Ascii.eqb dquote dquote)) with false. cbv match.
  rewrite unquote_quote_body by lia. cbn [mbind option_bind skip_ws].
  change (is_json_space ":") with false. cbv match.
  change (negb (Ascii.eqb ":" ":")) with false. cbv match.
  rewrite parse_value_blank by done. pose proof (member_text_length d (k, v)) as Hl. cbn in Hl.
  by rewrite Hv by (done || lia).
Qed.

Lemma members_read_back (members : list (string * json)) d f depth t :
  members <> [] -> Forall (fun m => reads_back m.2) members ->
  Forall (fun m => nesting m.2 <= depth) members ->
  (2 * String.length (Join (map (member_text (S d)) members) ("," +:+ ws (S d))) + 1 <= f)%nat ->
  parse_members f depth
    (Join (map (member_text (S d)) members) ("," +:+ ws (S d)) +:+ ws d +:+ String "}" t)
  = Some (map valid_member members, t).
Proof using Hws Hsp.
  intros Hne Hall. revert f Hne. induction Hall as [|m ms Hm Hall IH]; intros f Hne Hd Hf; [done|].
  apply Forall_cons in Hd as [Hdm Hd]. destruct f as [|f]; [lia|].
  destruct ms as [|m' ms].
  - cbn [map Join] in *.
    rewrite member_reads_back by (done || (by apply closing_delimited) || lia).
    by rewrite skip_ws_blank.
  - set (rest := m' :: ms) in *.
    rewrite (map_cons _ m rest), Join_cons in * by done.
    rewrite !length_append in Hf. cbn [String.length] in Hf.
    rewrite !append_assoc, append_cons, append_nil_l.
    rewrite member_reads_back by (done || lia). cbn [skip_ws].
    change (is_json_space ",") with false. cbv match.
    change (Ascii.eqb "," ",") with true. cbv match.
    pose proof (member_text_length (S d) m).
    rewrite parse_members_blank, IH by (done || lia). done.
Qed.

Lemma nesting_items items depth :
  1 + foldr (fun v n => Z.max (nesting v) n) 0 items <= depth ->
  Forall (fun v => nesting v <= depth - 1) items /\ 0 < depth.
Proof.
  intros H. assert (0 <= foldr (fun v n => Z.max (nesting v) n) 0 items) by
    (clear; induction items as [|v vs IH]; cbn; lia).
  split; [|lia]. clear -H. revert H. induction items as [|v vs IH]; intros H; [done|].
  cbn in H. constructor; [lia|]. apply IH. lia.
Qed.

Lemma nesting_members (members : list (string * json)) depth :
  1 + foldr (fun '(_, v) n => Z.max (nesting v) n) 0 members <= depth ->
  Forall (fun m => nesting m.2 <= depth - 1) members /\ 0 < depth.
Proof.
  intros H. assert (0 <= foldr (fun '(_, v) n => Z.max (nesting v) n) 0 members) by
    (clear; induction members as [|[k v] vs IH]; cbn; lia).
  split; [|lia]. clear -H. revert H. induction members as [|[k v] vs IH]; intros H; [done|].
  cbn in H. constructor; [cbn; lia|]. apply IH. lia.
Qed.

(** Reading an array, and an object, that is not empty. *)
Lemma parse_array f depth u :
  0 < depth -> match skip_ws u with EmptyString => False | String c _ => Ascii.eqb c "]" = false end ->
  parse_value (S f) depth (String "[" u)
  = '(items, t) ← parse_items f (depth - 1) u; Some (JArray items, t).
Proof.
  intros Hd Hu. cbn [parse_value skip_ws]. change (is_json_space "[") with false. cbv match.
  change (Ascii.eqb "[" "{") with false. change (Ascii.eqb "[" "[") with true. cbv match.
  rewrite (proj2 (Z.leb_gt depth 0)) by done. destruct (skip_ws u) as [|c u']; [done|]. by rewrite Hu.
Qed.

Lemma parse_object f depth u :
  0 < depth -> match skip_ws u with EmptyString => False | String c _ => Ascii.eqb c "}" = false end ->
  parse_value (S f) depth (String "{" u)
  = '(members, t) ← parse_members f (depth - 1) u; Some (JObject members, t).
Proof.
  intros Hd Hu. cbn [parse_value skip_ws]. change (is_json_space "{") with false. cbv match.
  change (Ascii.eqb "{" "{") with true. cbv match.
  rewrite (proj2 (Z.leb_gt depth 0)) by done. destruct (skip_ws u) as [|c u']; [done|]. by rewrite Hu.
Qed.

Lemma bracket_app l r d parts t :
  parts <> [] ->
  bracket ws l r d parts +:+ t
  = String l (ws (S d) +:+ Join parts ("," +:+ ws (S d)) +:+ ws d +:+ String r t).
Proof.
  destruct parts; [done|]. intros _. unfold bracket.
  by rewrite (append_cons l), !append_assoc.
Qed.

Lemma bracket_length l r d parts :
  parts <> [] ->
  (2 + String.length (Join parts ("," +:+ ws (S d))) <= String.length (bracket ws l r d parts))%nat.
Proof.
  intros Hne. rewrite <- (append_nil_r (bracket _ _ _ _ _)), bracket_app by done.
  cbn [String.length]. rewrite !length_append. cbn [String.length]. lia.
Qed.

Lemma array_reads_back items : Forall reads_back items -> reads_back (JArray items).
Proof using Hws.
  intros Hall d f depth t Ht [Hd Hpos]%nesting_items Hf. cbn [encode valid_json] in *.
  destruct items as [|v items]; [destruct f as [|f]; [cbn in Hf; lia|]; cbn; by
    rewrite (proj2 (Z.leb_gt depth 0)) by done|].
  pose proof (bracket_length "[" "]" d (map (encode ws sp (S d)) (v :: items)) ltac:(done)) as Hlen.
  destruct f as [|f]; [lia|]. rewrite bracket_app, parse_array; [|done|..|done].
  - rewrite parse_items_blank by done.
    by rewrite items_read_back by (done || lia).
  - rewrite skip_ws_blank by done. destruct (encode_head (S d) v) as (c & u & Hv & Hc & Hb).
    destruct items; cbn [map Join]; rewrite Hv, ?append_assoc, append_cons; cbn [skip_ws]; by rewrite Hc.
Qed.

Lemma object_reads_back (members : list (string * json)) :
  Forall (fun m => reads_back m.2) members -> reads_back (JObject members).
Proof using Hws Hsp.
  intros Hall d f depth t Ht [Hd Hpos]%nesting_members Hf. cbn [encode valid_json] in *.
  rewrite (map_ext (fun '(k, v) => (to_valid_utf8 0 k, valid_json v)) valid_member) by by intros [].
  rewrite (map_ext (fun '(k, v) => json_quote k +:+ ":" +:+ sp +:+ encode ws sp (S d) v)
    (member_text (S d))) in * by by intros [].
  destruct members as [|m members]; [destruct f as [|f]; [cbn in Hf; lia|]; cbn; by
    rewrite (proj2 (Z.leb_gt depth 0)) by done|].
  pose proof (bracket_length "{" "}" d (map (member_text (S d)) (m :: members)) ltac:(done)) as Hlen.
  destruct f as [|f]; [lia|]. rewrite bracket_app, parse_object; [|done|..|done].
  - rewrite parse_members_blank by done.
    by rewrite members_read_back by (done || lia).
  - rewrite skip_ws_blank by done.
    destruct members; cbn [map Join]; rewrite ?append_assoc, member_text_app; done.
Qed.

Lemma parse_word w v f depth t :
  (w, v) = ("null", JNull) \/ (w, v) = ("true", JBool true) \/ (w, v) = ("false", JBool false) ->
  parse_value (S f) depth (w +:+ t) = Some (v, t).
Proof.
  intros Hw. assert (literal (w +:+ t) = Some (v, t)) as Hl; [|by destruct_or! Hw; simplify_eq].
  unfold literal. pose proof (HasPrefix_append w t) as Hp.
  destruct_or! Hw; simplify_eq; by rewrite Hp.
Qed.

Lemma encode_reads_back v : reads_back v.
Proof using Hws Hsp.
  induction v as [|b|z|m e|s|items Hall|members Hall] using json_nested_ind;
    [..|by apply array_reads_back|by apply object_reads_back];
    intros d f depth t Ht Hd Hf;
    match type of Hf with (2 * String.length (encode _ _ _ ?v) <= _)%nat =>
      pose proof (encode_length d v) end;
    (destruct f as [|f]; [lia|]); cbn [encode valid_json] in *.
  - apply parse_word; tauto.
  - destruct b; apply parse_word; tauto.
  - by rewrite parse_number, read_number_int.
  - rewrite !append_assoc. rewrite parse_number. by rewrite read_number_dec.
  - unfold json_quote. rewrite append_cons, append_assoc. cbn [parse_value skip_ws].
    change (is_json_space dquote) with false. cbv match.
    change (Ascii.eqb dquote "{") with false. change (Ascii.eqb dquote "[") with false.
    change (Ascii.eqb dquote dquote) with true. cbv match.
    change (str1 dquote +:+ t) with (String dquote t). by rewrite unquote_quote_body by lia.
Qed.
End encoded.

Lemma blank_spaces n : blank (String newline (spaces n)) = true.
Proof. cbn. by induction n. Qed.

(** The fuel of a text is enough for the value it starts with. *)
Lemma parse_encoded ws sp v t :
  (forall d, blank (ws d) = true) -> blank sp = true -> delimited t = true ->
  nesting v <= maxNestingDepth ->
  parse_value (parse_fuel (encode ws sp 0 v +:+ t)) maxNestingDepth (encode ws sp 0 v +:+ t)
  = Some (valid_json v, t).
Proof.
  intros Hws Hsp Ht Hd. apply encode_reads_back; [done..|].
  unfold parse_fuel. rewrite length_append. lia.
Qed.

Lemma json_text_document v : nesting v <= maxNestingDepth -> json_document (json_text v) = Some (valid_json v).
Proof.
  intros Hd. unfold json_document, json_text. rewrite <- (append_nil_r (encode _ _ _ _)).
  by rewrite parse_encoded.
Qed.

Lemma json_indent_document v :
  nesting v <= maxNestingDepth -> json_document (json_indent v) = Some (valid_json v).
Proof.
  intros Hd. unfold json_document, json_indent. rewrite <- (append_nil_r (encode _ _ _ _)).
  rewrite parse_encoded; [done|apply blank_spaces|done..].
Qed.

Lemma json_indent_first v :
  nesting v <= maxNestingDepth -> json_first (json_indent v) = Some (valid_json v).
Proof.
  intros Hd. unfold json_first, json_indent. rewrite <- (append_nil_r (encode _ _ _ _)).
  rewrite parse_encoded; [|apply blank_spaces|done..]. by destruct v.
Qed.

(** UTF-8 strings, and documents of them, read back as they were. *)
Definition is_valid_utf8 (s : string) : bool := String.eqb (to_valid_utf8 0 s) s.

Lemma ascii_valid_utf8 s : all_ascii s = true -> is_valid_utf8 s = true.
Proof.
  intros H. apply String.eqb_eq. induction s as [|c s IH]; [done|]. cbn in *.
  apply andb_true_iff in H as [-> Hs]. by rewrite IH.
Qed.

(** A repaired text is UTF-8. *)
Lemma to_valid_utf8_twice s : to_valid_utf8 0 (to_valid_utf8 0 s) = to_valid_utf8 0 s.
Proof.
  remember (String.length s) as n eqn:Hn. revert s Hn.
  induction n as [n IH] using lt_wf_ind. intros s ->.
  destruct s as [|c r]; [done|].
  assert (forall u, (String.length u <= String.length r)%nat ->
    to_valid_utf8 0 (to_valid_utf8 0 u) = to_valid_utf8 0 u) as IH'
    by (intros u Hu; eapply (IH (String.length u)); [cbn; lia|done]).
  clear IH. cbn [to_valid_utf8]. destruct (byte_of c <? 128) eqn:Hc.
  { cbn [to_valid_utf8]. by rewrite Hc, IH' by lia. }
  destruct (rune_width_cases c r) as [Hw|[(b&u&->&Hw&_)|[(b&d&u&->&Hw&_)|(b&d&e&u&->&Hw&_)]]];
    rewrite Hw; cbn [Nat.pred to_valid_utf8].
  - change (to_valid_utf8 0 (replacement +:+ to_valid_utf8 0 r))
      with (replacement +:+ to_valid_utf8 0 (to_valid_utf8 0 r)). by rewrite IH' by lia.
  - rewrite Hc, (rune_width_2 c b u) by done. cbn [Nat.pred to_valid_utf8].
    by rewrite IH' by (cbn; lia).
  - rewrite Hc, (rune_width_3 c b d u) by done. cbn [Nat.pred to_valid_utf8].
    by rewrite IH' by (cbn; lia).
  - rewrite Hc, (rune_width_4 c b d e _ u), Hw. cbn [Nat.pred to_valid_utf8].
    by rewrite IH' by (cbn; lia).
Qed.

Lemma to_valid_utf8_empty s : String.eqb (to_valid_utf8 0 s) "" = String.eqb s "".
Proof. destruct s as [|c r]; [done|]. cbn [to_valid_utf8]. by repeat case_match. Qed.

Fixpoint utf8_json (v : json) : bool :=
  match v with
  | JString s => is_valid_utf8 s
  | JArray items => forallb utf8_json items
  | JObject members => forallb (fun '(k, v) => is_valid_utf8 k && utf8_json v) members
  | _ => true
  end.

Lemma utf8_valid_json v : utf8_json v = true -> valid_json v = v.
Proof.
  induction v as [| | | |s|items Hall|members Hall] using json_nested_ind; try done.
  - cbn. by intros ->%String.eqb_eq.
  - cbn. intros H. f_equal. induction Hall as [|v vs Hv Hall IH]; [done|]. cbn in *.
    apply andb_true_iff in H as [H1 H2]. by rewrite Hv, IH.
  - cbn. intros H. f_equal. induction Hall as [|[k v] vs Hv Hall IH]; [done|]. cbn in *.
    apply andb_true_iff in H as [[->%String.eqb_eq H1]%andb_true_iff H2]. by rewrite Hv, IH.
Qed.

(** ** The fuel is enough

    A value read is followed by a shorter text, and fuel beyond twice the length
    of the text changes nothing. *)
Lemma skip_ws_length s : (String.length (skip_ws s) <= String.length s)%nat.
Proof. induction s as [|c s IH]; [done|]. cbn [skip_ws]. destruct (is_json_space c); cbn; lia. Qed.

Lemma prepend_inv u x v t :
  prepend u x = Some (v, t) -> exists v', x = Some (v', t).
Proof. destruct x as [[v' t']|]; [|done]. intros [= <- <-]. by eexists. Qed.

Ltac shorter_text IH :=
  match goal with
  | H : prepend _ _ = Some _ |- _ =>
      let v' := fresh in apply prepend_inv in H as [v' H]; eapply IH; [|exact H]; cbn; lia
  end.

Lemma unquote_length k s v t : unquote k s = Some (v, t) -> (String.length t < String.length s)%nat.
Proof.
  remember (String.length s) as n eqn:Hn. revert k s v Hn.
  induction n as [n IH] using lt_wf_ind. intros k s v -> H.
  assert (forall k u v, (String.length u < String.length s)%nat -> unquote k u = Some (v, t) ->
    (String.length t < String.length s)%nat) as IH'.
  { intros k' u v' Hu Hv. specialize (IH _ Hu k' u v' eq_refl Hv). lia. }
  clear IH. destruct s as [|c r]; [done|]. cbn [unquote] in H.
  destruct k as [|k]; [|by shorter_text IH'].
  destruct (Ascii.eqb c dquote); [injection H as _ <-; cbn; lia|].
  destruct (Ascii.eqb c backslash).
  - destruct r as [|e r]; [done|]. destruct (simple_escape e) as [x|]; [by shorter_text IH'|].
    destruct (negb _); [done|]. destruct r as [|h1 [|h2 [|h3 [|h4 r]]]]; try done.
    destruct (getu4 h1 h2 h3 h4) as [n|]; [|done].
    destruct (is_surrogate n); [|by shorter_text IH'].
    destruct r as [|x [|y [|l1 [|l2 [|l3 [|l4 u]]]]]]; try by shorter_text IH'.
    destruct (_ && _); [|by shorter_text IH'].
    destruct (_ ≫= _); by shorter_text IH'.
  - destruct (byte_of c <? 32); [done|]. destruct (byte_of c <? 128); [by shorter_text IH'|].
    destruct (rune_width c r) as [|[|w]]; by shorter_text IH'.
Qed.

Lemma read_digits_length acc n s m k t :
  read_digits acc n s = (m, k, t) -> (String.length t <= String.length s)%nat.
Proof.
  revert acc n. induction s as [|c s IH]; intros acc n; cbn [read_digits].
  - by intros [= <- <- <-].
  - destruct (is_digit c); [|by intros [= <- <- <-]]. intros H%IH. cbn. lia.
Qed.

Lemma read_number_length s v t : read_number s = Some (v, t) -> (String.length t < String.length s)%nat.
Proof.
  unfold read_number.
  set (p := match s with EmptyString => _ | String c r => _ end).
  assert (String.length p.2 <= String.length s)%nat as Hp.
  { unfold p. destruct s as [|c r]; [done|]. destruct (Ascii.eqb c "-"); cbn; lia. }
  destruct p as [neg s1]. cbn [snd] in Hp.
  destruct (read_int s1) as [[m s2]|] eqn:Hi; [|done]. cbn [mbind option_bind].
  destruct (read_frac m s2) as [[fr s3]|] eqn:Hf; [|done]. cbn [mbind option_bind].
  destruct (read_exp s3) as [[e s4]|] eqn:He; [|done]. cbn [mbind option_bind].
  intros [= _ <-].
  assert (String.length s2 < String.length s1)%nat.
  { unfold read_int in Hi. destruct s1 as [|c r]; [done|].
    destruct (Ascii.eqb c "0"); [by simplify_eq/=; lia|]. destruct (is_digit c) eqn:Hc; [|done].
    cbn [read_digits] in Hi. rewrite Hc in Hi.
    destruct (read_digits _ 1 r) as [[m' k'] t'] eqn:Hr. simplify_eq.
    apply read_digits_length in Hr. cbn. lia. }
  assert (String.length s3 <= String.length s2)%nat.
  { unfold read_frac in Hf. destruct s2 as [|c r]; [by simplify_eq|].
    destruct (Ascii.eqb c "."); [|by simplify_eq].
    destruct (read_digits m 0 r) as [[m' k'] t'] eqn:Hr. destruct (k' =? 0)%nat; [done|].
    simplify_eq. apply read_digits_length in Hr. cbn. lia. }
  assert (String.length s4 <= String.length s3)%nat; [|lia].
  unfold read_exp in He. destruct s3 as [|c r]; [by simplify_eq|].
  destruct (Ascii.eqb c "e" || Ascii.eqb c "E"); [|by simplify_eq].
  destruct (exp_sign r) as [neg' r'] eqn:Hs.
  assert (String.length r' <= String.length r)%nat.
  { unfold exp_sign in Hs. repeat case_match; simplify_eq/=; lia. }
  destruct (read_digits 0 0 r') as [[m' k'] t'] eqn:Hr. destruct (k' =? 0)%nat; [done|].
  simplify_eq. apply read_digits_length in Hr. cbn. lia.
Qed.

Lemma drop_bytes_length n s : String.length (drop_bytes n s) = (String.length s - n)%nat.
Proof. revert s. induction n as [|n IH]; intros s; [cbn; lia|]. destruct s as [|c s]; [done|]. cbn. apply IH. Qed.

Lemma literal_length c r v t :
  literal (String c r) = Some (v, t) -> (String.length t < S (String.length r))%nat.
Proof.
  unfold literal. repeat case_match; intros H'; simplify_eq; cbn [String.length];
    try (rewrite drop_bytes_length; cbn [String.length]; lia).
  by apply read_number_length in H'.
Qed.

Ltac text_lengths :=
  repeat match goal with
  | H : unquote _ _ = Some (_, _) |- _ => apply unquote_length in H
  | H : literal (String _ _) = Some (_, _) |- _ => apply literal_length in H
  | H : skip_ws ?s = String _ _ |- _ =>
      apply (f_equal String.length) in H; pose proof (skip_ws_length s);
      cbn [String.length] in H
  end; cbn [String.length] in *.

Lemma parse_length f :
  (forall d s v t, parse_value f d s = Some (v, t) -> (String.length t < String.length s)%nat)
  /\ (forall d s v t, parse_items f d s = Some (v, t) -> (String.length t < String.length s)%nat)
  /\ (forall d s v t, parse_members f d s = Some (v, t) -> (String.length t < String.length s)%nat).
Proof.
  induction f as [|f (IHv & IHi & IHm)]; [by repeat split|].
  repeat split; intros d s v t H; cbn [parse_value parse_items parse_members] in H.
  - destruct (skip_ws s) as [|c r] eqn:Hs; [done|]. unfold mbind, option_bind in H.
    repeat case_match; simplify_eq; text_lengths;
      repeat match goal with
      | H : parse_items _ _ _ = _ |- _ => apply IHi in H
      | H : parse_members _ _ _ = _ |- _ => apply IHm in H
      end; lia.
  - unfold mbind, option_bind in H.
    repeat case_match; simplify_eq;
      repeat match goal with
      | H : parse_items _ _ _ = _ |- _ => apply IHi in H
      | H : parse_value _ _ _ = _ |- _ => apply IHv in H
      end; text_lengths; lia.
  - unfold mbind, option_bind in H.
    repeat case_match; simplify_eq;
      repeat match goal with
      | H : parse_members _ _ _ = _ |- _ => apply IHm in H
      | H : parse_value _ _ _ = _ |- _ => apply IHv in H
      end; text_lengths; lia.
Qed.

Lemma parse_enough_all f :
  (forall f' d s, (2 * String.length s + 1 <= f)%nat -> (2 * String.length s + 1 <= f')%nat ->
     parse_value f d s = parse_value f' d s)
  /\ (forall f' d s, (2 * String.length s + 2 <= f)%nat -> (2 * String.length s + 2 <= f')%nat ->
     parse_items f d s = parse_items f' d s)
  /\ (forall f' d s, (2 * String.length s + 2 <= f)%nat -> (2 * String.length s + 2 <= f')%nat ->
     parse_members f d s = parse_members f' d s).
Proof.
  induction f as [|f (IHv & IHi & IHm)]; [by repeat split; intros; lia|].
  repeat split; intros [|f'] d s Hf Hf'; try lia; cbn [parse_value parse_items parse_members].
  - destruct (skip_ws s) as [|c r] eqn:Hs; [done|]. text_lengths.
    by rewrite (IHi f'), (IHm f') by lia.
  - rewrite (IHv f') by lia.
    destruct (parse_value f' d s) as [[v r]|] eqn:Hv; [|done]. cbn [mbind option_bind].
    apply (parse_length f') in Hv.
    destruct (skip_ws r) as [|c t] eqn:Hr; [done|]. text_lengths. by rewrite (IHi f') by lia.
  - destruct (skip_ws s) as [|q r] eqn:Hs; [done|]. destruct (negb _); [done|].
    destruct (unquote 0 r) as [[k r']|] eqn:Hk; [|done]. cbn [mbind option_bind].
    destruct (skip_ws r') as [|c u] eqn:Hr; [done|]. destruct (negb _); [done|]. text_lengths.
    rewrite (IHv f') by lia.
    destruct (parse_value f' d u) as [[v t]|] eqn:Hv; [|done]. cbn [mbind option_bind].
    apply (parse_length f') in Hv.
    destruct (skip_ws t) as [|c' t'] eqn:Ht; [done|]. text_lengths. by rewrite (IHm f') by lia.
Qed.

(** The reader's fuel is enough: with more it reads the same. *)
Lemma parse_enough f d s :
  (parse_fuel s <= f)%nat -> parse_value f d s = parse_value (parse_fuel s) d s.
Proof. intros Hf. apply (parse_enough_all f); unfold parse_fuel in *; lia. Qed.

(** ** One line per document

    The compact text of a document has no line break in it. *)
Lemma escape_ascii_line c : has_byte newline (escape_ascii c) = false.
Proof. by destruct c as [[] [] [] [] [] [] [] []]. Qed.

Lemma high_no_newline c : 128 <= byte_of c -> Ascii.eqb c newline = false.
Proof. intros Hc. destruct (Ascii.eqb_spec c newline) as [->|]; [|done]. by vm_compute in Hc. Qed.

Lemma quote_body_line s : has_byte newline (quote_body 0 s) = false.
Proof.
  remember (String.length s) as n eqn:Hn. revert s Hn.
  induction n as [n IH] using lt_wf_ind. intros s ->. destruct s as [|c r]; [done|].
  assert (forall u, (String.length u <= String.length r)%nat ->
    has_byte newline (quote_body 0 u) = false) as IH'.
  { intros u Hu. apply (IH (String.length u)); [cbn; lia|done]. }
  clear IH. cbn [quote_body]. destruct (byte_of c <? 128) eqn:Hc.
  { by rewrite has_byte_append, escape_ascii_line, IH'. }
  apply Z.ltb_ge in Hc.
  destruct (rune_width_cases c r) as
    [Hw|[(b&u&->&Hw&Hr&?)|[(b&d&u&->&Hw&Hr&?&?)|(b&d&e&u&->&Hw&Hr&?&?&?)]]];
    rewrite Hw; cbn [Nat.pred].
  1: { rewrite has_byte_append. by apply IH'. }
  all: destruct (is_separator _ _) eqn:Hsep;
    [apply separator_inv in Hsep as (d0&u0&Hu0&->&Hd0); simplify_eq|].
  1, 5: by vm_compute in Hr; destruct Hr.
  2: { rewrite has_byte_append. cbn [has_byte]. rewrite IH' by (cbn; lia).
       by destruct_or! Hd0; subst. }
  all: cbn [quote_body has_byte]; rewrite !high_no_newline by lia; cbn [orb];
    apply IH'; cbn; lia.
Qed.

Lemma json_quote_line s : has_byte newline (json_quote s) = false.
Proof. unfold json_quote. cbn [has_byte]. by rewrite has_byte_append, quote_body_line. Qed.

Lemma pretty_line x s : has_byte newline (pretty_N_go x s) = has_byte newline s.
Proof.
  revert s. induction (N.lt_wf_0 x) as [x _ IH]; intros s.
  destruct (decide (x = 0%N)) as [->|Hx]; [done|]. rewrite (pretty_N_go_step x) by lia.
  rewrite IH by (apply N.div_lt; lia). cbn [has_byte].
  assert (x mod 10 < 10)%N as Hm by (apply N.mod_lt; lia).
  destruct (pretty_digit _ Hm) as [Hd _].
  by destruct (Ascii.eqb_spec (pretty_N_char (x mod 10)) newline) as [He|_]; [rewrite He in Hd|].
Qed.

Lemma itoa_line z : has_byte newline (itoa z) = false.
Proof.
  assert (forall x : N, has_byte newline (pretty x) = false) as Hp.
  { intros x. destruct (decide (x = 0%N)) as [->|Hx]; [done|].
    by rewrite pretty_N_pos, pretty_line by lia. }
  rewrite itoa_sign. destruct (z <? 0); [cbn [has_byte]|]; by rewrite Hp.
Qed.

Lemma Join_line parts sep :
  has_byte newline sep = false -> Forall (fun p => has_byte newline p = false) parts ->
  has_byte newline (Join parts sep) = false.
Proof.
  intros Hs. induction 1 as [|p ps Hp Hps IH]; [done|]. destruct ps as [|q ps]; [done|].
  by rewrite Join_cons, !has_byte_append, Hp, Hs, IH.
Qed.

Lemma bracket_line l r d parts :
  Ascii.eqb l newline = false -> Ascii.eqb r newline = false ->
  Forall (fun p => has_byte newline p = false) parts ->
  has_byte newline (bracket (fun _ => "") l r d parts) = false.
Proof.
  intros Hl Hr Hp. unfold bracket. destruct parts as [|p parts].
  - unfold str1. cbn [has_byte]. by rewrite Hl, Hr.
  - cbn [has_byte]. rewrite Hl, !append_nil_l, has_byte_append, Join_line by done.
    unfold str1. cbn [has_byte]. by rewrite Hr.
Qed.

Lemma json_text_line v : has_byte newline (json_text v) = false.
Proof.
  unfold json_text. generalize 0%nat as d.
  induction v as [|b|z|m e|s|items Hall|members Hall] using json_nested_ind; intros d;
    cbn [encode].
  - done.
  - by destruct b.
  - apply itoa_line.
  - by rewrite !has_byte_append, !itoa_line.
  - apply json_quote_line.
  - apply bracket_line; [done..|]. apply Forall_map. by eapply Forall_impl; [exact Hall|].
  - apply bracket_line; [done..|]. apply Forall_map. eapply Forall_impl; [exact Hall|].
    intros [k v] Hv. cbn [snd] in Hv. by rewrite !has_byte_append, json_quote_line, Hv.
Qed.
