(* ===== verification/GoFlag.v ===== *)
(** * Go's [flag], [strconv.ParseInt], [strconv.ParseBool] and [time.ParseDuration]

    A flag set is the list of its flags: a name and how a value's text changes the
    record of the program's settings.  [Parse] is [FlagSet.Parse]: it reads
    arguments until the first that is no flag. *)
From Stdlib Require Import SpecFloat.
From S2P Require Import Prelude GoString GoTime GoFloat JsonText.
From stdpp Require Import options.

Open Scope Z_scope.

(** ** Integers: [strconv.ParseInt(s, 0, 64)] *)
Inductive strconv_error := ErrSyntax | ErrRange.

Definition digit_of (c : ascii) : option Z :=
  if is_digit c then Some (byte_of c - 48)
  else if is_lower (lower c) then Some (byte_of (lower c) - 87)
  else None.

(** The digits in [base], with underscores between them. *)
Fixpoint read_base (base n : Z) (s : string) : strconv_error + Z :=
  match s with
  | EmptyString => inr n
  | String c s =>
      if Ascii.eqb c "_" then read_base base n s
      else
        match digit_of c with
        | None => inl ErrSyntax
        | Some d =>
            if base <=? d then inl ErrSyntax
            else if 2 ^ 64 - 1 <? n * base + d then inl ErrRange
            else read_base base (n * base + d) s
        end
  end.

(** The base a number's prefix names, and what follows the prefix. *)
Definition base_prefix (s : string) : Z * string :=
  match s with
  | String a r =>
      if Ascii.eqb a "0" then
        match r with
        | String b (String _ _ as digits) =>
            if Ascii.eqb (lower b) "b" then (2, digits)
            else if Ascii.eqb (lower b) "o" then (8, digits)
            else if Ascii.eqb (lower b) "x" then (16, digits)
            else (8, r)
        | _ => (8, r)
        end
      else (10, s)
  | EmptyString => (10, s)
  end.

(** [underscoreOK]: an underscore stands between digits or behind a prefix. *)
Inductive seen := SawStart | SawDigit | SawUnderscore | SawOther.

Fixpoint underscores_ok (hex : bool) (saw : seen) (s : string) : bool :=
  match s with
  | EmptyString => match saw with SawUnderscore => false | _ => true end
  | String c s =>
      if is_digit c || (hex && in_range 97 102 (lower c)) then underscores_ok hex SawDigit s
      else if Ascii.eqb c "_" then
        match saw with SawDigit => underscores_ok hex SawUnderscore s | _ => false end
      else match saw with SawUnderscore => false | _ => underscores_ok hex SawOther s end
  end.

Definition underscoreOK (s : string) : bool :=
  match s with
  | String a (String b r) =>
      if Ascii.eqb a "0" && (Ascii.eqb (lower b) "b" || Ascii.eqb (lower b) "o"
                             || Ascii.eqb (lower b) "x")
      then underscores_ok (Ascii.eqb (lower b) "x") SawDigit r
      else underscores_ok false SawStart s
  | _ => underscores_ok false SawStart s
  end.

Definition ParseUint (s : string) : strconv_error + Z :=
  if String.eqb s "" then inl ErrSyntax
  else
    let (base, digits) := base_prefix s in
    match read_base base 0 digits with
    | inr n => if has_byte "_" digits && negb (underscoreOK s) then inl ErrSyntax else inr n
    | e => e
    end.

Definition ParseInt0 (s : string) : strconv_error + Z :=
  let (neg, digits) :=
    match s with
    | String c r =>
        if Ascii.eqb c "+" then (false, r)
        else if Ascii.eqb c "-" then (true, r) else (false, s)
    | EmptyString => (false, s)
    end in
  match ParseUint digits with
  | inl e => inl e
  | inr n =>
      if negb neg && (2 ^ 63 <=? n) then inl ErrRange
      else if neg && (2 ^ 63 <? n) then inl ErrRange
      else inr (if neg then - n else n)
  end.

Example ParseInt0_hex : ParseInt0 "-0x_1F" = inr (-31).
Proof. reflexivity. Qed.
Example ParseInt0_octal : ParseInt0 "010" = inr 8.
Proof. reflexivity. Qed.
Example ParseInt0_underscores : (ParseInt0 "1_000", ParseInt0 "1__0", ParseInt0 "_1")
  = (inr 1000, inl ErrSyntax, inl ErrSyntax).
Proof. reflexivity. Qed.
Example ParseInt0_range : (ParseInt0 "9223372036854775808", ParseInt0 "-9223372036854775808")
  = (inl ErrRange, inr (- 2 ^ 63)).
Proof. reflexivity. Qed.

(** ** Booleans *)
Definition ParseBool (s : string) : option bool :=
  if bool_decide (s ∈ ["1"; "t"; "T"; "TRUE"; "true"; "True"]) then Some true
  else if bool_decide (s ∈ ["0"; "f"; "F"; "FALSE"; "false"; "False"]) then Some false
  else None.

(** ** Durations *)
Fixpoint leading_int (x : Z) (s : string) : option (Z * string) :=
  match s with
  | String c r =>
      if is_digit c then
        if 2 ^ 63 / 10 <? x then None
        else
          let x := x * 10 + (byte_of c - 48) in
          if 2 ^ 63 <? x then None else leading_int x r
      else Some (x, s)
  | EmptyString => Some (x, s)
  end.

Fixpoint leading_fraction (x : Z) (scale : float64) (overflow : bool) (s : string)
    : Z * float64 * string :=
  match s with
  | String c r =>
      if is_digit c then
        if overflow || ((2 ^ 63 - 1) / 10 <? x) then leading_fraction x scale true r
        else
          let y := x * 10 + (byte_of c - 48) in
          if 2 ^ 63 <? y then leading_fraction x scale true r
          else leading_fraction y (fmul scale (f64 10)) false r
      else (x, scale, s)
  | EmptyString => (x, scale, s)
  end.

(** A unit ends at the next digit or point. *)
Fixpoint span_unit (s : string) : string * string :=
  match s with
  | String c r =>
      if is_digit c || Ascii.eqb c "." then ("", s)
      else let (u, rest) := span_unit r in (String c u, rest)
  | EmptyString => ("", "")
  end.

(** The micro sign is U+00B5 or U+03BC. *)
Definition unit_value (u : string) : option Z :=
  if String.eqb u "ns" then Some 1
  else if String.eqb u "us" || String.eqb u "µs" || String.eqb u "μs" then Some 1000
  else if String.eqb u "ms" then Some 1000000
  else if String.eqb u "s" then Some Second
  else if String.eqb u "m" then Some (60 * Second)
  else if String.eqb u "h" then Some (3600 * Second)
  else None.

(** The conversion of a float64 that is at least 0 to an integer. *)
Definition trunc_float (x : float64) : Z :=
  match x with
  | S754_finite false m e => if 0 <=? e then Z.pos m * 2 ^ e else Z.pos m / 2 ^ (- e)
  | _ => 0
  end.

(** One term of a duration: a number and its unit. *)
Definition duration_term (s : string) : option (Z * string) :=
  '(v, s1) ← leading_int 0 s;
  let pre := negb (Nat.eqb (String.length s1) (String.length s)) in
  let '(f, scale, s2, post) :=
    match s1 with
    | String c r =>
        if Ascii.eqb c "." then
          let '(f, scale, s2) := leading_fraction 0 (f64 1) false r in
          (f, scale, s2, negb (Nat.eqb (String.length s2) (String.length r)))
        else (0, f64 1, s1, false)
    | EmptyString => (0, f64 1, s1, false)
    end in
  if negb pre && negb post then None
  else
    let (u, rest) := span_unit s2 in
    unit ← unit_value u;
    if 2 ^ 63 / unit <? v then None
    else
      let v := v * unit in
      let v := if 0 <? f then v + trunc_float (fmul (f64 f) (fdiv (f64 unit) scale)) else v in
      if (0 <? f) && (2 ^ 63 <? v) then None else Some (v, rest).

(** The sum of the terms, as a uint64.  Each term has a unit, so as many rounds as
    bytes are enough. *)
Fixpoint duration_terms (fuel : nat) (d : Z) (s : string) : option Z :=
  match fuel with
  | O => if String.eqb s "" then Some d else None
  | S fuel =>
      if String.eqb s "" then Some d
      else
        '(v, rest) ← duration_term s;
        let d := (d + v) mod 2 ^ 64 in
        if 2 ^ 63 <? d then None else duration_terms fuel d rest
  end.

Definition ParseDuration (s : string) : option duration :=
  let (neg, s) :=
    match s with
    | String c r => if Ascii.eqb c "-" then (true, r)
                    else if Ascii.eqb c "+" then (false, r) else (false, s)
    | EmptyString => (false, s)
    end in
  if String.eqb s "0" then Some 0
  else if String.eqb s "" then None
  else
    d ← duration_terms (String.length s) 0 s;
    if neg then Some (- d) else if 2 ^ 63 - 1 <? d then None else Some d.

Example ParseDuration_hours : ParseDuration "1h1m1.5s" = Some 3661500000000.
Proof. vm_compute. reflexivity. Qed.
Example ParseDuration_fraction : ParseDuration "-1.00000001h" = Some (-3600000036000).
Proof. vm_compute. reflexivity. Qed.
Example ParseDuration_bare : ParseDuration "300" = None.
Proof. vm_compute. reflexivity. Qed.

(** ** Flag sets *)

(** The value of a flag; the kind of value stays what the flag was declared with. *)
Inductive value :=
  | VString (s : string)
  | VBool (b : bool)
  | VInt (n : Z)
  | VDuration (d : duration).

#[export] Instance value_eq_dec : EqDecision value.
Proof. solve_decision. Defined.

(** [flag.Value.Set]. *)
Definition Set_value (v : value) (text : string) : option value :=
  match v with
  | VString _ => Some (VString text)
  | VBool _ => VBool <$> ParseBool text
  | VInt _ => match ParseInt0 text with inr n => Some (VInt n) | inl _ => None end
  | VDuration _ => VDuration <$> ParseDuration text
  end.

Definition is_bool (v : value) : bool := match v with VBool _ => true | _ => false end.

(** What an argument is to the parser: a word, the end of the flags, bad syntax, or
    a flag with perhaps its value. *)
Inductive argument :=
  | Word
  | Terminator
  | Malformed
  | Flag (name : string) (value : option string).

Definition read_flag (name : string) : argument :=
  match name with
  | EmptyString => Malformed
  | String c _ =>
      if Ascii.eqb c "-" || Ascii.eqb c "=" then Malformed
      else let (n, v) := SplitN2 name "=" in Flag n v
  end.

Definition read_argument (s : string) : argument :=
  match s with
  | String a (String b r as name) =>
      if negb (Ascii.eqb a "-") then Word
      else if Ascii.eqb b "-" then (if String.eqb r "" then Terminator else read_flag r)
      else read_flag name
  | _ => Word
  end.

Inductive flag_error :=
  | ErrHelp
  | BadSyntax (arg : string)
  | NotDefined (name : string)
  | NeedsArgument (name : string)
  | InvalidValue (value name : string).

(** With [flag.ExitOnError]. *)
Definition exit_code (e : flag_error) : Z := match e with ErrHelp => 0 | _ => 2 end.

(** The flags by name, with their values so far. *)
Abbreviation FlagSet := (gmap string value).

Fixpoint Parse (args : list string) (formal : FlagSet) : flag_error + FlagSet * list string :=
  match args with
  | [] => inr (formal, [])
  | s :: rest =>
      match read_argument s with
      | Word => inr (formal, args)
      | Terminator => inr (formal, rest)
      | Malformed => inl (BadSyntax s)
      | Flag name given =>
          match formal !! name with
          | None =>
              if String.eqb name "help" || String.eqb name "h" then inl ErrHelp
              else inl (NotDefined name)
          | Some v =>
              match given, is_bool v, rest with
              | Some text, _, rest | None, false, text :: rest =>
                  match Set_value v text with
                  | Some v => Parse rest (<[name := v]> formal)
                  | None => inl (InvalidValue text name)
                  end
              | None, true, rest => Parse rest (<[name := VBool true]> formal)
              | None, false, [] => inl (NeedsArgument name)
              end
          end
      end
  end.

(** Whether an argument names a flag. *)
Definition names (s name : string) : bool :=
  match read_argument s with Flag n _ => String.eqb n name | _ => false end.

(** A flag no argument names keeps its value. *)
Lemma Parse_keeps name args formal formal' rest :
  (forall s, s ∈ args -> names s name = false) ->
  Parse args formal = inr (formal', rest) -> formal' !! name = formal !! name.
Proof.
  remember (length args) as n eqn:Hn. revert args Hn formal.
  induction (Nat.lt_wf_0 n) as [n _ IH]. intros args -> formal Hargs Hp.
  destruct args as [|s args]; [by injection Hp as <- _|]. cbn in Hp.
  destruct (read_argument s) as [| | |name' given] eqn:Hs;
    [by injection Hp as <- _|by injection Hp as <- _|done|].
  destruct (formal !! name') as [v|] eqn:Hv; [|by destruct (_ || _)].
  assert (name' <> name) as Hne.
  { intros ->. specialize (Hargs s ltac:(left)). unfold names in Hargs. rewrite Hs in Hargs.
    by apply String.eqb_neq in Hargs. }
  assert (forall args' v', args' `sublist_of` args ->
    Parse args' (<[name' := v']> formal) = inr (formal', rest) ->
    formal' !! name = formal !! name) as Hnext.
  { intros args' v' Hsub Hp'. rewrite <- (lookup_insert_ne formal name' name v') by done.
    apply (IH (length args')) with (args := args'); [|done| |done].
    - apply sublist_length in Hsub. cbn. lia.
    - intros s' Hs'. apply Hargs. right. by eapply elem_of_sublist. }
  destruct given as [text|], (is_bool v), args as [|text' args]; try done;
    try (destruct (Set_value v _) as [v'|]; [|done]);
    (eapply Hnext; [|exact Hp]); done || by apply sublist_cons.
Qed.

(** ** Values written and read again *)

(** A reader that takes in a number digit by digit reads a printed one. *)
Lemma read_decimal {X} (rd : Z -> string -> X) bound x s :
  (forall n d s, (d < 10)%N -> 0 <= n -> n * 10 + Z.of_N d <= bound ->
     rd n (String (pretty_N_char d) s) = rd (n * 10 + Z.of_N d) s) ->
  Z.of_N x <= bound -> rd 0 (pretty_N_go x s) = rd (Z.of_N x) s.
Proof.
  intros Hrd. revert s. induction (N.lt_wf_0 x) as [x _ IH]; intros s Hb.
  destruct (decide (x = 0%N)) as [->|Hx]; [done|]. rewrite (pretty_N_go_step x) by lia.
  assert ((x / 10 < x)%N) as Hlt by (apply N.div_lt; lia).
  assert (x mod 10 < 10)%N as Hm by (apply N.mod_lt; lia).
  assert (Z.of_N x = Z.of_N (x / 10) * 10 + Z.of_N (x mod 10)) as Hv
    by (rewrite (N.div_mod x 10) at 1 by lia; lia).
  rewrite IH, Hrd, Hv by lia. done.
Qed.

Lemma pretty_char_facts d : (d < 10)%N ->
  digit_of (pretty_N_char d) = Some (Z.of_N d) /\ Ascii.eqb (pretty_N_char d) "_" = false
  /\ Ascii.eqb (pretty_N_char d) "+" = false /\ Ascii.eqb (pretty_N_char d) "-" = false.
Proof.
  intros Hd. assert (d = 0 \/ d = 1 \/ d = 2 \/ d = 3 \/ d = 4 \/ d = 5 \/ d = 6 \/ d = 7
    \/ d = 8 \/ d = 9)%N as Hcases by lia.
  by destruct_or! Hcases; subst.
Qed.

Lemma read_base_pretty x : Z.of_N x <= 2 ^ 64 - 1 -> read_base 10 0 (pretty_N_go x "") = inr (Z.of_N x).
Proof.
  intros Hx. apply (read_decimal (read_base 10) (2 ^ 64 - 1)); [|done].
  intros n d s Hd Hn Hb. cbn [read_base].
  destruct (pretty_char_facts d Hd) as (-> & -> & _).
  assert (10 <=? Z.of_N d = false) as -> by (apply Z.leb_gt; lia).
  by assert (2 ^ 64 - 1 <? n * 10 + Z.of_N d = false) as -> by (apply Z.ltb_ge; lia).
Qed.

Lemma leading_int_pretty x s : Z.of_N x <= 2 ^ 63 ->
  leading_int 0 (pretty_N_go x s) = leading_int (Z.of_N x) s.
Proof.
  intros Hx. apply (read_decimal leading_int (2 ^ 63)); [|done].
  intros n d t Hd Hn Hb. cbn [leading_int]. destruct (pretty_digit d Hd) as [-> ->].
  assert (2 ^ 63 / 10 <? n = false) as ->.
  { apply Z.ltb_ge. apply Z.div_le_lower_bound; lia. }
  by assert (2 ^ 63 <? n * 10 + Z.of_N d = false) as -> by (apply Z.ltb_ge; lia).
Qed.

Lemma no_underscore x s : has_byte "_" (pretty_N_go x s) = has_byte "_" s.
Proof.
  revert s. induction (N.lt_wf_0 x) as [x _ IH]; intros s.
  destruct (decide (x = 0%N)) as [->|Hx]; [done|]. rewrite (pretty_N_go_step x) by lia.
  rewrite IH by (apply N.div_lt; lia). cbn [has_byte].
  destruct (pretty_char_facts (x mod 10)) as (_ & -> & _); [|done]. apply N.mod_lt. lia.
Qed.

Lemma ParseUint_pretty (x : N) : Z.of_N x <= 2 ^ 64 - 1 -> ParseUint (pretty x) = inr (Z.of_N x).
Proof.
  intros Hx. destruct (decide (x = 0%N)) as [->|Hne]; [done|].
  rewrite pretty_N_pos by lia. destruct (pretty_first x "") as (c & t & Hc & _ & Hz & _); [lia|].
  unfold ParseUint, base_prefix. rewrite Hc, Hz. cbn [String.eqb]. rewrite <- Hc.
  by rewrite read_base_pretty, no_underscore.
Qed.

Lemma ParseInt0_itoa z : int64_range z -> ParseInt0 (itoa z) = inr z.
Proof.
  unfold int64_range, int64_min, int64_max. intros Hz. unfold ParseInt0. rewrite itoa_sign.
  destruct (Z.ltb_spec z 0) as [Hneg|Hpos].
  - cbn. rewrite ParseUint_pretty by lia.
    assert (2 ^ 63 <? Z.of_N (Z.to_N (- z)) = false) as -> by (apply Z.ltb_ge; lia).
    cbn. f_equal. lia.
  - destruct (pretty_N_head (Z.to_N z)) as (c & u & Hc & Hd & Hm). rewrite Hc, Hm.
    destruct (Ascii.eqb_spec c "+") as [->|_]; [done|]. rewrite <- Hc, ParseUint_pretty by lia.
    assert (2 ^ 63 <=? Z.of_N (Z.to_N z) = false) as -> by (apply Z.leb_gt; lia).
    cbn. f_equal. lia.
Qed.

Lemma ParseBool_fmt b : ParseBool (fmt_bool b) = Some b.
Proof. by destruct b. Qed.

(** A duration in nanoseconds, as an argument gives it. *)
Definition nanoseconds (d : duration) : string := itoa d +:+ "ns".

Lemma duration_term_ns (x : N) : Z.of_N x <= 2 ^ 63 ->
  duration_term (pretty x +:+ "ns") = Some (Z.of_N x, "").
Proof.
  intros Hx.
  assert (leading_int 0 (pretty x +:+ "ns") = Some (Z.of_N x, "ns")) as Hlead.
  { destruct (decide (x = 0%N)) as [->|Hne]; [done|].
    by rewrite pretty_N_pos, pretty_N_go_app, append_nil_l, leading_int_pretty by lia. }
  unfold duration_term. rewrite Hlead. destruct (pretty_N_head x) as (c & u & -> & _).
  cbn -[Z.div Z.pow span_unit unit_value]. rewrite length_append, Nat.add_comm.
  cbn -[Z.div Z.pow span_unit unit_value]. change (span_unit "ns") with ("ns", "").
  change (unit_value "ns") with (Some 1). cbn -[Z.div Z.pow].
  assert (2 ^ 63 / 1 <? Z.of_N x = false) as -> by (apply Z.ltb_ge; rewrite Z.div_1_r; lia).
  by rewrite Z.mul_1_r.
Qed.

Lemma ParseDuration_nanoseconds d : int64_range d -> ParseDuration (nanoseconds d) = Some d.
Proof.
  unfold int64_range, int64_min, int64_max. intros Hd. unfold ParseDuration, nanoseconds.
  assert (forall x : N, Z.of_N x <= 2 ^ 63 ->
    String.eqb (pretty x +:+ "ns") "0" = false /\ String.eqb (pretty x +:+ "ns") "" = false
    /\ duration_terms (String.length (pretty x +:+ "ns")) 0 (pretty x +:+ "ns") = Some (Z.of_N x)) as Hx.
  { intros x Hx. destruct (pretty_N_head x) as (c & u & Hc & _).
    split; [rewrite Hc; destruct u; apply String.eqb_neq; discriminate|].
    split; [by rewrite Hc|].
    rewrite Hc at 1. change (String.length (String c u +:+ "ns")) with (S (String.length (u +:+ "ns"))).
    cbn [duration_terms]. assert (String.eqb (pretty x +:+ "ns") "" = false) as -> by (by rewrite Hc).
    rewrite duration_term_ns by done. cbn [mbind option_bind].
    rewrite Z.add_0_l, Z.mod_small by lia.
    assert (2 ^ 63 <? Z.of_N x = false) as -> by (apply Z.ltb_ge; lia).
    by destruct (String.length _). }
  rewrite itoa_sign. destruct (Z.ltb_spec d 0) as [Hneg|Hpos].
  - destruct (Hx (Z.to_N (- d))) as (H0 & H1 & H2); [lia|]. rewrite append_cons. cbn.
    rewrite H0, H1, H2. cbn. f_equal. lia.
  - destruct (Hx (Z.to_N d)) as (H0 & H1 & H2); [lia|].
    destruct (pretty_N_head (Z.to_N d)) as (c & u & Hc & Hdig & Hm).
    rewrite Hc in *. rewrite append_cons in *. rewrite Hm.
    destruct (Ascii.eqb_spec c "+") as [->|_]; [done|]. rewrite H0, H1, H2. cbn [mbind option_bind].
    assert (2 ^ 63 - 1 <? Z.of_N (Z.to_N d) = false) as -> by (apply Z.ltb_ge; lia).
    f_equal. lia.
Qed.

(** A term takes at least its unit. *)
Lemma leading_int_length x s n rest :
  leading_int x s = Some (n, rest) -> (String.length rest <= String.length s)%nat.
Proof.
  revert x. induction s as [|c s IH]; intros x; cbn; [by intros [= <- <-]|].
  destruct (is_digit c); [|by intros [= <- <-]]. destruct (_ <? x); [done|].
  destruct (_ <? _); [done|]. intros H%IH. lia.
Qed.

Lemma leading_fraction_length x sc o s f sc' rest :
  leading_fraction x sc o s = (f, sc', rest) -> (String.length rest <= String.length s)%nat.
Proof.
  revert x sc o. induction s as [|c s IH]; intros x sc o; cbn; [by intros [= <- <- <-]|].
  destruct (is_digit c); [|by intros [= <- <- <-]].
  destruct (_ || _); [|destruct (_ <? _)]; intros H%IH; lia.
Qed.

Lemma span_unit_length s u rest :
  span_unit s = (u, rest) -> String.length s = (String.length u + String.length rest)%nat.
Proof.
  revert u. induction s as [|c s IH]; intros u; cbn; [by intros [= <- <-]|].
  destruct (_ || _); [by intros [= <- <-]|]. destruct (span_unit s) as [u' r'].
  intros [= <- <-]. cbn. by rewrite (IH _ eq_refl).
Qed.

Lemma duration_term_length s v rest :
  duration_term s = Some (v, rest) -> (String.length rest < String.length s)%nat.
Proof.
  unfold duration_term. destruct (leading_int 0 s) as [[n s1]|] eqn:H1; [|done].
  apply leading_int_length in H1. cbn [mbind option_bind].
  destruct (match s1 with String _ _ => _ | EmptyString => _ end) as [[[f sc] s2] post] eqn:Hf.
  assert (String.length s2 <= String.length s1)%nat as H2.
  { destruct s1 as [|c r]; [by simplify_eq|].
    destruct (Ascii.eqb c "."); [|by simplify_eq].
    destruct (leading_fraction _ _ _ r) as [[f' sc'] s2'] eqn:Hr.
    apply leading_fraction_length in Hr. simplify_eq. cbn. lia. }
  destruct (_ && _); [done|]. destruct (span_unit s2) as [u r] eqn:Hu.
  apply span_unit_length in Hu. destruct u as [|c u]; [done|].
  destruct (unit_value _); [|done]. cbn [mbind option_bind].
  destruct (_ <? _); [done|]. destruct (_ && _); [done|]. intros [= _ <-]. cbn in Hu. lia.
Qed.

Lemma duration_terms_enough n d s : (String.length s <= n)%nat ->
  duration_terms n d s = duration_terms (String.length s) d s.
Proof.
  revert d s. induction (Nat.lt_wf_0 n) as [n _ IH]. intros d s Hn.
  destruct s as [|c s]; [by destruct n|]. destruct n as [|n]; [cbn in Hn; lia|].
  cbn [duration_terms String.length]. destruct (String.eqb _ ""); [done|].
  destruct (duration_term (String c s)) as [[v rest]|] eqn:Ht; [|done].
  apply duration_term_length in Ht. cbn [mbind option_bind String.length] in *.
  destruct (_ <? _); [done|]. rewrite (IH n), (IH (String.length s)) by lia. done.
Qed.

(** ** Settings written and parsed again *)
Definition text_of (v : value) : string :=
  match v with
  | VString s => s
  | VBool b => fmt_bool b
  | VInt n => itoa n
  | VDuration d => nanoseconds d
  end.

Definition in_width (v : value) : Prop :=
  match v with VInt n | VDuration n => int64_range n | _ => True end.

Definition same_kind (v w : value) : Prop :=
  match v, w with
  | VString _, VString _ | VBool _, VBool _ | VInt _, VInt _ | VDuration _, VDuration _ => True
  | _, _ => False
  end.

Lemma Set_text v w : same_kind v w -> in_width w -> Set_value v (text_of w) = Some w.
Proof.
  destruct v, w; try done; intros _ Hw; cbn.
  - by rewrite ParseBool_fmt.
  - by rewrite ParseInt0_itoa.
  - by rewrite ParseDuration_nanoseconds.
Qed.

Definition setting (e : string * value) : string := "-" +:+ e.1 +:+ "=" +:+ text_of e.2.

(** A name a flag can be given under. *)
Definition plain (name : string) : bool :=
  match name with
  | EmptyString => false
  | String c _ => negb (Ascii.eqb c "-") && negb (has_byte "=" name)
  end.

Lemma read_setting name v :
  plain name = true -> read_argument (setting (name, v)) = Flag name (Some (text_of v)).
Proof.
  destruct name as [|c r]; [done|]. intros [Hc Hr]%andb_true_iff.
  apply negb_true_iff in Hc, Hr.
  assert (Ascii.eqb c "=" = false) as He by (by apply orb_false_iff in Hr as [? _]).
  change (setting (String c r, v)) with (String "-" (String c (r +:+ "=" +:+ text_of v))).
  unfold read_argument. change (negb (Ascii.eqb "-" "-")) with false. cbv iota.
  unfold read_flag. rewrite Hc, He.
  cbn [orb]. pose proof (SplitN2_join (String c r) (text_of v) "=" Hr) as Hs.
  change (String c r +:+ str1 "=" +:+ text_of v) with (String c (r +:+ "=" +:+ text_of v)) in Hs.
  by rewrite Hs.
Qed.

Lemma Parse_setting name v w args formal :
  plain name = true -> formal !! name = Some v -> same_kind v w -> in_width w ->
  Parse (setting (name, w) :: args) formal = Parse args (<[name := w]> formal).
Proof.
  intros Hn Hv Hk Hw. cbn [Parse]. rewrite read_setting, Hv, Set_text by done. by destruct (is_bool v).
Qed.

(** Flags end at the first argument that is none. *)
Lemma Parse_ends rest formal :
  (forall a rest', rest = a :: rest' -> read_argument a = Word \/ read_argument a = Terminator) ->
  exists rest', Parse rest formal = inr (formal, rest').
Proof.
  intros Hrest. destruct rest as [|a rest]; [by eexists|]. cbn [Parse].
  destruct (Hrest a rest eq_refl) as [->| ->]; by eexists.
Qed.

Lemma Parse_settings_onto kvs kvs0 args (formal : FlagSet) :
  Forall (fun n => plain n = true) kvs.*1 -> kvs.*1 = kvs0.*1 -> NoDup kvs.*1 ->
  Forall2 same_kind kvs0.*2 kvs.*2 -> Forall in_width kvs.*2 ->
  (forall n v, (n, v) ∈ kvs0 -> formal !! n = Some v) ->
  Parse ((setting <$> kvs) ++ args) formal = Parse args (list_to_map kvs ∪ formal).
Proof.
  revert kvs0 formal. induction kvs as [|[n w] kvs IH]; intros [|[n0 v] kvs0] formal
    Hplain Hnames Hnd Hkinds Hwidth Hformal; try done.
  { cbn. by rewrite (left_id_L ∅ (∪)). }
  cbn in *. injection Hnames as <- Hnames. apply NoDup_cons in Hnd as [Hn Hnd].
  apply Forall_cons in Hplain as [Hp Hplain]. apply Forall2_cons in Hkinds as [Hk Hkinds].
  apply Forall_cons in Hwidth as [Hw Hwidth].
  change (Parse (setting (n, w) :: ((setting <$> kvs) ++ args)) formal
    = Parse args (<[n := w]> (list_to_map kvs) ∪ formal)).
  rewrite (Parse_setting n v w) by (try done; apply Hformal; left).
  rewrite (IH kvs0); try done.
  - f_equal. rewrite <- insert_union_r; [by rewrite insert_union_l|].
    by apply not_elem_of_list_to_map_1.
  - intros n' v' Hin. rewrite lookup_insert_ne; [apply Hformal; by right|].
    intros <-. apply Hn. rewrite Hnames. apply list_elem_of_fmap. by exists (n, v').
Qed.

(** Every flag can be given: whatever the values before, giving all of them leaves
    exactly those given. *)
Lemma Parse_settings kvs kvs0 args :
  Forall (fun n => plain n = true) kvs.*1 -> kvs.*1 = kvs0.*1 -> NoDup kvs.*1 ->
  Forall2 same_kind kvs0.*2 kvs.*2 -> Forall in_width kvs.*2 ->
  Parse ((setting <$> kvs) ++ args) (list_to_map kvs0) = Parse args (list_to_map kvs).
Proof.
  intros Hplain Hnames Hnd Hkinds Hwidth.
  rewrite (Parse_settings_onto kvs kvs0); try done.
  2: { intros n v Hin. apply elem_of_list_to_map_1; [|done]. by rewrite <- Hnames. }
  f_equal. apply map_eq. intros n. rewrite lookup_union.
  destruct (list_to_map kvs !! n) as [v|] eqn:Hv; [by destruct (list_to_map kvs0 !! n)|].
  rewrite (left_id_L None (∪)). apply not_elem_of_list_to_map_2 in Hv.
  apply not_elem_of_list_to_map_1. by rewrite <- Hnames.
Qed.
