(* ===== verification/Storage.v ===== *)
(** * storage.go, the same in gateway/ and sync/: where the snapshots are

    [NewS3Client] is what it asks of the AWS SDK: [LoadDefaultConfig], for its
    error, and the options of the client. *)
From S2P Require Import Prelude GoString.
From stdpp Require Import options.

Record StorageConfig := { Bucket : string; Endpoint : string; storage_Prefix : string }.

(** [ParseRequestURI] is net/url's, for its error. *)
Definition ParseStorage (ParseRequestURI : string -> option error)
    (raw fallbackEndpoint prefix : string) : result StorageConfig :=
  if negb (HasPrefix raw "s3://") then Err "storage must start with s3://"
  else
    let (head, rest) := SplitN2 (TrimPrefix raw "s3://") "@" in
    let bucket := TrimSpace head in
    if String.eqb bucket "" then Err "storage bucket is required"
    else
      let endpoint := match rest with Some e => TrimSpace e | None => fallbackEndpoint end in
      let config := {| Bucket := bucket; Endpoint := endpoint;
                       storage_Prefix := Trim prefix "/" |} in
      if String.eqb endpoint "" then Ok config
      else
        match ParseRequestURI endpoint with
        | Some e => Err ("invalid storage endpoint: " +:+ e)
        | None => Ok config
        end.

(** [getenv] is the environment of the process. *)
Definition envOrDefault (getenv : string -> string) (key fallback : string) : string :=
  let value := TrimSpace (getenv key) in
  if String.eqb value "" then fallback else value.

(** The client's options: the static credentials (key, secret, session token), if
    it does not take the SDK's own, and the endpoint it is bound to. *)
Record s3Options := {
  Region : string;
  StaticCredentials : option (string * string * string);
  BaseEndpoint : option string;
  UsePathStyle : bool;
}.

Definition NewS3Client
    (LoadDefaultConfig : string -> option (string * string * string) -> result unit)
    (getenv : string -> string) (storage : StorageConfig) : result s3Options :=
  if String.eqb (Endpoint storage) "" then
    LoadDefaultConfig "us-east-1" None;;
    mret {| Region := "us-east-1"; StaticCredentials := None; BaseEndpoint := None;
            UsePathStyle := false |}
  else
    let credentials := (envOrDefault getenv "AWS_ACCESS_KEY_ID" "minioadmin",
                        envOrDefault getenv "AWS_SECRET_ACCESS_KEY" "minioadmin", "") in
    LoadDefaultConfig "us-east-1" (Some credentials);;
    mret {| Region := "us-east-1"; StaticCredentials := Some credentials;
            BaseEndpoint := Some (Endpoint storage); UsePathStyle := true |}.

(** The sidecar's copies have the same text. *)
Definition sync_ParseStorage := ParseStorage.
Definition sync_envOrDefault := envOrDefault.
Definition sync_NewS3Client := NewS3Client.

(** What [--storage] names is where the client goes.  A bucket without an at sign
    and an endpoint that is a URI, written as s3://bucket@endpoint with any blanks around
    them, are read back; the client is bound to that endpoint in path style, with
    the credentials of the environment, never the SDK's own.  Without an endpoint
    the fallback decides, and with none of either the SDK does. *)
Theorem storage_is_read_back ParseRequestURI LoadDefaultConfig getenv raw_bucket raw_endpoint
    fallback prefix :
  has_byte "@" raw_bucket = false -> TrimSpace raw_bucket <> "" ->
  TrimSpace raw_endpoint <> "" -> ParseRequestURI (TrimSpace raw_endpoint) = None ->
  (forall c, LoadDefaultConfig "us-east-1" c = Ok tt) ->
  (exists config options,
    ParseStorage ParseRequestURI ("s3://" +:+ raw_bucket +:+ "@" +:+ raw_endpoint) fallback prefix
      = Ok config
    /\ Bucket config = TrimSpace raw_bucket /\ Endpoint config = TrimSpace raw_endpoint
    /\ NewS3Client LoadDefaultConfig getenv config = Ok options
    /\ BaseEndpoint options = Some (TrimSpace raw_endpoint) /\ UsePathStyle options = true
    /\ StaticCredentials options <> None)
  /\ (fallback = "" ->
      exists config options,
        ParseStorage ParseRequestURI ("s3://" +:+ raw_bucket) fallback prefix = Ok config
        /\ Bucket config = TrimSpace raw_bucket /\ Endpoint config = ""
        /\ NewS3Client LoadDefaultConfig getenv config = Ok options
        /\ BaseEndpoint options = None /\ StaticCredentials options = None).
Proof.
  intros Hb Hne He Hp Hload. unfold ParseStorage, NewS3Client.
  rewrite !HasPrefix_append, !TrimPrefix_append. cbn [negb].
  apply String.eqb_neq in Hne, He. split.
  - change (raw_bucket +:+ "@" +:+ raw_endpoint) with (raw_bucket +:+ str1 "@" +:+ raw_endpoint).
    rewrite SplitN2_join by done.
    rewrite Hne, He, Hp. do 2 eexists. split; [reflexivity|]. cbn [Endpoint Bucket].
    rewrite He, Hload. by split_and!.
  - intros ->. rewrite SplitN2_absent by done. rewrite Hne. cbn [String.eqb].
    do 2 eexists. split; [reflexivity|]. cbn [Endpoint Bucket String.eqb].
    rewrite Hload. by split_and!.
Qed.

Lemma storage_is_read_back_witness :
  exists config options,
    ParseStorage (fun _ => None) "s3://backups@http://minio:9000" "" "/backstop/" = Ok config
    /\ NewS3Client (fun _ _ => Ok tt) (fun _ => "") config = Ok options
    /\ BaseEndpoint options = Some "http://minio:9000"
    /\ StaticCredentials options <> None.
Proof.
  destruct (storage_is_read_back (fun _ => None) (fun _ _ => Ok tt) (fun _ => "") "backups"
    "http://minio:9000" "" "/backstop/" eq_refl ltac:(discriminate) ltac:(discriminate) eq_refl
    (fun _ => eq_refl)) as [(config & options & Hc & _ & _ & Ho & He & _ & Hs) _].
  exists config, options. split; [exact Hc|]. split; [exact Ho|]. split; [exact He|exact Hs].
Defined.
