(* ===== verification/PgAst.v ===== *)
(** * The PostgreSQL syntax tree the gateway inspects

    The node types of github.com/pganalyze/pg_query_go that
    gateway/sql_analyzer.go distinguishes, with the fields it reads or whose
    neglect matters.  Every other statement kind is [Node_Other] with its
    protobuf name.  [Node_nil] is a node whose one-of is unset; a nil node
    pointer is [None] where the code tests for it. *)
From S2P Require Import Prelude.
From stdpp Require Import options.

Record RangeVar := { Schemaname : string; Relname : string }.

Inductive TransactionStmtKind :=
  | TRANSACTION_STMT_KIND_UNDEFINED
  | TRANS_STMT_BEGIN
  | TRANS_STMT_START
  | TRANS_STMT_COMMIT
  | TRANS_STMT_ROLLBACK
  | TRANS_STMT_SAVEPOINT
  | TRANS_STMT_RELEASE
  | TRANS_STMT_ROLLBACK_TO
  | TRANS_STMT_PREPARE
  | TRANS_STMT_COMMIT_PREPARED
  | TRANS_STMT_ROLLBACK_PREPARED.

Inductive ObjectType :=
  | OBJECT_TABLE
  | OBJECT_DATABASE
  | OBJECT_SCHEMA
  | OBJECT_other (name : string).

(** [ObjectType.String()]. *)
Definition ObjectType_String (o : ObjectType) : string :=
  match o with
  | OBJECT_TABLE => "OBJECT_TABLE"
  | OBJECT_DATABASE => "OBJECT_DATABASE"
  | OBJECT_SCHEMA => "OBJECT_SCHEMA"
  | OBJECT_other name => name
  end.

Inductive Node :=
  | Node_nil
  | Node_SelectStmt (ctes : list Node) (intoClause : option RangeVar)
  | Node_VariableShowStmt
  | Node_TransactionStmt (kind : TransactionStmtKind)
  | Node_VariableSetStmt
  | Node_InsertStmt (relation : option RangeVar)
  | Node_DeleteStmt (relation : option RangeVar) (whereClause : option Node)
  | Node_UpdateStmt (relation : option RangeVar) (whereClause : option Node)
  | Node_MergeStmt (relation : option RangeVar)
  | Node_DropStmt (removeType : ObjectType) (objects : list Node)
  | Node_DropdbStmt
  | Node_TruncateStmt (relations : list Node)
  | Node_ExplainStmt (options : list Node) (query : option Node)
  | Node_CreateStmt
  | Node_IndexStmt
  | Node_ViewStmt
  | Node_CreateSeqStmt
  | Node_CreateSchemaStmt
  | Node_CreateTableAsStmt
  | Node_AlterTableStmt
  | Node_CopyStmt
  | Node_CallStmt
  | Node_DoStmt
  | Node_RefreshMatViewStmt
  | Node_RangeVar (rv : RangeVar)
  | Node_List (items : list Node)
  | Node_String (sval : string)
  | Node_DefElem (defname : string)
  | Node_Other (typ : string).

(** The protobuf getters: nil unless the one-of holds that type. *)
Definition GetRangeVar (n : Node) : option RangeVar :=
  match n with Node_RangeVar rv => Some rv | _ => None end.
Definition GetList (n : Node) : option (list Node) :=
  match n with Node_List items => Some items | _ => None end.
Definition GetString_ (n : Node) : option string :=
  match n with Node_String s => Some s | _ => None end.
Definition GetDefElem (n : Node) : option string :=
  match n with Node_DefElem d => Some d | _ => None end.

(** [fmt.Sprintf("%T", node.GetNode())]. *)
Definition type_name (n : Node) : string :=
  match n with
  | Node_nil => "<nil>"
  | Node_RangeVar _ => "*pg_query.Node_RangeVar"
  | Node_List _ => "*pg_query.Node_List"
  | Node_String _ => "*pg_query.Node_String_"
  | Node_DefElem _ => "*pg_query.Node_DefElem"
  | Node_Other typ => "*pg_query.Node_" +:+ typ
  | _ => "*pg_query.Node"
  end.
