(* ===== verification/SqlAnalyzer.v ===== *)
(** * gateway/sql_analyzer.go: risk classification of SQL

    [analyzeSQL] classifies a query from the statements PostgreSQL's parser
    returns, and keeps the single table a sidecar snapshot could recover. *)
From Stdlib Require Import SpecFloat.
From S2P Require Import Prelude GoString GoFloat PgAst.
From stdpp Require Import options.

(** ** Risk levels and the analysis record *)
Definition RiskSafe : string := "SAFE".
Definition RiskHigh : string := "HIGH".
Definition RiskImpactCritical : string := "IMPACT_CRITICAL".
Definition RiskCritical : string := "CRITICAL".

Record ImpactAnalysis := {
  Status : string;
  ImpactReason : string;
  EstimatedAffectedRows : Z;
  EstimatedTableRows : Z;
  AffectedPercent : float64;
  ProtectedTable : bool;
  ProtectedColumns : list string;
  ImpactCritical : bool;
}.

Record sqlAnalysis := {
  RiskLevel : string;
  Operation : string;
  Table : string;
  Schema : string;
  StatementCount : Z;
  TableRecoverable : bool;
  Reason : string;
  ParseError : option error;
  Impact : option ImpactAnalysis;
}.

(** [sqlAnalysis] with the fields a constructor function sets; the others keep
    their zero values. *)
Definition analysis (risk operation schema table : string) (recoverable : bool)
    (reason : string) : sqlAnalysis := {|
  RiskLevel := risk; Operation := operation; Table := table; Schema := schema;
  StatementCount := 0; TableRecoverable := recoverable; Reason := reason;
  ParseError := None; Impact := None |}.

Definition safeAnalysis (operation reason : string) : sqlAnalysis :=
  analysis RiskSafe operation "" "" false reason.

Definition highAnalysis (operation schema table reason : string) : sqlAnalysis :=
  analysis RiskHigh operation schema table false reason.

Definition criticalAnalysis (operation schema table : string) (recoverable : bool)
    (reason : string) : sqlAnalysis :=
  analysis RiskCritical operation schema table recoverable reason.

(** ** Names *)
Record relationName := { rn_schema : string; rn_table : string }.

Definition rangeVarParts (relation : option RangeVar) : string * string :=
  match relation with
  | None => ("", "")
  | Some rv => (Schemaname rv, Relname rv)
  end.

Definition rangeVarName (relation : option RangeVar) : string :=
  (rangeVarParts relation).2.

Definition relationNodeNames (nodes : list Node) : list relationName :=
  omap (fun node =>
    let (schema, table) := rangeVarParts (GetRangeVar node) in
    if String.eqb table "" then None
    else Some {| rn_schema := schema; rn_table := table |}) nodes.

(** The string value of a list item, empty when it is no string node. *)
Definition item_sval (item : option Node) : string :=
  match item with
  | Some n => default "" (GetString_ n)
  | None => ""
  end.

Definition objectName (node : Node) : string * string :=
  match GetList node with
  | Some items =>
      match reverse items with
      | [] => ("", "")
      | last :: rest => (item_sval (head rest), item_sval (Some last))
      end
  | None =>
      match GetString_ node with
      | Some value => ("", value)
      | None =>
          match GetRangeVar node with
          | Some relation => rangeVarParts (Some relation)
          | None => ("", "")
          end
      end
  end.

Definition dropObjectNames (objects : list Node) : list relationName :=
  omap (fun object =>
    let (schema, name) := objectName object in
    if String.eqb name "" then None
    else Some {| rn_schema := schema; rn_table := name |}) objects.

(** The first non-empty schema, as the loops over the names keep it. *)
Fixpoint first_schema (schema : string) (names : list relationName) : string :=
  match names with
  | [] => schema
  | n :: names =>
      first_schema (if String.eqb schema "" then rn_schema n else schema) names
  end.

(** ** Statements *)
Definition highRelationAnalysis (operation : string) (relation : option RangeVar)
    (reason : string) : sqlAnalysis :=
  let (schema, table) := rangeVarParts relation in
  highAnalysis operation schema table reason.

Definition analyzeTransaction (kind : TransactionStmtKind) : sqlAnalysis :=
  match kind with
  | TRANS_STMT_BEGIN | TRANS_STMT_START | TRANS_STMT_COMMIT
  | TRANS_STMT_ROLLBACK | TRANS_STMT_SAVEPOINT | TRANS_STMT_RELEASE
  | TRANS_STMT_ROLLBACK_TO =>
      safeAnalysis "TRANSACTION" "transaction control statement"
  | _ =>
      highAnalysis "TRANSACTION" "" ""
        "prepared transaction statement changes database state"
  end.

Definition analyzeDrop (removeType : ObjectType) (objects : list Node) : sqlAnalysis :=
  match removeType with
  | OBJECT_TABLE =>
      let names := dropObjectNames objects in
      match map rn_table names with
      | [table] =>
          criticalAnalysis "DROP TABLE" (first_schema "" names) table true
            "DROP TABLE destroys a table"
      | tables =>
          criticalAnalysis "DROP TABLE" "" (Join tables ",") false
            "DROP TABLE must target exactly one table for sidecar recovery"
      end
  | OBJECT_DATABASE =>
      criticalAnalysis "DROP DATABASE" "" "" false
        "DROP DATABASE is not recoverable by table snapshots"
  | OBJECT_SCHEMA =>
      criticalAnalysis "DROP SCHEMA" "" "" false
        "DROP SCHEMA is not recoverable by table snapshots"
  | OBJECT_other _ =>
      highAnalysis "DROP" "" ""
        ("DROP " +:+ ObjectType_String removeType +:+ " changes database objects")
  end.

Definition analyzeTruncate (relations : list Node) : sqlAnalysis :=
  let names := relationNodeNames relations in
  match map rn_table names with
  | [table] =>
      criticalAnalysis "TRUNCATE" (first_schema "" names) table true
        "TRUNCATE removes all rows from a table"
  | tables =>
      criticalAnalysis "TRUNCATE" "" (Join tables ",") false
        "TRUNCATE must target exactly one table for sidecar recovery"
  end.

Definition explainAnalyze (options : list Node) : bool :=
  existsb (fun option =>
    match GetDefElem option with
    | Some defname => EqualFold defname "analyze"
    | None => false
    end) options.

Definition with_operation (op : string) (a : sqlAnalysis) : sqlAnalysis := {|
  RiskLevel := RiskLevel a; Operation := op; Table := Table a; Schema := Schema a;
  StatementCount := StatementCount a; TableRecoverable := TableRecoverable a;
  Reason := Reason a; ParseError := ParseError a; Impact := Impact a |}.

(** [inner] is the analysis of the statement that is explained. *)
Definition analyzeExplain (options : list Node) (inner : sqlAnalysis) : sqlAnalysis :=
  if explainAnalyze options then
    with_operation ("EXPLAIN ANALYZE " +:+ Operation inner) inner
  else safeAnalysis "EXPLAIN" "EXPLAIN without ANALYZE does not execute the query".

Definition missingStatement : sqlAnalysis :=
  criticalAnalysis "UNKNOWN" "" "" false "statement node is missing".

Fixpoint analyzeNode (node : Node) : sqlAnalysis :=
  match node with
  | Node_SelectStmt _ _ => safeAnalysis "SELECT" "read-only SELECT"
  | Node_VariableShowStmt => safeAnalysis "SHOW" "read-only SHOW"
  | Node_TransactionStmt kind => analyzeTransaction kind
  | Node_VariableSetStmt => safeAnalysis "SET" "session variable change"
  | Node_InsertStmt relation =>
      highRelationAnalysis "INSERT" relation "INSERT modifies table data"
  | Node_DeleteStmt relation whereClause =>
      let (schema, table) := rangeVarParts relation in
      match whereClause with
      | None =>
          criticalAnalysis "DELETE" schema table (negb (String.eqb table ""))
            "DELETE without WHERE removes all rows"
      | Some _ =>
          highAnalysis "DELETE" schema table "DELETE with WHERE modifies table data"
      end
  | Node_UpdateStmt relation whereClause =>
      let (schema, table) := rangeVarParts relation in
      match whereClause with
      | None =>
          criticalAnalysis "UPDATE" schema table (negb (String.eqb table ""))
            "UPDATE without WHERE modifies all rows"
      | Some _ =>
          highAnalysis "UPDATE" schema table "UPDATE with WHERE modifies table data"
      end
  | Node_MergeStmt relation =>
      highRelationAnalysis "MERGE" relation "MERGE modifies table data"
  | Node_DropStmt removeType objects => analyzeDrop removeType objects
  | Node_DropdbStmt =>
      criticalAnalysis "DROP DATABASE" "" "" false
        "DROP DATABASE is not recoverable by table snapshots"
  | Node_TruncateStmt relations => analyzeTruncate relations
  | Node_ExplainStmt options query =>
      analyzeExplain options
        (match query with None => missingStatement | Some q => analyzeNode q end)
  | Node_CreateStmt | Node_IndexStmt | Node_ViewStmt | Node_CreateSeqStmt
  | Node_CreateSchemaStmt | Node_CreateTableAsStmt =>
      highAnalysis "DDL" "" "" "DDL changes database objects"
  | Node_AlterTableStmt | Node_CopyStmt | Node_CallStmt | Node_DoStmt
  | Node_RefreshMatViewStmt =>
      highAnalysis "WRITE" "" "" "statement may modify database state"
  | _ =>
      criticalAnalysis (type_name node) "" "" false
        "parsed statement kind is not explicitly classified"
  end.

Definition analyzeStatement (node : option Node) : sqlAnalysis :=
  match node with
  | None => missingStatement
  | Some n => analyzeNode n
  end.

(** ** Whole queries *)
Definition riskRank (level : string) : Z :=
  if String.eqb level RiskCritical then 3
  else if String.eqb level RiskImpactCritical then 3
  else if String.eqb level RiskHigh then 2
  else 0.

Definition higherRisk (current next : sqlAnalysis) : sqlAnalysis :=
  if riskRank (RiskLevel current) <? riskRank (RiskLevel next) then next else current.

Definition sortedKeys (values : gset string) : list string :=
  merge_sort String.le (elements values).

(** The variables of [analyzeSQL]'s loop; [result] is unset before the first
    statement. *)
Record analyzeAcc := {
  acc_result : option sqlAnalysis;
  criticalTables : gset string;
  criticalSchemas : gmap string string;
  criticalUnrecoverable : bool;
}.

Definition analyzeAcc0 : analyzeAcc := {|
  acc_result := None; criticalTables := ∅; criticalSchemas := ∅;
  criticalUnrecoverable := false |}.

Definition analyze_step (acc : analyzeAcc) (raw : option Node) : analyzeAcc :=
  let statement := analyzeStatement raw in
  let result :=
    match acc_result acc with
    | None => statement
    | Some r => higherRisk r statement
    end in
  if String.eqb (RiskLevel statement) RiskCritical then
    if TableRecoverable statement && negb (String.eqb (Table statement) "") then
      {| acc_result := Some result;
         criticalTables := {[ Table statement ]} ∪ criticalTables acc;
         criticalSchemas :=
           if String.eqb (Schema statement) "" then criticalSchemas acc
           else <[ Table statement := Schema statement ]> (criticalSchemas acc);
         criticalUnrecoverable := criticalUnrecoverable acc |}
    else
      {| acc_result := Some result;
         criticalTables := criticalTables acc;
         criticalSchemas := criticalSchemas acc;
         criticalUnrecoverable := true |}
  else
    {| acc_result := Some result;
       criticalTables := criticalTables acc;
       criticalSchemas := criticalSchemas acc;
       criticalUnrecoverable := criticalUnrecoverable acc |}.

Definition with_target (table schema : string) (recoverable : bool) (reason : string)
    (a : sqlAnalysis) : sqlAnalysis := {|
  RiskLevel := RiskLevel a; Operation := Operation a; Table := table;
  Schema := schema; StatementCount := StatementCount a;
  TableRecoverable := recoverable; Reason := reason; ParseError := ParseError a;
  Impact := Impact a |}.

Definition with_count (n : Z) (a : sqlAnalysis) : sqlAnalysis := {|
  RiskLevel := RiskLevel a; Operation := Operation a; Table := Table a;
  Schema := Schema a; StatementCount := n; TableRecoverable := TableRecoverable a;
  Reason := Reason a; ParseError := ParseError a; Impact := Impact a |}.

(** What the code does with the loop's variables when the result is CRITICAL. *)
Definition critical_target (acc : analyzeAcc) (result : sqlAnalysis) : sqlAnalysis :=
  match sortedKeys (criticalTables acc), criticalUnrecoverable acc with
  | [table], false =>
      with_target table (default "" (criticalSchemas acc !! table)) true
        (Reason result) result
  | (_ :: _ :: _) as tables, _ =>
      with_target (Join tables ",") (Schema result) false
        "CRITICAL SQL affects multiple tables; require a single table recovery point"
        result
  | _, true => with_target "" (Schema result) false (Reason result) result
  | _, false => result
  end.

Definition analyzeStatements (statements : list (option Node)) : sqlAnalysis :=
  let acc := fold_left analyze_step statements analyzeAcc0 in
  match acc_result acc with
  | None => safeAnalysis "EMPTY" "no parseable SQL statements"
  | Some result =>
      with_count (Z.of_nat (length statements))
        (if String.eqb (RiskLevel result) RiskCritical then critical_target acc result
         else result)
  end.

Definition parseFailure (err : error) : sqlAnalysis := {|
  RiskLevel := RiskCritical; Operation := "PARSE_FAILURE"; Table := "";
  Schema := ""; StatementCount := 0; TableRecoverable := false;
  Reason := "PostgreSQL parser rejected SQL; gateway fails closed";
  ParseError := Some err; Impact := None |}.

(** The parser is PostgreSQL's own, compiled to WebAssembly; the analysis holds
    for every parser. *)
Section analyzer.
Variable Parse : string -> result (list (option Node)).

Definition analyzeSQL (query : string) : sqlAnalysis :=
  if String.eqb (TrimSpace query) "" then
    safeAnalysis "EMPTY" "empty SQL is a validation no-op"
  else
    match Parse query with
    | Err err => parseFailure err
    | Ok statements => analyzeStatements statements
    end.

Definition classifySQL (query : string) : string := RiskLevel (analyzeSQL query).
End analyzer.

Definition is_critical (risk : string) : bool :=
  String.eqb risk RiskCritical || String.eqb risk RiskImpactCritical.

Definition criticalRecoveryTableFromAnalysis (a : sqlAnalysis) : result string :=
  if negb (String.eqb (RiskLevel a) RiskCritical)
     && negb (String.eqb (RiskLevel a) RiskImpactCritical) then
    Err "query is not CRITICAL"
  else if negb (TableRecoverable a) || String.eqb (TrimSpace (Table a)) "" then
    match ParseError a with
    | Some err => Err (Reason a +:+ ": " +:+ err)
    | None => Err (Reason a)
    end
  else if Contains (Table a) "," then
    Err "CRITICAL SQL must target exactly one table for sidecar recovery"
  else Ok (Table a).

Definition criticalRecoveryTable (Parse : string -> result (list (option Node)))
    (query : string) : result string :=
  criticalRecoveryTableFromAnalysis (analyzeSQL Parse query).

(** ** The three levels a statement can have *)
Lemma analyzeNode_level node :
  RiskLevel (analyzeNode node) ∈ [RiskSafe; RiskHigh; RiskCritical].
Proof.
  assert (RiskSafe ∈ [RiskSafe; RiskHigh; RiskCritical]
          /\ RiskHigh ∈ [RiskSafe; RiskHigh; RiskCritical]
          /\ RiskCritical ∈ [RiskSafe; RiskHigh; RiskCritical]) as (HS & HH & HC)
    by (repeat split; apply (bool_decide_unpack _); vm_compute; exact I).
  revert node. fix IH 1. intros node.
  destruct node as [| | |kind| |rel|rel wh|rel wh|rel|ty objs| |rels|opts [q|]
    | | | | | | | | | | | |rv|items|sv|d|typ]; simpl; try assumption.
  - by destruct kind.
  - unfold highRelationAnalysis. by destruct (rangeVarParts rel).
  - destruct (rangeVarParts rel). by destruct wh.
  - destruct (rangeVarParts rel). by destruct wh.
  - unfold highRelationAnalysis. by destruct (rangeVarParts rel).
  - unfold analyzeDrop. destruct ty; [|done..]. by repeat case_match.
  - unfold analyzeTruncate. by repeat case_match.
  - unfold analyzeExplain. destruct (explainAnalyze opts); [|done]. apply IH.
  - unfold analyzeExplain. by destruct (explainAnalyze opts).
Qed.

Lemma analyzeStatement_level node :
  RiskLevel (analyzeStatement node) = RiskSafe
  \/ RiskLevel (analyzeStatement node) = RiskHigh
  \/ RiskLevel (analyzeStatement node) = RiskCritical.
Proof.
  destruct node as [node|]; [|by right; right].
  pose proof (analyzeNode_level node) as H. simpl. set_solver.
Qed.

Lemma riskRank_cases node :
  riskRank (RiskLevel (analyzeStatement node)) =
    (if String.eqb (RiskLevel (analyzeStatement node)) RiskCritical then 3
     else if String.eqb (RiskLevel (analyzeStatement node)) RiskHigh then 2 else 0).
Proof. by destruct (analyzeStatement_level node) as [-> | [-> | ->]]. Qed.

Lemma riskRank_range level : 0 <= riskRank level <= 3.
Proof. unfold riskRank. repeat case_match; lia. Qed.

(** ** Statements that only read *)

(** What the gateway counts as reading: the relation is stated on the syntax,
    not through the analysis. *)
Inductive read_only : Node -> Prop :=
  | read_select ctes into : read_only (Node_SelectStmt ctes into)
  | read_show : read_only Node_VariableShowStmt
  | read_set : read_only Node_VariableSetStmt
  | read_transaction kind :
      kind ∈ [TRANS_STMT_BEGIN; TRANS_STMT_START; TRANS_STMT_COMMIT;
              TRANS_STMT_ROLLBACK; TRANS_STMT_SAVEPOINT; TRANS_STMT_RELEASE;
              TRANS_STMT_ROLLBACK_TO] ->
      read_only (Node_TransactionStmt kind)
  | read_explain options query :
      (forall o d, o ∈ options -> GetDefElem o = Some d ->
         EqualFold d "analyze" = false) ->
      read_only (Node_ExplainStmt options query)
  | read_explain_inner options query :
      read_only query -> read_only (Node_ExplainStmt options (Some query)).

Lemma explainAnalyze_false options :
  explainAnalyze options = false <->
  (forall o d, o ∈ options -> GetDefElem o = Some d -> EqualFold d "analyze" = false).
Proof.
  unfold explainAnalyze. rewrite existsb_false_iff. split.
  - intros H o d Ho Hd. specialize (H o Ho). by rewrite Hd in H.
  - intros H o Ho. destruct (GetDefElem o) as [d|] eqn:Hd; [|done]. by eapply H.
Qed.

Lemma read_only_safe node : read_only node -> RiskLevel (analyzeNode node) = RiskSafe.
Proof.
  induction 1 as [| | |kind Hk|options query Ho|options query Hq IH]; try done.
  - simpl. unfold analyzeTransaction.
    repeat (apply elem_of_cons in Hk as [->|Hk]; [done|]). by apply elem_of_nil in Hk.
  - simpl. unfold analyzeExplain. by apply explainAnalyze_false in Ho as ->.
  - simpl. unfold analyzeExplain. by destruct (explainAnalyze options).
Qed.

Lemma safe_read_only node : RiskLevel (analyzeNode node) = RiskSafe -> read_only node.
Proof.
  revert node. fix IH 1. intros node.
  destruct node as [| | |kind| |rel|rel wh|rel wh|rel|ty objs| |rels|opts [q|]
    | | | | | | | | | | | |rv|items|sv|d|typ]; simpl; try discriminate; try (by constructor).
  - destruct kind; try discriminate; repeat constructor.
  - unfold highRelationAnalysis. by destruct (rangeVarParts rel).
  - destruct (rangeVarParts rel). by destruct wh.
  - destruct (rangeVarParts rel). by destruct wh.
  - unfold highRelationAnalysis. by destruct (rangeVarParts rel).
  - unfold analyzeDrop. destruct ty; [|done..]. by repeat case_match.
  - unfold analyzeTruncate. by repeat case_match.
  - unfold analyzeExplain. destruct (explainAnalyze opts) eqn:Ho.
    + intros Hq. apply read_explain_inner. by apply IH.
    + intros _. by apply read_explain, explainAnalyze_false.
  - unfold analyzeExplain. destruct (explainAnalyze opts) eqn:Ho; [done|].
    intros _. by apply read_explain, explainAnalyze_false.
Qed.

(** ** The loop over the statements

    [loop_inv stmts acc] relates the loop's variables to the statements seen. *)
Definition recovers (t : string) (st : option Node) : bool :=
  let a := analyzeStatement st in
  TableRecoverable a && negb (String.eqb (Table a) "") && String.eqb (Table a) t.
Definition critical_stmt (st : option Node) : bool :=
  String.eqb (RiskLevel (analyzeStatement st)) RiskCritical.

Record loop_inv (stmts : list (option Node)) (acc : analyzeAcc) : Prop := {
  inv_none : acc_result acc = None -> stmts = [];
  inv_result : forall r, acc_result acc = Some r ->
    exists st, st ∈ stmts /\ r = analyzeStatement st
      /\ forall st', st' ∈ stmts ->
           riskRank (RiskLevel (analyzeStatement st')) <= riskRank (RiskLevel r);
  inv_tables : forall t, t ∈ criticalTables acc <->
    exists st, st ∈ stmts /\ critical_stmt st = true /\ recovers t st = true;
  inv_unrecoverable : criticalUnrecoverable acc = true <->
    exists st, st ∈ stmts /\ critical_stmt st = true
      /\ forall t, recovers t st = false;
}.

Lemma analyze_step_result acc st :
  acc_result (analyze_step acc st) =
    Some (match acc_result acc with
          | None => analyzeStatement st
          | Some r => higherRisk r (analyzeStatement st)
          end).
Proof. unfold analyze_step. by repeat case_match. Qed.

Lemma recovers_iff t st :
  recovers t st = true <->
  TableRecoverable (analyzeStatement st) && negb (String.eqb (Table (analyzeStatement st)) "")
    = true /\ t = Table (analyzeStatement st).
Proof.
  unfold recovers. rewrite andb_true_iff, String.eqb_eq. naive_solver.
Qed.

Lemma recovers_none st :
  (forall t, recovers t st = false) <->
  TableRecoverable (analyzeStatement st) && negb (String.eqb (Table (analyzeStatement st)) "")
    = false.
Proof.
  split.
  - intros H. specialize (H (Table (analyzeStatement st))). unfold recovers in H.
    by rewrite String.eqb_refl, andb_true_r in H.
  - intros H t. unfold recovers. by rewrite H.
Qed.

Lemma analyze_step_tables acc st t :
  t ∈ criticalTables (analyze_step acc st) <->
  t ∈ criticalTables acc \/ (critical_stmt st = true /\ recovers t st = true).
Proof.
  unfold analyze_step, critical_stmt. rewrite recovers_iff.
  destruct (String.eqb _ RiskCritical); [|naive_solver].
  destruct (TableRecoverable _ && _) eqn:Hr; simpl; [set_solver|naive_solver].
Qed.

Lemma analyze_step_unrecoverable acc st :
  criticalUnrecoverable (analyze_step acc st) = true <->
  criticalUnrecoverable acc = true
  \/ (critical_stmt st = true /\ forall t, recovers t st = false).
Proof.
  unfold analyze_step, critical_stmt. rewrite recovers_none.
  destruct (String.eqb _ RiskCritical); [|naive_solver].
  destruct (TableRecoverable _ && _) eqn:Hr; simpl; naive_solver.
Qed.

Lemma loop_inv_step stmts acc st :
  loop_inv stmts acc -> loop_inv (stmts ++ [st]) (analyze_step acc st).
Proof.
  intros [Hnone Hres Htab Hun]. split.
  - by rewrite analyze_step_result.
  - rewrite analyze_step_result. intros r [= <-].
    destruct (acc_result acc) as [r|].
    + destruct (Hres r eq_refl) as (st0 & Hin & -> & Hmax). unfold higherRisk.
      destruct (Z.ltb_spec (riskRank (RiskLevel (analyzeStatement st0)))
                           (riskRank (RiskLevel (analyzeStatement st)))) as [Hlt|Hge].
      * exists st. split; [set_solver|]. split; [done|].
        intros st' [Hst'| ->%list_elem_of_singleton]%elem_of_app; [|lia].
        specialize (Hmax st' Hst'). lia.
      * exists st0. split; [set_solver|]. split; [done|].
        intros st' [Hst'| ->%list_elem_of_singleton]%elem_of_app; [by apply Hmax|lia].
    + rewrite (Hnone eq_refl). exists st. split; [set_solver|]. split; [done|].
      intros st' ->%list_elem_of_singleton. lia.
  - intros t. rewrite analyze_step_tables, Htab. split.
    + intros [(st0 & ? & ?)|?]; [exists st0|exists st]; set_solver.
    + intros (st0 & [?| ->%list_elem_of_singleton]%elem_of_app & ?); naive_solver.
  - rewrite analyze_step_unrecoverable, Hun. split.
    + intros [(st0 & ? & ?)|?]; [exists st0|exists st]; set_solver.
    + intros (st0 & [?| ->%list_elem_of_singleton]%elem_of_app & ?); naive_solver.
Qed.

Lemma loop_inv_all stmts : loop_inv stmts (fold_left analyze_step stmts analyzeAcc0).
Proof.
  induction stmts as [|st stmts IH] using rev_ind.
  - split; simpl; [done|done| |]; [intros t|]; set_solver.
  - rewrite fold_left_app. by apply loop_inv_step.
Qed.

(** The level of a whole query. *)
Lemma analyzeStatements_level stmts :
  stmts <> [] ->
  exists st, st ∈ stmts
    /\ RiskLevel (analyzeStatements stmts) = RiskLevel (analyzeStatement st)
    /\ forall st', st' ∈ stmts ->
         riskRank (RiskLevel (analyzeStatement st'))
         <= riskRank (RiskLevel (analyzeStatement st)).
Proof.
  intros Hne. pose proof (loop_inv_all stmts) as [Hnone Hres _ _].
  unfold analyzeStatements.
  destruct (acc_result _) as [r|]; [|by specialize (Hnone eq_refl)].
  destruct (Hres r eq_refl) as (st & Hin & -> & Hmax). exists st.
  split; [done|]. split; [|done].
  destruct (String.eqb _ RiskCritical); [|done].
  unfold critical_target. by repeat case_match.
Qed.

Lemma critical_loop stmts :
  String.eqb (RiskLevel (analyzeStatements stmts)) RiskCritical = true ->
  exists r, RiskLevel r = RiskCritical
    /\ (exists st, st ∈ stmts /\ r = analyzeStatement st)
    /\ analyzeStatements stmts =
         with_count (Z.of_nat (length stmts))
           (critical_target (fold_left analyze_step stmts analyzeAcc0) r).
Proof.
  pose proof (loop_inv_all stmts) as [_ Hres _ _]. unfold analyzeStatements.
  destruct (acc_result _) as [r|]; [|done].
  destruct (Hres r eq_refl) as (st & Hin & -> & _). intros H.
  exists (analyzeStatement st). 
  destruct (String.eqb (RiskLevel (analyzeStatement st)) RiskCritical) eqn:Hc;
    [|simpl in H; congruence].
  apply String.eqb_eq in Hc. split; [done|]. split; [by exists st|done].
Qed.

Lemma sortedKeys_elem t s : t ∈ sortedKeys s <-> t ∈ s.
Proof.
  unfold sortedKeys. rewrite (merge_sort_Permutation String.le). apply elem_of_elements.
Qed.

Lemma sortedKeys_nodup s : NoDup (sortedKeys s).
Proof.
  unfold sortedKeys. rewrite (merge_sort_Permutation String.le). apply NoDup_elements.
Qed.

Lemma sortedKeys_singleton s t :
  sortedKeys s = [t] <-> (forall u, u ∈ s <-> u = t).
Proof.
  split.
  - intros H u. rewrite <- sortedKeys_elem, H. set_solver.
  - intros H. pose proof (sortedKeys_nodup s) as Hnd.
    assert (forall u, u ∈ sortedKeys s <-> u = t) as H'
      by (intros u; rewrite sortedKeys_elem; apply H).
    destruct (sortedKeys s) as [|a [|b l]].
    + pose proof (proj2 (H' t) eq_refl). set_solver.
    + by rewrite (proj1 (H' a) ltac:(set_solver)).
    + pose proof (proj1 (H' a) ltac:(set_solver)).
      pose proof (proj1 (H' b) ltac:(set_solver)).
      apply NoDup_cons_1_1 in Hnd. set_solver.
Qed.

(** The table of a multi-statement query is recoverable exactly when all its
    CRITICAL statements recover that one table. *)
Lemma analyzeStatements_recoverable stmts t :
  String.eqb (RiskLevel (analyzeStatements stmts)) RiskCritical = true ->
  (TableRecoverable (analyzeStatements stmts) = true
   /\ Table (analyzeStatements stmts) = t) <->
  (forall st, st ∈ stmts -> critical_stmt st = true -> recovers t st = true).
Proof.
  intros (r & Hr & (st & Hin & ->) & ->)%critical_loop.
  pose proof (loop_inv_all stmts) as [_ _ Htab Hun].
  remember (fold_left analyze_step stmts analyzeAcc0) as acc eqn:Hacc. clear Hacc.
  assert (critical_stmt st = true) as Hst by (by apply String.eqb_eq).
  assert ((forall st', st' ∈ stmts -> critical_stmt st' = true -> recovers t st' = true)
    <-> sortedKeys (criticalTables acc) = [t] /\ criticalUnrecoverable acc = false) as ->.
  { rewrite sortedKeys_singleton, <- not_true_iff_false. split.
    - intros H. split.
      + intros u. rewrite Htab. split.
        * intros (st' & Hin' & Hc & Hu).
          specialize (H st' Hin' Hc). apply recovers_iff in Hu, H.
          destruct Hu as [_ ->], H as [_ ->]. done.
        * intros ->. exists st. eauto.
      + rewrite Hun. intros (st' & Hin' & Hc & Hno).
        specialize (H st' Hin' Hc). by rewrite Hno in H.
    - intros [Hone Hrec] st' Hin' Hc.
      destruct (recovers t st') eqn:Ht; [done|]. exfalso.
      apply Hrec, Hun. exists st'. split; [done|]. split; [done|].
      intros u. destruct (recovers u st') eqn:Hu; [|done].
      assert (u = t) as -> by (apply Hone, Htab; eauto). congruence. }
  unfold critical_target.
  destruct (sortedKeys (criticalTables acc)) as [|a [|b l]] eqn:Hk;
    destruct (criticalUnrecoverable acc) eqn:Hu; simpl;
    try (split; intros [??]; simplify_eq; done).
  (* an empty set of tables without an unrecoverable statement: impossible *)
  exfalso.
  destruct (TableRecoverable (analyzeStatement st)
            && negb (String.eqb (Table (analyzeStatement st)) "")) eqn:Hrec.
  - assert (Table (analyzeStatement st) ∈ criticalTables acc) as Hk'.
    { apply Htab. exists st. split; [done|]. split; [done|]. by apply recovers_iff. }
    apply sortedKeys_elem in Hk'. rewrite Hk in Hk'. set_solver.
  - assert (false = true); [|done].
    apply Hun. exists st. split; [done|]. split; [done|]. by apply recovers_none.
Qed.

Lemma critical_member stmts :
  RiskLevel (analyzeStatements stmts) = RiskCritical <->
  exists st, st ∈ stmts /\ critical_stmt st = true.
Proof.
  destruct (decide (stmts = [])) as [->|Hne].
  { split; [done|]. intros (st & Hin & _). set_solver. }
  destruct (analyzeStatements_level stmts Hne) as (st & Hin & -> & Hmax). split.
  - intros H. exists st. split; [done|]. by apply String.eqb_eq.
  - intros (st' & Hin' & Hc). specialize (Hmax st' Hin').
    apply String.eqb_eq in Hc. rewrite Hc in Hmax.
    destruct (analyzeStatement_level st) as [H|[H|H]]; rewrite H in Hmax |- *;
      by vm_compute in Hmax.
Qed.

Lemma analyzeStatements_never_impact stmts :
  String.eqb (RiskLevel (analyzeStatements stmts)) RiskImpactCritical = false.
Proof.
  destruct (decide (stmts = [])) as [->|Hne]; [done|].
  destruct (analyzeStatements_level stmts Hne) as (st & _ & -> & _).
  by destruct (analyzeStatement_level st) as [->|[->| ->]].
Qed.

(** The statements the analyzer does not know. *)
Lemma unclassified_critical st :
  Reason (analyzeStatement st) ∈
    ["statement node is missing"; "parsed statement kind is not explicitly classified"] ->
  critical_stmt st = true /\ TableRecoverable (analyzeStatement st) = false.
Proof.
  destruct st as [node|]; [|done]. unfold critical_stmt. simpl analyzeStatement.
  revert node. fix IH 1. intros node.
  destruct node as [| | |kind| |rel|rel wh|rel wh|rel|ty objs| |rels|opts [q|]
    | | | | | | | | | | | |rv|items|sv|d|typ]; simpl; try done;
    try (unfold highRelationAnalysis, analyzeDrop, analyzeTruncate, analyzeTransaction;
         repeat case_match; simpl;
         intros [?|[?|?%elem_of_nil]%elem_of_cons]%elem_of_cons; done).
  - unfold analyzeExplain. destruct (explainAnalyze opts); [apply IH|].
    simpl. intros [?|[?|?%elem_of_nil]%elem_of_cons]%elem_of_cons; done.
  - unfold analyzeExplain. destruct (explainAnalyze opts); [done|].
    simpl. intros [?|[?|?%elem_of_nil]%elem_of_cons]%elem_of_cons; done.
Qed.

Lemma analyzeStatements_safe_iff stmts :
  RiskLevel (analyzeStatements stmts) = RiskSafe <->
  forall st, st ∈ stmts -> exists node, st = Some node /\ read_only node.
Proof.
  destruct (decide (stmts = [])) as [->|Hne].
  { split; [|done]. intros _. set_solver. }
  destruct (analyzeStatements_level stmts Hne) as (st & Hin & -> & Hmax). split.
  - intros Hsafe st' Hst'. specialize (Hmax st' Hst'). rewrite Hsafe in Hmax.
    change (riskRank RiskSafe) with 0 in Hmax.
    destruct st' as [node|]; [|by vm_compute in Hmax].
    exists node. split; [done|]. apply safe_read_only.
    by destruct (analyzeStatement_level (Some node)) as [?|[H|H]];
      [done|rewrite H in Hmax; vm_compute in Hmax..].
  - intros Hall. destruct (Hall st Hin) as (node & -> & Hro). by apply read_only_safe.
Qed.

(** ** Properties *)

(** The level of a query is the highest of its statements' levels: some
    statement has the level of the whole query, and no statement ranks higher;
    the count is the number of statements. *)
Theorem analyzeSQL_highest Parse query stmts :
  TrimSpace query <> "" -> Parse query = Ok stmts -> stmts <> [] ->
  (exists st, st ∈ stmts
    /\ RiskLevel (analyzeSQL Parse query) = RiskLevel (analyzeStatement st))
  /\ (forall st, st ∈ stmts ->
       riskRank (RiskLevel (analyzeStatement st))
       <= riskRank (RiskLevel (analyzeSQL Parse query)))
  /\ StatementCount (analyzeSQL Parse query) = Z.of_nat (length stmts).
Proof.
  intros Hq Hp Hne. unfold analyzeSQL.
  apply String.eqb_neq in Hq as ->. rewrite Hp.
  destruct (analyzeStatements_level stmts Hne) as (st & Hin & Hl & Hmax).
  split; [by exists st|]. split; [intros st' Hst'; rewrite Hl; by apply Hmax|].
  unfold analyzeStatements.
  pose proof (inv_none _ _ (loop_inv_all stmts)) as Hnone.
  destruct (acc_result _); [done|]. by specialize (Hnone eq_refl).
Qed.

Definition users : RangeVar := {| Schemaname := ""; Relname := "users" |}.
Definition delete_all (rv : RangeVar) : option Node := Some (Node_DeleteStmt (Some rv) None).

Lemma analyzeSQL_highest_witness :
  let Parse (_ : string) : result (list (option Node)) :=
    Ok [Some (Node_SelectStmt [] None); delete_all users] in
  (exists st, st ∈ [Some (Node_SelectStmt [] None); delete_all users]
    /\ RiskLevel (analyzeSQL Parse "q") = RiskLevel (analyzeStatement st))
  /\ (forall st, st ∈ [Some (Node_SelectStmt [] None); delete_all users] ->
       riskRank (RiskLevel (analyzeStatement st))
       <= riskRank (RiskLevel (analyzeSQL Parse "q")))
  /\ StatementCount (analyzeSQL Parse "q") = 2.
Proof.
  intros Parse. apply (analyzeSQL_highest Parse "q"); [vm_compute; discriminate|done|done].
Defined.

(** C28. A query is SAFE exactly when it is blank, or the parser accepts it and
    every one of its statements is one the gateway counts as reading: SELECT,
    SHOW, SET, transaction control, and EXPLAIN without ANALYZE or of such a
    statement.  A parse error, a missing statement or a kind the gateway does
    not list is never SAFE. *)
Theorem analyzeSQL_safe_iff Parse query :
  RiskLevel (analyzeSQL Parse query) = RiskSafe <->
  TrimSpace query = ""
  \/ exists stmts, Parse query = Ok stmts
       /\ forall st, st ∈ stmts -> exists node, st = Some node /\ read_only node.
Proof.
  unfold analyzeSQL. destruct (String.eqb_spec (TrimSpace query) "") as [->|Hq].
  { split; [by left|done]. }
  destruct (Parse query) as [stmts|err]; [|naive_solver].
  rewrite analyzeStatements_safe_iff. naive_solver.
Qed.

(** C29. Fail closed: when the parser rejects a query that is not blank, or one
    of its statements is missing or of a kind that is not classified, the query
    is CRITICAL and no table is offered for recovery. *)
Theorem analyzeSQL_fails_closed Parse query :
  TrimSpace query <> "" ->
  (is_ok (Parse query) = false
   \/ exists stmts st, Parse query = Ok stmts /\ st ∈ stmts
        /\ Reason (analyzeStatement st) ∈
             ["statement node is missing";
              "parsed statement kind is not explicitly classified"]) ->
  RiskLevel (analyzeSQL Parse query) = RiskCritical
  /\ is_ok (criticalRecoveryTable Parse query) = false.
Proof.
  intros Hq H. unfold criticalRecoveryTable, analyzeSQL.
  apply String.eqb_neq in Hq as ->.
  destruct H as [H|(stmts & st & -> & Hin & Hreason)].
  { by destruct (Parse query). }
  assert (critical_stmt st = true /\ TableRecoverable (analyzeStatement st) = false)
    as [Hc Hrec] by by apply unclassified_critical.
  assert (RiskLevel (analyzeStatements stmts) = RiskCritical) as Hlevel.
  { apply critical_member. eauto. }
  split; [done|]. unfold criticalRecoveryTableFromAnalysis. rewrite Hlevel. simpl.
  destruct (TableRecoverable (analyzeStatements stmts)) eqn:Ht; simpl;
    [exfalso|by destruct (ParseError _)].
  pose proof (proj1 (analyzeStatements_recoverable stmts
    (Table (analyzeStatements stmts)) ltac:(by rewrite Hlevel)) (conj Ht eq_refl) st Hin Hc) as Hr.
  unfold recovers in Hr. by rewrite Hrec in Hr.
Qed.

Lemma analyzeSQL_fails_closed_witness :
  RiskLevel (analyzeSQL (fun _ => Err "syntax error") "DROP") = RiskCritical
  /\ is_ok (criticalRecoveryTable (fun _ => Err "syntax error") "DROP") = false.
Proof.
  apply analyzeSQL_fails_closed; [vm_compute; discriminate|by left].
Defined.

(** [criticalRecoveryTable] names a table exactly when the query has a
    CRITICAL statement and every CRITICAL statement of it recovers that same
    table, whose name is not blank and holds no comma. *)
Theorem criticalRecoveryTable_iff Parse query t :
  criticalRecoveryTable Parse query = Ok t <->
  TrimSpace query <> "" /\ TrimSpace t <> "" /\ Contains t "," = false
  /\ exists stmts, Parse query = Ok stmts
       /\ (exists st, st ∈ stmts /\ critical_stmt st = true)
       /\ (forall st, st ∈ stmts -> critical_stmt st = true -> recovers t st = true).
Proof.
  unfold criticalRecoveryTable, analyzeSQL.
  destruct (String.eqb_spec (TrimSpace query) "") as [Hq|Hq]; [naive_solver|].
  destruct (Parse query) as [stmts|err]; [|naive_solver].
  destruct (String.eqb (RiskLevel (analyzeStatements stmts)) RiskCritical) eqn:Hl.
  - pose proof (analyzeStatements_recoverable stmts t Hl) as Hrec.
    assert (exists st, st ∈ stmts /\ critical_stmt st = true) as Hex
      by (apply critical_member; by apply String.eqb_eq).
    transitivity (TrimSpace t <> "" /\ Contains t "," = false
      /\ TableRecoverable (analyzeStatements stmts) = true
      /\ Table (analyzeStatements stmts) = t).
    + unfold criticalRecoveryTableFromAnalysis. rewrite Hl. simpl.
      destruct (TableRecoverable _); simpl; [|split; [by destruct (ParseError _)|naive_solver]].
      destruct (String.eqb_spec (TrimSpace (Table (analyzeStatements stmts))) "") as [Hb|Hb].
      * split; [by destruct (ParseError _)|]. intros (? & _ & _ & <-). done.
      * destruct (Contains (Table (analyzeStatements stmts)) ",") eqn:Hcomma.
        -- split; [done|]. intros (_ & ? & _ & <-). congruence.
        -- split; [intros [= <-]; done|]. by intros (_ & _ & _ & ->).
    + rewrite Hrec. split; [intros (? & ? & ?); eauto 10|].
      by intros (_ & ? & ? & ? & [= <-] & _ & ?).
  - split.
    + unfold criticalRecoveryTableFromAnalysis. rewrite Hl.
      by rewrite analyzeStatements_never_impact.
    + intros (_ & _ & _ & stmts' & [= <-] & Hex & _).
      apply critical_member, String.eqb_eq in Hex. congruence.
Qed.

(** Two CRITICAL statements on tables of the same name in different schemas
    count as one recoverable table: the query is recoverable, and the schema
    kept is the later one's. *)
Theorem analyzeSQL_conflates_schemas Parse query s1 s2 t :
  TrimSpace query <> "" -> t <> "" -> s2 <> "" ->
  Parse query = Ok [delete_all {| Schemaname := s1; Relname := t |};
                    delete_all {| Schemaname := s2; Relname := t |}] ->
  RiskLevel (analyzeSQL Parse query) = RiskCritical
  /\ TableRecoverable (analyzeSQL Parse query) = true
  /\ Table (analyzeSQL Parse query) = t
  /\ Schema (analyzeSQL Parse query) = s2.
Proof.
  intros Hq%String.eqb_neq Ht%String.eqb_neq Hs%String.eqb_neq Hp.
  unfold analyzeSQL. rewrite Hq, Hp. unfold analyzeStatements, analyze_step.
  simpl. rewrite ?Ht, ?Hs. simpl. rewrite ?Ht, ?Hs.
  unfold critical_target. simpl.
  assert (sortedKeys ({[t]} ∪ ({[t]} ∪ ∅)) = [t]) as ->
    by (apply sortedKeys_singleton; set_solver).
  simpl. split; [done|]. split; [done|]. split; [done|].
  by rewrite lookup_insert_eq.
Qed.

Lemma analyzeSQL_conflates_schemas_witness :
  let Parse (_ : string) : result (list (option Node)) :=
    Ok [delete_all {| Schemaname := "a"; Relname := "users" |};
        delete_all {| Schemaname := "b"; Relname := "users" |}] in
  RiskLevel (analyzeSQL Parse "q") = RiskCritical
  /\ TableRecoverable (analyzeSQL Parse "q") = true
  /\ Table (analyzeSQL Parse "q") = "users"
  /\ Schema (analyzeSQL Parse "q") = "b".
Proof.
  intros Parse. apply (analyzeSQL_conflates_schemas Parse "q" "a");
    [vm_compute; discriminate|discriminate..|reflexivity].
Defined.
