(* ===== verification/Policy.v ===== *)
(** * gateway/policy.go: the gateway's policy and its decisions *)
From Stdlib Require Import SpecFloat.
From S2P Require Import Prelude GoString GoFloat Json JsonText SqlAnalyzer PgAst.
From stdpp Require Import options.

Open Scope Z_scope.

Definition PolicyActionExecute : string := "execute".
Definition PolicyActionApprove : string := "approve".
Definition PolicyActionBlock : string := "block".

Record GatewayPolicy := {
  RequireApprovalForRisks : list string;
  BlockOperations : list string;
  RequireRecoveryForCritical : bool;
  BlockUnknownOrParseFailure : bool;
  BlockUnrecoverableOperations : bool;
  MaxSnapshotAgeSeconds : Z;
  RequireSidecarHeartbeat : bool;
  MaxSidecarHeartbeatSeconds : Z;
  RequireObjectChecksum : bool;
  ImpactAnalysisEnabled : bool;
  MaxWriteRowsWithoutCritical : Z;
  MaxWritePercentWithoutCritical : float64;
  ProtectedTables : list string;
  policy_ProtectedColumns : option (gmap string (list string));
  UnknownImpactAction : string;
  RecoveryGroups : option (gmap string (list string));
  ForeignKeyGroupingEnabled : bool;
  CascadeRiskRequiresGroupReadiness : bool;
  MaxBlockedAttemptsPerWindow : Z;
  QuarantineDurationSeconds : Z;
  DangerousRetryWindowSeconds : Z;
  QuarantineBlocksSafeQueries : bool;
}.

Record PolicyDecision := {
  Action : string;
  decision_Reason : string;
  RequiresApproval : bool;
  RequiresRecovery : bool;
  RecoveryPossible : bool;
}.

Definition DefaultGatewayPolicy : GatewayPolicy := {|
  RequireApprovalForRisks := [RiskHigh; RiskImpactCritical; RiskCritical];
  BlockOperations := ["DROP DATABASE"; "DROP SCHEMA"];
  RequireRecoveryForCritical := true;
  BlockUnknownOrParseFailure := true;
  BlockUnrecoverableOperations := true;
  MaxSnapshotAgeSeconds := 300;
  RequireSidecarHeartbeat := true;
  MaxSidecarHeartbeatSeconds := 120;
  RequireObjectChecksum := false;
  ImpactAnalysisEnabled := true;
  MaxWriteRowsWithoutCritical := 1000;
  MaxWritePercentWithoutCritical := f64 50;
  ProtectedTables := [];
  policy_ProtectedColumns := Some ∅;
  UnknownImpactAction := PolicyActionApprove;
  RecoveryGroups := Some ∅;
  ForeignKeyGroupingEnabled := false;
  CascadeRiskRequiresGroupReadiness := false;
  MaxBlockedAttemptsPerWindow := 3;
  QuarantineDurationSeconds := 1800;
  DangerousRetryWindowSeconds := 600;
  QuarantineBlocksSafeQueries := false
|}.

(** ** Loading a policy file *)
Definition strs : decoder (list string) := dec_slice dec_string "".
Definition str_map : decoder (option (gmap string (list string))) := dec_map strs [].

Definition dec_GatewayPolicy (p : GatewayPolicy) (members : list (string * json))
    : result GatewayPolicy :=
  v0 ← field strs "require_approval_for_risks" (RequireApprovalForRisks p) members;
  v1 ← field strs "block_operations" (BlockOperations p) members;
  v2 ← field dec_bool "require_recovery_for_critical" (RequireRecoveryForCritical p) members;
  v3 ← field dec_bool "block_unknown_or_parse_failure" (BlockUnknownOrParseFailure p) members;
  v4 ← field dec_bool "block_unrecoverable_operations" (BlockUnrecoverableOperations p) members;
  v5 ← field dec_int "max_snapshot_age_seconds" (MaxSnapshotAgeSeconds p) members;
  v6 ← field dec_bool "require_sidecar_heartbeat" (RequireSidecarHeartbeat p) members;
  v7 ← field dec_int "max_sidecar_heartbeat_seconds" (MaxSidecarHeartbeatSeconds p) members;
  v8 ← field dec_bool "require_object_checksum" (RequireObjectChecksum p) members;
  v9 ← field dec_bool "impact_analysis_enabled" (ImpactAnalysisEnabled p) members;
  v10 ← field dec_int "max_write_rows_without_critical" (MaxWriteRowsWithoutCritical p) members;
  v11 ← field dec_float "max_write_percent_without_critical" (MaxWritePercentWithoutCritical p) members;
  v12 ← field strs "protected_tables" (ProtectedTables p) members;
  v13 ← field str_map "protected_columns" (policy_ProtectedColumns p) members;
  v14 ← field dec_string "unknown_impact_action" (UnknownImpactAction p) members;
  v15 ← field str_map "recovery_groups" (RecoveryGroups p) members;
  v16 ← field dec_bool "foreign_key_grouping_enabled" (ForeignKeyGroupingEnabled p) members;
  v17 ← field dec_bool "cascade_risk_requires_group_readiness" (CascadeRiskRequiresGroupReadiness p) members;
  v18 ← field dec_int "max_blocked_attempts_per_window" (MaxBlockedAttemptsPerWindow p) members;
  v19 ← field dec_int "quarantine_duration_seconds" (QuarantineDurationSeconds p) members;
  v20 ← field dec_int "dangerous_retry_window_seconds" (DangerousRetryWindowSeconds p) members;
  v21 ← field dec_bool "quarantine_blocks_safe_queries" (QuarantineBlocksSafeQueries p) members;
  mret {|
    RequireApprovalForRisks := v0;
    BlockOperations := v1;
    RequireRecoveryForCritical := v2;
    BlockUnknownOrParseFailure := v3;
    BlockUnrecoverableOperations := v4;
    MaxSnapshotAgeSeconds := v5;
    RequireSidecarHeartbeat := v6;
    MaxSidecarHeartbeatSeconds := v7;
    RequireObjectChecksum := v8;
    ImpactAnalysisEnabled := v9;
    MaxWriteRowsWithoutCritical := v10;
    MaxWritePercentWithoutCritical := v11;
    ProtectedTables := v12;
    policy_ProtectedColumns := v13;
    UnknownImpactAction := v14;
    RecoveryGroups := v15;
    ForeignKeyGroupingEnabled := v16;
    CascadeRiskRequiresGroupReadiness := v17;
    MaxBlockedAttemptsPerWindow := v18;
    QuarantineDurationSeconds := v19;
    DangerousRetryWindowSeconds := v20;
    QuarantineBlocksSafeQueries := v21
  |}.

(** The value of a field, or the default when the field is zero. *)
Definition or_default_int (v d : Z) : Z := if v =? 0 then d else v.
Definition or_default_float (v d : float64) : float64 :=
  if SFeqb v (f64 0) then d else v.
Definition or_default_list {A} (v d : list A) : list A :=
  match v with [] => d | _ => v end.
Definition or_default_string (v d : string) : string := if String.eqb v "" then d else v.
Definition or_default_map {A} (v d : option (gmap string A)) : option (gmap string A) :=
  match v with None => d | _ => v end.

Definition apply_defaults (p : GatewayPolicy) : GatewayPolicy :=
  let defaults := DefaultGatewayPolicy in {|
    RequireApprovalForRisks := or_default_list (RequireApprovalForRisks p) (RequireApprovalForRisks defaults);
    BlockOperations := or_default_list (BlockOperations p) (BlockOperations defaults);
    RequireRecoveryForCritical := RequireRecoveryForCritical p;
    BlockUnknownOrParseFailure := BlockUnknownOrParseFailure p;
    BlockUnrecoverableOperations := BlockUnrecoverableOperations p;
    MaxSnapshotAgeSeconds := or_default_int (MaxSnapshotAgeSeconds p) (MaxSnapshotAgeSeconds defaults);
    RequireSidecarHeartbeat := RequireSidecarHeartbeat p;
    MaxSidecarHeartbeatSeconds := or_default_int (MaxSidecarHeartbeatSeconds p) (MaxSidecarHeartbeatSeconds defaults);
    RequireObjectChecksum := RequireObjectChecksum p;
    ImpactAnalysisEnabled := ImpactAnalysisEnabled p;
    MaxWriteRowsWithoutCritical := or_default_int (MaxWriteRowsWithoutCritical p) (MaxWriteRowsWithoutCritical defaults);
    MaxWritePercentWithoutCritical := or_default_float (MaxWritePercentWithoutCritical p) (MaxWritePercentWithoutCritical defaults);
    ProtectedTables := ProtectedTables p;
    policy_ProtectedColumns := or_default_map (policy_ProtectedColumns p) (policy_ProtectedColumns defaults);
    UnknownImpactAction := or_default_string (UnknownImpactAction p) (UnknownImpactAction defaults);
    RecoveryGroups := or_default_map (RecoveryGroups p) (RecoveryGroups defaults);
    ForeignKeyGroupingEnabled := ForeignKeyGroupingEnabled p;
    CascadeRiskRequiresGroupReadiness := CascadeRiskRequiresGroupReadiness p;
    MaxBlockedAttemptsPerWindow := or_default_int (MaxBlockedAttemptsPerWindow p) (MaxBlockedAttemptsPerWindow defaults);
    QuarantineDurationSeconds := or_default_int (QuarantineDurationSeconds p) (QuarantineDurationSeconds defaults);
    DangerousRetryWindowSeconds := or_default_int (DangerousRetryWindowSeconds p) (DangerousRetryWindowSeconds defaults);
    QuarantineBlocksSafeQueries := QuarantineBlocksSafeQueries p
  |}.

(** [path] is trimmed by the test only; [file] is what reading it gives. *)
Definition LoadGatewayPolicy (path : string) (file : result string)
    : result GatewayPolicy :=
  if String.eqb (TrimSpace path) "" then Ok DefaultGatewayPolicy
  else
    raw ← file;
    apply_defaults <$>
      wrap_err "parse policy file: "
        (Unmarshal (dec_struct dec_GatewayPolicy) (json_document raw) DefaultGatewayPolicy).

(** ** Decisions *)
Definition requiresApproval (p : GatewayPolicy) (risk : string) : bool :=
  existsb (fun value => EqualFold value risk) (RequireApprovalForRisks p).

Definition blocksOperation (p : GatewayPolicy) (operation : string) : bool :=
  existsb (fun value => EqualFold value operation) (BlockOperations p).

Definition block_decision (reason : string) (possible : bool) : PolicyDecision := {|
  Action := PolicyActionBlock; decision_Reason := reason; RequiresApproval := false;
  RequiresRecovery := false; RecoveryPossible := possible |}.

Definition Decide (p : GatewayPolicy) (analysis : sqlAnalysis) : PolicyDecision :=
  let recoveryPossible :=
    is_critical (RiskLevel analysis) && TableRecoverable analysis
    && negb (String.eqb (TrimSpace (Table analysis)) "") in
  if blocksOperation p (Operation analysis) then
    block_decision (Operation analysis +:+ " is blocked by policy") recoveryPossible
  else if BlockUnknownOrParseFailure p
          && (String.eqb (Operation analysis) "PARSE_FAILURE"
              || String.eqb (Operation analysis) "UNKNOWN"
              || HasPrefix (Operation analysis) "*") then
    block_decision "unknown or unparsable SQL is blocked by policy" false
  else if is_critical (RiskLevel analysis) && BlockUnrecoverableOperations p
          && negb recoveryPossible then
    block_decision "critical SQL has no single table recovery point" false
  else if requiresApproval p (RiskLevel analysis) then {|
    Action := PolicyActionApprove;
    decision_Reason := RiskLevel analysis +:+ " SQL requires approval";
    RequiresApproval := true;
    RequiresRecovery := is_critical (RiskLevel analysis) && RequireRecoveryForCritical p;
    RecoveryPossible := recoveryPossible |}
  else {|
    Action := PolicyActionExecute;
    decision_Reason := RiskLevel analysis +:+ " SQL may execute immediately";
    RequiresApproval := false;
    RequiresRecovery := false;
    RecoveryPossible := recoveryPossible |}.

(** ** The decision, branch by branch *)
Definition recovery_possible (a : sqlAnalysis) : bool :=
  is_critical (RiskLevel a) && TableRecoverable a
  && negb (String.eqb (TrimSpace (Table a)) "").

Definition unknown_operation (op : string) : bool :=
  String.eqb op "PARSE_FAILURE" || String.eqb op "UNKNOWN" || HasPrefix op "*".

Lemma Decide_action p a :
  Action (Decide p a) =
    if blocksOperation p (Operation a)
       || (BlockUnknownOrParseFailure p && unknown_operation (Operation a))
       || (is_critical (RiskLevel a) && BlockUnrecoverableOperations p
           && negb (recovery_possible a))
    then PolicyActionBlock
    else if requiresApproval p (RiskLevel a) then PolicyActionApprove
    else PolicyActionExecute.
Proof.
  unfold Decide, unknown_operation, recovery_possible.
  destruct (blocksOperation p (Operation a)); [done|]. simpl.
  destruct (BlockUnknownOrParseFailure p && _); [done|]. simpl.
  destruct (is_critical (RiskLevel a) && _ && _); [done|].
  by destruct (requiresApproval p (RiskLevel a)).
Qed.

(** The operations that the default policy blocks by name, or as unknown, are
    those of statements without a recovery table. *)
Definition blocked_by_name (op : string) : bool :=
  blocksOperation DefaultGatewayPolicy op || unknown_operation op.

Lemma blocked_by_name_explain op : blocked_by_name ("EXPLAIN ANALYZE " +:+ op) = false.
Proof. done. Qed.

Lemma blocked_by_name_unrecoverable st :
  blocked_by_name (Operation (analyzeStatement st)) = true ->
  critical_stmt st = true /\ TableRecoverable (analyzeStatement st) = false.
Proof.
  destruct st as [node|]; [|done]. unfold critical_stmt. simpl analyzeStatement.
  destruct node as [| | |kind| |rel|rel wh|rel wh|rel|ty objs| |rels|opts q
    | | | | | | | | | | | |rv|items|sv|d|typ]; try done; simpl.
  - by destruct kind.
  - unfold highRelationAnalysis. by destruct (rangeVarParts rel).
  - destruct (rangeVarParts rel). by destruct wh.
  - destruct (rangeVarParts rel). by destruct wh.
  - unfold highRelationAnalysis. by destruct (rangeVarParts rel).
  - unfold analyzeDrop. destruct ty; try done. by repeat case_match.
  - unfold analyzeTruncate. by repeat case_match.
  - unfold analyzeExplain. destruct (explainAnalyze opts); [|done].
    simpl. by rewrite blocked_by_name_explain.
Qed.

(** The operation reported for a query is one of its statements'. *)
Lemma analyzeStatements_operation_result stmts :
  Operation (analyzeStatements stmts) =
    match acc_result (fold_left analyze_step stmts analyzeAcc0) with
    | None => "EMPTY"
    | Some r => Operation r
    end.
Proof.
  unfold analyzeStatements. destruct (acc_result _) as [r|]; [|done].
  destruct (String.eqb _ RiskCritical); [|done].
  unfold critical_target. by repeat case_match.
Qed.

Lemma analyzeStatements_operation stmts :
  stmts <> [] ->
  exists st, st ∈ stmts
    /\ Operation (analyzeStatements stmts) = Operation (analyzeStatement st).
Proof.
  intros Hne. pose proof (loop_inv_all stmts) as [Hnone Hres _ _].
  rewrite analyzeStatements_operation_result.
  destruct (acc_result _) as [r|]; [|by specialize (Hnone eq_refl)].
  destruct (Hres r eq_refl) as (st & Hin & -> & _). by exists st.
Qed.

(** [offers_recovery stmts t]: every CRITICAL statement recovers table [t]. *)
Definition offers_recovery (stmts : list (option Node)) (t : string) : Prop :=
  TrimSpace t <> ""
  /\ forall st, st ∈ stmts -> critical_stmt st = true -> recovers t st = true.

Lemma recovery_possible_iff stmts :
  RiskLevel (analyzeStatements stmts) = RiskCritical ->
  recovery_possible (analyzeStatements stmts) = true <->
  exists t, offers_recovery stmts t.
Proof.
  intros Hl. unfold recovery_possible, offers_recovery. rewrite Hl.
  change (is_critical RiskCritical) with true.
  assert (String.eqb (RiskLevel (analyzeStatements stmts)) RiskCritical = true) as Hl'
    by by rewrite Hl.
  rewrite andb_true_iff, negb_true_iff, String.eqb_neq. simpl. split.
  - intros [Hr Ht]. exists (Table (analyzeStatements stmts)). split; [done|].
    by apply (analyzeStatements_recoverable stmts _ Hl').
  - intros (t & Ht & Hall).
    by apply (analyzeStatements_recoverable stmts t Hl') in Hall as [? ->].
Qed.

(** ** Loaded policies *)
Record policy_ok (p : GatewayPolicy) : Prop := {
  ok_risks : RequireApprovalForRisks p <> [];
  ok_operations : BlockOperations p <> [];
  ok_age : MaxSnapshotAgeSeconds p <> 0;
  ok_heartbeat : MaxSidecarHeartbeatSeconds p <> 0;
  ok_rows : MaxWriteRowsWithoutCritical p <> 0;
  ok_percent : SFeqb (MaxWritePercentWithoutCritical p) (f64 0) = false;
  ok_unknown : UnknownImpactAction p <> "";
  ok_columns : is_Some (policy_ProtectedColumns p);
  ok_groups : is_Some (RecoveryGroups p);
  ok_attempts : MaxBlockedAttemptsPerWindow p <> 0;
  ok_quarantine : QuarantineDurationSeconds p <> 0;
  ok_window : DangerousRetryWindowSeconds p <> 0;
}.

Lemma or_default_int_nonzero v d : d <> 0 -> or_default_int v d <> 0.
Proof. unfold or_default_int. by destruct (Z.eqb_spec v 0). Qed.

Lemma or_default_float_nonzero v d :
  SFeqb d (f64 0) = false -> SFeqb (or_default_float v d) (f64 0) = false.
Proof. unfold or_default_float. by destruct (SFeqb v (f64 0)) eqn:?. Qed.

Lemma or_default_list_nonempty {A} (v d : list A) : d <> [] -> or_default_list v d <> [].
Proof. by destruct v. Qed.

Lemma or_default_string_nonempty v d : d <> "" -> or_default_string v d <> "".
Proof. unfold or_default_string. by destruct (String.eqb_spec v ""). Qed.

Lemma or_default_map_some {A} (v d : option (gmap string A)) :
  is_Some d -> is_Some (or_default_map v d).
Proof. by destruct v. Qed.

Lemma apply_defaults_ok p : policy_ok (apply_defaults p).
Proof.
  split; simpl; first [by apply or_default_int_nonzero | by apply or_default_float_nonzero | by apply or_default_list_nonempty
    | by apply or_default_string_nonempty | by apply or_default_map_some].
Qed.

Lemma default_decision stmts :
  Action (Decide DefaultGatewayPolicy (analyzeStatements stmts)) =
    if String.eqb (RiskLevel (analyzeStatements stmts)) RiskSafe then PolicyActionExecute
    else if String.eqb (RiskLevel (analyzeStatements stmts)) RiskCritical
            && negb (recovery_possible (analyzeStatements stmts))
    then PolicyActionBlock else PolicyActionApprove.
Proof.
  destruct (decide (stmts = [])) as [->|Hne]; [done|].
  set (r := analyzeStatements stmts).
  destruct (analyzeStatements_operation stmts Hne) as (st & Hin & Hop).
  fold r in Hop. rewrite Decide_action.
  assert (blocksOperation DefaultGatewayPolicy (Operation r)
          || BlockUnknownOrParseFailure DefaultGatewayPolicy && unknown_operation (Operation r)
          = blocked_by_name (Operation r)) as -> by done.
  assert (blocked_by_name (Operation r) = true ->
          RiskLevel r = RiskCritical /\ recovery_possible r = false) as Hblocked.
  { rewrite Hop. intros [Hc Hr]%blocked_by_name_unrecoverable.
    assert (RiskLevel r = RiskCritical) as Hl by (apply critical_member; eauto).
    split; [done|]. apply not_true_iff_false. intros Hp.
    apply recovery_possible_iff in Hp as (t & _ & Hall); [|done].
    specialize (Hall st Hin Hc). unfold recovers in Hall. by rewrite Hr in Hall. }
  destruct (analyzeStatements_level stmts Hne) as (st' & _ & Hl & _). fold r in Hl.
  destruct (blocked_by_name (Operation r)).
  { by destruct (Hblocked eq_refl) as [-> ->]. }
  by destruct (analyzeStatement_level st') as [Hs|[Hs|Hs]]; rewrite Hl, Hs; simpl;
    try destruct (recovery_possible r).
Qed.

(** The default policy with other operations to block. *)
Definition block_only (ops : list string) : GatewayPolicy := {|
  RequireApprovalForRisks := RequireApprovalForRisks DefaultGatewayPolicy;
  BlockOperations := ops;
  RequireRecoveryForCritical := RequireRecoveryForCritical DefaultGatewayPolicy;
  BlockUnknownOrParseFailure := BlockUnknownOrParseFailure DefaultGatewayPolicy;
  BlockUnrecoverableOperations := BlockUnrecoverableOperations DefaultGatewayPolicy;
  MaxSnapshotAgeSeconds := MaxSnapshotAgeSeconds DefaultGatewayPolicy;
  RequireSidecarHeartbeat := RequireSidecarHeartbeat DefaultGatewayPolicy;
  MaxSidecarHeartbeatSeconds := MaxSidecarHeartbeatSeconds DefaultGatewayPolicy;
  RequireObjectChecksum := RequireObjectChecksum DefaultGatewayPolicy;
  ImpactAnalysisEnabled := ImpactAnalysisEnabled DefaultGatewayPolicy;
  MaxWriteRowsWithoutCritical := MaxWriteRowsWithoutCritical DefaultGatewayPolicy;
  MaxWritePercentWithoutCritical := MaxWritePercentWithoutCritical DefaultGatewayPolicy;
  ProtectedTables := ProtectedTables DefaultGatewayPolicy;
  policy_ProtectedColumns := policy_ProtectedColumns DefaultGatewayPolicy;
  UnknownImpactAction := UnknownImpactAction DefaultGatewayPolicy;
  RecoveryGroups := RecoveryGroups DefaultGatewayPolicy;
  ForeignKeyGroupingEnabled := ForeignKeyGroupingEnabled DefaultGatewayPolicy;
  CascadeRiskRequiresGroupReadiness := CascadeRiskRequiresGroupReadiness DefaultGatewayPolicy;
  MaxBlockedAttemptsPerWindow := MaxBlockedAttemptsPerWindow DefaultGatewayPolicy;
  QuarantineDurationSeconds := QuarantineDurationSeconds DefaultGatewayPolicy;
  DangerousRetryWindowSeconds := DangerousRetryWindowSeconds DefaultGatewayPolicy;
  QuarantineBlocksSafeQueries := QuarantineBlocksSafeQueries DefaultGatewayPolicy
|}.

(** ** Properties *)

(** With the default policy a query runs at once exactly when it is blank
    or the parser accepts it and all its statements only read; it is refused
    exactly when the parser rejects it, or it has a CRITICAL statement and no
    single table recovers all its CRITICAL statements; every other query waits
    for approval. *)
Theorem default_policy_decision Parse query :
  let action := Action (Decide DefaultGatewayPolicy (analyzeSQL Parse query)) in
  (action = PolicyActionExecute <->
     TrimSpace query = ""
     \/ exists stmts, Parse query = Ok stmts
          /\ forall st, st ∈ stmts -> exists node, st = Some node /\ read_only node)
  /\ (action = PolicyActionBlock <->
     TrimSpace query <> ""
     /\ (is_ok (Parse query) = false
         \/ exists stmts, Parse query = Ok stmts
              /\ (exists st, st ∈ stmts /\ critical_stmt st = true)
              /\ ~ exists t, offers_recovery stmts t))
  /\ action ∈ [PolicyActionExecute; PolicyActionBlock; PolicyActionApprove].
Proof.
  intros action. unfold action, analyzeSQL. clear action.
  destruct (String.eqb_spec (TrimSpace query) "") as [Hq|Hq].
  { change (Action (Decide DefaultGatewayPolicy (safeAnalysis "EMPTY"
      "empty SQL is a validation no-op"))) with PolicyActionExecute.
    split; [|split]; [by split; [left|]| |set_solver].
    split; [discriminate|]. intros [? _]. done. }
  destruct (Parse query) as [stmts|err].
  - rewrite default_decision. split; [|split].
    + transitivity (RiskLevel (analyzeStatements stmts) = RiskSafe).
      { destruct (String.eqb_spec (RiskLevel (analyzeStatements stmts)) RiskSafe) as [Hs|Hs];
          [by rewrite Hs|]. split; [|done]. by case_match. }
      rewrite analyzeStatements_safe_iff. naive_solver.
    + transitivity (RiskLevel (analyzeStatements stmts) = RiskCritical
                    /\ recovery_possible (analyzeStatements stmts) = false).
      { destruct (String.eqb_spec (RiskLevel (analyzeStatements stmts)) RiskSafe) as [->|Hs];
          [by split; [|intros [? _]]|].
        destruct (String.eqb_spec (RiskLevel (analyzeStatements stmts)) RiskCritical),
          (recovery_possible _); simpl; naive_solver. }
      rewrite <- not_true_iff_false. split.
      * intros [Hl Hr]. rewrite recovery_possible_iff in Hr by done.
        apply critical_member in Hl. split; [done|]. right. eauto.
      * intros [_ [?|(stmts' & [= <-] & Hl & Hr)]]; [done|].
        apply critical_member in Hl. by rewrite recovery_possible_iff.
    + repeat case_match; set_solver.
  - change (Action (Decide DefaultGatewayPolicy (parseFailure err))) with PolicyActionBlock.
    split; [|split]; [by split; [|intros [?|(? & ? & ?)]]|by split; eauto|set_solver].
Qed.

(** The operation that [block_operations] is matched against is that of the
    first of the highest statements only: a blocked TRUNCATE that follows a
    DELETE without WHERE on the same table is not blocked. *)
Theorem block_operations_first_only Parse query rv :
  TrimSpace query <> "" -> TrimSpace (Relname rv) <> "" ->
  Parse query = Ok [delete_all rv; Some (Node_TruncateStmt [Node_RangeVar rv])] ->
  let p := block_only ["TRUNCATE"] in
  Action (Decide p (analyzeStatement (Some (Node_TruncateStmt [Node_RangeVar rv]))))
    = PolicyActionBlock
  /\ Action (Decide p (analyzeSQL Parse query)) = PolicyActionApprove.
Proof.
  intros Hq%String.eqb_neq Ht Hp p. rewrite !Decide_action. split.
  - unfold analyzeStatement, analyzeNode, analyzeTruncate, relationNodeNames.
    simpl. destruct rv as [s t]. simpl. by destruct (String.eqb_spec t ""); subst.
  - unfold analyzeSQL. rewrite Hq, Hp.
    assert (Relname rv <> "") as Hne by (intros Hz; by rewrite Hz in Ht).
    assert (RiskLevel (analyzeStatements
      [delete_all rv; Some (Node_TruncateStmt [Node_RangeVar rv])]) = RiskCritical) as Hl.
    { apply critical_member. exists (delete_all rv). split; [by left|].
      unfold critical_stmt. simpl. by destruct (rangeVarParts (Some rv)). }
    assert (recovery_possible (analyzeStatements
      [delete_all rv; Some (Node_TruncateStmt [Node_RangeVar rv])]) = true) as ->.
    { apply recovery_possible_iff; [done|]. exists (Relname rv). split; [done|].
      intros st Hin _. apply recovers_iff.
      destruct rv as [s t]. apply String.eqb_neq in Hne. simpl in Hne.
      apply elem_of_cons in Hin as [->|Hin%list_elem_of_singleton]; [|subst st]; simpl;
        [|unfold analyzeTruncate, relationNodeNames; simpl]; rewrite Hne; simpl; by rewrite ?Hne. }
    rewrite Hl, analyzeStatements_operation_result. simpl.
    rewrite !analyze_step_result. destruct rv as [s t]. apply String.eqb_neq in Hne.
    simpl in Hne |- *. unfold higherRisk. simpl. unfold analyzeTruncate, relationNodeNames.
    simpl. by rewrite Hne.
Qed.

Lemma block_operations_first_only_witness :
  let rv := {| Schemaname := ""; Relname := "users" |} in
  let Parse (_ : string) : result (list (option Node)) :=
    Ok [delete_all rv; Some (Node_TruncateStmt [Node_RangeVar rv])] in
  let p := block_only ["TRUNCATE"] in
  Action (Decide p (analyzeStatement (Some (Node_TruncateStmt [Node_RangeVar rv]))))
    = PolicyActionBlock
  /\ Action (Decide p (analyzeSQL Parse "q")) = PolicyActionApprove.
Proof.
  intros rv Parse. apply (block_operations_first_only Parse "q" rv);
    [vm_compute; discriminate..|reflexivity].
Defined.

(** Every policy the gateway starts with lists risks that need approval and
    operations to block, has non-zero limits, and maps that are not nil:
    a file cannot switch approval off by an empty list, nor a limit by 0. *)
Theorem LoadGatewayPolicy_ok path file p :
  LoadGatewayPolicy path file = Ok p -> policy_ok p.
Proof.
  unfold LoadGatewayPolicy. destruct (String.eqb _ _).
  { intros [= <-]. split; by try eexists. }
  destruct file as [doc|]; [|done]. simpl.
  destruct (wrap_err _ _) as [q|]; [|done]. simpl. intros [= <-].
  apply apply_defaults_ok.
Qed.

Definition policy_example : result string := Ok (ReplaceAll
  "{`require_approval_for_risks`: [], `max_snapshot_age_seconds`: 0}" "`" (str1 dquote)).

Lemma LoadGatewayPolicy_ok_witness :
  exists p, LoadGatewayPolicy "policy.json" policy_example = Ok p /\ policy_ok p.
Proof.
  assert (is_ok (LoadGatewayPolicy "policy.json" policy_example) = true) as H
    by (vm_compute; reflexivity).
  destruct (LoadGatewayPolicy "policy.json" policy_example) as [p|] eqn:Hp; [|discriminate H].
  exists p. split; [reflexivity|]. exact (LoadGatewayPolicy_ok "policy.json" policy_example p Hp).
Defined.
