(* ===== verification/Postgres.v ===== *)
(** * The protected PostgreSQL database, through database/sql

    The database and its driver are not part of the repository: the gateway's
    components are proved for every implementation of [Postgres].  A query
    yields its rows up to the first error. *)
From S2P Require Import Prelude GoString GoTime GoFloat Json.
From stdpp Require Import options.

Open Scope Z_scope.

(** Driver values. *)
Inductive sqlValue :=
  | SqlNull
  | SqlInt (z : Z)
  | SqlFloat (x : float64)
  | SqlBool (b : bool)
  | SqlBytes (s : string)
  | SqlString (s : string)
  | SqlTime (t : Z).

Record sqlRows := {
  Columns : list string;
  Rows : list (list sqlValue);
  Rows_Err : option error;
}.

(** [db] is the state of the database server; a connection is named by its
    URL, the gateway's own one by [None]. *)
Class Postgres := {
  DB : Type;
  sql_Open : string -> result unit;
  QueryContext : option string -> string -> DB -> result sqlRows * DB;
  ExecContext : option string -> string -> DB -> result Z * DB;
}.

(** [strconv.ParseInt(s, 10, 64)]. *)
Definition digit_value (c : ascii) : option Z :=
  if is_digit c then Some (byte_of c - 48) else None.

Fixpoint parse_digits (acc : Z) (s : string) : option Z :=
  match s with
  | EmptyString => Some acc
  | String c s => d ← digit_value c; parse_digits (acc * 10 + d) s
  end.

Definition ParseInt (s : string) : option Z :=
  let parse (neg : bool) (digits : string) :=
    if String.eqb digits "" then None
    else
      n ← parse_digits 0 digits;
      let z := if neg then - n else n in
      if (int64_min <=? z) && (z <=? int64_max) then Some z else None in
  match s with
  | EmptyString => None
  | String c rest =>
      if Ascii.eqb c "-" then parse true rest
      else if Ascii.eqb c "+" then parse false rest
      else parse false s
  end.

(** [rows.Scan] into a string and into an int64: what is neither is written as a
    string first. *)
Definition scan_string (v : sqlValue) : result string :=
  match v with
  | SqlNull => Err "converting NULL to string is unsupported"
  | SqlInt z => Ok (itoa z)
  | SqlFloat x => Ok (FormatFloat x)
  | SqlBool b => Ok (fmt_bool b)
  | SqlBytes s | SqlString s => Ok s
  | SqlTime t => Ok (Format_RFC3339Nano t)
  end.

Definition scan_int64 (v : sqlValue) : result Z :=
  match v with
  | SqlInt z => Ok z
  | SqlNull => Err "converting NULL to int64 is unsupported"
  | SqlTime _ => Err "unsupported Scan, storing driver.Value type time.Time into type *int64"
  | SqlBool _ | SqlFloat _ | SqlBytes _ | SqlString _ =>
      text ← scan_string v;
      match ParseInt text with
      | Some z => Ok z
      | None => Err "converting driver.Value type to a int64: invalid syntax"
      end
  end.

(** Scanning a row of one column. *)
Definition scan_one {A} (scan : sqlValue -> result A) (row : list sqlValue) : result A :=
  match row with
  | [v] => scan v
  | _ => Err "sql: expected 1 destination arguments in Scan"
  end.

(** [db.QueryRowContext(ctx, q).Scan(&dest)]. *)
Definition row_scan {A} (scan : sqlValue -> result A) (r : result sqlRows) : result A :=
  rows ← r;
  match Rows rows with
  | row :: _ => scan_one scan row
  | [] =>
      match Rows_Err rows with
      | Some e => Err e
      | None => Err "sql: no rows in result set"
      end
  end.

Lemma parse_digits_pretty_example : ParseInt (itoa (-9223372036854775808)) = Some (- 2 ^ 63).
Proof. reflexivity. Qed.
