(* ===== verification/Sqlite.v ===== *)
(** * The SQLite metadata database, through database/sql

    SQLite and its driver are not part of the repository.  [Sqlite] is what the
    metadata stores call; [SqliteLaws] is what SQLite documents of the few kinds
    of statement they send on opening a file, in terms of the columns a table
    has; [small_sqlite] is an implementation on which the laws hold. *)
From S2P Require Import Prelude GoString GoTime Json Postgres.
From stdpp Require Import options.

Open Scope Z_scope.

(** [db.ExecContext] with its error, and [db.QueryContext] with its arguments
    and the rows it yields. *)
Class Sqlite := {
  File : Type;
  Exec : string -> ST File (result unit);
  QueryArgs : string -> list string -> File -> result sqlRows;
}.

(** ** The statements *)

(** The columns of a CREATE TABLE, one a line, each a name with its type. *)
Definition column_lines (cols : list (string * string)) : string :=
  Join (map (fun col => String newline "			" +:+ col.1 +:+ " " +:+ col.2) cols) ",".

Definition create_text (table : string) (cols : list (string * string)) : string :=
  "CREATE TABLE IF NOT EXISTS " +:+ table +:+ " (" +:+ column_lines cols
  +:+ String newline "		)".

Definition alter_text (table column typ : string) : string :=
  "ALTER TABLE " +:+ table +:+ " ADD COLUMN " +:+ column +:+ " " +:+ typ.

Definition table_info_text (table : string) : string :=
  "PRAGMA table_info(" +:+ table +:+ ")".

(** Lower-case identifiers, for which the case-insensitivity of SQLite's names
    does not matter, and the types in use. *)
Definition ident_char (c : ascii) : bool := is_lower c || is_digit c || Ascii.eqb c "_".
Fixpoint ident (s : string) : bool :=
  match s with
  | EmptyString => true
  | String c s => ident_char c && ident s
  end.

Definition column_types : list string :=
  ["TEXT"; "INTEGER"; "TEXT NOT NULL"; "INTEGER NOT NULL"; "TEXT PRIMARY KEY";
   "INTEGER PRIMARY KEY AUTOINCREMENT"; "TEXT NOT NULL DEFAULT 'valid'"].

Definition plain_columns (cols : list (string * string)) : Prop :=
  cols <> [] /\ Forall (fun col => ident col.1 = true /\ col.2 ∈ column_types) cols.

(** A row of PRAGMA table_info: cid, name, type, notnull, dflt_value, pk. *)
Definition info_row (name : string) (row : list sqlValue) : Prop :=
  exists cid typ notNull dflt pk,
    row = [SqlInt cid; SqlString name; SqlString typ; SqlInt notNull; dflt; SqlInt pk].

(** [columns db] are the names of the columns of each table, by the name of the
    table in lower case.  One of these statements that
    fails changes no table; a successful
    CREATE TABLE IF NOT EXISTS adds the table unless it is there; ADD COLUMN
    appends a column, and fails on a table that is missing or has it; reading
    table_info yields the columns in their order, up to an error. *)
Class SqliteLaws `{Sqlite} := {
  columns : File -> gmap string (list string);
  exec_pragma : forall name value db r db',
    ident name = true -> has_byte ";" value = false ->
    Exec ("PRAGMA " +:+ name +:+ "=" +:+ value) db = (r, db') -> columns db' = columns db;
  exec_create : forall table cols db db',
    ident table = true -> plain_columns cols ->
    Exec (create_text table cols) db = (Ok tt, db') ->
    columns db' = match columns db !! table with
                  | Some _ => columns db
                  | None => <[table := cols.*1]> (columns db)
                  end;
  exec_create_failed : forall table cols db e db',
    ident table = true -> plain_columns cols ->
    Exec (create_text table cols) db = (Err e, db') -> columns db' = columns db;
  exec_add_column : forall table column typ db db',
    ident table = true -> ident column = true -> typ ∈ column_types ->
    Exec (alter_text table column typ) db = (Ok tt, db') ->
    exists cs, columns db !! table = Some cs /\ column ∉ cs
      /\ columns db' = <[table := cs ++ [column]]> (columns db);
  exec_add_column_failed : forall table column typ db e db',
    ident table = true -> ident column = true -> typ ∈ column_types ->
    Exec (alter_text table column typ) db = (Err e, db') -> columns db' = columns db;
  query_table_info : forall table db rows,
    ident table = true -> QueryArgs (table_info_text table) [] db = Ok rows ->
    exists names rest,
      Forall2 info_row names (Rows rows)
      /\ default [] (columns db !! table) = names ++ rest
      /\ (Rows_Err rows = None -> rest = []);
}.
Arguments columns {_ _} db.

(** ** An implementation

    A file is the columns of its tables; statements are read as the laws say
    them. *)
Fixpoint cut (p s : string) : option string :=
  match p, s with
  | EmptyString, _ => Some s
  | String a p, String b s => if Ascii.eqb a b then cut p s else None
  | String _ _, EmptyString => None
  end.

Fixpoint word (s : string) : string * string :=
  match s with
  | EmptyString => ("", "")
  | String c s' =>
      if ident_char c then let (w, rest) := word s' in (String c w, rest) else ("", s)
  end.

Definition column_name (line : string) : string :=
  match cut (String newline "			") line with
  | Some s => fst (word s)
  | None => ""
  end.

Definition small_exec (q : string) : ST (gmap string (list string)) (result unit) := fun db =>
  match cut "CREATE TABLE IF NOT EXISTS " q with
  | Some s =>
      let (table, rest) := word s in
      match db !! table, cut " (" rest with
      | Some _, Some _ => (Ok tt, db)
      | None, Some body => (Ok tt, <[table := map column_name (Split body ",")]> db)
      | _, None => (Err "syntax error", db)
      end
  | None =>
      match cut "ALTER TABLE " q with
      | Some s =>
          let (table, rest) := word s in
          match db !! table, cut " ADD COLUMN " rest with
          | Some cs, Some body =>
              let column := fst (word body) in
              if bool_decide (column ∈ cs) then (Err "duplicate column name", db)
              else (Ok tt, <[table := cs ++ [column]]> db)
          | None, _ => (Err "no such table", db)
          | _, None => (Err "syntax error", db)
          end
      | None => (Ok tt, db)
      end
  end.

Definition small_query (q : string) (args : list string) (db : gmap string (list string))
    : result sqlRows :=
  match cut "PRAGMA table_info(" q with
  | Some s =>
      Ok {| Columns := ["cid"; "name"; "type"; "notnull"; "dflt_value"; "pk"];
            Rows := map (fun name => [SqlInt 0; SqlString name; SqlString "TEXT"; SqlInt 0;
                                      SqlNull; SqlInt 0])
                        (default [] (db !! fst (word s)));
            Rows_Err := None |}
  | None => Ok {| Columns := []; Rows := []; Rows_Err := None |}
  end.

Definition small_sqlite : Sqlite := {|
  File := gmap string (list string); Exec := small_exec; QueryArgs := small_query |}.

Lemma cut_append p s : cut p (p +:+ s) = Some s.
Proof.
  induction p as [|c p IH]; [by destruct s|]. rewrite append_cons. cbn [cut].
  by rewrite Ascii.eqb_refl.
Qed.

Lemma word_append s c t :
  ident s = true -> ident_char c = false -> word (s +:+ String c t) = (s, String c t).
Proof.
  intros Hs Hc. induction s as [|d s IH]; [rewrite append_nil_l; cbn [word]; by rewrite Hc|].
  rewrite append_cons. cbn [ident] in Hs. apply andb_true_iff in Hs as [Hd Hs].
  cbn [word]. by rewrite Hd, (IH Hs).
Qed.

Lemma has_byte_ident s c : ident s = true -> ident_char c = false -> has_byte c s = false.
Proof.
  intros Hs Hc. induction s as [|d s IH]; [done|]. cbn in Hs |- *.
  apply andb_true_iff in Hs as [Hd Hs]. rewrite (IH Hs), orb_false_r.
  apply Ascii.eqb_neq. intros ->. congruence.
Qed.

Lemma type_no_comma typ : typ ∈ column_types -> has_byte "," typ = false.
Proof.
  assert (forallb (fun s => negb (has_byte "," s)) column_types = true) as Hall by done.
  rewrite forallb_forall_iff in Hall. intros Hin. apply negb_true_iff, Hall, Hin.
Qed.

Lemma column_name_line name typ rest :
  ident name = true ->
  column_name (String newline "			" +:+ name +:+ " " +:+ typ +:+ rest) = name.
Proof.
  intros Hn. unfold column_name. rewrite cut_append.
  rewrite (append_cons " " ""), append_nil_l. by rewrite word_append.
Qed.

Lemma column_lines_names cols tail :
  plain_columns cols -> has_byte "," tail = false ->
  map column_name (Split (column_lines cols +:+ tail) ",") = cols.*1.
Proof.
  intros [Hne Hall] Htail. unfold column_lines.
  induction Hall as [|[name typ] cols [Hn Ht] Hall IH]; [done|]. cbn [fst snd] in Hn, Ht.
  assert (forall t, has_byte "," t = false ->
    has_byte "," (String newline "			" +:+ name +:+ " " +:+ typ +:+ t) = false) as Hline.
  { intros t Hz. rewrite !has_byte_append, (has_byte_ident name) by done.
    rewrite (type_no_comma typ) by done. by rewrite Hz. }
  destruct cols as [|col cols].
  - cbn [map Join fst snd]. rewrite !append_assoc, Split_absent by by apply Hline.
    cbn [map fmap list_fmap fst]. f_equal. by apply column_name_line.
  - cbn [map]. rewrite Join_cons by done. rewrite !append_assoc.
    cbn [fst snd]. fold (column_lines (col :: cols)) in IH |- *.
    assert (forall t, String newline "			" +:+ name +:+ " " +:+ typ +:+ "," +:+ t
      = (String newline "			" +:+ name +:+ " " +:+ typ +:+ "") +:+ String "," t) as Hsep.
    { intros t. rewrite append_nil_r, !append_assoc, (append_cons "," ""). by rewrite append_nil_l. }
    rewrite Hsep, Split_cons by by apply Hline. cbn [map fmap list_fmap fst]. f_equal.
    + by apply column_name_line.
    + apply IH. done.
Qed.

Lemma small_exec_create table cols db :
  ident table = true -> plain_columns cols ->
  small_exec (create_text table cols) db
  = (Ok tt, match db !! table with Some _ => db | None => <[table := cols.*1]> db end).
Proof.
  intros Ht Hcols. unfold small_exec, create_text. rewrite cut_append.
  rewrite (append_cons " " "("), word_append by done.
  rewrite <- (append_cons " " "("), cut_append.
  destruct (db !! table); [done|]. by rewrite column_lines_names.
Qed.

Lemma small_exec_alter table column typ db :
  ident table = true -> ident column = true ->
  small_exec (alter_text table column typ) db
  = match db !! table with
    | Some cs => if bool_decide (column ∈ cs) then (Err "duplicate column name", db)
                 else (Ok tt, <[table := cs ++ [column]]> db)
    | None => (Err "no such table", db)
    end.
Proof.
  intros Ht Hc. unfold small_exec, alter_text.
  change (cut "CREATE TABLE IF NOT EXISTS " ("ALTER TABLE " +:+ ?x)) with (@None string).
  cbv beta iota. rewrite cut_append.
  rewrite (append_cons " " "ADD COLUMN "), word_append by done.
  rewrite <- (append_cons " " "ADD COLUMN "), cut_append.
  destruct (db !! table); [|done].
  by rewrite (append_cons " " ""), word_append by done.
Qed.

Lemma small_exec_failed q db e db' : small_exec q db = (Err e, db') -> db' = db.
Proof. unfold small_exec. intros H. repeat case_match; naive_solver. Qed.

#[local] Existing Instance small_sqlite.

#[export] Program Instance small_laws : @SqliteLaws small_sqlite := {|
  columns := fun db => db |}.
Next Obligation.
  intros name value db r db' _ _ H. by injection H as _ <-.
Qed.
Next Obligation.
  intros table cols db db' Ht Hcols. cbn [Exec small_sqlite].
  rewrite small_exec_create by done. by intros [= <-].
Qed.
Next Obligation.
  intros table cols db e db' _ _. cbn [Exec small_sqlite]. apply small_exec_failed.
Qed.
Next Obligation.
  intros table column typ db db' Ht Hc _. cbn [Exec small_sqlite].
  change File with (gmap string (list string)) in *.
  rewrite small_exec_alter by done. destruct (db !! table) as [cs|]; [|done].
  case_bool_decide; intros [= <-]. eauto.
Qed.
Next Obligation.
  intros table column typ db e db' _ _ _. cbn [Exec small_sqlite]. apply small_exec_failed.
Qed.
Next Obligation.
  change File with (gmap string (list string)).
  intros table db rows Ht [= <-]. exists (default [] (db !! table)), [].
  cbn [Rows Rows_Err]. split; [|by rewrite app_nil_r].
  change (")" : string) with (String ")" ""). rewrite append_nil_l, (word_append table ")" "") by done. cbn [fst].
  generalize (default [] (db !! table)). intros names.
  induction names as [|name names IH]; [constructor|].
  cbn [map]. constructor; [|done]. repeat eexists.
Qed.
