(* ===== verification/DbWait.v ===== *)
(** * waitForDB of both main.go: the wait for PostgreSQL at start-up

    The two services have the same loop: it pings the database, each ping with a
    time limit of its own, until one succeeds; after a failure it waits for a
    ticker or for the end of the whole wait.  How long a ping takes and what it
    yields is outside; so is which of two ready channels a [select] takes. *)
From S2P Require Import Prelude GoString GoTime.
From stdpp Require Import options.

Open Scope Z_scope.

Definition tick_period : duration := seconds 2.
Definition ping_timeout : duration := seconds 5.
Definition wait_timeout : duration := seconds 60.

(** The i-th ping, begun at a time with a deadline: when it returns, and what. *)
Record pinger := {
  ping : nat -> time -> time -> time * result unit;
  takes_done : nat -> bool;
}.

(** [PingContext] returns by its deadline, or at once when that is past. *)
Definition prompt (p : pinger) : Prop :=
  forall i t limit, t <= (ping p i t limit).1 <= Z.max t limit.

Section wait.
Context (p : pinger) (deadline : time).

(** The ticker's channel holds one tick: of those up to [t] one is kept.  The next
    that fires after [t]. *)
Definition next_tick (next t : time) : time :=
  if next <=? t then next + tick_period * ((t - next) / tick_period + 1) else next.

(** The loop, from the start of its i-th ping on; no tick waits in the channel then.
    [None] is a loop that goes on; otherwise the error of the last ping, if it
    failed, and the time. *)
Fixpoint wait_loop (fuel : nat) (i : nat) (now next : time) : option (option error * time) :=
  match fuel with
  | O => None
  | S fuel =>
      let '(t, r) := ping p i now (Z.min (now + ping_timeout) deadline) in
      match r with
      | Ok _ => Some (None, t)
      | Err lastErr =>
          let buffered := next <=? t in
          let t' := if buffered then t else Z.max t (Z.min next deadline) in
          let tick := next <=? t' in
          if (deadline <=? t') && (negb tick || takes_done p i) then Some (Some lastErr, t')
          else wait_loop fuel (S i) t' (next_tick next t')
      end
  end.
End wait.

(** The pings of a wait: one at its start and one a tick. *)
Definition max_pings : nat := 31.

Definition wait_for_db (p : pinger) (start : time) : option (option error * time) :=
  wait_loop p (start + wait_timeout) max_pings 0 start (start + tick_period).

Definition ctx_error : error := "context deadline exceeded".

(** The gateway's [waitForDB] wraps the last error in the context's, the sidecar's
    returns it.  [Err] for a wait that goes on is never reached: [wait_ends]. *)
Definition gateway_waitForDB (p : pinger) (start : time) : result unit :=
  match wait_for_db p start with
  | Some (None, _) => Ok tt
  | Some (Some lastErr, _) => Err (ctx_error +:+ ": " +:+ lastErr)
  | None => Err "waiting"
  end.

Definition sync_waitForDB (p : pinger) (start : time) : result unit :=
  match wait_for_db p start with
  | Some (None, _) => Ok tt
  | Some (Some lastErr, _) => Err lastErr
  | None => Err "waiting"
  end.

Lemma periods :
  tick_period = 2000000000 /\ ping_timeout = 5000000000 /\ wait_timeout = 60000000000
  /\ seconds 53 = 53000000000.
Proof. done. Qed.

Lemma next_tick_after next t :
  t < next_tick next t /\ (next <= t -> next + tick_period <= next_tick next t)
  /\ (next <= t + tick_period -> next_tick next t <= t + tick_period).
Proof.
  unfold next_tick. destruct periods as (-> & _). destruct (Z.leb_spec next t); [|lia].
  pose proof (Z.div_mod (t - next) 2000000000 ltac:(lia)).
  pose proof (Z.mod_pos_bound (t - next) 2000000000 ltac:(lia)).
  assert (0 <= (t - next) / 2000000000) by (apply Z.div_pos; lia). lia.
Qed.

(** What the loop keeps: the next tick is within a period, and there are pings left
    for the ticks up to the deadline. *)
Definition on_time (deadline : time) (fuel : nat) (now next : time) : Prop :=
  now <= deadline /\ now < next <= now + tick_period
  /\ (0 < fuel)%nat /\ deadline < next + tick_period * (Z.of_nat fuel - 1).

(** One round: it ends in time, or the loop goes on in time. *)
Lemma wait_round p deadline fuel i now next :
  prompt p -> on_time deadline (S fuel) now next ->
  let '(t, r) := ping p i now (Z.min (now + ping_timeout) deadline) in
  let t' := if next <=? t then t else Z.max t (Z.min next deadline) in
  now <= t <= deadline /\ t <= t' <= deadline
  /\ ((deadline <=? t') && (negb (next <=? t') || takes_done p i) = false ->
      on_time deadline fuel t' (next_tick next t'))
  /\ (deadline <= t' -> deadline - ping_timeout - tick_period <= now).
Proof.
  intros Hp (Hnow & Hnext & _ & Hfuel).
  pose proof (Hp i now (Z.min (now + ping_timeout) deadline)) as Ht.
  destruct (ping _ _ _ _) as [t r]. cbn [fst] in Ht.
  assert (0 < tick_period /\ 0 < ping_timeout) as [Htick Hping] by (cbv; done).
  assert (t <= deadline /\ t <= now + ping_timeout) as [Hd Hl] by lia. cbv zeta.
  assert (t <= (if next <=? t then t else Z.max t (Z.min next deadline)) <= deadline
    /\ (if next <=? t then t else Z.max t (Z.min next deadline))
       <= Z.max t next) as [Ht' Hmax] by (destruct (Z.leb_spec next t); lia).
  set (t' := if next <=? t then _ else _) in *.
  split; [lia|]. split; [done|]. split.
  - intros Hgo. assert (next <= t') as Hge.
    { destruct (Z.leb_spec next t'); [done|]. cbn [negb orb] in Hgo.
      rewrite andb_true_r in Hgo. apply Z.leb_gt in Hgo. subst t'.
      destruct (Z.leb_spec next t); lia. }
    destruct (next_tick_after next t') as (H1 & H2 & H3). specialize (H2 Hge).
    unfold on_time. split; [lia|]. split; [lia|].
    destruct fuel; [exfalso; lia|]. split; [lia|].
    rewrite Nat2Z.inj_succ in *. lia.
  - lia.
Qed.

Lemma wait_loop_ends p deadline fuel i now next :
  prompt p -> on_time deadline fuel now next ->
  exists r t, wait_loop p deadline fuel i now next = Some (r, t)
    /\ now <= t <= deadline
    /\ (forall more, wait_loop p deadline (fuel + more) i now next = Some (r, t))
    /\ match r with
       | None => exists j b limit, now <= b /\ ping p j b limit = (t, Ok tt)
       | Some e => t = deadline
           /\ exists j b limit, deadline - ping_timeout - tick_period <= b
                /\ (ping p j b limit).2 = Err e
       end.
Proof.
  intros Hp. revert i now next. induction fuel as [|fuel IH]; intros i now next Hon.
  { destruct Hon as (_ & _ & H & _). lia. }
  pose proof (wait_round p deadline fuel i now next Hp Hon) as Hround.
  cbn [wait_loop Nat.add].
  destruct (ping p i now (Z.min (now + ping_timeout) deadline)) as [t r] eqn:Eping.
  destruct Hround as (Ht & Ht' & Hgo & Hlast). destruct r as [[]|e].
  - exists None, t. split; [done|]. split; [done|]. split; [done|].
    exists i, now. eexists. split; [lia|]. exact Eping.
  - set (t' := if next <=? t then t else Z.max t (Z.min next deadline)) in *.
    destruct ((deadline <=? t') && _) eqn:Estop.
    + exists (Some e), t'. apply andb_true_iff in Estop as [Hge%Z.leb_le _].
      split; [done|]. split; [lia|]. split; [done|]. split; [lia|].
      exists i, now. eexists. split; [by apply Hlast|]. by rewrite Eping.
    + destruct (IH (S i) t' (next_tick next t') (Hgo eq_refl)) as (r & u & Hu & Hle & Hmore & Hr).
      exists r, u. split; [done|]. split; [lia|]. split; [done|].
      destruct r as [e'|]; [done|]. destruct Hr as (j & b & limit & Hb & Hj).
      exists j, b, limit. split; [lia|done].
Qed.

(** C27. The wait for the database ends.  When a ping keeps to its time limit, the loop
    returns within its 60 seconds and after at most 31 pings, and more
    rounds would change nothing.  It gives up only at the end of the minute; and when the
    database answers every ping from 7 seconds before that on, it connects. *)
Theorem wait_ends p start :
  prompt p ->
  exists r t, wait_for_db p start = Some (r, t)
    /\ start <= t <= start + wait_timeout
    /\ (forall more, wait_loop p (start + wait_timeout) (max_pings + more) 0 start
                       (start + tick_period) = Some (r, t))
    /\ (r <> None -> t = start + wait_timeout)
    /\ ((forall j b limit, start + seconds 53 <= b -> (ping p j b limit).2 = Ok tt) -> r = None)
    /\ gateway_waitForDB p start = match r with
                                   | None => Ok tt
                                   | Some e => Err (ctx_error +:+ ": " +:+ e)
                                   end
    /\ sync_waitForDB p start = match r with None => Ok tt | Some e => Err e end.
Proof.
  intros Hp. unfold gateway_waitForDB, sync_waitForDB.
  destruct (wait_loop_ends p (start + wait_timeout) max_pings 0 start (start + tick_period) Hp)
    as (r & t & Hr & Ht & Hmore & Hend).
  { unfold on_time, max_pings. destruct periods as (-> & _ & -> & _). lia. }
  exists r, t. unfold wait_for_db in *. rewrite Hr. split; [done|]. split; [done|].
  split; [done|]. destruct r as [e|].
  - destruct Hend as (-> & j & b & limit & Hb & He). split; [done|]. split; [|done].
    intros Hup. specialize (Hup j b limit). rewrite He in Hup.
    destruct periods as (Htick & Hping & Hwait & Hup53). discriminate Hup. lia.
  - done.
Qed.

(** A database that refuses for 20 seconds, each ping taking three. *)
Definition late_database : pinger := {|
  ping := fun _ t limit =>
    if t <? seconds 20 then (Z.max t (Z.min (t + seconds 3) limit), Err "connection refused")
    else (t, Ok tt);
  takes_done := fun _ => false |}.

Lemma wait_ends_witness :
  prompt late_database /\ wait_for_db late_database 0 = Some (None, 21000000000)
  /\ exists r t, wait_for_db late_database 0 = Some (r, t)
    /\ 0 <= t <= 0 + wait_timeout
    /\ (forall more, wait_loop late_database (0 + wait_timeout) (max_pings + more) 0 0
                       (0 + tick_period) = Some (r, t))
    /\ (r <> None -> t = 0 + wait_timeout)
    /\ ((forall j b limit, 0 + seconds 53 <= b -> (ping late_database j b limit).2 = Ok tt)
        -> r = None)
    /\ gateway_waitForDB late_database 0 = match r with
                                           | None => Ok tt
                                           | Some e => Err (ctx_error +:+ ": " +:+ e)
                                           end
    /\ sync_waitForDB late_database 0 = match r with None => Ok tt | Some e => Err e end.
Proof.
  assert (prompt late_database) as Hp.
  { intros i t limit. cbn [ping late_database].
    destruct (t <? seconds 20); cbn [fst]; [|lia].
    assert (0 <= seconds 3) by (by vm_compute). lia. }
  split; [exact Hp|]. split; [vm_compute; reflexivity|]. exact (wait_ends late_database 0 Hp).
Defined.

(** One that never answers: 31 pings, and the error of the last. *)
Example dead_database :
  let p := {| ping := fun i t _ => (t, Err (itoa (Z.of_nat i))); takes_done := fun _ => true |} in
  gateway_waitForDB p 0 = Err "context deadline exceeded: 29"
  /\ sync_waitForDB {| ping := ping p; takes_done := fun _ => false |} 0 = Err "30".
Proof. by vm_compute. Qed.
