(* ===== verification/MetadataSchema.v ===== *)
(** * metadata_store.go of both services: opening the metadata database

    [OpenMetadataStore] with [init] and [ensureColumn], for the tables of the
    gateway and those of the sidecar, which open the same file in any order, and
    with files that earlier versions made.  [run_steps] is what the statements do
    to the columns; the theorems say what the columns are after any history of
    starts, and that they serve the statements the stores send. *)
From S2P Require Import Prelude GoString GoTime Json Postgres Sqlite.
From stdpp Require Import options.

Open Scope Z_scope.

(** ** The statements of init *)
Definition pragmas : list (string * string) :=
  [("journal_mode", "WAL"); ("busy_timeout", "5000")].

Definition audit_events_columns : list (string * string) :=
  [("id", "INTEGER PRIMARY KEY AUTOINCREMENT"); ("timestamp", "TEXT NOT NULL");
   ("agent_id", "TEXT NOT NULL"); ("query", "TEXT NOT NULL");
   ("risk_level", "TEXT NOT NULL"); ("approved", "INTEGER NOT NULL");
   ("query_sha256", "TEXT"); ("environment", "TEXT"); ("cluster_id", "TEXT")].

Definition approvals_columns : list (string * string) :=
  [("approval_id", "TEXT PRIMARY KEY"); ("agent_id", "TEXT NOT NULL");
   ("query", "TEXT NOT NULL"); ("risk_level", "TEXT NOT NULL"); ("status", "TEXT NOT NULL");
   ("created_at", "TEXT NOT NULL"); ("resolved_at", "TEXT"); ("query_sha256", "TEXT");
   ("operation", "TEXT"); ("schema_name", "TEXT"); ("table_name", "TEXT");
   ("environment", "TEXT"); ("cluster_id", "TEXT"); ("snapshot_id", "TEXT");
   ("resolved_by", "TEXT")].

Definition snapshots_columns : list (string * string) :=
  [("snapshot_id", "TEXT PRIMARY KEY"); ("table_name", "TEXT NOT NULL"); ("writer", "TEXT");
   ("snapshot_scope", "TEXT"); ("row_count", "INTEGER"); ("manifest_key", "TEXT");
   ("timestamp", "TEXT NOT NULL"); ("payload_json", "TEXT");
   ("status", "TEXT NOT NULL DEFAULT 'valid'"); ("validation_error", "TEXT")].

Definition alerts_columns : list (string * string) :=
  [("id", "INTEGER PRIMARY KEY AUTOINCREMENT"); ("timestamp", "TEXT NOT NULL");
   ("severity", "TEXT NOT NULL"); ("event_type", "TEXT NOT NULL"); ("table_name", "TEXT");
   ("status", "TEXT NOT NULL"); ("payload_json", "TEXT")].

Definition native_backups_columns : list (string * string) :=
  [("backup_id", "TEXT PRIMARY KEY"); ("backup_type", "TEXT NOT NULL"); ("db_name", "TEXT");
   ("cluster_id", "TEXT"); ("timestamp", "TEXT NOT NULL"); ("payload_json", "TEXT")].

Definition health_checks_columns : list (string * string) :=
  [("component", "TEXT PRIMARY KEY"); ("status", "TEXT NOT NULL");
   ("checked_at", "TEXT NOT NULL"); ("detail_json", "TEXT")].

Definition agent_state_columns : list (string * string) :=
  [("agent_id", "TEXT PRIMARY KEY"); ("risky_attempts", "INTEGER NOT NULL");
   ("window_started_at", "TEXT NOT NULL"); ("quarantine_until", "TEXT");
   ("last_reason", "TEXT"); ("last_table", "TEXT"); ("updated_at", "TEXT NOT NULL")].

(** The gateway's tables, and the columns it adds to files of earlier versions. *)
Definition gateway_tables : list (string * list (string * string)) :=
  [("audit_events", audit_events_columns); ("approvals", approvals_columns);
   ("snapshots", snapshots_columns); ("alerts", alerts_columns);
   ("native_backups", native_backups_columns); ("health_checks", health_checks_columns);
   ("agent_state", agent_state_columns)].

Definition gateway_added : list (string * string * string) :=
  [("audit_events", "query_sha256", "TEXT"); ("audit_events", "environment", "TEXT");
   ("audit_events", "cluster_id", "TEXT");
   ("approvals", "query_sha256", "TEXT"); ("approvals", "operation", "TEXT");
   ("approvals", "schema_name", "TEXT"); ("approvals", "table_name", "TEXT");
   ("approvals", "environment", "TEXT"); ("approvals", "cluster_id", "TEXT");
   ("approvals", "snapshot_id", "TEXT"); ("approvals", "resolved_by", "TEXT");
   ("snapshots", "status", "TEXT NOT NULL DEFAULT 'valid'");
   ("snapshots", "validation_error", "TEXT")].

(** The sidecar's; its statements are the same texts as the gateway's. *)
Definition sync_tables : list (string * list (string * string)) :=
  [("snapshots", snapshots_columns); ("alerts", alerts_columns);
   ("health_checks", health_checks_columns)].

Definition sync_added : list (string * string * string) :=
  [("snapshots", "status", "TEXT NOT NULL DEFAULT 'valid'");
   ("snapshots", "validation_error", "TEXT")].

(** ** The operations *)

(** [rows.Scan(&cid, &name, &colType, &notNull, &defaultValue, &pk)]. *)
Definition scan_table_info (row : list sqlValue) : result string :=
  match row with
  | [cid; name; colType; notNull; _; pk] =>
      scan_int64 cid;;
      name ← scan_string name;
      scan_string colType;;
      scan_int64 notNull;;
      scan_int64 pk;;
      mret name
  | _ => Err "sql: expected 6 destination arguments in Scan"
  end.

Fixpoint has_column (column : string) (rows : list (list sqlValue)) (err : option error)
    : result bool :=
  match rows with
  | [] => match err with Some e => Err e | None => Ok false end
  | row :: rows =>
      name ← scan_table_info row;
      if String.eqb name column then Ok true else has_column column rows err
  end.

Section schema.
Context `{sq : Sqlite}.

Definition ensureColumn (table column typ : string) : ST File (result unit) := fun db =>
  match QueryArgs (table_info_text table) [] db with
  | Err e => (Err e, db)
  | Ok rows =>
      match has_column column (Rows rows) (Rows_Err rows) with
      | Err e => (Err e, db)
      | Ok true => (Ok tt, db)
      | Ok false => Exec (alter_text table column typ) db
      end
  end.

(** [for _, x := range xs { if err := f(x); err != nil { return err } }]. *)
Fixpoint try_each {A} (xs : list A) (f : A -> ST File (result unit)) : ST File (result unit) :=
  match xs with
  | [] => mret (Ok tt)
  | x :: xs => try (f x) (fun _ => try_each xs f)
  end.

Definition init (tables : list (string * list (string * string)))
    (added : list (string * string * string)) : ST File (result unit) :=
  try (try_each pragmas (fun '(name, value) => Exec ("PRAGMA " +:+ name +:+ "=" +:+ value)))
  (fun _ => try (try_each tables (fun '(table, cols) => Exec (create_text table cols)))
  (fun _ => try_each added (fun '(table, column, typ) => ensureColumn table column typ))).

Definition gateway_init : ST File (result unit) := init gateway_tables gateway_added.
Definition sync_init : ST File (result unit) := init sync_tables sync_added.

(** The sidecar's [ensureColumn], which joins the same texts with [+]. *)
Definition sync_ensureColumn := ensureColumn.

(** [open] is what [sql.Open] yields for the file of the path; an empty path opens
    nothing.  A file whose [init] fails is closed and not used. *)
Definition open_store_with (init : ST File (result unit)) (path : string)
    (open : result File) : result (option File) :=
  if String.eqb path "" then Ok None
  else
    db ← open;
    match init db with
    | (Err e, _) => Err e
    | (Ok _, db) => Ok (Some db)
    end.

Definition OpenMetadataStore := open_store_with gateway_init.
Definition sync_OpenMetadataStore := open_store_with sync_init.
End schema.

(** ** What the statements do to the columns *)
Inductive step :=
  | Create (table : string) (cols : list (string * string))
  | AddColumn (table column : string).

Definition step_table (s : step) : string :=
  match s with Create table _ | AddColumn table _ => table end.

Definition add_column (cs : list string) (column : string) : list string :=
  if bool_decide (column ∈ cs) then cs else cs ++ [column].

(** The columns of the step's table after it, [None] when there is no table. *)
Definition apply (cs : option (list string)) (s : step) : option (list string) :=
  match s, cs with
  | Create _ _, Some cs => Some cs
  | Create _ cols, None => Some (cols.*1)
  | AddColumn _ column, _ => Some (add_column (default [] cs) column)
  end.

Definition run_step (m : gmap string (list string)) (s : step) : gmap string (list string) :=
  partial_alter (fun cs => apply cs s) (step_table s) m.
Definition run_steps : gmap string (list string) -> list step -> gmap string (list string) :=
  foldl run_step.

Definition steps (tables : list (string * list (string * string)))
    (added : list (string * string * string)) : list step :=
  map (fun t => Create t.1 t.2) tables ++ map (fun a => AddColumn a.1.1 a.1.2) added.
Definition gateway_steps : list step := steps gateway_tables gateway_added.
Definition sync_steps : list step := steps sync_tables sync_added.

(** The steps on one table. *)
Definition on (t : string) (ss : list step) : list step :=
  filter (fun s => step_table s = t) ss.

Lemma on_app t ss ss' : on t (ss ++ ss') = on t ss ++ on t ss'.
Proof. apply filter_app. Qed.

Lemma lookup_run_steps t ss m : run_steps m ss !! t = foldl apply (m !! t) (on t ss).
Proof.
  revert m. induction ss as [|s ss IH]; intros m; [done|].
  cbn [run_steps foldl]. fold run_steps. rewrite IH. unfold on, run_step.
  rewrite filter_cons. case_decide as E.
  - subst t. cbn [foldl]. by rewrite lookup_partial_alter_eq.
  - by rewrite lookup_partial_alter_ne.
Qed.

(** A step is settled when taking it again changes nothing, now and after any
    other step. *)
Definition settled (cs : option (list string)) (s : step) : Prop :=
  match cs, s with
  | None, _ => False
  | Some _, Create _ _ => True
  | Some cs, AddColumn _ column => column ∈ cs
  end.

Lemma apply_settles cs s : settled (apply cs s) s.
Proof.
  destruct s as [t cols|t c], cs as [cs|]; cbn; try done; unfold add_column;
    case_bool_decide; try done; set_solver.
Qed.

Lemma settled_apply cs s s' : settled cs s -> settled (apply cs s') s.
Proof.
  destruct cs as [cs|]; [|done].
  destruct s as [t cols|t c], s' as [t' cols'|t' c']; cbn; try done.
  unfold add_column. case_bool_decide; set_solver.
Qed.

Lemma settled_foldl cs ss s : settled cs s -> settled (foldl apply cs ss) s.
Proof. revert cs. induction ss as [|s' ss IH]; intros cs H; [done|]. by apply IH, settled_apply. Qed.

Lemma foldl_settles cs ss : Forall (settled (foldl apply cs ss)) ss.
Proof.
  revert cs. induction ss as [|s ss IH]; intros cs; constructor; cbn [foldl]; [|apply IH].
  apply settled_foldl, apply_settles.
Qed.

Lemma foldl_settled cs ss : Forall (settled cs) ss -> foldl apply cs ss = cs.
Proof.
  induction 1 as [|s ss Hs _ IH]; [done|]. cbn [foldl].
  replace (apply cs s) with cs; [done|].
  destruct cs as [cs|], s; cbn in Hs |- *; try done. unfold add_column. by case_bool_decide.
Qed.

(** Whoever did a part of the steps, doing all of them leads to the same columns. *)
Lemma foldl_resume cs p q :
  foldl apply (foldl apply cs p) (p ++ q) = foldl apply cs (p ++ q).
Proof. by rewrite !foldl_app, (foldl_settled _ p) by apply foldl_settles. Qed.

(** ** The operations take the steps, up to the first failure *)
Section steps.
Context `{sq : Sqlite} `{laws : !SqliteLaws}.

Definition implements (m : ST File (result unit)) (ss : list step) : Prop :=
  forall db r db', m db = (r, db') ->
    exists p q, ss = p ++ q /\ columns db' = run_steps (columns db) p
      /\ (r = Ok tt -> q = []).

Lemma implements_try m k ss ss' :
  implements m ss -> implements k ss' -> implements (try m (fun _ => k)) (ss ++ ss').
Proof.
  intros Hm Hk db r db'. unfold try. destruct (m db) as [[[]|e] db1] eqn:Em.
  - intros Ek. apply Hm in Em as (p & q & -> & Hc & Hq). rewrite Hq, app_nil_r by done.
    apply Hk in Ek as (p' & q' & -> & Hc' & Hq'). exists (p ++ p'), q'.
    split; [by rewrite app_assoc|]. split; [|done].
    rewrite Hc', Hc. unfold run_steps. by rewrite foldl_app.
  - intros [= <- <-]. apply Hm in Em as (p & q & -> & Hc & _).
    exists p, (q ++ ss'). by rewrite <- app_assoc.
Qed.

Lemma implements_each {A} (xs : list A) f g :
  (forall x, x ∈ xs -> implements (f x) (g x)) ->
  implements (try_each xs f) (concat (map g xs)).
Proof.
  induction xs as [|x xs IH]; intros H; cbn [try_each map concat].
  - intros db r db' [= <- <-]. by exists [], [].
  - apply implements_try; [by apply H, list_elem_of_here|].
    apply IH. intros y Hy. by apply H, list_elem_of_further.
Qed.

Lemma implements_each_one {A} (xs : list A) f g :
  (forall x, x ∈ xs -> implements (f x) [g x]) -> implements (try_each xs f) (map g xs).
Proof.
  intros Hf. replace (map g xs) with (concat (map (fun x => [g x]) xs)).
  - by apply implements_each.
  - clear Hf. induction xs as [|x xs IH]; [done|]. cbn. by rewrite IH.
Qed.

(** One statement is one step: it takes it, or fails and does not. *)
Lemma implements_one m s :
  (forall db db', m db = (Ok tt, db') -> columns db' = run_step (columns db) s) ->
  (forall db e db', m db = (Err e, db') -> columns db' = columns db) ->
  implements m [s].
Proof.
  intros Hok Herr db [[]|e] db' H.
  - exists [s], []. by rewrite (Hok _ _ H).
  - exists [], [s]. by rewrite (Herr _ _ _ H).
Qed.

Lemma implements_pragma name value :
  ident name = true -> has_byte ";" value = false ->
  implements (Exec ("PRAGMA " +:+ name +:+ "=" +:+ value)) [].
Proof. intros Hn Hv db r db' H. exists [], []. by rewrite (exec_pragma _ _ _ _ _ Hn Hv H). Qed.

Lemma implements_create table cols :
  ident table = true -> plain_columns cols ->
  implements (Exec (create_text table cols)) [Create table cols].
Proof.
  intros Ht Hc. apply implements_one; [|intros ??? H; by apply exec_create_failed in H].
  intros db db' ->%exec_create; [|done..]. unfold run_step. cbn [step_table apply].
  apply map_eq. intros t. destruct (decide (t = table)) as [->|Hne].
  - rewrite lookup_partial_alter_eq. destruct (columns db !! table) eqn:E; cbn; [done|].
    by rewrite lookup_insert_eq.
  - rewrite lookup_partial_alter_ne by done. destruct (columns db !! table); [done|].
    by rewrite lookup_insert_ne.
Qed.

Lemma has_column_names column names rows err :
  Forall2 info_row names rows ->
  has_column column rows err
  = if bool_decide (column ∈ names) then Ok true
    else match err with Some e => Err e | None => Ok false end.
Proof.
  induction 1 as [|name row names rows Hrow _ IH]; [done|].
  destruct Hrow as (cid & typ & nn & dflt & pk & ->).
  cbn [has_column scan_table_info scan_int64 scan_string mbind result_bind mret result_ret].
  destruct (String.eqb_spec name column) as [->|Hne].
  - by rewrite bool_decide_true by apply list_elem_of_here.
  - rewrite IH. assert (column ∈ name :: names <-> column ∈ names) as Heq by set_solver.
    by rewrite (bool_decide_ext _ _ Heq).
Qed.

Lemma implements_ensure table column typ :
  ident table = true -> ident column = true -> typ ∈ column_types ->
  implements (ensureColumn table column typ) [AddColumn table column].
Proof.
  intros Ht Hc Hty. apply implements_one; unfold ensureColumn.
  - intros db db'. destruct (QueryArgs _ _ db) as [rows|] eqn:Hq; [|done].
    apply query_table_info in Hq as (names & rest & Hrows & Hcols & Hrest); [|done].
    rewrite (has_column_names _ names) by done. unfold run_step. cbn [step_table apply].
    case_bool_decide as Hin.
    + intros [= <-]. apply map_eq. intros t.
      destruct (decide (t = table)) as [->|]; [|by rewrite lookup_partial_alter_ne].
      rewrite lookup_partial_alter_eq.
      destruct (columns db !! table) as [cs|]; cbn in Hcols; [|destruct names; [set_solver|done]].
      subst cs. cbn. unfold add_column. rewrite bool_decide_true; [done|]. set_solver.
    + destruct (Rows_Err rows); [done|]. rewrite Hrest, app_nil_r in Hcols by done.
      intros (cs & E & Hni & ->)%exec_add_column; [|done..].
      rewrite E in Hcols. cbn in Hcols. subst cs. apply map_eq. intros t.
      destruct (decide (t = table)) as [->|];
        [|by rewrite lookup_partial_alter_ne, lookup_insert_ne].
      rewrite lookup_partial_alter_eq, E, lookup_insert_eq. cbn. unfold add_column.
      by rewrite bool_decide_false.
  - intros db e db'. destruct (QueryArgs _ _ db) as [rows|]; [|by intros [= _ <-]].
    destruct (has_column _ _ _) as [[]|]; [done| |by intros [= _ <-]].
    intros H. by apply exec_add_column_failed in H.
Qed.
End steps.

(** ** Histories of starts *)
Inductive service := Gateway | Sidecar.
#[export] Instance service_eq_dec : EqDecision service.
Proof. solve_decision. Defined.

Definition steps_of (s : service) : list step :=
  match s with Gateway => gateway_steps | Sidecar => sync_steps end.

(** On a table both have, the sidecar takes the gateway's steps. *)
Definition shared_tables : list string := sync_tables.*1.

Lemma sync_steps_shared t : t ∈ shared_tables -> on t sync_steps = on t gateway_steps.
Proof.
  intros Ht. change (t ∈ ["snapshots"; "alerts"; "health_checks"]) in Ht.
  rewrite !elem_of_cons, elem_of_nil in Ht.
  destruct Ht as [->|[->|[->|[]]]]; vm_compute; reflexivity.
Qed.

Lemma sync_steps_other t : t ∉ shared_tables -> on t sync_steps = [].
Proof.
  intros Ht. unfold on. assert (Forall (fun s => step_table s ∈ shared_tables) sync_steps) as Hall.
  { apply (bool_decide_unpack _). by vm_compute. }
  induction Hall as [|s ss Hs _ IH]; [done|]. rewrite filter_cons_False; [done|].
  by intros <-.
Qed.

(** Well-formed names and types, as the laws ask for them. *)
Definition plain_schema (tables : list (string * list (string * string)))
    (added : list (string * string * string)) : Prop :=
  Forall (fun t => ident t.1 = true /\ plain_columns t.2) tables
  /\ Forall (fun a => ident a.1.1 = true /\ ident a.1.2 = true /\ a.2 ∈ column_types) added.

Lemma plain_gateway : plain_schema gateway_tables gateway_added.
Proof.
  split; repeat constructor; unfold plain_columns; cbn [fst snd]; try done;
    try (apply (bool_decide_unpack _); by vm_compute).
Qed.

Lemma plain_sync : plain_schema sync_tables sync_added.
Proof.
  split; repeat constructor; unfold plain_columns; cbn [fst snd]; try done;
    try (apply (bool_decide_unpack _); by vm_compute).
Qed.

Section histories.
Context `{sq : Sqlite} `{laws : !SqliteLaws}.

Definition init_of (s : service) : ST File (result unit) :=
  match s with Gateway => gateway_init | Sidecar => sync_init end.

Lemma implements_init tables added :
  plain_schema tables added -> implements (init tables added) (steps tables added).
Proof.
  intros [Ht Ha]. rewrite Forall_forall in Ht. rewrite Forall_forall in Ha.
  change (steps tables added) with ([] ++ steps tables added). apply implements_try.
  - change [] with (concat (map (fun _ : string * string => @nil step) pragmas)).
    apply implements_each. intros [name value] Hin. unfold pragmas in Hin.
    rewrite !elem_of_cons, elem_of_nil in Hin. destruct Hin as [[= -> ->]|[[= -> ->]|[]]];
      by apply implements_pragma.
  - unfold steps. apply implements_try.
    + apply implements_each_one. intros [t cols] Hin.
      apply Ht in Hin as [? ?]. by apply implements_create.
    + apply implements_each_one. intros [[t c] typ] Hin.
      apply Ha in Hin as (? & ? & ?). by apply implements_ensure.
Qed.

Lemma implements_init_of s : implements (init_of s) (steps_of s).
Proof.
  destruct s; [apply (implements_init gateway_tables), plain_gateway
              |apply (implements_init sync_tables), plain_sync].
Qed.

(** The starts of services on one file, with their outcomes, between which the
    services write rows. *)
Inductive history (db : File) : list (service * bool) -> File -> Prop :=
  | history_nil : history db [] db
  | history_start evs db1 s r db2 :
      history db evs db1 -> init_of s db1 = (r, db2) ->
      history db (evs ++ [(s, is_ok r)]) db2
  | history_rows evs db1 db2 :
      history db evs db1 -> columns db2 = columns db1 -> history db evs db2.

(** No start leads away from where the gateway's steps lead, and what a successful
    start settled stays settled. *)
Lemma history_columns db evs db' :
  history db evs db' ->
  forall t, foldl apply (columns db' !! t) (on t gateway_steps)
            = foldl apply (columns db !! t) (on t gateway_steps)
    /\ forall s, (s, true) ∈ evs -> Forall (settled (columns db' !! t)) (on t (steps_of s)).
Proof.
  intros Hh t. induction Hh as [|evs db1 s r db2 _ [IH1 IH2] Hs|evs db1 db2 _ IH ->]; [|
    |exact IH].
  { split; [done|]. intros s Hin. by apply elem_of_nil in Hin. }
  apply implements_init_of in Hs as (p & q & Heq & Hc & Hq).
  rewrite Hc, lookup_run_steps. split.
  - rewrite <- IH1. destruct s; cbn [steps_of] in Heq.
    + rewrite Heq, on_app. apply foldl_resume.
    + destruct (decide (t ∈ shared_tables)) as [Ht|Ht].
      * rewrite <- sync_steps_shared by done. rewrite Heq, on_app. apply foldl_resume.
      * apply sync_steps_other in Ht. rewrite Heq, on_app in Ht.
        by apply app_eq_nil in Ht as [-> _].
  - intros s' [Hin|Hin]%elem_of_app.
    + apply IH2 in Hin. eapply Forall_impl; [exact Hin|]. intros x. apply settled_foldl.
    + apply list_elem_of_singleton in Hin. destruct r as [[]|]; [|done].
      injection Hin as ->. rewrite Heq, Hq, app_nil_r by done. apply foldl_settles.
Qed.

Lemma settled_schema db evs db' s t :
  history db evs db' -> (s, true) ∈ evs -> on t (steps_of s) = on t gateway_steps ->
  columns db' !! t = run_steps (columns db) gateway_steps !! t.
Proof.
  intros Hh Hin Ht. apply history_columns with (t := t) in Hh as [Heq Hset].
  rewrite lookup_run_steps, <- Heq, <- Ht. symmetry. by apply foldl_settled, Hset.
Qed.

(** C26. The schema does not depend on the history.  However often the gateway and the
    sidecar were started on a file, in whatever order, with starts that failed at
    any statement: once a start of the gateway has succeeded, the columns of
    all tables are those of one start of the gateway on the file as it was at first; a
    start of the sidecar does the same for the tables it uses.  A start that
    failed half-way is completed by the next. *)
Theorem schema_converges db evs db' :
  history db evs db' ->
  ((Gateway, true) ∈ evs -> columns db' = run_steps (columns db) gateway_steps)
  /\ ((Sidecar, true) ∈ evs -> forall t, t ∈ shared_tables ->
        columns db' !! t = run_steps (columns db) gateway_steps !! t).
Proof.
  intros Hh. split; intros Hin.
  - apply map_eq. intros t. by eapply (settled_schema _ _ _ Gateway).
  - intros t Ht. eapply (settled_schema _ _ _ Sidecar); [done..|]. by apply sync_steps_shared.
Qed.
End histories.

(** ** The columns the stores' statements name *)
Definition RecordAudit_columns : string * list string :=
  ("audit_events", ["timestamp"; "agent_id"; "query"; "risk_level"; "approved"; "query_sha256";
                    "environment"; "cluster_id"]).
Definition RecordApprovalRequested_columns : string * list string :=
  ("approvals", ["approval_id"; "agent_id"; "query"; "risk_level"; "status"; "created_at";
                 "query_sha256"; "operation"; "schema_name"; "table_name"; "environment";
                 "cluster_id"; "snapshot_id"]).
Definition RecordApprovalResolved_columns : string * list string :=
  ("approvals", ["status"; "resolved_at"; "resolved_by"; "approval_id"]).
Definition RecordSnapshot_columns : string * list string :=
  ("snapshots", ["snapshot_id"; "table_name"; "writer"; "snapshot_scope"; "row_count";
                 "manifest_key"; "timestamp"; "payload_json"; "status"; "validation_error"]).
Definition ValidateSnapshotRecord_columns : string * list string :=
  ("snapshots", ["table_name"; "manifest_key"; "status"; "payload_json"; "snapshot_id"]).
Definition QuerySnapshots_columns : string * list string :=
  ("snapshots", ["status"; "table_name"; "timestamp"]).
Definition RecordAlert_columns : string * list string :=
  ("alerts", ["timestamp"; "severity"; "event_type"; "table_name"; "status"; "payload_json"]).
Definition RecordHealth_columns : string * list string :=
  ("health_checks", ["component"; "status"; "checked_at"; "detail_json"]).
Definition GetHealth_columns : string * list string :=
  ("health_checks", ["status"; "checked_at"; "component"]).
Definition SaveAgentState_columns : string * list string :=
  ("agent_state", ["agent_id"; "risky_attempts"; "window_started_at"; "quarantine_until";
                   "last_reason"; "last_table"; "updated_at"]).
Definition GetAgentState_columns : string * list string :=
  ("agent_state", ["agent_id"; "risky_attempts"; "window_started_at"; "quarantine_until";
                   "last_reason"; "last_table"]).
Definition QueryAudit_columns : string * list string :=
  ("audit_events", ["timestamp"; "agent_id"; "risk_level"]).

(** What the gateway sends, and what the sidecar does. *)
Definition gateway_statements : list (string * list string) :=
  [RecordAudit_columns; RecordApprovalRequested_columns; RecordApprovalResolved_columns;
   RecordSnapshot_columns; ValidateSnapshotRecord_columns; QuerySnapshots_columns;
   RecordAlert_columns; RecordHealth_columns; GetHealth_columns; SaveAgentState_columns;
   GetAgentState_columns; QueryAudit_columns].
Definition sync_statements : list (string * list string) :=
  [RecordSnapshot_columns; RecordAlert_columns; RecordHealth_columns].

Definition statements_of (s : service) : list (string * list string) :=
  match s with Gateway => gateway_statements | Sidecar => sync_statements end.
Definition tables_of (s : service) : list (string * list (string * string)) :=
  match s with Gateway => gateway_tables | Sidecar => sync_tables end.
Definition added_of (s : service) : list (string * string * string) :=
  match s with Gateway => gateway_added | Sidecar => sync_added end.

(** The columns the first version of a table had: all but those [init] adds. *)
Definition first_columns (s : service) (t : string) (cols : list (string * string))
    : list string :=
  filter (fun c => (t, c) ∉ (added_of s).*1) cols.*1.

(** A file of an earlier version: each table of the service is missing or has the
    columns of its first version, and maybe others. *)
Definition upgradable (s : service) (m : gmap string (list string)) : Prop :=
  forall t cols cs, (t, cols) ∈ tables_of s -> m !! t = Some cs ->
    first_columns s t cols ⊆ cs.

Definition served (m : gmap string (list string)) (st : string * list string) : Prop :=
  exists cs, m !! st.1 = Some cs /\ st.2 ⊆ cs.

Lemma statements_declared s st :
  st ∈ statements_of s ->
  exists cols, (st.1, cols) ∈ tables_of s /\ st.2 ⊆ cols.*1.
Proof.
  assert (forall s, Forall (fun st => Exists (fun tc => tc.1 = st.1 /\ st.2 ⊆ tc.2.*1)
    (tables_of s)) (statements_of s)) as Hall.
  { intros []; apply (bool_decide_unpack _); vm_compute; exact I. }
  specialize (Hall s). rewrite Forall_forall in Hall. intros Hin.
  apply Hall, Exists_exists in Hin as ([t cols] & Hin & Ht & Hsub). cbn in Ht, Hsub.
  subst t. by exists cols.
Qed.

Lemma declared_steps s t cols :
  (t, cols) ∈ tables_of s ->
  Create t cols ∈ on t (steps_of s)
  /\ forall c, c ∈ cols.*1 -> c ∉ first_columns s t cols -> AddColumn t c ∈ on t (steps_of s).
Proof.
  intros Hin. split.
  - apply list_elem_of_filter. split; [done|].
    destruct s; apply elem_of_app; left; by apply (list_elem_of_fmap_2' (fun t => Create t.1 t.2) _ _ _ Hin).
  - intros c Hc Hnf. apply list_elem_of_filter. split; [done|].
    assert ((t, c) ∈ (added_of s).*1) as Ha.
    { apply dec_stable. intros Hn. apply Hnf, list_elem_of_filter. done. }
    apply list_elem_of_fmap in Ha as ([[t' c'] typ] & [= <- <-] & Ha).
    destruct s; apply elem_of_app; right;
      by apply (list_elem_of_fmap_2' (fun a => AddColumn a.1.1 a.1.2) _ _ _ Ha).
Qed.

(** A table is created first. *)
Lemma created_first s t cols :
  (t, cols) ∈ tables_of s ->
  on t (steps_of s) = on t gateway_steps
  /\ exists rest, on t gateway_steps = Create t cols :: rest.
Proof.
  assert (forall s, Forall (fun tc => on tc.1 (steps_of s) = on tc.1 gateway_steps
    /\ match on tc.1 gateway_steps with
       | Create t cols :: _ => t = tc.1 /\ cols = tc.2
       | _ => False end) (tables_of s)) as Hall.
  { intros []; repeat constructor. }
  specialize (Hall s). rewrite Forall_forall in Hall. intros [Heq Hfirst]%Hall.
  cbn [fst snd] in Heq, Hfirst. split; [done|].
  destruct (on t gateway_steps) as [|[? ?|? ?] rest]; [done| |done].
  destruct Hfirst as [-> ->]. by exists rest.
Qed.

Lemma foldl_keeps cs ss : exists cs', foldl apply (Some cs) ss = Some cs' /\ cs ⊆ cs'.
Proof.
  revert cs. induction ss as [|s ss IH]; intros cs; [by exists cs|]. cbn [foldl].
  assert (exists cs', apply (Some cs) s = Some cs' /\ cs ⊆ cs') as (cs1 & -> & H1).
  { destruct s as [|t c]; [by exists cs|]. cbn. eexists. split; [done|].
    unfold add_column. case_bool_decide; set_solver. }
  destruct (IH cs1) as (cs2 & -> & H2). exists cs2. split; [done|]. by transitivity cs1.
Qed.

Section typing.
Context `{sq : Sqlite} `{laws : !SqliteLaws}.

(** C25. The statements of a service are well typed in the file it opened.  After any
    history of starts in which one of the service succeeded, on a new file or one an
    earlier version made, each statement it sends names a table of the
    file and columns that the table has. *)
Theorem statements_well_typed db evs db' s :
  history db evs db' -> (s, true) ∈ evs -> upgradable s (columns db) ->
  Forall (served (columns db')) (statements_of s).
Proof.
  intros Hh Hin Hup. apply Forall_forall. intros st Hst.
  apply statements_declared in Hst as (cols & Htc & Hsub).
  pose proof (created_first s _ _ Htc) as [Hsame [rest Hfirst]].
  assert (exists base, apply (columns db !! st.1) (Create st.1 cols) = Some base
    /\ first_columns s st.1 cols ⊆ base) as (base & Hbase & Hbc).
  { destruct (columns db !! st.1) as [cs|] eqn:E; cbn; eexists; (split; [done|]).
    - by eapply Hup.
    - apply list_subseteq_filter. }
  destruct (foldl_keeps base rest) as (cs' & Hcs' & Hgrow).
  pose proof (settled_schema _ _ _ _ st.1 Hh Hin Hsame) as Hcol.
  rewrite lookup_run_steps, Hfirst in Hcol. cbn [foldl] in Hcol. rewrite Hbase, Hcs' in Hcol.
  exists cs'. split; [done|]. intros c Hc%Hsub.
  destruct (decide (c ∈ first_columns s st.1 cols)) as [|Hn]; [set_solver|].
  apply history_columns with (t := st.1) in Hh as [_ Hset].
  apply Hset in Hin. rewrite Forall_forall in Hin.
  pose proof (Hin _ (proj2 (declared_steps s _ _ Htc) c Hc Hn)) as Hs.
  by rewrite Hcol in Hs.
Qed.
End typing.

(** ** A file of an earlier version

    Its snapshots have no status, its approvals none of the later columns.  The
    sidecar starts on it, then the gateway, then the sidecar again. *)
Definition old_file : gmap string (list string) :=
  {[ "snapshots" := ["snapshot_id"; "table_name"; "writer"; "snapshot_scope"; "row_count";
                     "manifest_key"; "timestamp"; "payload_json"];
     "approvals" := ["approval_id"; "agent_id"; "query"; "risk_level"; "status"; "created_at";
                     "resolved_at"] ]}.

#[local] Existing Instance small_sqlite.

Definition after (s : service) (db : File) : File := run_state (init_of s) db.

Lemma small_start s (db : File) :
  run_value (init_of s) db = Ok tt -> init_of s db = (Ok tt, after s db).
Proof. unfold run_value, after, run_state. intros <-. by destruct (init_of s db). Qed.

Definition demo_events : list (service * bool) :=
  [(Sidecar, true); (Gateway, true); (Sidecar, true)].

Definition demo_file : File := after Sidecar (after Gateway (after Sidecar (old_file : File))).

Lemma demo_history : history (old_file : File) demo_events demo_file.
Proof.
  change demo_events with ([] ++ [(Sidecar, is_ok (Ok tt))] ++ [(Gateway, is_ok (Ok tt))]
    ++ [(Sidecar, is_ok (Ok tt))]).
  rewrite !app_assoc. unfold demo_file.
  repeat (eapply history_start; [|apply small_start; vm_compute; reflexivity]).
  apply history_nil.
Qed.

Lemma schema_converges_witness :
  ((Gateway, true) ∈ demo_events -> columns demo_file = run_steps old_file gateway_steps)
  /\ ((Sidecar, true) ∈ demo_events -> forall t, t ∈ shared_tables ->
        columns demo_file !! t = run_steps old_file gateway_steps !! t).
Proof. exact (@schema_converges small_sqlite small_laws old_file demo_events demo_file demo_history). Defined.

Lemma statements_well_typed_witness :
  upgradable Gateway old_file
  /\ Forall (served (columns demo_file)) (statements_of Gateway).
Proof.
  assert (upgradable Gateway old_file) as Hup.
  { assert (Forall (fun tc => first_columns Gateway tc.1 tc.2
      ⊆ default (first_columns Gateway tc.1 tc.2) (old_file !! tc.1))
      (tables_of Gateway)) as Hall by (apply (bool_decide_unpack _); vm_compute; exact I).
    intros t cols cs Hin Hcs. rewrite Forall_forall in Hall. apply Hall in Hin.
    cbn [fst snd] in Hin. by rewrite Hcs in Hin. }
  split; [exact Hup|].
  apply (@statements_well_typed small_sqlite small_laws old_file demo_events demo_file Gateway demo_history);
    [|exact Hup].
  apply list_elem_of_further, list_elem_of_here.
Defined.

(** What the gateway finds of the approvals of the old file. *)
Example old_approvals_upgraded :
  demo_file !! "approvals"
  = Some ["approval_id"; "agent_id"; "query"; "risk_level"; "status"; "created_at";
          "resolved_at"; "query_sha256"; "operation"; "schema_name"; "table_name";
          "environment"; "cluster_id"; "snapshot_id"; "resolved_by"].
Proof. vm_compute. reflexivity. Qed.
