(* ===== verification/MetadataQuery.v ===== *)
(** * gateway/metadata_store.go: the text of the filtered queries

    [QueryRows] and [queryControlledRows] build a SELECT from the filters of a Go
    map, whose order is open: the filters come as a list in the order the map is
    ranged over.  [rowsToMaps] reads the answer. *)
From S2P Require Import Prelude GoString GoTime Json Postgres Sqlite.
From stdpp Require Import options.

Open Scope Z_scope.

(** [joinAnd]: the accumulator is [result], the flag is [i > 0]. *)
Fixpoint joinAnd_from (later : bool) (acc : string) (values : list string) : string :=
  match values with
  | [] => acc
  | value :: values =>
      joinAnd_from true ((if later then acc +:+ " AND " else acc) +:+ value) values
  end.
Definition joinAnd (values : list string) : string := joinAnd_from false "" values.

(** The loop over the filters: the clauses and the arguments. *)
Definition add_filter (acc : list string * list string) (f : string * string)
    : list string * list string :=
  if String.eqb f.2 "" then acc else (acc.1 ++ [f.1 +:+ " = ?"], acc.2 ++ [f.2]).
Definition clauses_args (filters : list (string * string)) : list string * list string :=
  foldl add_filter ([], []) filters.

Definition filtered_query (select order : string) (filters : list (string * string))
    : string * list string :=
  let '(clauses, args) := clauses_args filters in
  let query := match clauses with [] => select | _ => select +:+ " WHERE " +:+ joinAnd clauses end in
  (query +:+ order, args).

Definition QueryRows_text (table : string) (filters : list (string * string))
    : string * list string :=
  filtered_query ("SELECT * FROM " +:+ table) " ORDER BY 1 DESC LIMIT 500" filters.

Definition queryControlledRows_text (table orderBy : string) (filters : list (string * string))
    : string * list string :=
  filtered_query ("SELECT * FROM " +:+ table)
    (" ORDER BY " +:+ orderBy +:+ " DESC LIMIT 500") filters.

(** [QuerySnapshots] with [latestValidOnly]. *)
Definition latest_snapshots_text (table : string) : string * list string :=
  let query := "SELECT * FROM snapshots s WHERE status = 'valid'" in
  let '(query, args) :=
    if String.eqb table "" then (query, [])
    else (query +:+ " AND s.table_name = ?", [table]) in
  (query +:+ " AND s.timestamp = (SELECT MAX(s2.timestamp) FROM snapshots s2 WHERE s2.table_name = s.table_name AND s2.status = 'valid') ORDER BY s.timestamp DESC LIMIT 500",
   args).

(** A row as a Go map: bytes become a string, and of two columns of one name the
    last counts. *)
Definition cell (v : sqlValue) : sqlValue :=
  match v with SqlBytes s => SqlString s | v => v end.
Definition row_map (cols : list string) (row : list sqlValue) : gmap string sqlValue :=
  foldl (fun m cv => <[cv.1 := cell cv.2]> m) ∅ (zip cols row).

(** Both results: what was read and the error that ended the reading. *)
Definition rowsToMaps (rows : sqlRows) : list (gmap string sqlValue) * option error :=
  match map (row_map (Columns rows)) (Rows rows) with
  | [] => ([], None)
  | out => (out, Rows_Err rows)
  end.

Section queries.
Context `{sq : Sqlite}.

Definition run_query (q : string * list string) (s : option File)
    : list (gmap string sqlValue) * option error :=
  match s with
  | None => ([], None)
  | Some db =>
      match QueryArgs q.1 q.2 db with
      | Err e => ([], Some e)
      | Ok rows => rowsToMaps rows
      end
  end.

Definition QueryRows (table : string) (filters : list (string * string)) :=
  run_query (QueryRows_text table filters).
Definition queryControlledRows (table orderBy : string) (filters : list (string * string)) :=
  run_query (queryControlledRows_text table orderBy filters).
End queries.

(** ** The text *)
Lemma joinAnd_from_later acc values :
  joinAnd_from true acc values = acc +:+ foldr (fun v s => " AND " +:+ v +:+ s) "" values.
Proof.
  revert acc. induction values as [|v values IH]; intros acc; cbn [joinAnd_from foldr].
  - by rewrite append_nil_r.
  - by rewrite IH, !append_assoc.
Qed.

Definition given (filters : list (string * string)) : list (string * string) :=
  filter (fun f => f.2 <> "") filters.

Definition clause (c : string) : string := c +:+ " = ?".

Lemma clauses_args_given filters :
  clauses_args filters = (map clause (given filters).*1, (given filters).*2).
Proof.
  unfold clauses_args.
  assert (forall acc, foldl add_filter acc filters
    = (acc.1 ++ map clause (given filters).*1, acc.2 ++ (given filters).*2))
    as Hall; [|by rewrite Hall].
  induction filters as [|f filters IH]; intros [cs args]; cbn [foldl fst snd].
  - by rewrite !app_nil_r.
  - rewrite IH. unfold given, add_filter. rewrite filter_cons.
    destruct (String.eqb_spec f.2 "") as [E|E].
    + by rewrite decide_False by naive_solver.
    + rewrite decide_True by done. cbn. by rewrite <- !app_assoc.
Qed.

(** The question marks of a text. *)
Fixpoint placeholders (s : string) : nat :=
  match s with
  | EmptyString => 0%nat
  | String c s => ((if Ascii.eqb c "?" then 1 else 0) + placeholders s)%nat
  end.

Lemma placeholders_append s t : placeholders (s +:+ t) = (placeholders s + placeholders t)%nat.
Proof.
  induction s as [|c s IH]; [by rewrite append_nil_l|].
  rewrite append_cons. cbn [placeholders]. rewrite IH. lia.
Qed.

Lemma placeholders_joinAnd cols :
  Forall (fun c => placeholders c = 0%nat) cols ->
  placeholders (joinAnd (map clause cols)) = length cols.
Proof.
  intros Hall. unfold joinAnd. destruct Hall as [|c cols Hc Hall]; [done|].
  cbn [map joinAnd_from]. unfold clause at 1.
  rewrite joinAnd_from_later, append_nil_l, !placeholders_append, Hc.
  replace (placeholders " = ?") with 1%nat by done. cbn [length].
  induction Hall as [|d cols Hd _ IH]; [done|]. cbn [map foldr length]. unfold clause at 1.
  rewrite !placeholders_append, Hd. replace (placeholders " AND ") with 0%nat by done.
  replace (placeholders " = ?") with 1%nat by done. lia.
Qed.

Lemma filtered_query_args select order filters :
  (filtered_query select order filters).2 = (given filters).*2.
Proof. unfold filtered_query. by rewrite clauses_args_given. Qed.

Lemma filtered_query_placeholders select order filters :
  placeholders select = 0%nat -> placeholders order = 0%nat ->
  Forall (fun f => placeholders f.1 = 0%nat) filters ->
  placeholders (filtered_query select order filters).1
  = length (filtered_query select order filters).2.
Proof.
  intros Hs Ho Hall. unfold filtered_query. rewrite clauses_args_given. cbn [fst snd].
  assert (Forall (fun c => placeholders c = 0%nat) (given filters).*1) as Hg.
  { apply Forall_fmap, Forall_forall. intros f [_ Hin]%list_elem_of_filter.
    rewrite Forall_forall in Hall. by apply Hall. }
  apply placeholders_joinAnd in Hg. rewrite length_fmap in Hg |- *.
  rewrite placeholders_append, Ho.
  destruct (given filters) as [|f fs]; [cbn; by rewrite Hs|].
  cbn [fmap list_fmap map] in Hg |- *. rewrite !placeholders_append, Hs.
  replace (placeholders " WHERE ") with 0%nat by done. rewrite Hg. lia.
Qed.

(** Filters on the same columns, given or not given alike. *)
Definition same_shape (f f' : string * string) : Prop :=
  f.1 = f'.1 /\ (f.2 = "" <-> f'.2 = "").

Lemma same_shape_clauses filters filters' :
  Forall2 same_shape filters filters' -> (given filters).*1 = (given filters').*1.
Proof.
  induction 1 as [|f f' fs fs' [Hc Hv] _ IH]; [done|]. unfold given in *.
  rewrite !filter_cons. do 2 case_decide; cbn; naive_solver congruence.
Qed.

(** What is searched for never reaches the text of the query.  The text of the two
    query builders is determined by the columns of the filters and by which are given;
    the values are exactly the arguments, one for each question mark, whatever bytes
    an agent put into them. *)
Theorem queries_parameterised table orderBy filters filters' :
  placeholders table = 0%nat -> placeholders orderBy = 0%nat ->
  Forall (fun f => placeholders f.1 = 0%nat) filters ->
  Forall2 same_shape filters filters' ->
  let '(text, args) := queryControlledRows_text table orderBy filters in
  text = (queryControlledRows_text table orderBy filters').1
  /\ (QueryRows_text table filters).1 = (QueryRows_text table filters').1
  /\ args = (given filters).*2
  /\ placeholders text = length args
  /\ placeholders (QueryRows_text table filters).1 = length (QueryRows_text table filters).2.
Proof.
  intros Ht Ho Hall Hshape.
  assert (forall select order, (filtered_query select order filters).1
    = (filtered_query select order filters').1) as Htext.
  { intros select order. unfold filtered_query. rewrite !clauses_args_given.
    apply same_shape_clauses in Hshape. by rewrite Hshape. }
  unfold queryControlledRows_text, QueryRows_text.
  set (select := "SELECT * FROM " +:+ table). set (order := " ORDER BY " +:+ _).
  assert (placeholders select = 0%nat) as Hsel by (unfold select; by rewrite placeholders_append, Ht).
  assert (placeholders order = 0%nat) as Hord
    by (unfold order; by rewrite !placeholders_append, Ho).
  pose proof (filtered_query_placeholders select order filters Hsel Hord Hall) as Hn.
  pose proof (filtered_query_args select order filters) as Hargs.
  pose proof (Htext select order) as Hsame.
  destruct (filtered_query select order filters) as [text args]. cbn [fst snd] in Hn, Hargs, Hsame.
  split; [done|]. split; [apply Htext|]. split; [done|]. split; [done|].
  by apply filtered_query_placeholders.
Qed.

(** ** The rows *)

(** [rowsToMaps] hides an error.  It reports the error that ended the reading with the rows
    before it; when there was no row before it, it reports success
    and no rows, as if none matched. *)
Theorem rowsToMaps_error rows e :
  Rows_Err rows = Some e ->
  (rowsToMaps rows).2 = (if bool_decide (Rows rows = []) then None else Some e).
Proof.
  intros He. unfold rowsToMaps. destruct (Rows rows) as [|row rs]; [done|].
  cbn [map snd]. by rewrite He.
Qed.

Lemma queries_parameterised_witness :
  (queryControlledRows_text "audit_events" "timestamp"
     [("agent_id", "x' OR '1'='1"); ("risk_level", "")]).1
  = (queryControlledRows_text "audit_events" "timestamp"
       [("agent_id", "agent-1"); ("risk_level", "")]).1.
Proof.
  assert (Forall2 same_shape [("agent_id", "x' OR '1'='1"); ("risk_level", "")]
    [("agent_id", "agent-1"); ("risk_level", "")]) as Hs by (repeat constructor; done).
  assert (Forall (fun f : string * string => placeholders f.1 = 0%nat)
    [("agent_id", "x' OR '1'='1"); ("risk_level", "")]) as Hp by (repeat constructor).
  pose proof (queries_parameterised "audit_events" "timestamp" _ _ eq_refl eq_refl Hp Hs) as H.
  destruct (queryControlledRows_text _ _ [("agent_id", "x' OR '1'='1"); _]) as [text args].
  exact (proj1 H).
Defined.

Lemma rowsToMaps_error_witness :
  rowsToMaps {| Columns := ["id"]; Rows := []; Rows_Err := Some "disk I/O error" |} = ([], None)
  /\ (rowsToMaps {| Columns := ["id"]; Rows := []; Rows_Err := Some "disk I/O error" |}).2 = None.
Proof.
  split; [reflexivity|].
  exact (rowsToMaps_error {| Columns := ["id"]; Rows := []; Rows_Err := Some "disk I/O error" |}
    "disk I/O error" eq_refl).
Defined.

Example audit_query_text :
  queryControlledRows_text "audit_events" "timestamp"
    [("agent_id", "agent-1"); ("risk_level", "high")]
  = ("SELECT * FROM audit_events WHERE agent_id = ? AND risk_level = ? ORDER BY timestamp DESC LIMIT 500",
     ["agent-1"; "high"]).
Proof. reflexivity. Qed.
