(* ===== verification/GatewayMetrics.v ===== *)
(** * gateway/metrics.go: counters and their Prometheus text *)
From S2P Require Import Prelude GoString.
From stdpp Require Import options.

Open Scope Z_scope.

Record GatewayMetrics := {
  queries : gmap string Z;
  approvals : gmap string Z;
  blocks : gmap string Z;
  recoveryVerifications : gmap string Z;
  recoveryReadiness : gmap string Z;
  agentRiskyAttempts : gmap string Z;
  agentQuarantines : Z;
  alert_counts : gmap string Z;
  pauseState : Z;
}.

Definition NewGatewayMetrics : GatewayMetrics := {|
  queries := ∅; approvals := ∅; blocks := ∅; recoveryVerifications := ∅;
  recoveryReadiness := ∅; agentRiskyAttempts := ∅; agentQuarantines := 0;
  alert_counts := ∅; pauseState := 0 |}.

(** [values[key]++]: an int64 that wraps, from zero when the key is absent. *)
Definition inc (values : gmap string Z) (key : string) : gmap string Z :=
  <[key := wrap64 (default 0 (values !! key) + 1)]> values.

Definition IncQuery (risk status : string) (m : GatewayMetrics) : GatewayMetrics := {|
  queries := inc (queries m) (risk +:+ "|" +:+ status);
  approvals := approvals m; blocks := blocks m;
  recoveryVerifications := recoveryVerifications m;
  recoveryReadiness := recoveryReadiness m; agentRiskyAttempts := agentRiskyAttempts m;
  agentQuarantines := agentQuarantines m; alert_counts := alert_counts m;
  pauseState := pauseState m |}.

Definition IncApproval (decision : string) (m : GatewayMetrics) : GatewayMetrics := {|
  queries := queries m; approvals := inc (approvals m) decision; blocks := blocks m;
  recoveryVerifications := recoveryVerifications m;
  recoveryReadiness := recoveryReadiness m; agentRiskyAttempts := agentRiskyAttempts m;
  agentQuarantines := agentQuarantines m; alert_counts := alert_counts m;
  pauseState := pauseState m |}.

Definition IncBlock (reason : string) (m : GatewayMetrics) : GatewayMetrics := {|
  queries := queries m; approvals := approvals m; blocks := inc (blocks m) reason;
  recoveryVerifications := recoveryVerifications m;
  recoveryReadiness := recoveryReadiness m; agentRiskyAttempts := agentRiskyAttempts m;
  agentQuarantines := agentQuarantines m; alert_counts := alert_counts m;
  pauseState := pauseState m |}.

Definition IncRecovery (status : string) (m : GatewayMetrics) : GatewayMetrics := {|
  queries := queries m; approvals := approvals m; blocks := blocks m;
  recoveryVerifications := inc (recoveryVerifications m) status;
  recoveryReadiness := recoveryReadiness m; agentRiskyAttempts := agentRiskyAttempts m;
  agentQuarantines := agentQuarantines m; alert_counts := alert_counts m;
  pauseState := pauseState m |}.

Definition IncRecoveryReadiness (status reason : string) (m : GatewayMetrics)
    : GatewayMetrics := {|
  queries := queries m; approvals := approvals m; blocks := blocks m;
  recoveryVerifications := recoveryVerifications m;
  recoveryReadiness := inc (recoveryReadiness m) (status +:+ "|" +:+ reason);
  agentRiskyAttempts := agentRiskyAttempts m;
  agentQuarantines := agentQuarantines m; alert_counts := alert_counts m;
  pauseState := pauseState m |}.

Definition IncRiskyAttempt (risk : string) (m : GatewayMetrics) : GatewayMetrics := {|
  queries := queries m; approvals := approvals m; blocks := blocks m;
  recoveryVerifications := recoveryVerifications m;
  recoveryReadiness := recoveryReadiness m;
  agentRiskyAttempts := inc (agentRiskyAttempts m) risk;
  agentQuarantines := agentQuarantines m; alert_counts := alert_counts m;
  pauseState := pauseState m |}.

Definition IncAgentQuarantine (m : GatewayMetrics) : GatewayMetrics := {|
  queries := queries m; approvals := approvals m; blocks := blocks m;
  recoveryVerifications := recoveryVerifications m;
  recoveryReadiness := recoveryReadiness m; agentRiskyAttempts := agentRiskyAttempts m;
  agentQuarantines := wrap64 (agentQuarantines m + 1); alert_counts := alert_counts m;
  pauseState := pauseState m |}.

Definition IncAlert (eventType status : string) (m : GatewayMetrics) : GatewayMetrics := {|
  queries := queries m; approvals := approvals m; blocks := blocks m;
  recoveryVerifications := recoveryVerifications m;
  recoveryReadiness := recoveryReadiness m; agentRiskyAttempts := agentRiskyAttempts m;
  agentQuarantines := agentQuarantines m;
  alert_counts := inc (alert_counts m) (eventType +:+ "|" +:+ status);
  pauseState := pauseState m |}.

Definition SetPauseState (paused : bool) (m : GatewayMetrics) : GatewayMetrics := {|
  queries := queries m; approvals := approvals m; blocks := blocks m;
  recoveryVerifications := recoveryVerifications m;
  recoveryReadiness := recoveryReadiness m; agentRiskyAttempts := agentRiskyAttempts m;
  agentQuarantines := agentQuarantines m; alert_counts := alert_counts m;
  pauseState := if paused then 1 else 0 |}.

(** ** The text format *)
Definition sortedMetricKeys (values : gmap string Z) : list string :=
  merge_sort String.le (map fst (map_to_list values)).

(** [%q]: the quote, the backslash and the control characters are escaped; the
    bytes from 0x80 on are kept, as those of printable UTF-8 text are. *)
Definition quote_hex (n : Z) : ascii := chr (if n <? 10 then 48 + n else 87 + n).
Definition quote_byte (c : ascii) : string :=
  let b := byte_of c in
  if b =? 34 then String backslash (str1 dquote)
  else if b =? 92 then String backslash (str1 backslash)
  else if b =? 7 then String backslash "a"
  else if b =? 8 then String backslash "b"
  else if b =? 12 then String backslash "f"
  else if b =? 10 then String backslash "n"
  else if b =? 13 then String backslash "r"
  else if b =? 9 then String backslash "t"
  else if b =? 11 then String backslash "v"
  else if in_range 32 126 c || (128 <=? b) then str1 c
  else String backslash (String "x" (String (quote_hex (b / 16)) (str1 (quote_hex (b mod 16))))).
Fixpoint quote_bytes (s : string) : string :=
  match s with
  | EmptyString => EmptyString
  | String c s => quote_byte c +:+ quote_bytes s
  end.
Definition quote (s : string) : string := str1 dquote +:+ quote_bytes s +:+ str1 dquote.

Definition nl : string := str1 newline.
Definition type_line (name kind : string) : string :=
  "# TYPE " +:+ name +:+ " " +:+ kind +:+ nl.

(** One line per key, with one or two labels. *)
Definition lines1 (name label : string) (values : gmap string Z) : string :=
  String.concat "" (map (fun key =>
    name +:+ "{" +:+ label +:+ "=" +:+ quote key +:+ "} "
    +:+ itoa (default 0 (values !! key)) +:+ nl) (sortedMetricKeys values)).

Definition lines2 (name label1 label2 : string) (values : gmap string Z) : string :=
  String.concat "" (map (fun key =>
    let (a, b) := SplitN2 key "|" in
    name +:+ "{" +:+ label1 +:+ "=" +:+ quote a +:+ "," +:+ label2 +:+ "="
    +:+ quote (default "" b) +:+ "} " +:+ itoa (default 0 (values !! key)) +:+ nl)
    (sortedMetricKeys values)).

Definition Prometheus (m : GatewayMetrics) : string :=
  type_line "backstop_gateway_queries_total" "counter"
  +:+ lines2 "backstop_gateway_queries_total" "risk" "status" (queries m)
  +:+ type_line "backstop_gateway_approvals_total" "counter"
  +:+ lines1 "backstop_gateway_approvals_total" "decision" (approvals m)
  +:+ type_line "backstop_gateway_blocks_total" "counter"
  +:+ lines1 "backstop_gateway_blocks_total" "reason" (blocks m)
  +:+ type_line "backstop_gateway_recovery_verifications_total" "counter"
  +:+ lines1 "backstop_gateway_recovery_verifications_total" "status" (recoveryVerifications m)
  +:+ type_line "backstop_recovery_readiness_total" "counter"
  +:+ lines2 "backstop_recovery_readiness_total" "status" "reason" (recoveryReadiness m)
  +:+ type_line "backstop_agent_risky_attempts_total" "counter"
  +:+ lines1 "backstop_agent_risky_attempts_total" "risk" (agentRiskyAttempts m)
  +:+ type_line "backstop_agent_quarantines_total" "counter"
  +:+ "backstop_agent_quarantines_total " +:+ itoa (agentQuarantines m) +:+ nl
  +:+ type_line "backstop_gateway_alerts_total" "counter"
  +:+ lines2 "backstop_gateway_alerts_total" "event_type" "status" (alert_counts m)
  +:+ type_line "backstop_gateway_pause_state" "gauge"
  +:+ "backstop_gateway_pause_state " +:+ itoa (pauseState m) +:+ nl.

(** ** Lemmas *)
Lemma inc_eq values key :
  inc values key !! key = Some (wrap64 (default 0 (values !! key) + 1)).
Proof. apply lookup_insert_eq. Qed.

Lemma inc_ne values key key' : key <> key' -> inc values key !! key' = values !! key'.
Proof. intros. by apply lookup_insert_ne. Qed.
