(* ===== verification/Manifest.v ===== *)
(** * The snapshot manifest of gateway/snapshot_verifier.go *)
From S2P Require Import Prelude GoString GoTime Json.
From stdpp Require Import options.

Open Scope Z_scope.

Definition sidecarWriter : string := "sync-sidecar".

Record SnapshotManifest := {
  ManifestVersion : Z;
  Writer : string;
  DBName : string;
  SchemaName : string;
  SnapshotID : string;
  Timestamp : string;
  TableName : string;
  manifest_Operation : string;
  RowCount : Z;
  S3DataKey : string;
  S3ManifestKey : string;
  SnapshotScope : string;
  DataSHA256 : string;
  manifest_Status : string;
  ValidationError : string;
}.

#[export] Instance SnapshotManifest_eq_dec : EqDecision SnapshotManifest.
Proof. solve_decision. Defined.

(** [SnapshotManifest{}]. *)
Definition zero_manifest : SnapshotManifest := {|
  ManifestVersion := 0; Writer := ""; DBName := ""; SchemaName := "";
  SnapshotID := ""; Timestamp := ""; TableName := ""; manifest_Operation := "";
  RowCount := 0; S3DataKey := ""; S3ManifestKey := ""; SnapshotScope := "";
  DataSHA256 := ""; manifest_Status := ""; ValidationError := "" |}.

Definition dec_manifest : decoder SnapshotManifest := dec_struct (fun m members =>
  v0 ← field dec_int "manifest_version" (ManifestVersion m) members;
  v1 ← field dec_string "writer" (Writer m) members;
  v2 ← field dec_string "db_name" (DBName m) members;
  v3 ← field dec_string "schema_name" (SchemaName m) members;
  v4 ← field dec_string "snapshot_id" (SnapshotID m) members;
  v5 ← field dec_string "timestamp" (Timestamp m) members;
  v6 ← field dec_string "table_name" (TableName m) members;
  v7 ← field dec_string "operation" (manifest_Operation m) members;
  v8 ← field dec_int "row_count" (RowCount m) members;
  v9 ← field dec_string "s3_data_key" (S3DataKey m) members;
  v10 ← field dec_string "s3_manifest_key" (S3ManifestKey m) members;
  v11 ← field dec_string "snapshot_scope" (SnapshotScope m) members;
  v12 ← field dec_string "data_sha256" (DataSHA256 m) members;
  v13 ← field dec_string "status" (manifest_Status m) members;
  v14 ← field dec_string "validation_error" (ValidationError m) members;
  mret {|
    ManifestVersion := v0; Writer := v1; DBName := v2; SchemaName := v3;
    SnapshotID := v4; Timestamp := v5; TableName := v6; manifest_Operation := v7;
    RowCount := v8; S3DataKey := v9; S3ManifestKey := v10; SnapshotScope := v11;
    DataSHA256 := v12; manifest_Status := v13; ValidationError := v14 |}).

(** [json.Marshal(manifest)]. *)
Definition enc_manifest (m : SnapshotManifest) : json :=
  JObject (
    [("manifest_version", JInt (ManifestVersion m)); ("writer", JString (Writer m));
     ("db_name", JString (DBName m)); ("schema_name", JString (SchemaName m));
     ("snapshot_id", JString (SnapshotID m)); ("timestamp", JString (Timestamp m));
     ("table_name", JString (TableName m)); ("operation", JString (manifest_Operation m));
     ("row_count", JInt (RowCount m)); ("s3_data_key", JString (S3DataKey m));
     ("s3_manifest_key", JString (S3ManifestKey m));
     ("snapshot_scope", JString (SnapshotScope m));
     ("data_sha256", JString (DataSHA256 m)); ("status", JString (manifest_Status m))]
    ++ (if String.eqb (ValidationError m) "" then []
        else [("validation_error", JString (ValidationError m))])).

Definition validateSidecarManifest (manifest : SnapshotManifest) (table : string)
    : result unit :=
  if String.eqb (SnapshotID manifest) "" then
    Err "snapshot manifest is missing snapshot_id"
  else if negb (String.eqb (TableName manifest) table) then
    Err ("snapshot table mismatch: manifest has " +:+ TableName manifest
         +:+ ", query targets " +:+ table)
  else if negb (String.eqb (Writer manifest) sidecarWriter) then
    Err ("snapshot " +:+ SnapshotID manifest +:+ " was written by " +:+ Writer manifest
         +:+ ", want " +:+ sidecarWriter)
  else if negb (String.eqb (SnapshotScope manifest) "table") then
    Err ("snapshot " +:+ SnapshotID manifest +:+ " has scope " +:+ SnapshotScope manifest
         +:+ ", want table")
  else
    let status := TrimSpace (manifest_Status manifest) in
    if negb (String.eqb status "valid") then
      if negb (String.eqb (ValidationError manifest) "") then
        Err ("snapshot " +:+ SnapshotID manifest +:+ " is not valid: status=" +:+ status
             +:+ " validation_error=" +:+ ValidationError manifest)
      else if String.eqb status "" then
        Err ("snapshot " +:+ SnapshotID manifest +:+ " has no status field (expected "
             +:+ str1 dquote +:+ "valid" +:+ str1 dquote +:+ ")")
      else
        Err ("snapshot " +:+ SnapshotID manifest +:+ " is not valid: status=" +:+ status)
    else if String.eqb (TrimSpace (DataSHA256 manifest)) "" then
      Err ("snapshot " +:+ SnapshotID manifest +:+ " is missing data_sha256")
    else Ok tt.

(** [parseManifestTime]: RFC 3339, or the Python writer's layout. *)
Definition parseManifestTime (value : string) : result Z :=
  match Parse_RFC3339 value with
  | Some ts => Ok ts
  | None =>
      match Parse_micro_offset value with
      | Some ts => Ok ts
      | None => Err "parsing time: cannot parse"
      end
  end.

(** A manifest that [validateSidecarManifest] accepts. *)
Definition manifest_valid (m : SnapshotManifest) (table : string) : bool :=
  negb (String.eqb (SnapshotID m) "") && String.eqb (TableName m) table
  && String.eqb (Writer m) sidecarWriter && String.eqb (SnapshotScope m) "table"
  && String.eqb (TrimSpace (manifest_Status m)) "valid"
  && negb (String.eqb (TrimSpace (DataSHA256 m)) "").

Lemma validateSidecarManifest_ok m table :
  validateSidecarManifest m table = Ok tt <-> manifest_valid m table = true.
Proof.
  unfold validateSidecarManifest, manifest_valid.
  destruct (String.eqb (SnapshotID m) ""); [by split|].
  destruct (String.eqb (TableName m) table); simpl; [|by split].
  destruct (String.eqb (Writer m) sidecarWriter); simpl; [|by split].
  destruct (String.eqb (SnapshotScope m) "table"); simpl; [|by split].
  destruct (String.eqb (TrimSpace (manifest_Status m)) "valid"); simpl.
  - by destruct (String.eqb (TrimSpace (DataSHA256 m)) "").
  - destruct (String.eqb (ValidationError m) ""); simpl; [|by split].
    by destruct (String.eqb (TrimSpace (manifest_Status m)) "").
Qed.

(** A manifest is read back as it was written. *)
Lemma manifest_reads_back m :
  int64_range (ManifestVersion m) -> int64_range (RowCount m) ->
  Unmarshal dec_manifest (Some (enc_manifest m)) zero_manifest = Ok m.
Proof.
  unfold int64_range. intros [H1%Z.leb_le H2%Z.leb_le] [H3%Z.leb_le H4%Z.leb_le].
  destruct m as [mv wr db sn sid ts tn op rc dk mk sc sha st ve]. simpl in *.
  unfold enc_manifest. cbn [ValidationError].
  destruct (String.eqb_spec ve "") as [->|Hve]; simpl;
    by rewrite ?H1, ?H2, ?H3, ?H4.
Qed.
