(* ===== verification/AgentIdentity.v ===== *)
(** * gateway/agent_identity.go: the audit log of agent activity

    The registry keeps the last [maxInMemoryAuditEntries] entries in memory and
    appends every entry to an optional JSONL file, which it reads back when the
    gateway starts.  The SQLite copy of an entry is written by the caller
    ([GatewayWorld.RecordDetailed]). *)
From S2P Require Import Prelude GoString GoTime Json JsonText Regexp.
From stdpp Require Import options.

Open Scope Z_scope.

Definition maxInMemoryAuditEntries : nat := Z.to_nat 10000.

(** ** scrubSecrets *)
Definition colon : ascii := chr 58.
Definition slash : ascii := chr 47.
Definition at_sign : ascii := chr 64.

(** [://([^:\s/]+):([^@\s]+)@] *)
Definition url_credentials : re :=
  word lit "://" (Seq (Group (Plus (not_in [colon; slash] true)))
    (Seq (lit colon) (Seq (Group (Plus (not_in [at_sign] true))) (lit at_sign)))).

(** A quoted literal, and the patterns of the passwords before one. *)
Definition quoted : re :=
  Seq (lit squote) (Seq (Star (not_in [squote] false)) (lit squote)).

Definition password_quoted : re :=
  Seq (Group (word lit_fold "password" (Star re_space))) quoted.
(** The group of a name, an equals sign and the white space around it. *)
Definition assigned (name : string) : re :=
  Group (word lit_fold name (Seq (Star re_space) (Seq (lit "=") (Star re_space)))).
(** The bearer token of an Authorization header. *)
Definition bearer_header : re :=
  Seq (Group (word lit_fold "authorization:" (Seq (Star re_space)
        (word lit_fold "bearer" (Plus re_space)))))
    (Plus re_nonspace).

Definition group1 (caps : list string) : string := default "" (head caps).
Definition stars : string := "***".
Definition quoted_stars : string := str1 squote +:+ stars +:+ str1 squote.

Definition secretScrubbers : list (re * (list string -> string)) := [
  (url_credentials, fun caps => "://" +:+ group1 caps +:+ ":***@");
  (password_quoted, fun caps => group1 caps +:+ quoted_stars);
  (Seq (assigned "password") quoted, fun caps => group1 caps +:+ quoted_stars);
  (Seq (assigned "password") (Plus re_nonspace), fun caps => group1 caps +:+ stars);
  (Seq (assigned "aws_secret_access_key") (Plus re_nonspace),
    fun caps => group1 caps +:+ stars);
  (bearer_header, fun caps => group1 caps +:+ stars)].

Definition scrubSecrets (value : string) : string :=
  fold_left (fun out '(pattern, value) => ReplaceAllString pattern value out)
    secretScrubbers value.

Example scrub_folds :
  scrubSecrets ("pa" +:+ String (chr 197) (String (chr 191) "sword = hunter2"))
  = "pa" +:+ String (chr 197) (String (chr 191) "sword = ***").
Proof. reflexivity. Qed.

(** ** Entries *)
Record AuditEntry := {
  entry_AgentID : string;
  Query : string;
  QuerySHA256 : string;
  entry_RiskLevel : string;
  Approved : bool;
  Environment : string;
  ClusterID : string;
  entry_Timestamp : time;
}.

Definition zero_entry : AuditEntry := {|
  entry_AgentID := ""; Query := ""; QuerySHA256 := ""; entry_RiskLevel := "";
  Approved := false; Environment := ""; ClusterID := ""; entry_Timestamp := zero_time |}.

(** A [time.Time] field is an RFC 3339 string. *)
Definition dec_time : decoder time := fun old v =>
  match v with
  | JString s => match Parse_RFC3339 s with Some t => Ok t | None => type_error end
  | JNull => Ok old
  | _ => type_error
  end.

Definition enc_entry (e : AuditEntry) : json :=
  JObject (
    [("agent_id", JString (entry_AgentID e)); ("query", JString (Query e))]
    ++ omitempty "query_sha256" (QuerySHA256 e)
    ++ [("risk_level", JString (entry_RiskLevel e)); ("approved", JBool (Approved e))]
    ++ omitempty "environment" (Environment e)
    ++ omitempty "cluster_id" (ClusterID e)
    ++ [("timestamp", JString (Format_RFC3339Nano (entry_Timestamp e)))]).

Definition dec_entry : decoder AuditEntry := dec_struct (fun e members =>
  v0 ← field dec_string "agent_id" (entry_AgentID e) members;
  v1 ← field dec_string "query" (Query e) members;
  v2 ← field dec_string "query_sha256" (QuerySHA256 e) members;
  v3 ← field dec_string "risk_level" (entry_RiskLevel e) members;
  v4 ← field dec_bool "approved" (Approved e) members;
  v5 ← field dec_string "environment" (Environment e) members;
  v6 ← field dec_string "cluster_id" (ClusterID e) members;
  v7 ← field dec_time "timestamp" (entry_Timestamp e) members;
  mret {| entry_AgentID := v0; Query := v1; QuerySHA256 := v2; entry_RiskLevel := v3;
          Approved := v4; Environment := v5; ClusterID := v6; entry_Timestamp := v7 |}).

(** ** The registry *)

(** [audit_file] is the file's text; [None] when it cannot be opened or created.
    An absent file is an empty one. *)
Record AgentRegistry := {
  entries : list AuditEntry;
  auditPath : string;
  audit_file : option string;
}.

Definition trim (es : list AuditEntry) : list AuditEntry :=
  if (length es <=? maxInMemoryAuditEntries)%nat then es
  else drop (length es - maxInMemoryAuditEntries) es.

(** [bufio.Scanner] gives up on a line that does not fit its 64 KiB buffer; what
    follows the last line break is a line when it is not empty, and a carriage
    return at the end of a line is dropped. *)
Definition max_line : Z := 64 * 1024.

Definition raw_lines (text : string) : list string :=
  let parts := Split text newline in
  if String.eqb (List.last parts "") "" then removelast parts else parts.

Definition scan_lines (text : string) : option (list string) :=
  if existsb (fun l => max_line <=? Z.of_nat (String.length l)) (raw_lines text) then None
  else Some (map (fun l => TrimSuffix l (str1 (chr 13))) (raw_lines text)).

(** The entries of the lines that decode; the others are skipped. *)
Definition decode_lines (lines : list string) : list AuditEntry :=
  omap (fun l =>
    match Unmarshal dec_entry (json_document l) zero_entry with
    | Ok e => Some e
    | Err _ => None
    end) lines.

Definition loadAuditLog (r : AgentRegistry) : AgentRegistry :=
  match audit_file r ≫= scan_lines with
  | None => r
  | Some lines =>
      {| entries := trim (entries r ++ decode_lines lines); auditPath := auditPath r;
         audit_file := audit_file r |}
  end.

Definition NewAgentRegistryWithStores (path : string) (file : option string)
    : AgentRegistry :=
  let registry := {| entries := []; auditPath := path; audit_file := file |} in
  if String.eqb path "" then registry else loadAuditLog registry.

(** The encoder writes one line. *)
Definition appendAuditLog (entry : AuditEntry) (file : option string) : option string :=
  text ← file; Some (text +:+ json_line (enc_entry entry)).

Definition record_entry (entry : AuditEntry) (r : AgentRegistry) : AgentRegistry := {|
  entries := trim (entries r ++ [entry]);
  auditPath := auditPath r;
  audit_file := if String.eqb (auditPath r) "" then audit_file r
                else appendAuditLog entry (audit_file r) |}.

Definition new_entry (now : time) (agentID query riskLevel : string) (approved : bool)
    (querySHA256 environment clusterID : string) : AuditEntry := {|
  entry_AgentID := agentID; Query := scrubSecrets query; QuerySHA256 := querySHA256;
  entry_RiskLevel := riskLevel; Approved := approved; Environment := environment;
  ClusterID := clusterID; entry_Timestamp := now |}.

Definition GetHistory (r : AgentRegistry) (agentID : string) : list AuditEntry :=
  filter (fun e => entry_AgentID e = agentID) (entries r).

Definition AllEntries (r : AgentRegistry) : list AuditEntry := entries r.

(** ** Lemmas *)
Lemma maxInMemoryAuditEntries_val : Z.of_nat maxInMemoryAuditEntries = 10000.
Proof. unfold maxInMemoryAuditEntries. by rewrite Z2Nat.id. Qed.

#[global] Opaque maxInMemoryAuditEntries.

Lemma trim_length es : (length (trim es) <= maxInMemoryAuditEntries)%nat.
Proof.
  unfold trim. destruct (Nat.leb_spec (length es) maxInMemoryAuditEntries); [done|].
  rewrite length_drop. lia.
Qed.

Lemma trim_suffix es : exists older, es = older ++ trim es.
Proof.
  unfold trim. destruct (_ <=? _)%nat; [by exists []|].
  eexists. symmetry. apply take_drop.
Qed.

(** Trimming on the way gives what trimming at the end gives. *)
Lemma trim_app es e : trim (trim es ++ [e]) = trim (es ++ [e]).
Proof.
  unfold trim at 2. destruct (Nat.leb_spec (length es) maxInMemoryAuditEntries) as [?|Hlt];
    [done|].
  unfold trim. rewrite !length_app, length_drop. simpl.
  destruct (Nat.leb_spec (length es - (length es - maxInMemoryAuditEntries) + 1)
    maxInMemoryAuditEntries); [lia|].
  destruct (Nat.leb_spec (length es + 1) maxInMemoryAuditEntries); [lia|].
  assert (0 < length es)%nat by lia.
  replace (length es - (length es - maxInMemoryAuditEntries) + 1 - maxInMemoryAuditEntries)%nat
    with 1%nat by lia.
  pose proof maxInMemoryAuditEntries_val.
  rewrite (drop_app_le (drop _ _)) by (rewrite length_drop; lia).
  rewrite drop_drop.
  rewrite drop_app_le by lia. f_equal. f_equal. lia.
Qed.

Lemma trim_trim es : trim (trim es) = trim es.
Proof.
  unfold trim at 1. pose proof (trim_length es).
  destruct (Nat.leb_spec (length (trim es)) maxInMemoryAuditEntries); [done|lia].
Qed.

Lemma trim_app_all es es' : trim (trim es ++ es') = trim (es ++ es').
Proof.
  induction es' as [|e es' IH] using rev_ind; [by rewrite !app_nil_r, trim_trim|].
  rewrite !app_assoc, <- trim_app, IH. by rewrite trim_app.
Qed.

Lemma enc_entry_roundtrip e :
  0 <= entry_Timestamp e < year_9999_end ->
  Unmarshal dec_entry (Some (enc_entry e)) zero_entry = Ok e.
Proof.
  intros Ht. destruct e as [a q h r ap en cl ts]. simpl in Ht.
  pose proof (Parse_Format_RFC3339Nano ts Ht) as Hp.
  unfold enc_entry, omitempty.
  cbn [entry_AgentID Query QuerySHA256 entry_RiskLevel Approved Environment ClusterID
       entry_Timestamp].
  destruct (String.eqb_spec h "") as [->|_], (String.eqb_spec en "") as [->|_],
    (String.eqb_spec cl "") as [->|_]; cbn -[Parse_RFC3339 Format_RFC3339Nano];
    by rewrite Hp.
Qed.

Lemma entry_nesting e : nesting (enc_entry e) <= maxNestingDepth.
Proof.
  unfold enc_entry, omitempty.
  destruct (String.eqb (QuerySHA256 e) ""), (String.eqb (Environment e) ""),
    (String.eqb (ClusterID e) ""); by vm_compute.
Qed.

(** The registry after recording a list of entries, and what that adds to the
    file. *)
Definition record_all (es : list AuditEntry) (r : AgentRegistry) : AgentRegistry :=
  fold_left (fun r e => record_entry e r) es r.

Fixpoint log_text (es : list AuditEntry) : string :=
  match es with
  | [] => ""
  | e :: es => json_line (enc_entry e) +:+ log_text es
  end.

Lemma record_all_entries es r :
  entries r = trim (entries r) ->
  entries (record_all es r) = trim (entries r ++ es).
Proof.
  revert r. induction es as [|e es IH]; intros r Hr; simpl.
  - by rewrite app_nil_r.
  - rewrite IH by (simpl; by rewrite trim_trim). simpl.
    by rewrite trim_app_all, <- app_assoc.
Qed.

Lemma record_all_file es r text :
  auditPath r <> "" -> audit_file r = Some text ->
  audit_file (record_all es r) = Some (text +:+ log_text es).
Proof.
  intros Hp%String.eqb_neq. revert r text Hp.
  induction es as [|e es IH]; intros r text Hp Hf; cbn [record_all fold_left log_text].
  - by rewrite append_nil_r.
  - fold (record_all es (record_entry e r)).
    rewrite (IH _ (text +:+ json_line (enc_entry e))); [by rewrite append_assoc|done|].
    unfold record_entry. cbn [audit_file auditPath]. by rewrite Hp, Hf.
Qed.

Lemma log_text_app es es' : log_text (es ++ es') = log_text es +:+ log_text es'.
Proof.
  induction es as [|e es IH]; cbn [log_text app]; [by rewrite append_nil_l|].
  by rewrite IH, append_assoc.
Qed.

(** The lines of such a file are the texts of its entries. *)
Lemma log_text_split es :
  Split (log_text es) newline = map (fun e => json_text (enc_entry e)) es ++ [""].
Proof.
  induction es as [|e es IH]; [done|]. cbn [log_text map app]. unfold json_line.
  rewrite append_assoc. change (str1 newline +:+ log_text es) with (String newline (log_text es)).
  by rewrite Split_cons, IH by apply json_text_line.
Qed.

Lemma log_text_lines es :
  raw_lines (log_text es) = map (fun e => json_text (enc_entry e)) es.
Proof.
  unfold raw_lines. rewrite log_text_split, List.last_last, String.eqb_refl.
  apply removelast_last.
Qed.

(** A document's text ends in no carriage return. *)
Lemma entry_text_trim e : TrimSuffix (json_text (enc_entry e)) (str1 (chr 13)) = json_text (enc_entry e).
Proof.
  unfold TrimSuffix. destruct (HasSuffix _ _) eqn:H; [|done]. exfalso.
  apply HasSuffix_true in H as [p Hp]. unfold json_text, enc_entry in Hp. cbn [encode] in Hp.
  set (parts := map _ _) in Hp.
  assert (exists q, bracket (fun _ => "") "{" "}" 0 parts = q +:+ "}") as [q Hq].
  { destruct parts as [|x xs]; [by exists "{"|].
    exists (String "{" (Join (x :: xs) ("," +:+ ""))). unfold bracket.
    by rewrite append_cons, append_nil_l. }
  rewrite Hq in Hp. apply (f_equal rev_string) in Hp. by rewrite !rev_string_append in Hp.
Qed.

(** An entry as JSON keeps it: invalid UTF-8 is replaced. *)
Definition valid_entry (e : AuditEntry) : AuditEntry := {|
  entry_AgentID := to_valid_utf8 0 (entry_AgentID e); Query := to_valid_utf8 0 (Query e);
  QuerySHA256 := to_valid_utf8 0 (QuerySHA256 e);
  entry_RiskLevel := to_valid_utf8 0 (entry_RiskLevel e); Approved := Approved e;
  Environment := to_valid_utf8 0 (Environment e); ClusterID := to_valid_utf8 0 (ClusterID e);
  entry_Timestamp := entry_Timestamp e |}.

Lemma valid_entry_json e :
  0 <= entry_Timestamp e < year_9999_end -> valid_json (enc_entry e) = enc_entry (valid_entry e).
Proof.
  destruct e as [a q h r ap en cl ts]. cbn [entry_Timestamp]. intros Hts. unfold enc_entry, valid_entry, omitempty.
  cbn [entry_AgentID Query QuerySHA256 entry_RiskLevel Approved Environment ClusterID entry_Timestamp].
  rewrite !to_valid_utf8_empty.
  pose proof (ascii_valid_utf8 _ (Format_RFC3339Nano_ascii ts Hts)) as Ht%String.eqb_eq.
  destruct (String.eqb h ""), (String.eqb en ""), (String.eqb cl "");
    cbn -[to_valid_utf8 Format_RFC3339Nano]; by rewrite Ht.
Qed.

Lemma valid_entry_twice e : valid_entry (valid_entry e) = valid_entry e.
Proof. unfold valid_entry. cbn -[to_valid_utf8]. by rewrite !to_valid_utf8_twice. Qed.

Lemma trim_map f es : trim (map f es) = map f (trim es).
Proof. unfold trim. rewrite length_map. destruct (_ <=? _)%nat; [done|]. apply skipn_map. Qed.

Lemma decode_log es :
  (forall e, e ∈ es -> 0 <= entry_Timestamp e < year_9999_end) ->
  decode_lines (map (fun l => TrimSuffix l (str1 (chr 13)))
                  (map (fun e => json_text (enc_entry e)) es)) = map valid_entry es.
Proof.
  induction es as [|e es IH]; intros Hes; [done|]. unfold decode_lines. cbn [map omap list_omap].
  pose proof (Hes e (list_elem_of_here _ _)) as Ht.
  rewrite entry_text_trim, json_text_document by apply entry_nesting.
  rewrite valid_entry_json, enc_entry_roundtrip by done. f_equal. apply IH.
  intros e' He'. apply Hes. by right.
Qed.

(** The line of an entry fits the scanner's buffer. *)
Definition fits (e : AuditEntry) : bool :=
  Z.of_nat (String.length (json_text (enc_entry e))) <? max_line.

(** What a registry reads from the file of such entries. *)
Lemma load_log es path :
  path <> "" -> (forall e, e ∈ es -> 0 <= entry_Timestamp e < year_9999_end) ->
  NewAgentRegistryWithStores path (Some (log_text es)) =
    {| entries := if forallb fits es then trim (map valid_entry es) else [];
       auditPath := path; audit_file := Some (log_text es) |}.
Proof.
  intros Hp%String.eqb_neq Hes. unfold NewAgentRegistryWithStores. rewrite Hp.
  unfold loadAuditLog, scan_lines. cbn [audit_file mbind option_bind]. rewrite log_text_lines.
  assert (existsb (fun l => max_line <=? Z.of_nat (String.length l))
    (map (fun e => json_text (enc_entry e)) es) = negb (forallb fits es)) as ->.
  { clear Hes. induction es as [|e es IH]; [done|]. cbn [map existsb forallb].
    rewrite IH, negb_andb. f_equal.
    unfold fits. by rewrite Z.leb_antisym. }
  destruct (forallb fits es); cbn [negb entries app]; [|done]. by rewrite decode_log.
Qed.

(** ** Properties *)

(** The registry keeps, in order, the last 10000 of the entries recorded,
    and never more. *)
Theorem registry_keeps_last es file :
  let r := record_all es (NewAgentRegistryWithStores "" file) in
  Z.of_nat (length (entries r)) <= 10000
  /\ exists older, es = older ++ entries r
       /\ (older <> [] -> Z.of_nat (length (entries r)) = 10000).
Proof.
  simpl. unfold NewAgentRegistryWithStores. simpl.
  rewrite record_all_entries by done. simpl.
  pose proof (trim_length es). pose proof maxInMemoryAuditEntries_val. split; [lia|].
  unfold trim. destruct (Nat.leb_spec (length es) maxInMemoryAuditEntries).
  - by exists [].
  - eexists. split; [symmetry; apply take_drop|]. intros _. rewrite length_drop. lia.
Qed.

(** C39. What a restart makes of the audit history.  A gateway that started on the log
    of earlier entries, [older], and recorded entries of its own is started again on
    the file, their times between 1970 and 9999: when every line in it is shorter than 64
    KiB, the new registry has
    exactly the entries the old one had, with bytes that are not UTF-8 replaced; when
    one line is not, it starts with an empty history. *)
Theorem audit_log_restart older es path :
  path <> "" -> (forall e, e ∈ older ++ es -> 0 <= entry_Timestamp e < year_9999_end) ->
  let r := record_all es (NewAgentRegistryWithStores path (Some (log_text older))) in
  entries (NewAgentRegistryWithStores path (audit_file r)) =
    if forallb fits (older ++ es) then map valid_entry (entries r) else [].
Proof.
  intros Hp Hes r.
  assert (forall e, e ∈ older -> 0 <= entry_Timestamp e < year_9999_end) as Hold
    by (intros e He; apply Hes, elem_of_app; by left).
  pose proof (load_log older path Hp Hold) as Hnew.
  assert (audit_file r = Some (log_text (older ++ es))) as ->.
  { unfold r. rewrite (record_all_file _ _ (log_text older)) by by rewrite Hnew.
    by rewrite log_text_app. }
  rewrite load_log by done. cbn [entries]. rewrite forallb_app.
  destruct (forallb fits older) eqn:Hfits; [|done]. cbn [andb].
  destruct (forallb fits es); [|done].
  unfold r. rewrite record_all_entries; rewrite Hnew; cbn [entries]; [|by rewrite trim_trim].
  rewrite trim_app_all, <- trim_map, !map_app, map_map. f_equal. f_equal.
  apply map_ext. intros e. symmetry. apply valid_entry_twice.
Qed.

(** An earlier entry with a byte that is not UTF-8, and one recorded now. *)
Definition garbled_entry : AuditEntry :=
  new_entry 0 "agent" (String (chr 255) "SELECT 1") "SAFE" true "ab" "local" "local".
Definition restart_registry (older es : list AuditEntry) : AgentRegistry :=
  record_all es (NewAgentRegistryWithStores "audit.jsonl" (Some (log_text older))).

Lemma audit_log_restart_witness :
  let r := restart_registry [garbled_entry] [new_entry 7 "agent" "SELECT 2" "SAFE" true "" "" ""] in
  length (entries r) = 2%nat
  /\ entries (NewAgentRegistryWithStores "audit.jsonl" (audit_file r)) = map valid_entry (entries r).
Proof.
  intros r. split; [vm_compute; reflexivity|].
  pose proof (audit_log_restart [garbled_entry] [new_entry 7 "agent" "SELECT 2" "SAFE" true "" "" ""]
    "audit.jsonl" ltac:(discriminate)) as H.
  assert (forallb fits ([garbled_entry] ++ [new_entry 7 "agent" "SELECT 2" "SAFE" true "" "" ""]) = true)
    as Hfits by (vm_compute; reflexivity).
  rewrite Hfits in H. apply H.
  intros e He. cbn [app] in He.
  repeat (apply elem_of_cons in He as [->|He]; [vm_compute; split; congruence|]).
  apply elem_of_nil in He. destruct He.
Defined.

(** One line of 64 KiB or more makes the whole audit log unreadable: the
    gateway restarts with an empty history, however many entries were recorded. *)
Theorem audit_log_long_line path text l :
  path <> "" -> l ∈ Split text newline -> max_line <= Z.of_nat (String.length l) ->
  entries (NewAgentRegistryWithStores path (Some text)) = [].
Proof.
  intros Hp%String.eqb_neq Hl Hlen. unfold NewAgentRegistryWithStores. rewrite Hp.
  unfold loadAuditLog, scan_lines. cbn [audit_file mbind option_bind].
  assert (l ∈ raw_lines text) as Hraw.
  { unfold raw_lines. destruct (String.eqb_spec (List.last (Split text newline) "") ""); [|done].
    rewrite (app_removelast_last "" (Split_not_nil text newline)) in Hl.
    apply elem_of_app in Hl as [Hl|Hl]; [done|]. exfalso.
    apply list_elem_of_singleton in Hl. rewrite Hl, e in Hlen. by vm_compute in Hlen. }
  assert (existsb (fun l => max_line <=? Z.of_nat (String.length l)) (raw_lines text) = true)
    as ->; [|done].
  apply existsb_exists_iff. exists l. split; [done|]. by apply Z.leb_le.
Qed.

(** A line of 65536 bytes. *)
Fixpoint doubled (n : nat) (s : string) : string :=
  match n with O => s | S n => doubled n (s +:+ s) end.

Lemma doubled_length n s : Z.of_nat (String.length (doubled n s)) = 2 ^ Z.of_nat n * Z.of_nat (String.length s).
Proof.
  revert s. induction n as [|n IH]; intros s; cbn [doubled]; [lia|].
  rewrite IH, length_append. rewrite Nat2Z.inj_succ, Z.pow_succ_r by lia. lia.
Qed.

Lemma doubled_line n s : has_byte newline s = false -> has_byte newline (doubled n s) = false.
Proof.
  revert s. induction n as [|n IH]; intros s Hs; [done|]. apply IH. by rewrite has_byte_append, Hs.
Qed.

Lemma audit_log_long_line_witness :
  entries (NewAgentRegistryWithStores "audit.jsonl"
    (Some (json_line (enc_entry zero_entry) +:+ doubled 16 "x"))) = [].
Proof.
  apply (audit_log_long_line "audit.jsonl" _ (doubled 16 "x")).
  - discriminate.
  - unfold json_line. rewrite append_assoc.
    change (str1 newline +:+ doubled 16 "x") with (String newline (doubled 16 "x")).
    rewrite Split_cons by apply json_text_line. rewrite Split_absent by by apply doubled_line. right. by left.
  - rewrite doubled_length. vm_compute. discriminate.
Defined.
