(* ===== verification/Approval.v ===== *)
(** * gateway/approval.go: operator approvals

    A pending approval owns a channel that holds one decision.  Requests,
    signals, timeouts and cancellations interleave: the engine is a step
    relation over the pending map and the results handed to the waiting
    requests. *)
From S2P Require Import Prelude GoString GoTime.
From stdpp Require Import options.

Open Scope Z_scope.

Record ApprovalDetails := {
  details_ID : string;
  details_Query : string;
  details_QuerySHA256 : string;
  details_AgentID : string;
  details_RiskLevel : string;
  details_Operation : string;
  details_Schema : string;
  details_Table : string;
  details_Environment : string;
  details_ClusterID : string;
  details_SnapshotID : string;
}.

#[export] Instance ApprovalDetails_eq_dec : EqDecision ApprovalDetails.
Proof. solve_decision. Defined.

Record ApprovalResolution := { res_Approved : bool; res_Actor : string }.
#[export] Instance ApprovalResolution_eq_dec : EqDecision ApprovalResolution.
Proof. solve_decision. Defined.

Definition zero_resolution : ApprovalResolution :=
  {| res_Approved := false; res_Actor := "" |}.

(** The errors [RequestApproval] returns. *)
Inductive approvalError :=
  | ErrApprovalDenied
  | ErrApprovalTimeout
  | ErrApprovalCancelled (cause : string)
  | ErrApprovalIDRequired.

Definition approvalError_Error (e : approvalError) : string :=
  match e with
  | ErrApprovalDenied => "approval denied by operator"
  | ErrApprovalTimeout => "approval timed out — auto-denied"
  | ErrApprovalCancelled cause => "approval cancelled: " +:+ cause
  | ErrApprovalIDRequired => "approval id is required"
  end.

(** [decision] is the channel: empty, or the one buffered value. *)
Record pendingApproval := {
  details : ApprovalDetails;
  createdAt : time;
  decision : option ApprovalResolution;
}.

#[export] Instance pendingApproval_eq_dec : EqDecision pendingApproval.
Proof. solve_decision. Defined.

Record ApprovalEngine := {
  timeout : duration;
  pending : gmap string pendingApproval;
}.

Definition NewApprovalEngine (t : duration) : ApprovalEngine :=
  {| timeout := t; pending := ∅ |}.

(** ** Operations *)

(** The part of [RequestApproval] before it blocks. *)
Definition request_begin (now : time) (d : ApprovalDetails) (e : ApprovalEngine)
    : ApprovalEngine + approvalError :=
  if String.eqb (details_ID d) "" then inr ErrApprovalIDRequired
  else
    inl {| timeout := timeout e;
           pending := <[details_ID d :=
             {| details := d; createdAt := now; decision := None |}]> (pending e) |}.

(** The three cases of its [select]; [Delete] runs on every return. *)
Definition request_decided (r : ApprovalResolution)
    : ApprovalResolution * option approvalError :=
  if res_Approved r then (r, None) else (r, Some ErrApprovalDenied).
Definition request_timeout : ApprovalResolution * option approvalError :=
  (zero_resolution, Some ErrApprovalTimeout).
Definition request_cancelled (cause : string) : ApprovalResolution * option approvalError :=
  (zero_resolution, Some (ErrApprovalCancelled cause)).

Definition request_end (id : string) (e : ApprovalEngine) : ApprovalEngine :=
  {| timeout := timeout e; pending := delete id (pending e) |}.

(** [signal]: a send that does not block; [false] is [ErrApprovalNotFound]. *)
Definition signal (id : string) (resolution : ApprovalResolution) (e : ApprovalEngine)
    : bool * ApprovalEngine :=
  match pending e !! id with
  | None => (false, e)
  | Some pa =>
      (true, match decision pa with
             | Some _ => e
             | None => {| timeout := timeout e;
                          pending := <[id := {| details := details pa;
                            createdAt := createdAt pa; decision := Some resolution |}]>
                            (pending e) |}
             end)
  end.

Definition Approve (id actor : string) : ApprovalEngine -> bool * ApprovalEngine :=
  signal id {| res_Approved := true; res_Actor := actor |}.
Definition Deny (id actor : string) : ApprovalEngine -> bool * ApprovalEngine :=
  signal id {| res_Approved := false; res_Actor := actor |}.

(** [sync.Map.Range] visits the entries in no particular order. *)
Record ApprovalRequest := { req_details : ApprovalDetails; req_CreatedAt : time }.
Definition PendingList (e : ApprovalEngine) : list ApprovalRequest :=
  map (fun '(_, pa) => {| req_details := details pa; req_CreatedAt := createdAt pa |})
    (map_to_list (pending e)).

(** ** Runs of the engine *)
Inductive event :=
  | Request (d : ApprovalDetails)
  | Signal (id : string) (r : ApprovalResolution)
  | Return (id : string) (outcome : ApprovalResolution * option approvalError).

(** One step at time [now]; a request's id is not pending yet (it is drawn at
    random). *)
Inductive step (now : time) : ApprovalEngine -> event -> ApprovalEngine -> Prop :=
  | step_request d e e' :
      pending e !! details_ID d = None ->
      request_begin now d e = inl e' -> step now e (Request d) e'
  | step_signal id r e :
      step now e (Signal id r) (snd (signal id r e))
  | step_decided id pa r e :
      pending e !! id = Some pa -> decision pa = Some r ->
      step now e (Return id (request_decided r)) (request_end id e)
  | step_timeout id pa e :
      pending e !! id = Some pa -> createdAt pa + timeout e <= now ->
      step now e (Return id request_timeout) (request_end id e)
  | step_cancelled id pa cause e :
      pending e !! id = Some pa ->
      step now e (Return id (request_cancelled cause)) (request_end id e).

(** A run, with the time and the event of every step, the first one first. *)
Inductive run_of : ApprovalEngine -> list (time * event) -> ApprovalEngine -> Prop :=
  | run_nil e : run_of e [] e
  | run_snoc e e' e'' tr now ev :
      run_of e tr e' -> step now e' ev e'' -> run_of e (tr ++ [(now, ev)]) e''.

(** The first signal for [id] since it was last requested. *)
Definition first_signal (id : string) (tr : list (time * event))
    : option ApprovalResolution :=
  fold_left (fun acc '(_, ev) =>
    match ev with
    | Request d => if String.eqb (details_ID d) id then None else acc
    | Signal id' r =>
        if String.eqb id' id then (match acc with None => Some r | _ => acc end) else acc
    | Return _ _ => acc
    end) tr None.

Lemma first_signal_snoc id tr now ev :
  first_signal id (tr ++ [(now, ev)]) =
    match ev with
    | Request d => if String.eqb (details_ID d) id then None else first_signal id tr
    | Signal id' r =>
        if String.eqb id' id
        then (match first_signal id tr with None => Some r | o => o end)
        else first_signal id tr
    | Return _ _ => first_signal id tr
    end.
Proof.
  unfold first_signal. rewrite fold_left_app. destruct ev; simpl; try done.
  by repeat case_match.
Qed.

(** The channel of a pending approval holds the first signal since the request. *)
Lemma channel_holds_first_signal t tr e :
  run_of (NewApprovalEngine t) tr e ->
  timeout e = t
  /\ forall id pa, pending e !! id = Some pa ->
       decision pa = first_signal id tr /\ details_ID (details pa) = id.
Proof.
  remember (NewApprovalEngine t) as e0 eqn:He0.
  induction 1 as [e|e e' e'' tr now ev Hrun IH Hstep]; subst.
  { split; [done|]. intros id pa Hpa. simpl in Hpa. by rewrite lookup_empty in Hpa. }
  destruct (IH eq_refl) as [Ht Hinv]. clear IH Hrun.
  destruct Hstep as [d e1 e2 Hnew Hb|sid r e1|rid pa0 r e1 Hp Hd|rid pa0 e1 Hp Hto
                    |rid pa0 cause e1 Hp]; simpl in *.
  - unfold request_begin in Hb. destruct (String.eqb (details_ID d) ""); simplify_eq.
    simpl. split; [done|]. intros id pa. rewrite first_signal_snoc.
    destruct (String.eqb_spec (details_ID d) id) as [<-|Hne].
    + rewrite lookup_insert_eq. by intros [= <-].
    + rewrite lookup_insert_ne by done. apply Hinv.
  - unfold signal. destruct (pending e1 !! sid) as [pa0|] eqn:Hs; simpl.
    + destruct (decision pa0) as [r0|] eqn:Hd; simpl; (split; [done|]);
        intros id pa; rewrite first_signal_snoc.
      * destruct (String.eqb_spec sid id) as [<-|Hne]; [|apply Hinv].
        rewrite Hs. intros [= <-]. destruct (Hinv _ _ Hs) as [Hf ?].
        by rewrite <- Hf, Hd.
      * destruct (String.eqb_spec sid id) as [<-|Hne].
        -- rewrite lookup_insert_eq. intros [= <-]. simpl.
           destruct (Hinv _ _ Hs) as [Hf ?]. by rewrite <- Hf, Hd.
        -- rewrite lookup_insert_ne by done. apply Hinv.
    + split; [done|]. intros id pa Hpa. rewrite first_signal_snoc.
      destruct (String.eqb_spec sid id) as [<-|Hne]; [congruence|]. by apply Hinv.
  - split; [done|]. intros id pa Hpa. rewrite first_signal_snoc.
    apply lookup_delete_Some in Hpa as [_ Hpa]. by apply Hinv.
  - split; [done|]. intros id pa Hpa. rewrite first_signal_snoc.
    apply lookup_delete_Some in Hpa as [_ Hpa]. by apply Hinv.
  - split; [done|]. intros id pa Hpa. rewrite first_signal_snoc.
    apply lookup_delete_Some in Hpa as [_ Hpa]. by apply Hinv.
Qed.

(** A request that returns without an error returns the first signal. *)
Lemma return_first_signal t tr e now id r e' :
  run_of (NewApprovalEngine t) tr e ->
  step now e (Return id (r, None)) e' ->
  first_signal id tr = Some r /\ res_Approved r = true.
Proof.
  intros Hrun Hstep. destruct (channel_holds_first_signal _ _ _ Hrun) as [_ Hinv].
  inversion Hstep as [| |rid pa r0 e1 Hp Hd Heq| |]; subst.
  destruct (Hinv _ _ Hp) as [Hf _]. rewrite Hd in Hf.
  unfold request_decided in *. destruct (res_Approved r0) eqn:Ha; simplify_eq.
  by rewrite Hf.
Qed.

(** ** Properties *)

(** C31. The first decision wins.  In every run of the engine, a request that
    returns without an error was approved by the first signal sent for it since
    it was made, whatever was signalled later; a request returns "denied" only
    when that first signal was a denial. *)
Theorem approval_first_signal t tr e now id r err e' :
  run_of (NewApprovalEngine t) tr e ->
  step now e (Return id (r, err)) e' ->
  (err = None <-> res_Approved r = true)
  /\ (err = None -> first_signal id tr = Some r)
  /\ (err = Some ErrApprovalDenied -> first_signal id tr = Some r)
  /\ pending e' !! id = None.
Proof.
  intros Hrun Hstep. destruct (channel_holds_first_signal _ _ _ Hrun) as [_ Hinv].
  inversion Hstep as [| |rid pa r0 e1 Hp Hd Heq|rid pa e1 Hp Hto Heq|rid pa cause e1 Hp Heq];
    subst; simpl.
  - destruct (Hinv _ _ Hp) as [Hf _]. rewrite Hd in Hf.
    unfold request_decided in *. rewrite lookup_delete_eq.
    destruct (res_Approved r0) eqn:Ha; simplify_eq; rewrite ?Ha; naive_solver.
  - rewrite lookup_delete_eq. naive_solver.
  - rewrite lookup_delete_eq. naive_solver.
Qed.

Definition details_of (id : string) : ApprovalDetails := {|
  details_ID := id; details_Query := "q"; details_QuerySHA256 := "h";
  details_AgentID := "a"; details_RiskLevel := "HIGH"; details_Operation := "DELETE";
  details_Schema := ""; details_Table := "users"; details_Environment := "local";
  details_ClusterID := "local"; details_SnapshotID := "" |}.

(** A run in which "a" approves and then "b" denies the same request. *)
Definition two_signals : list (time * event) :=
  [(0, Request (details_of "appr_1"));
   (1, Signal "appr_1" {| res_Approved := true; res_Actor := "a" |});
   (2, Signal "appr_1" {| res_Approved := false; res_Actor := "b" |})].
Definition two_signals_engine : ApprovalEngine :=
  {| timeout := 10;
     pending := {["appr_1" := {| details := details_of "appr_1"; createdAt := 0;
       decision := Some {| res_Approved := true; res_Actor := "a" |} |}]} |}.
Lemma two_signals_run : run_of (NewApprovalEngine 10) two_signals two_signals_engine.
Proof.
  eapply (run_snoc _ _ _ [_; _]); [eapply (run_snoc _ _ _ [_]);
    [eapply (run_snoc _ _ _ []); [constructor|]|]|].
  - eapply step_request; [done|]. reflexivity.
  - apply step_signal.
  - apply (step_signal 2 "appr_1" {| res_Approved := false; res_Actor := "b" |}).
Qed.

Lemma approval_first_signal_witness :
  let r := {| res_Approved := true; res_Actor := "a" |} in
  (@None approvalError = None <-> res_Approved r = true)
  /\ (@None approvalError = None -> first_signal "appr_1" two_signals = Some r)
  /\ (@None approvalError = Some ErrApprovalDenied -> first_signal "appr_1" two_signals = Some r)
  /\ pending (request_end "appr_1" two_signals_engine) !! "appr_1" = None.
Proof.
  intros r. apply (approval_first_signal 10 two_signals two_signals_engine 3 "appr_1" r None);
    [apply two_signals_run|].
  apply (step_decided 3 "appr_1" {| details := details_of "appr_1"; createdAt := 0;
    decision := Some r |} r); reflexivity.
Defined.
