(* ===== verification/Pause.v ===== *)
(** * gateway/pause.go: the emergency pause and its state file *)
From S2P Require Import Prelude GoString GoTime Json JsonText SqlAnalyzer.
From stdpp Require Import options.

Open Scope Z_scope.

Record PauseController := {
  paused : bool;
  reason : string;
  updatedAt : time;
  file : string;
  pauseBlocksSafe : bool;
}.

(** The state file's place on disk: absent, unreadable, or its text; whether it can
    be opened for writing; and when a write fails behind that, how many bytes it
    stores before (all of them when only closing the file fails). *)
Inductive fileContent :=
  | Absent
  | Unreadable
  | Text (raw : string).
Record pauseDisk := { disk : fileContent; writable : bool; write_fault : option nat }.

Record pauseStateFile := {
  state_Paused : bool;
  state_Reason : string;
  state_UpdatedAt : string;
}.

Definition dec_pauseState : decoder pauseStateFile := dec_struct (fun s members =>
  v0 ← field dec_bool "paused" (state_Paused s) members;
  v1 ← field dec_string "reason" (state_Reason s) members;
  v2 ← field dec_string "updated_at" (state_UpdatedAt s) members;
  mret {| state_Paused := v0; state_Reason := v1; state_UpdatedAt := v2 |}).

Definition enc_pauseState (s : pauseStateFile) : json :=
  JObject ([("paused", JBool (state_Paused s))]
    ++ (if String.eqb (state_Reason s) "" then []
        else [("reason", JString (state_Reason s))])
    ++ [("updated_at", JString (state_UpdatedAt s))]).

Definition zero_pauseState : pauseStateFile :=
  {| state_Paused := false; state_Reason := ""; state_UpdatedAt := "" |}.

Definition state_text (p : PauseController) : string :=
  json_indent (enc_pauseState {| state_Paused := paused p; state_Reason := reason p;
    state_UpdatedAt := Format_RFC3339Nano (updatedAt p) |}).

(** What a write of [raw] stores, and whether it reports success. *)
Definition stored (fault : option nat) (raw : string) : string :=
  match fault with Some n => String.substring 0 n raw | None => raw end.
Definition succeeds (fault : option nat) : bool :=
  match fault with Some _ => false | None => true end.

Definition set_disk (f : fileContent) (d : pauseDisk) : pauseDisk :=
  {| disk := f; writable := writable d; write_fault := write_fault d |}.

(** [os.WriteFile] on the state file. *)
Definition WriteFile (raw : string) (d : pauseDisk) : bool * pauseDisk :=
  if writable d then
    (succeeds (write_fault d), set_disk (Text (stored (write_fault d) raw)) d)
  else (false, d).

(** [save] and [SetPaused] return whether they succeeded. *)
Definition save (p : PauseController) (d : pauseDisk) : bool * pauseDisk :=
  if String.eqb (file p) "" then (true, d) else WriteFile (state_text p) d.

Definition SetPaused (now : time) (pause : bool) (why : string)
    (p : PauseController) (d : pauseDisk) : bool * PauseController * pauseDisk :=
  let p' := {| paused := pause; reason := TrimSpace why; updatedAt := now;
               file := file p; pauseBlocksSafe := pauseBlocksSafe p |} in
  let (ok, d') := save p' d in (ok, p', d').

(** [load]: the controller after it, [Err] with the error; [None] for a file
    that does not exist. *)
Definition load (p : PauseController) (d : pauseDisk) : result (option PauseController) :=
  match disk d with
  | Absent => Ok None
  | Unreadable => Err "read pause state"
  | Text raw =>
      state ← Unmarshal dec_pauseState (json_document raw) zero_pauseState;
      mret (Some {|
        paused := state_Paused state;
        reason := state_Reason state;
        updatedAt :=
          if String.eqb (state_UpdatedAt state) "" then updatedAt p
          else default (updatedAt p) (Parse_RFC3339 (state_UpdatedAt state));
        file := file p;
        pauseBlocksSafe := pauseBlocksSafe p |})
  end.

Definition NewPauseController (now : time) (path : string) (startPaused blocksSafe : bool)
    (d : pauseDisk) : result PauseController * pauseDisk :=
  let controller := {| paused := startPaused; reason := ""; updatedAt := now;
    file := TrimSpace path; pauseBlocksSafe := blocksSafe |} in
  if String.eqb (file controller) "" then (Ok controller, d)
  else
    match load controller d with
    | Err e => (Err e, d)
    | Ok loaded =>
        let controller := default controller loaded in
        if startPaused then
          match SetPaused now true "start-paused" controller d with
          | (true, controller, d) => (Ok controller, d)
          | (false, _, d) => (Err "write pause state", d)
          end
        else (Ok controller, d)
    end.

(** A nil controller is [None]. *)
Definition BlocksRisk (p : option PauseController) (risk : string) : bool :=
  match p with
  | None => false
  | Some p =>
      if negb (paused p) then false
      else pauseBlocksSafe p || negb (String.eqb risk RiskSafe)
  end.

Definition Status (p : option PauseController) : any :=
  match p with
  | None => AnyMap [("paused", AnyBool false)]
  | Some p =>
      AnyMap [("paused", AnyBool (paused p)); ("reason", AnyString (reason p));
              ("updated_at", AnyString (Format_RFC3339Nano (updatedAt p)));
              ("pause_blocks_safe", AnyBool (pauseBlocksSafe p))]
  end.

(** ** Lemmas *)
Lemma pauseState_roundtrip s :
  Unmarshal dec_pauseState (Some (enc_pauseState s)) zero_pauseState = Ok s.
Proof.
  destruct s as [p r u]. unfold enc_pauseState. simpl.
  by destruct (String.eqb_spec r "") as [->|_].
Qed.

(** The text of a state of UTF-8 strings reads back. *)
Lemma pauseState_text s :
  is_valid_utf8 (state_Reason s) = true -> is_valid_utf8 (state_UpdatedAt s) = true ->
  Unmarshal dec_pauseState (json_document (json_indent (enc_pauseState s))) zero_pauseState = Ok s.
Proof.
  intros Hr Hu. rewrite json_indent_document, utf8_valid_json.
  - apply pauseState_roundtrip.
  - unfold enc_pauseState. destruct (String.eqb _ _); cbn -[is_valid_utf8];
      by rewrite ?Hr, Hu.
  - unfold enc_pauseState. by destruct (String.eqb _ _); vm_compute.
Qed.

Lemma Format_RFC3339Nano_nonempty t :
  0 <= t < year_9999_end -> String.eqb (Format_RFC3339Nano t) "" = false.
Proof.
  intros Ht. apply String.eqb_neq. intros H.
  apply Parse_Format_RFC3339Nano in Ht. rewrite H in Ht. by vm_compute in Ht.
Qed.

(** ** Properties *)

(** The pause state survives a restart: the text [SetPaused] wrote to a
    file without a failure, for a reason in UTF-8, is read back into the state that was set
    by a controller started on that file later, except that starting with the
    start-paused option always ends paused. *)
Theorem pause_restart now pause why p d later :
  file p <> "" -> TrimSpace (file p) = file p ->
  writable d = true -> write_fault d = None ->
  0 <= now < year_9999_end -> is_valid_utf8 (TrimSpace why) = true ->
  let '(ok, p', d') := SetPaused now pause why p d in
  ok = true
  /\ fst (NewPauseController later (file p) false (pauseBlocksSafe p) d') = Ok p'
  /\ exists q, fst (NewPauseController later (file p) true (pauseBlocksSafe p) d') = Ok q
       /\ paused q = true.
Proof.
  intros Hf%String.eqb_neq Htrim Hw Hfault Hnow Hwhy. unfold SetPaused, save, WriteFile.
  cbn [file]. rewrite Hf, Hw, Hfault. cbv iota beta zeta delta [succeeds stored].
  split; [done|].
  unfold NewPauseController, load, state_text, set_disk. cbn [file disk]. rewrite Htrim, Hf.
  rewrite !pauseState_text by (done || by apply ascii_valid_utf8, Format_RFC3339Nano_ascii). simpl.
  rewrite Format_RFC3339Nano_nonempty, Parse_Format_RFC3339Nano by done. simpl.
  split; [done|]. unfold SetPaused, save, WriteFile. simpl. rewrite ?Hf, ?Hw, ?Hfault. eauto.
Qed.

Definition pause_example : PauseController := {| paused := false; reason := "";
  updatedAt := 0; file := "pause.json"; pauseBlocksSafe := false |}.

Lemma pause_restart_witness :
  let '(ok, p', d') :=
    SetPaused 0 true "drill" pause_example {| disk := Absent; writable := true; write_fault := None |} in
  ok = true
  /\ fst (NewPauseController 7 "pause.json" false false d') = Ok p'
  /\ exists q, fst (NewPauseController 7 "pause.json" true false d') = Ok q
       /\ paused q = true.
Proof.
  apply (pause_restart 0 true "drill" pause_example {| disk := Absent; writable := true; write_fault := None |} 7);
    [discriminate|reflexivity|reflexivity|reflexivity|unfold year_9999_end, Second; lia|reflexivity].
Defined.

(** A pause takes effect in memory even when the state file cannot be
    written, and while it lasts every query whose risk is not SAFE is blocked,
    and SAFE ones too when the pause is set to block them.  [SetPaused] reports
    the failure; a file that could be opened then holds the beginning of the text. *)
Theorem pause_blocks now why p d risk :
  let '(ok, p', d') := SetPaused now true why p d in
  (BlocksRisk (Some p') risk = true <-> risk <> RiskSafe \/ pauseBlocksSafe p = true)
  /\ (ok = false <-> file p <> "" /\ (writable d = false \/ write_fault d <> None))
  /\ (ok = false -> disk d' = if writable d then Text (stored (write_fault d) (state_text p'))
                            else disk d).
Proof.
  unfold SetPaused, save, WriteFile, BlocksRisk. cbn [file].
  destruct (String.eqb_spec (file p) "") as [Hf|Hf], (writable d) eqn:Hw,
    (write_fault d) eqn:Hn; simpl;
    rewrite orb_true_iff, negb_true_iff, String.eqb_neq; naive_solver.
Qed.
