(* ===== verification/PauseConcurrent.v ===== *)
(** * gateway/pause.go among concurrent requests

    [SetPaused] changes the controller under its lock, and writes the state file
    after it has released it: [save] takes a copy under the reader's lock, and
    os.WriteFile opens the file, which empties it, and then writes the copy from
    the file's beginning.  Either may fail, whenever the disk makes it.  Two
    requests to pause and resume interleave between these. *)
From S2P Require Import Prelude GoString GoTime Json JsonText Interleave Pause.
From stdpp Require Import options.

Open Scope Z_scope.

(** What the requests share: the controller, its file, and the clock. *)
Record PauseShared := {
  controller : PauseController;
  state_file : pauseDisk;
  clock : time;
}.

Definition set_controller (p : PauseController) (s : PauseShared) : PauseShared :=
  {| controller := p; state_file := state_file s; clock := clock s |}.
Definition set_file (d : pauseDisk) (s : PauseShared) : PauseShared :=
  {| controller := controller s; state_file := d; clock := clock s |}.

(** The critical section of [SetPaused]. *)
Definition update (pause : bool) (why : string) : ST PauseShared unit :=
  modify (fun s => let p := controller s in
    set_controller {| paused := pause; reason := TrimSpace why; updatedAt := clock s;
                      file := file p; pauseBlocksSafe := pauseBlocksSafe p |} s).

(** [os.WriteFile]: its open call, which creates or empties the file, and its write
    call, which leaves what is behind the end of what it writes. *)
Definition open_truncated : ST PauseShared bool := fun s =>
  if writable (state_file s) then (true, set_file (set_disk (Text "") (state_file s)) s)
  else (false, s).

Definition overwrite (raw old : string) : string := raw +:+ drop_bytes (String.length raw) old.

Definition write_text (raw : string) : ST PauseShared bool := fun s =>
  let fault := write_fault (state_file s) in
  (succeeds fault, set_file (set_disk
     (Text (overwrite (stored fault raw) (match disk (state_file s) with Text old => old | _ => "" end)))
     (state_file s)) s).

Definition save_call : call PauseShared bool :=
  path ← atomic (gets (fun s => file (controller s)));
  if String.eqb path "" then mret true
  else
    copy ← atomic (gets controller);
    opened ← atomic open_truncated;
    if (opened : bool) then atomic (write_text (state_text copy)) else mret false.

Definition SetPaused_call (pause : bool) (why : string) : call PauseShared bool :=
  atomic (update pause why);; save_call.

(** ** One request after the other *)

(** The operations of Pause on the shared state. *)
Definition SetPaused_shared (pause : bool) (why : string) : ST PauseShared bool := fun s =>
  let '(ok, p, d) := SetPaused (clock s) pause why (controller s) (state_file s) in
  (ok, set_file d (set_controller p s)).

Lemma overwrite_empty raw : overwrite raw "" = raw.
Proof. unfold overwrite. destruct (String.length raw); by rewrite append_nil_r. Qed.

(** By itself [SetPaused] is what Pause says. *)
Lemma SetPaused_alone pause why : sequentially (SetPaused_shared pause why) (SetPaused_call pause why).
Proof.
  intros s. unfold SetPaused_call, save_call, SetPaused_shared, SetPaused, save, WriteFile.
  cbn -[state_text]. destruct (String.eqb (file (controller s)) ""); cbn -[state_text]; [done|].
  unfold open_truncated, run_state, run_value. cbn -[state_text].
  destruct (writable (state_file s)); cbn -[state_text]; [|by destruct s].
  by rewrite overwrite_empty.
Qed.

(** What a gateway that starts on the file makes of it. *)
Definition restarted (later : time) (s : PauseShared) : result PauseController :=
  (NewPauseController later (file (controller s)) false
     (pauseBlocksSafe (controller s)) (state_file s)).1.

Section file.
(** A gateway with a state file, and the years its times are in. *)
Variable path : string.
Variable blocksSafe : bool.
Hypothesis path_given : path <> "".
Hypothesis path_trimmed : TrimSpace path = path.

Record on_file (s : PauseShared) : Prop := {
  of_path : file (controller s) = path;
  of_safe : pauseBlocksSafe (controller s) = blocksSafe;
  of_clock : 0 <= clock s < year_9999_end;
}.

(** The file holds the controller's state, as the next start reads it. *)
Definition recoverable (s : PauseShared) : Prop :=
  on_file s
  /\ forall later, exists q, restarted later s = Ok q
       /\ paused q = paused (controller s) /\ reason q = reason (controller s).

(** ... unless the last request was answered with an error. *)
Definition settled (answer : option bool) (s : PauseShared) : Prop :=
  on_file s /\ (answer <> Some false -> recoverable s).

Lemma restarted_text later s p :
  on_file s -> file p = path -> pauseBlocksSafe p = blocksSafe ->
  0 <= updatedAt p < year_9999_end -> is_valid_utf8 (reason p) = true ->
  disk (state_file s) = Text (state_text p) -> restarted later s = Ok p.
Proof using path_given path_trimmed.
  intros [Hp Hb _] Hfile Hsafe Hup Hre Hd. unfold restarted, NewPauseController, load, state_text in *.
  apply String.eqb_neq in path_given as Hne.
  rewrite Hp, Hb, path_trimmed, Hd. cbn [file]. rewrite Hne.
  rewrite pauseState_text by (done || by apply ascii_valid_utf8, Format_RFC3339Nano_ascii).
  cbn. rewrite Format_RFC3339Nano_nonempty, Parse_Format_RFC3339Nano by done.
  destruct p. cbn in *. by subst.
Qed.

(** By themselves the clock moves, and the disk begins or stops to fail. *)
Definition around (s s' : PauseShared) : Prop :=
  controller s' = controller s /\ disk (state_file s') = disk (state_file s)
  /\ 0 <= clock s' < year_9999_end.

Lemma around_rtc s s' : on_file s -> rtc around s s' ->
  controller s' = controller s /\ disk (state_file s') = disk (state_file s) /\ on_file s'.
Proof using Type.
  intros Hs Hr. induction Hr as [s|s s1 s2 (H1 & H2 & H3) _ IH]; [done|].
  destruct IH as (E1 & E2 & E3).
  { destruct Hs. split; by rewrite ?H1. }
  split_and!; [congruence|congruence|done].
Qed.

Lemma restarted_disk later s s' :
  controller s' = controller s -> disk (state_file s') = disk (state_file s) ->
  restarted later s' = restarted later s.
Proof using Type.
  clear path_given path_trimmed.
  intros Hc Hd. unfold restarted, NewPauseController, load. rewrite Hc, Hd.
  by repeat case_match; simplify_eq.
Qed.

Lemma settled_around answer s s' : settled answer s -> around s s' -> settled answer s'.
Proof using Type.
  intros [Hs Hr] Ha. destruct (around_rtc s s' Hs) as (Hc & Hd & Hs'); [by apply rtc_once|].
  split; [done|]. intros Hok. destruct (Hr Hok) as [_ Hq]. split; [done|]. intros later.
  rewrite (restarted_disk later s s'), Hc by done. apply Hq.
Qed.

(** The file's part of a request, while no other runs. *)
Lemma save_safe s :
  on_file s -> 0 <= updatedAt (controller s) < year_9999_end ->
  is_valid_utf8 (reason (controller s)) = true ->
  safe around (fun _ _ => True) (fun ok => settled (Some ok)) save_call s.
Proof using path_given path_trimmed.
  intros Hs Hup Hre. apply String.eqb_neq in path_given as Hne.
  intros s1 H1 _. apply (around_rtc _ _ Hs) in H1 as (C1 & D1 & Hs1). split; [done|].
  change (safe around (fun _ _ => True) (fun ok => settled (Some ok))
    (if String.eqb (file (controller s1)) "" then mret true else
     copy ← atomic (gets controller);
     opened ← atomic open_truncated;
     if (opened : bool) then atomic (write_text (state_text copy)) else mret false) s1).
  rewrite (of_path _ Hs1), Hne.
  intros s2 H2 _. apply (around_rtc s1 s2 Hs1) in H2 as (C2 & D2 & Hs2). split; [done|].
  intros s3 H3 _. apply (around_rtc s2 s3 Hs2) in H3 as (C3 & D3 & Hs3). split; [done|].
  unfold open_truncated, run_value, run_state, gets. cbn [fst snd].
  destruct (writable (state_file s3)); cbn [fst snd].
  2: { intros s4 H4. apply (around_rtc s3 s4 Hs3) in H4 as (_ & _ & Hs4). by split. }
  set (s4 := set_file _ s3). assert (on_file s4) as Hs4 by (destruct Hs3; by split).
  intros s5 H5 _. apply (around_rtc _ _ Hs4) in H5 as (C5 & D5 & Hs5). split; [done|].
  unfold write_text, run_value, run_state. cbn [fst snd].
  set (s6 := set_file _ s5). assert (on_file s6) as Hs6 by (destruct Hs5; by split).
  intros s7 H7. apply (around_rtc _ _ Hs6) in H7 as (C7 & D7 & Hs7).
  assert (controller s7 = controller s) as Hc by (rewrite C7; unfold s6; cbn; rewrite C5; cbn; congruence).
  split; [done|]. destruct (write_fault (state_file s5)) eqn:Hfault; [done|]. intros _.
  split; [done|]. intros later. exists (controller s7). split_and!; [|done..].
  apply restarted_text; rewrite ?Hc; try done; [rewrite <- Hc; apply Hs7|rewrite <- Hc; apply Hs7|].
  rewrite D7. unfold s6. cbn -[state_text]. rewrite D5. cbn -[state_text].
  by rewrite overwrite_empty, C2, C1.
Qed.

(** One request, while no other runs, leaves the file right or fails. *)
Lemma SetPaused_safe pause why s :
  is_valid_utf8 (TrimSpace why) = true -> on_file s ->
  safe around (fun _ _ => True) (fun ok => settled (Some ok)) (SetPaused_call pause why) s.
Proof using path_given path_trimmed.
  intros Hwhy Hs s0 H0 _. apply (around_rtc _ _ Hs) in H0 as (_ & _ & Hs0). split; [done|].
  apply (save_safe (run_state (update pause why) s0)); [by destruct Hs0|apply Hs0|exact Hwhy].
Qed.
End file.

(** A request to pause or resume that comes in while no other runs. *)
Definition lone_request (p : pool PauseShared bool) (c : call PauseShared bool) : Prop :=
  quiescent p
  /\ exists pause why, is_valid_utf8 (TrimSpace why) = true /\ c = SetPaused_call pause why.

(** ** Requests that overlap *)
Definition fresh_pause : PauseShared := {|
  controller := {| paused := false; reason := ""; updatedAt := 0; file := "pause.json";
                   pauseBlocksSafe := false |};
  state_file := {| disk := Absent; writable := true; write_fault := None |}; clock := 0 |}.

Lemma fresh_on_file : on_file "pause.json" false fresh_pause.
Proof. by split. Qed.

(** The request to resume takes its copy; the one to pause runs; then the former
    writes the copy. *)
Definition lost_pause : list nat := [1; 1; 1; 0; 0; 0; 0; 0; 1; 1]%nat.

Lemma lost_pause_runs path blocksSafe s why why' :
  path <> "" -> TrimSpace path = path -> on_file path blocksSafe s ->
  writable (state_file s) = true -> write_fault (state_file s) = None ->
  is_valid_utf8 (TrimSpace why') = true ->
  exists s', schedule lost_pause {| shared := s;
      calls := [SetPaused_call true why; SetPaused_call false why'] |}
    = Some {| shared := s'; calls := [Ret true; Ret true] |}
  /\ paused (controller s') = true
  /\ forall later, exists q, restarted later s' = Ok q /\ paused q = false.
Proof.
  intros Hpath Htrim [Hp Hb Hc] Hw Hf Hwhy. apply String.eqb_neq in Hpath as Hne.
  set (resumed := {| paused := false; reason := TrimSpace why'; updatedAt := clock s;
    file := path; pauseBlocksSafe := blocksSafe |}).
  exists {| controller := {| paused := true; reason := TrimSpace why; updatedAt := clock s;
              file := path; pauseBlocksSafe := blocksSafe |};
            state_file := {| disk := Text (state_text resumed); writable := true; write_fault := None |};
            clock := clock s |}.
  split; [|split; [done|]].
  - destruct s as [[pd rs up fl bs] [dk wr wf] ck]. cbn in Hp, Hb, Hw, Hf. subst fl bs wr wf.
    unfold schedule, lost_pause, move. cbn -[state_text overwrite]. rewrite Hne.
    cbn -[state_text overwrite]. rewrite Hne. cbn -[state_text overwrite].
    by rewrite overwrite_empty.
  - intros later. exists resumed. split; [|done].
    by apply (restarted_text path blocksSafe).
Qed.

(** Both requests open the file before either writes. *)
Lemma torn_file : exists s js s', on_file "pause.json" false s
  /\ schedule js {| shared := s;
      calls := [SetPaused_call true "incident on the orders table"; SetPaused_call false "over"] |}
    = Some {| shared := s'; calls := [Ret true; Ret true] |}
  /\ paused (controller s') = false /\ forall later, exists e, restarted later s' = Err e.
Proof.
  exists fresh_pause, [0; 0; 0; 1; 1; 1; 0; 1; 0; 1]%nat.
  eexists. split; [apply fresh_on_file|]. split; [by vm_compute|].
  split; [done|]. intros later. eexists. by vm_compute.
Qed.

(** ** Properties *)

(** C9. Pauses that do not overlap survive a restart.  As long as every request to pause
    or resume comes in after the one before was answered, whatever the times and
    whenever the disk fails: while no request is running and the last one was
    answered with success, a gateway that starts on the state file finds the pause
    state and its reason as they are, also when requests before failed and left the
    file as it was, empty or with half a text. *)
Theorem serial_pauses_survive path blocksSafe p p' :
  path <> "" -> TrimSpace path = path ->
  quiescent p -> recoverable path blocksSafe (shared p) ->
  preaches lone_request around p p' -> quiescent p' -> last_answer p' <> Some false ->
  recoverable path blocksSafe (shared p').
Proof.
  intros Hpath Htrim Hq Hp Hr Hq'.
  enough (settled path blocksSafe (last_answer p') (shared p')) as [_ H] by exact H.
  refine (serial_quiescent (settled path blocksSafe) lone_request around _ _ p p' Hq _ Hr Hq').
  - intros o s s'. apply settled_around.
  - intros q c [Hquiet (pause & why & Hwhy & ->)]. split; [done|]. intros o s [Hs _].
    by eapply SetPaused_safe.
  - split; [apply Hp|done].
Qed.

(** C10. Pauses that overlap do not.  When a request to pause and one to resume overlap,
    both can be answered with success and leave the gateway paused, with a file that
    starts the next gateway without the pause; or with a file in which the two texts
    are mixed, on which no gateway starts. *)
Theorem overlapping_pauses path blocksSafe s why why' :
  path <> "" -> TrimSpace path = path -> on_file path blocksSafe s ->
  writable (state_file s) = true -> write_fault (state_file s) = None ->
  is_valid_utf8 (TrimSpace why') = true ->
  (exists js s', schedule js {| shared := s; calls := [SetPaused_call true why; SetPaused_call false why'] |}
       = Some {| shared := s'; calls := [Ret true; Ret true] |}
     /\ paused (controller s') = true
     /\ forall later, exists q, restarted later s' = Ok q /\ paused q = false)
  /\ exists s js s', on_file "pause.json" false s
     /\ schedule js {| shared := s;
         calls := [SetPaused_call true "incident on the orders table"; SetPaused_call false "over"] |}
       = Some {| shared := s'; calls := [Ret true; Ret true] |}
     /\ paused (controller s') = false /\ forall later, exists e, restarted later s' = Err e.
Proof.
  intros Hpath Htrim Hs Hw Hf Hwhy. split; [|exact torn_file].
  exists lost_pause. by apply (lost_pause_runs path blocksSafe).
Qed.

(** A disk that is full after three bytes, and a pause on it; then the same pause on a
    disk with room. *)
Definition full (fault : option nat) (s : PauseShared) : PauseShared :=
  set_file {| disk := disk (state_file s); writable := true; write_fault := fault |} s.
Definition pause_failed : PauseShared :=
  full None (run_state (SetPaused_shared true "drill") (full (Some 3%nat) fresh_pause)).
Definition pause_repeated : pool PauseShared bool := {|
  shared := run_state (SetPaused_shared true "drill") pause_failed;
  calls := [Ret false; Ret true] |}.

Lemma serial_pauses_survive_witness :
  disk (state_file pause_failed) = Text (String "{" (str1 newline +:+ " "))
  /\ recoverable "pause.json" false (shared pause_repeated).
Proof.
  split; [vm_compute; reflexivity|].
  assert (lone_request {| shared := full (Some 3%nat) fresh_pause; calls := [] |} (SetPaused_call true "drill"))
    as H1 by (split; [by constructor|by exists true, "drill"]).
  assert (lone_request {| shared := pause_failed; calls := [Ret false] |} (SetPaused_call true "drill"))
    as H2 by (split; [by repeat constructor|by exists true, "drill"]).
  apply (serial_pauses_survive "pause.json" false
    {| shared := fresh_pause; calls := [] |} pause_repeated);
    [done|done|by constructor| | |by repeat constructor|done].
  - split; [apply fresh_on_file|]. intros later. by eexists.
  - eapply rtc_l; [apply (p_elsewhere _ _ (full (Some 3%nat) fresh_pause)); by split_and!|].
    eapply rtc_l; [exact (p_arrive _ _ _ _ H1)|].
    etransitivity; [by apply (schedule_preaches _ _ [0; 0; 0; 0; 0]%nat)|].
    eapply rtc_l; [apply (p_elsewhere _ _ pause_failed); by split_and!|].
    eapply rtc_l; [exact (p_arrive _ _ _ _ H2)|].
    by apply (schedule_preaches _ _ [1; 1; 1; 1; 1]%nat).
Defined.

Lemma overlapping_pauses_witness :
  exists js s', schedule js {| shared := fresh_pause;
      calls := [SetPaused_call true "incident"; SetPaused_call false "over"] |}
    = Some {| shared := s'; calls := [Ret true; Ret true] |}
  /\ paused (controller s') = true
  /\ forall later, exists q, restarted later s' = Ok q /\ paused q = false.
Proof.
  apply (overlapping_pauses "pause.json" false fresh_pause "incident" "over");
    [done|done|apply fresh_on_file|reflexivity..].
Defined.
