(* ===== verification/Auth.v ===== *)
(** * gateway/auth.go: bearer tokens and scopes *)
From S2P Require Import Prelude GoString Json JsonText GatewayMetrics.
From stdpp Require Import options.

Open Scope Z_scope.

Record AuthPrincipal := { Name : string; Token : string; Scopes : list string }.

Record tokenEntry := {
  entry_Name : string;
  entry_Token : string;
  entry_Scopes : list string;
}.

Record TokenAuthenticator := { disabled : bool; tokens : list tokenEntry }.

(** The request's headers, by canonical name; an absent one is empty. *)
Record httpRequest := { headers : gmap string string }.
Definition Header_Get (r : httpRequest) (key : string) : string :=
  default "" (headers r !! key).

(** ** The token file *)
Definition zero_tokenEntry : tokenEntry :=
  {| entry_Name := ""; entry_Token := ""; entry_Scopes := [] |}.

Definition dec_tokenEntry : decoder tokenEntry := dec_struct (fun e members =>
  v0 ← field dec_string "name" (entry_Name e) members;
  v1 ← field dec_string "token" (entry_Token e) members;
  v2 ← field (dec_slice dec_string "") "scopes" (entry_Scopes e) members;
  mret {| entry_Name := v0; entry_Token := v1; entry_Scopes := v2 |}).

Definition dec_tokenFile : decoder (list tokenEntry) := dec_struct (fun ts members =>
  field (dec_slice dec_tokenEntry zero_tokenEntry) "tokens" ts members).

(** The loop over the parsed tokens, [i] the index. *)
Fixpoint check_tokens (i : Z) (ts : list tokenEntry) : result (list tokenEntry) :=
  match ts with
  | [] => Ok []
  | t :: ts =>
      let token := {| entry_Name := TrimSpace (entry_Name t);
                      entry_Token := TrimSpace (entry_Token t);
                      entry_Scopes := entry_Scopes t |} in
      if String.eqb (entry_Name token) "" then
        Err ("auth token " +:+ itoa i +:+ " missing name")
      else if String.eqb (entry_Token token) "" then
        Err ("auth token " +:+ quote (entry_Name token) +:+ " missing token")
      else
        match entry_Scopes token with
        | [] => Err ("auth token " +:+ quote (entry_Name token) +:+ " missing scopes")
        | _ =>
            rest ← check_tokens (i + 1) ts;
            mret (token :: rest)
        end
  end.

(** [file] is what reading [tokenFilePath] gives. *)
Definition NewTokenAuthenticator (legacyToken tokenFilePath : string) (dis : bool)
    (file : result string) : result TokenAuthenticator :=
  if dis then Ok {| disabled := dis; tokens := [] |}
  else
    let legacy :=
      if String.eqb (TrimSpace legacyToken) "" then []
      else [{| entry_Name := "legacy-admin"; entry_Token := TrimSpace legacyToken;
               entry_Scopes := ["admin:*"] |}] in
    if String.eqb (TrimSpace tokenFilePath) "" then
      Ok {| disabled := dis; tokens := legacy |}
    else
      raw ← wrap_err "read auth tokens file: " file;
      parsed ← wrap_err "parse auth tokens file: " (Unmarshal dec_tokenFile (json_document raw) []);
      checked ← check_tokens 0 parsed;
      mret {| disabled := dis; tokens := legacy ++ checked |}.

(** A nil authenticator is [None]. *)
Definition Enabled (a : option TokenAuthenticator) : bool :=
  match a with Some a => negb (disabled a) | None => false end.

Definition HasTokens (a : option TokenAuthenticator) : bool :=
  match a with
  | Some a => disabled a || negb (Nat.eqb (length (tokens a)) 0)
  | None => false
  end.

(** ** Requests *)
Definition bearerOrHeaderToken (r : httpRequest) : string :=
  let candidate := TrimSpace (Header_Get r "X-Backstop-Token") in
  if negb (String.eqb candidate "") then candidate
  else
    let auth := TrimSpace (Header_Get r "Authorization") in
    if negb (HasPrefix auth "Bearer ") then ""
    else TrimSpace (TrimPrefix auth "Bearer ").

(** [subtle.ConstantTimeCompare] is 1 on equal byte strings. *)
Definition constantTimeEqual (candidate token : string) : bool :=
  String.eqb candidate token.

Definition legacyValidAuthToken (r : httpRequest) (token : string) : bool :=
  constantTimeEqual (bearerOrHeaderToken r) token.

Definition insecure_principal : AuthPrincipal :=
  {| Name := "insecure-local"; Token := "insecure-local"; Scopes := ["admin:*"] |}.

Fixpoint find_token (candidate : string) (ts : list tokenEntry) : option AuthPrincipal :=
  match ts with
  | [] => None
  | t :: ts =>
      if constantTimeEqual candidate (entry_Token t) then
        Some {| Name := entry_Name t; Token := entry_Name t; Scopes := entry_Scopes t |}
      else find_token candidate ts
  end.

Definition Authenticate (a : option TokenAuthenticator) (r : httpRequest)
    : option AuthPrincipal :=
  match a with
  | None => Some insecure_principal
  | Some a =>
      if disabled a then Some insecure_principal
      else
        let candidate := bearerOrHeaderToken r in
        if String.eqb candidate "" then None else find_token candidate (tokens a)
  end.

(** ** Scopes *)
Definition scope_grants (required scope : string) : bool :=
  let scope := TrimSpace scope in
  String.eqb scope "admin:*" || String.eqb scope required
  || (HasSuffix scope ":*" && HasPrefix required (TrimSuffix scope "*")).

Definition hasScope (principal : AuthPrincipal) (required : string) : bool :=
  String.eqb required "" || existsb (scope_grants required) (Scopes principal).

(** ** Lemmas *)
Lemma wildcard_trim area : TrimSuffix (area +:+ ":*") "*" = area +:+ ":".
Proof.
  replace (area +:+ ":*") with ((area +:+ ":") +:+ "*") by (by rewrite append_assoc).
  apply TrimSuffix_append.
Qed.

Lemma wildcard_iff scope required :
  HasSuffix scope ":*" && HasPrefix required (TrimSuffix scope "*") = true <->
  exists area rest, scope = area +:+ ":*" /\ required = area +:+ ":" +:+ rest.
Proof.
  rewrite andb_true_iff, HasSuffix_true. split.
  - intros [(area & ->) Hp]. rewrite wildcard_trim in Hp.
    apply HasPrefix_true in Hp as (rest & ->). exists area, rest.
    by rewrite append_assoc.
  - intros (area & rest & -> & ->). split; [by exists area|].
    rewrite wildcard_trim, <- append_assoc. apply HasPrefix_append.
Qed.

Lemma scope_grants_iff required scope :
  scope_grants required scope = true <->
  TrimSpace scope = "admin:*" \/ TrimSpace scope = required
  \/ exists area rest, TrimSpace scope = area +:+ ":*" /\ required = area +:+ ":" +:+ rest.
Proof.
  unfold scope_grants. rewrite !orb_true_iff, wildcard_iff, !String.eqb_eq. tauto.
Qed.

Lemma check_tokens_ok i ts checked :
  check_tokens i ts = Ok checked ->
  forall t, t ∈ checked ->
    entry_Name t <> "" /\ entry_Token t <> "" /\ entry_Scopes t <> [].
Proof.
  revert i checked. induction ts as [|t ts IH]; intros i checked; simpl.
  - intros [= <-]. set_solver.
  - destruct (String.eqb_spec (TrimSpace (entry_Name t)) "") as [|Hn]; [done|].
    destruct (String.eqb_spec (TrimSpace (entry_Token t)) "") as [|Ht]; [done|].
    destruct (entry_Scopes t) eqn:Hs; [done|].
    destruct (check_tokens (i + 1) ts) as [rest|] eqn:Hr; [|done]. simpl.
    intros [= <-] t' [->|Ht']%elem_of_cons; [done|]. by eapply IH.
Qed.

Lemma find_token_some c ts p :
  find_token c ts = Some p ->
  exists t, t ∈ ts /\ entry_Token t = c /\ Name p = entry_Name t /\ Scopes p = entry_Scopes t.
Proof.
  induction ts as [|t ts IH]; [done|]. simpl. unfold constantTimeEqual.
  destruct (String.eqb_spec c (entry_Token t)) as [->|].
  - intros [= <-]. exists t. set_solver.
  - intros (t' & ? & ?)%IH. exists t'. set_solver.
Qed.

Lemma NewTokenAuthenticator_tokens legacy path dis file a :
  NewTokenAuthenticator legacy path dis file = Ok a ->
  disabled a = dis
  /\ forall t, t ∈ tokens a ->
       entry_Name t <> "" /\ entry_Token t <> "" /\ entry_Scopes t <> [].
Proof.
  unfold NewTokenAuthenticator. destruct dis.
  { intros [= <-]. split; [done|]. set_solver. }
  set (leg := if String.eqb (TrimSpace legacy) "" then [] else _).
  assert (forall t, t ∈ leg -> entry_Name t <> "" /\ entry_Token t <> "" /\ entry_Scopes t <> [])
    as Hleg.
  { intros t. unfold leg. destruct (String.eqb_spec (TrimSpace legacy) ""); [set_solver|].
    by intros ->%list_elem_of_singleton. }
  clearbody leg. destruct (String.eqb (TrimSpace path) ""); [by intros [= <-]|].
  destruct file as [raw|]; [|done]. simpl.
  destruct (wrap_err _ _) as [parsed|]; [|done]. simpl.
  destruct (check_tokens 0 parsed) as [checked|] eqn:Hc; [|done]. simpl.
  intros [= <-]. split; [done|]. simpl.
  intros t [?|?]%elem_of_app; [by apply Hleg|by eapply check_tokens_ok].
Qed.

(** ** Properties *)

(** A principal has a scope exactly when none is required, or one of its
    scopes is, up to surrounding white space, admin:*, the required scope, or
    area:* for a required scope of that area. *)
Theorem hasScope_iff principal required :
  hasScope principal required = true <->
  required = ""
  \/ exists scope, scope ∈ Scopes principal
       /\ (TrimSpace scope = "admin:*" \/ TrimSpace scope = required
           \/ exists area rest, TrimSpace scope = area +:+ ":*"
                /\ required = area +:+ ":" +:+ rest).
Proof.
  unfold hasScope. rewrite orb_true_iff, String.eqb_eq, existsb_exists_iff.
  setoid_rewrite scope_grants_iff. done.
Qed.

Lemma admin_area area rest :
  "admin:*" = area +:+ ":" +:+ rest -> area = "admin".
Proof.
  intros H. do 6 (destruct area as [|? area]; [by simplify_eq|
    rewrite append_cons in H; injection H as <- H]);
  destruct area as [|? area]; simplify_eq; try done.
  rewrite append_cons in H. injection H as <- H. by destruct area.
Qed.

(** The administrator's endpoints cannot be reached through another scope:
    a principal has the scope admin:* exactly when one of its scopes is admin:*
    itself. *)
Theorem admin_scope_exact principal :
  hasScope principal "admin:*" = true <->
  exists scope, scope ∈ Scopes principal /\ TrimSpace scope = "admin:*".
Proof.
  unfold hasScope. simpl. rewrite existsb_exists_iff. setoid_rewrite scope_grants_iff.
  split; [|naive_solver].
  intros (scope & Hin & [H|[H|(area & rest & H & Hr)]]); exists scope; try done.
  split; [done|]. apply admin_area in Hr as ->. by rewrite H.
Qed.

(** With authentication enabled, only a configured token authenticates: the
    request carries, in its X-Backstop-Token header or as a bearer token, a
    token of the configuration, which is never blank, and the principal has that
    entry's name and scopes. *)
Theorem Authenticate_configured legacy path file a r p :
  NewTokenAuthenticator legacy path false file = Ok a ->
  Authenticate (Some a) r = Some p ->
  exists t, t ∈ tokens a /\ bearerOrHeaderToken r = entry_Token t
    /\ entry_Token t <> "" /\ Name p = entry_Name t /\ Name p <> ""
    /\ Scopes p = entry_Scopes t /\ Scopes p <> [].
Proof.
  intros [Hd Ht]%NewTokenAuthenticator_tokens. unfold Authenticate. rewrite Hd.
  destruct (String.eqb (bearerOrHeaderToken r) ""); [done|].
  intros (t & Hin & Htok & Hn & Hs)%find_token_some. exists t.
  destruct (Ht t Hin) as (? & ? & ?). rewrite Hn, Hs. done.
Qed.

Definition bearer_request (token : string) : httpRequest :=
  {| headers := {["Authorization" := "Bearer " +:+ token]} |}.

Lemma Authenticate_configured_witness :
  let a := {| disabled := false;
              tokens := [{| entry_Name := "legacy-admin"; entry_Token := "s3cret";
                            entry_Scopes := ["admin:*"] |}] |} in
  exists t, t ∈ tokens a /\ bearerOrHeaderToken (bearer_request "s3cret") = entry_Token t
    /\ entry_Token t <> "" /\ "legacy-admin" = entry_Name t /\ "legacy-admin" <> ""
    /\ ["admin:*"] = entry_Scopes t /\ ["admin:*"] <> [].
Proof.
  intros a.
  apply (Authenticate_configured "s3cret" "" (Err "no file") a (bearer_request "s3cret")
    {| Name := "legacy-admin"; Token := "legacy-admin"; Scopes := ["admin:*"] |});
    reflexivity.
Defined.
