(* ===== verification/GatewayMetadata.v ===== *)
(** * gateway/metadata_store.go: the SQLite metadata database

    The tables are finite maps by primary key, or lists in insertion order, of
    rows with the columns' texts.  SQLite fails a transaction as a whole
    ([available] false) or carries it out; the opening of the file is in
    MetadataSchema, the texts of the filtered queries in MetadataQuery.  The sync
    sidecar and the Python tools write to the same database, so rows are not
    assumed to be well formed. *)
From S2P Require Import Prelude GoString GoTime Json JsonText Manifest AgentIdentity Approval.
From stdpp Require Import options.

Open Scope Z_scope.

(** ** Rows *)
Record AuditRow := {
  audit_timestamp : string; audit_agent_id : string; audit_query : string;
  audit_risk_level : string; audit_approved : Z; audit_query_sha256 : string;
  audit_environment : string; audit_cluster_id : string;
}.

Record ApprovalRow := {
  appr_agent_id : string; appr_query : string; appr_risk_level : string;
  appr_status : string; appr_created_at : string; appr_resolved_at : option string;
  appr_query_sha256 : string; appr_operation : string; appr_schema_name : string;
  appr_table_name : string; appr_environment : string; appr_cluster_id : string;
  appr_snapshot_id : string; appr_resolved_by : option string;
}.

Record SnapshotRow := {
  snap_table_name : string; snap_writer : option string; snap_scope : option string;
  snap_row_count : option Z; snap_manifest_key : option string; snap_timestamp : string;
  snap_payload_json : option string; snap_status : string;
  snap_validation_error : option string;
}.

Record AlertRow := {
  alert_timestamp : string; alert_severity : string; alert_event_type : string;
  alert_table_name : string; alert_status : string; alert_payload_json : string;
}.

Record HealthRow := {
  health_status : string; health_checked_at : string; health_detail_json : string;
}.

Record AgentRow := {
  row_risky_attempts : Z; row_window_started_at : string;
  row_quarantine_until : option string; row_last_reason : option string;
  row_last_table : option string;
}.

Record MetadataStore := {
  available : bool;
  audit_events : list AuditRow;
  approval_rows : gmap string ApprovalRow;
  snapshots : gmap string SnapshotRow;
  alert_rows : list AlertRow;
  health_checks : gmap string HealthRow;
  agent_state : gmap string AgentRow;
}.

(** A fresh database file. *)
Definition empty_store : MetadataStore := {|
  available := true; audit_events := []; approval_rows := ∅; snapshots := ∅;
  alert_rows := []; health_checks := ∅; agent_state := ∅ |}.

(** [withTx]: the body's writes, or none of them. *)
Definition db_error : error := "database is locked".
Definition withTx (fn : MetadataStore -> result MetadataStore) (s : MetadataStore)
    : result unit * MetadataStore :=
  if available s then
    match fn s with
    | Ok s' => (Ok tt, s')
    | Err e => (Err e, s)
    end
  else (Err db_error, s).

Definition set_audit (rows : list AuditRow) (s : MetadataStore) : MetadataStore := {|
  available := available s; audit_events := rows; approval_rows := approval_rows s;
  snapshots := snapshots s; alert_rows := alert_rows s;
  health_checks := health_checks s; agent_state := agent_state s |}.
Definition set_approvals (rows : gmap string ApprovalRow) (s : MetadataStore)
    : MetadataStore := {|
  available := available s; audit_events := audit_events s; approval_rows := rows;
  snapshots := snapshots s; alert_rows := alert_rows s;
  health_checks := health_checks s; agent_state := agent_state s |}.
Definition set_snapshots (rows : gmap string SnapshotRow) (s : MetadataStore)
    : MetadataStore := {|
  available := available s; audit_events := audit_events s;
  approval_rows := approval_rows s; snapshots := rows; alert_rows := alert_rows s;
  health_checks := health_checks s; agent_state := agent_state s |}.
Definition set_alerts (rows : list AlertRow) (s : MetadataStore) : MetadataStore := {|
  available := available s; audit_events := audit_events s;
  approval_rows := approval_rows s; snapshots := snapshots s; alert_rows := rows;
  health_checks := health_checks s; agent_state := agent_state s |}.
Definition set_health (rows : gmap string HealthRow) (s : MetadataStore)
    : MetadataStore := {|
  available := available s; audit_events := audit_events s;
  approval_rows := approval_rows s; snapshots := snapshots s;
  alert_rows := alert_rows s; health_checks := rows; agent_state := agent_state s |}.
Definition set_agents (rows : gmap string AgentRow) (s : MetadataStore)
    : MetadataStore := {|
  available := available s; audit_events := audit_events s;
  approval_rows := approval_rows s; snapshots := snapshots s;
  alert_rows := alert_rows s; health_checks := health_checks s; agent_state := rows |}.

(** ** Agent state *)
Record AgentState := {
  AgentID : string;
  RiskyAttempts : Z;
  WindowStartedAt : time;
  QuarantineUntil : option time;
  LastReason : string;
  LastTable : string;
}.

(** A NULL in a column scanned into a string makes the whole read fail. *)
Definition GetAgentState (agentID : string) (s : MetadataStore) : option AgentState :=
  if available s then
    row ← agent_state s !! agentID;
    lastReason ← row_last_reason row;
    lastTable ← row_last_table row;
    Some {|
      AgentID := agentID;
      RiskyAttempts := row_risky_attempts row;
      WindowStartedAt := default zero_time (Parse_RFC3339 (row_window_started_at row));
      QuarantineUntil :=
        match row_quarantine_until row with
        | Some q => if String.eqb q "" then None else Parse_RFC3339 q
        | None => None
        end;
      LastReason := lastReason;
      LastTable := lastTable |}
  else None.

Definition SaveAgentState (st : AgentState) (s : MetadataStore) : result unit * MetadataStore :=
  let quarantine :=
    match QuarantineUntil st with
    | Some q => Format_RFC3339Nano q
    | None => ""
    end in
  withTx (fun s => Ok (set_agents (<[AgentID st := {|
    row_risky_attempts := RiskyAttempts st;
    row_window_started_at := Format_RFC3339Nano (WindowStartedAt st);
    row_quarantine_until := Some quarantine;
    row_last_reason := Some (LastReason st);
    row_last_table := Some (LastTable st) |}]> (agent_state s)) s)) s.

(** ** Audit and approvals *)
Definition boolInt (value : bool) : Z := if value then 1 else 0.

Definition RecordAudit (entry : AuditEntry) (s : MetadataStore) : result unit * MetadataStore :=
  withTx (fun s => Ok (set_audit (audit_events s ++ [{|
    audit_timestamp := Format_RFC3339Nano (entry_Timestamp entry);
    audit_agent_id := entry_AgentID entry; audit_query := Query entry;
    audit_risk_level := entry_RiskLevel entry;
    audit_approved := boolInt (Approved entry);
    audit_query_sha256 := QuerySHA256 entry; audit_environment := Environment entry;
    audit_cluster_id := ClusterID entry |}]) s)) s.

Definition RecordApprovalRequested (now : time) (d : ApprovalDetails) (s : MetadataStore)
    : result unit * MetadataStore :=
  withTx (fun s => Ok (set_approvals (<[details_ID d := {|
    appr_agent_id := details_AgentID d; appr_query := details_Query d;
    appr_risk_level := details_RiskLevel d; appr_status := "pending";
    appr_created_at := Format_RFC3339Nano now; appr_resolved_at := None;
    appr_query_sha256 := details_QuerySHA256 d; appr_operation := details_Operation d;
    appr_schema_name := details_Schema d; appr_table_name := details_Table d;
    appr_environment := details_Environment d; appr_cluster_id := details_ClusterID d;
    appr_snapshot_id := details_SnapshotID d; appr_resolved_by := None |}]>
    (approval_rows s)) s)) s.

(** The UPDATE must affect the one row of the id. *)
Definition RecordApprovalResolved (now : time) (approvalID status actor : string)
    (s : MetadataStore) : result unit * MetadataStore :=
  withTx (fun s =>
    match approval_rows s !! approvalID with
    | None =>
        Err ("approval metadata update affected 0 rows for approval_id=" +:+ approvalID)
    | Some row =>
        Ok (set_approvals (<[approvalID := {|
          appr_agent_id := appr_agent_id row; appr_query := appr_query row;
          appr_risk_level := appr_risk_level row; appr_status := status;
          appr_created_at := appr_created_at row;
          appr_resolved_at := Some (Format_RFC3339Nano now);
          appr_query_sha256 := appr_query_sha256 row; appr_operation := appr_operation row;
          appr_schema_name := appr_schema_name row; appr_table_name := appr_table_name row;
          appr_environment := appr_environment row; appr_cluster_id := appr_cluster_id row;
          appr_snapshot_id := appr_snapshot_id row; appr_resolved_by := Some actor |}]>
          (approval_rows s)) s)
    end) s.

(** ** Snapshots *)
Definition with_status (status validationErr : string) (m : SnapshotManifest)
    : SnapshotManifest := {|
  ManifestVersion := ManifestVersion m; Writer := Writer m; DBName := DBName m;
  SchemaName := SchemaName m; SnapshotID := SnapshotID m; Timestamp := Timestamp m;
  TableName := TableName m; manifest_Operation := manifest_Operation m;
  RowCount := RowCount m; S3DataKey := S3DataKey m; S3ManifestKey := S3ManifestKey m;
  SnapshotScope := SnapshotScope m; DataSHA256 := DataSHA256 m;
  manifest_Status := status; ValidationError := validationErr |}.

Definition with_timestamp (ts : string) (m : SnapshotManifest) : SnapshotManifest := {|
  ManifestVersion := ManifestVersion m; Writer := Writer m; DBName := DBName m;
  SchemaName := SchemaName m; SnapshotID := SnapshotID m; Timestamp := ts;
  TableName := TableName m; manifest_Operation := manifest_Operation m;
  RowCount := RowCount m; S3DataKey := S3DataKey m; S3ManifestKey := S3ManifestKey m;
  SnapshotScope := SnapshotScope m; DataSHA256 := DataSHA256 m;
  manifest_Status := manifest_Status m; ValidationError := ValidationError m |}.

Definition RecordSnapshot (manifest : SnapshotManifest) (s : MetadataStore)
    : result unit * MetadataStore :=
  let status :=
    if String.eqb (manifest_Status manifest) "" then "valid"
    else manifest_Status manifest in
  withTx (fun s => Ok (set_snapshots (<[SnapshotID manifest := {|
    snap_table_name := TableName manifest; snap_writer := Some (Writer manifest);
    snap_scope := Some (SnapshotScope manifest);
    snap_row_count := Some (RowCount manifest);
    snap_manifest_key := Some (S3ManifestKey manifest);
    snap_timestamp := Timestamp manifest;
    snap_payload_json := Some (json_text (enc_manifest manifest));
    snap_status := status;
    snap_validation_error := Some (ValidationError manifest) |}]> (snapshots s)) s)) s.

Definition RecordInvalidSnapshot (now : time) (manifest : SnapshotManifest)
    (validationErr : string) (s : MetadataStore) : result unit * MetadataStore :=
  let manifest := with_status "invalid" validationErr manifest in
  let manifest :=
    if String.eqb (Timestamp manifest) "" then with_timestamp (Format_RFC3339 now) manifest
    else manifest in
  RecordSnapshot manifest s.

(** The compact time stamp of a manifest without a snapshot id. *)
Definition unknown_id (now : time) : string :=
  "unknown_" +:+ Format_compact_nano now.

Definition QuarantineManifest (now : time) (snapshotID table manifestKey reason : string)
    (s : MetadataStore) : result unit * MetadataStore :=
  let snapshotID := if String.eqb snapshotID "" then unknown_id now else snapshotID in
  RecordSnapshot {|
    ManifestVersion := 0; Writer := sidecarWriter; DBName := ""; SchemaName := "";
    SnapshotID := snapshotID; Timestamp := Format_RFC3339 now; TableName := table;
    manifest_Operation := ""; RowCount := 0; S3DataKey := "";
    S3ManifestKey := manifestKey; SnapshotScope := "table"; DataSHA256 := "";
    manifest_Status := "quarantined"; ValidationError := reason |} s.

Definition ValidateSnapshotRecord (manifest : SnapshotManifest) (s : option MetadataStore)
    : result unit :=
  match s with
  | None => Err "metadata store is unavailable"
  | Some s =>
      let lookup_failed (e : error) :=
        Err ("metadata snapshot lookup failed for " +:+ SnapshotID manifest +:+ ": " +:+ e) in
      if negb (available s) then lookup_failed db_error
      else
      match snapshots s !! SnapshotID manifest with
      | None =>
          Err ("metadata state is ambiguous: snapshot " +:+ SnapshotID manifest
               +:+ " is missing from SQLite metadata")
      | Some row =>
          match snap_manifest_key row, snap_payload_json row with
          | Some manifestKey, Some payloadJSON =>
              if negb (String.eqb (snap_status row) "valid") then
                Err ("metadata snapshot " +:+ SnapshotID manifest
                     +:+ " is not valid: status=" +:+ snap_status row)
              else if negb (String.eqb (snap_table_name row) (TableName manifest)) then
                Err ("metadata snapshot table mismatch: metadata=" +:+ snap_table_name row
                     +:+ " manifest=" +:+ TableName manifest)
              else if negb (String.eqb manifestKey (S3ManifestKey manifest)) then
                Err ("metadata snapshot manifest_key mismatch: metadata=" +:+ manifestKey
                     +:+ " manifest=" +:+ S3ManifestKey manifest)
              else
                match Unmarshal dec_manifest (json_document payloadJSON) zero_manifest with
                | Err e =>
                    Err ("metadata snapshot payload is corrupt for "
                         +:+ SnapshotID manifest +:+ ": " +:+ e)
                | Ok recorded =>
                    if negb (String.eqb (SnapshotID recorded) (SnapshotID manifest))
                       || negb (String.eqb (TableName recorded) (TableName manifest))
                       || negb (String.eqb (S3ManifestKey recorded) (S3ManifestKey manifest))
                       || negb (String.eqb (S3DataKey recorded) (S3DataKey manifest))
                       || negb (String.eqb (DataSHA256 recorded) (DataSHA256 manifest))
                       || negb (String.eqb (manifest_Status recorded) "valid") then
                      Err ("metadata snapshot payload does not match verified manifest for "
                           +:+ SnapshotID manifest)
                    else Ok tt
                end
          | _, _ => lookup_failed "converting NULL to string is unsupported"
          end
      end
  end.

(** ** Alerts and health

    What the callers pass as payload or detail is marshalled: strings, numbers,
    Booleans and times, for which [json.Marshal] does not fail. *)
Definition RecordAlert (now : time) (severity eventType table status : string)
    (payload : json) (s : MetadataStore) : result unit * MetadataStore :=
  withTx (fun s => Ok (set_alerts (alert_rows s ++ [{|
    alert_timestamp := Format_RFC3339Nano now; alert_severity := severity;
    alert_event_type := eventType; alert_table_name := table;
    alert_status := status; alert_payload_json := json_text payload |}]) s)) s.

Definition RecordHealth (now : time) (component status : string) (detail : json)
    (s : MetadataStore) : result unit * MetadataStore :=
  withTx (fun s => Ok (set_health (<[component := {|
    health_status := status; health_checked_at := Format_RFC3339Nano now;
    health_detail_json := json_text detail |}]>
    (health_checks s)) s)) s.

Definition GetHealth (component : string) (s : option MetadataStore)
    : option (string * time) :=
  s ← s;
  if available s then
    row ← health_checks s !! component;
    ts ← Parse_RFC3339 (health_checked_at row);
    Some (health_status row, ts)
  else None.

(** ** Queries: the newest rows first, by the text of their timestamp *)
Definition newer (a b : string) : Prop := String.le b a.
Definition limit500 {A} (rows : list A) : list A := take (Z.to_nat 500) rows.

Definition by_time {A} (ts : A -> string) (a b : A) : Prop := String.le (ts b) (ts a).
#[export] Instance by_time_dec {A} (ts : A -> string) : RelDecision (by_time ts).
Proof. intros a b. unfold by_time. apply _. Defined.

(** A filter with an empty value is no filter. *)
Definition matches (value filter : string) : bool :=
  String.eqb filter "" || String.eqb value filter.

Definition QueryAudit (agentID risk : string) (s : option MetadataStore)
    : result (list AuditRow) :=
  match s with
  | None => Ok []
  | Some s =>
      if available s then
        Ok (limit500 (merge_sort (by_time audit_timestamp)
          (filter (fun r => matches (audit_agent_id r) agentID
                            && matches (audit_risk_level r) risk) (audit_events s))))
      else Err db_error
  end.

Definition snapshot_rows (s : MetadataStore) : list (string * SnapshotRow) :=
  map_to_list (snapshots s).
Definition snapshot_time (r : string * SnapshotRow) : string := snap_timestamp r.2.

(** No valid row of the same table has a greater timestamp text. *)
Definition latest_valid (rows : list (string * SnapshotRow)) (r : string * SnapshotRow)
    : bool :=
  String.eqb (snap_status r.2) "valid"
  && forallb (fun r' =>
       negb (String.eqb (snap_table_name r'.2) (snap_table_name r.2)
             && String.eqb (snap_status r'.2) "valid")
       || bool_decide (String.le (snapshot_time r') (snapshot_time r))) rows.

Definition QuerySnapshots (table : string) (latestValidOnly : bool)
    (s : option MetadataStore) : result (list (string * SnapshotRow)) :=
  match s with
  | None => Ok []
  | Some s =>
      if available s then
        let rows := snapshot_rows s in
        let selected :=
          filter (fun r => (negb latestValidOnly || latest_valid rows r)
                           && matches (snap_table_name r.2) table) rows in
        Ok (limit500 (merge_sort (by_time snapshot_time) selected))
      else Err db_error
  end.

Definition QueryAlerts (s : option MetadataStore) : result (list AlertRow) :=
  match s with
  | None => Ok []
  | Some s =>
      if available s then Ok (limit500 (merge_sort (by_time alert_timestamp) (alert_rows s)))
      else Err db_error
  end.

Definition health_time (r : string * HealthRow) : string := health_checked_at r.2.
Definition QueryHealth (s : option MetadataStore) : result (list (string * HealthRow)) :=
  match s with
  | None => Ok []
  | Some s =>
      if available s then
        Ok (limit500 (merge_sort (by_time health_time) (map_to_list (health_checks s))))
      else Err db_error
  end.

(** ** Lemmas *)
Lemma withTx_available fn s s' :
  available s = true -> fn s = Ok s' -> withTx fn s = (Ok tt, s').
Proof. intros Ha Hf. unfold withTx. by rewrite Ha, Hf. Qed.

Lemma withTx_error fn s e s' : withTx fn s = (Err e, s') -> s' = s.
Proof. unfold withTx. repeat case_match; naive_solver. Qed.

(** What [SaveAgentState] wrote is what [GetAgentState] reads. *)
Lemma saved_state_reads st s s' :
  0 <= WindowStartedAt st < year_9999_end ->
  (forall q, QuarantineUntil st = Some q -> 0 <= q < year_9999_end) ->
  SaveAgentState st s = (Ok tt, s') ->
  GetAgentState (AgentID st) s' = Some st.
Proof.
  intros Hw Hq. unfold SaveAgentState, withTx, GetAgentState.
  destruct (available s) eqn:Ha; [|done]. intros [= <-]. simpl.
  rewrite Ha, lookup_insert_eq. simpl.
  rewrite Parse_Format_RFC3339Nano by done. simpl.
  destruct st as [aid ra ws qu lr lt]. simpl in *. destruct qu as [q|]; [|done].
  destruct (String.eqb_spec (Format_RFC3339Nano q) "") as [He|_].
  - specialize (Hq q eq_refl). apply Parse_Format_RFC3339Nano in Hq.
    rewrite He in Hq. by vm_compute in Hq.
  - by rewrite Parse_Format_RFC3339Nano by auto.
Qed.

Lemma manifest_nesting m : nesting (enc_manifest m) <= maxNestingDepth.
Proof. unfold enc_manifest. repeat case_match; by vm_compute. Qed.

(** ** Properties *)

(** The metadata record a valid manifest of UTF-8 strings leaves validates
    that manifest, and stops validating it once the manifest is quarantined. *)
Theorem snapshot_record_validates now m s s' reason :
  int64_range (ManifestVersion m) -> int64_range (RowCount m) ->
  manifest_Status m = "valid" -> SnapshotID m <> "" ->
  utf8_json (enc_manifest m) = true ->
  RecordSnapshot m s = (Ok tt, s') ->
  ValidateSnapshotRecord m (Some s') = Ok tt
  /\ is_ok (ValidateSnapshotRecord m
       (Some (snd (QuarantineManifest now (SnapshotID m) (TableName m)
                     (S3ManifestKey m) reason s')))) = false.
Proof.
  intros Hv Hr Hst Hid%String.eqb_neq Hutf. unfold RecordSnapshot, withTx.
  destruct (available s) eqn:Ha; [|done]. intros [= <-]. split.
  - unfold ValidateSnapshotRecord. cbn [available set_snapshots snapshots].
    rewrite Ha, lookup_insert_eq, Hst.
    cbn [snap_manifest_key snap_payload_json snap_status snap_table_name negb].
    rewrite !String.eqb_refl, json_text_document by apply manifest_nesting.
    rewrite utf8_valid_json, manifest_reads_back by done.
    by rewrite !String.eqb_refl, Hst.
  - unfold QuarantineManifest. rewrite Hid. unfold RecordSnapshot, withTx. simpl.
    rewrite Ha. simpl. rewrite Ha, lookup_insert_eq. done.
Qed.

Definition manifest_example : SnapshotManifest := {|
  ManifestVersion := 1; Writer := "sync-sidecar"; DBName := "app";
  SchemaName := "public"; SnapshotID := "snap_1"; Timestamp := "2024-01-01T00:00:00Z";
  TableName := "users"; manifest_Operation := "SNAPSHOT"; RowCount := 3;
  S3DataKey := "d"; S3ManifestKey := "m"; SnapshotScope := "table";
  DataSHA256 := "ab"; manifest_Status := "valid"; ValidationError := "" |}.

Lemma snapshot_record_validates_witness :
  let s' := snd (RecordSnapshot manifest_example empty_store) in
  ValidateSnapshotRecord manifest_example (Some s') = Ok tt
  /\ is_ok (ValidateSnapshotRecord manifest_example
       (Some (snd (QuarantineManifest 0 "snap_1" "users" "m" "bad" s')))) = false.
Proof.
  apply (snapshot_record_validates 0 manifest_example empty_store);
    [unfold int64_range, int64_min, int64_max; simpl; lia..|reflexivity|discriminate|reflexivity|reflexivity].
Defined.

(** [ORDER BY timestamp] compares texts, and RFC 3339 texts without their
    trailing zeros do not compare as times do: of two audit events half a second
    apart, the older one can be listed as the newest. *)
Theorem QueryAudit_orders_text :
  let at_ t := {| entry_AgentID := "a"; Query := "q"; QuerySHA256 := "";
                  entry_RiskLevel := "SAFE"; Approved := true; Environment := "";
                  ClusterID := ""; entry_Timestamp := t |} in
  let s := snd (RecordAudit (at_ 500000000) (snd (RecordAudit (at_ 0) empty_store))) in
  audit_timestamp <$> default [] (match QueryAudit "" "" (Some s) with Ok r => Some r | Err _ => None end)
  = [Format_RFC3339Nano 0; Format_RFC3339Nano 500000000].
Proof. reflexivity. Qed.
