(* ===== verification/GatewayWorld.v ===== *)
(** * The state of the gateway process, and gateway/alert.go

    [World] holds what the gateway's components own: the metrics, the registry
    with its log file, the metadata database, the approval engine, the pause
    controller with its file, and the outside world the handlers act on: the
    clock, the alerts posted, PostgreSQL and the object store.  [Config] is what
    main.go fixes at start-up.  A handler is a state transformer [ST World]. *)
From S2P Require Import Prelude GoString GoTime Json JsonText Postgres SqlAnalyzer Policy GatewayMetrics.
From S2P Require Import Manifest AgentIdentity Approval Pause GatewayMetadata.
From stdpp Require Import options.

Open Scope Z_scope.

(** ** Alerts *)
Record GatewayAlertPayload := {
  Severity : string;
  EventType : string;
  payload_Environment : string;
  payload_ClusterID : string;
  payload_AgentID : string;
  payload_RiskLevel : string;
  payload_Operation : string;
  payload_Schema : string;
  payload_Table : string;
  payload_QuerySHA256 : string;
  ApprovalID : string;
  payload_SnapshotID : string;
  RecommendedAction : string;
  payload_Timestamp : string;
  Message : string;
}.

(** What a POST to the webhook comes to. *)
Inductive httpOutcome :=
  | InvalidURL
  | NetworkError
  | StatusCode (code : Z).

Definition enc_alert (p : GatewayAlertPayload) : json :=
  JObject (
    [("severity", JString (Severity p)); ("event_type", JString (EventType p));
     ("environment", JString (payload_Environment p));
     ("cluster_id", JString (payload_ClusterID p))]
    ++ omitempty "agent_id" (payload_AgentID p)
    ++ omitempty "risk_level" (payload_RiskLevel p)
    ++ omitempty "operation" (payload_Operation p)
    ++ omitempty "schema" (payload_Schema p)
    ++ omitempty "table" (payload_Table p)
    ++ omitempty "query_sha256" (payload_QuerySHA256 p)
    ++ omitempty "approval_id" (ApprovalID p)
    ++ omitempty "snapshot_id" (payload_SnapshotID p)
    ++ [("recommended_action", JString (RecommendedAction p));
        ("timestamp", JString (payload_Timestamp p))]
    ++ omitempty "message" (Message p)).

(** ** The object store

    A listing is a sequence of pages, the first failing one ending it.  Opening
    an object can fail, and so can reading its body. *)
Record S3 := {
  ListObjectsV2 : string -> list (result (list string));
  GetObject : string -> result (result string);
}.

(** What the gateway's handlers reach outside the process: the HTTP client, given
    the text it posts, and net/url: the URL with an application_name query
    parameter added when it has none, [None] when it does not parse or is no
    PostgreSQL URL; and the order in which a range over a map visits the entries at
    a time, which Go leaves open. *)
Class GatewayEnv := {
  post_webhook : string -> string -> time -> httpOutcome;
  url_with_application : string -> string -> option string;
  map_order : time -> list (string * list string) -> list (string * list string);
}.

(** The entries of a map in that order: each once. *)
Definition visited {env : GatewayEnv} (at_time : time) (m : gmap string (list string))
    : list (string * list string) :=
  let entries := map_to_list m in
  let order := map_order at_time entries in
  if decide (order ≡ₚ entries) then order else entries.

(** ** The state *)

(** Statements sent to PostgreSQL: the impact analysis's own ones, and the
    agents' queries. *)
Inductive statement :=
  | Probe (conn : option string) (sql : string)
  | Executed (conn : option string) (sql : string).

Section world.
Context {pg : Postgres}.

Record World := {
  now : time;
  metrics : GatewayMetrics;
  registry : AgentRegistry;
  metadata : option MetadataStore;
  approval : ApprovalEngine;
  pause : option PauseController;
  pause_disk : pauseDisk;
  posted : list GatewayAlertPayload;
  statements : list statement;
  database : DB;
  s3 : S3;
}.

Definition set_now (x : time) (w : World) : World := {|
  now := x; metrics := metrics w; registry := registry w; metadata := metadata w;
  approval := approval w; pause := pause w; pause_disk := pause_disk w; posted := posted
  w; statements := statements w; database := database w; s3 := s3 w |}.
Definition set_metrics (x : GatewayMetrics) (w : World) : World := {|
  now := now w; metrics := x; registry := registry w; metadata := metadata w; approval
  := approval w; pause := pause w; pause_disk := pause_disk w; posted := posted w;
  statements := statements w; database := database w; s3 := s3 w |}.
Definition set_registry (x : AgentRegistry) (w : World) : World := {|
  now := now w; metrics := metrics w; registry := x; metadata := metadata w; approval :=
  approval w; pause := pause w; pause_disk := pause_disk w; posted := posted w;
  statements := statements w; database := database w; s3 := s3 w |}.
Definition set_metadata (x : option MetadataStore) (w : World) : World := {|
  now := now w; metrics := metrics w; registry := registry w; metadata := x; approval :=
  approval w; pause := pause w; pause_disk := pause_disk w; posted := posted w;
  statements := statements w; database := database w; s3 := s3 w |}.
Definition set_approval (x : ApprovalEngine) (w : World) : World := {|
  now := now w; metrics := metrics w; registry := registry w; metadata := metadata w;
  approval := x; pause := pause w; pause_disk := pause_disk w; posted := posted w;
  statements := statements w; database := database w; s3 := s3 w |}.
Definition set_pause (x : option PauseController) (w : World) : World := {|
  now := now w; metrics := metrics w; registry := registry w; metadata := metadata w;
  approval := approval w; pause := x; pause_disk := pause_disk w; posted := posted w;
  statements := statements w; database := database w; s3 := s3 w |}.
Definition set_pause_disk (x : pauseDisk) (w : World) : World := {|
  now := now w; metrics := metrics w; registry := registry w; metadata := metadata w;
  approval := approval w; pause := pause w; pause_disk := x; posted := posted w;
  statements := statements w; database := database w; s3 := s3 w |}.
Definition set_posted (x : list GatewayAlertPayload) (w : World) : World := {|
  now := now w; metrics := metrics w; registry := registry w; metadata := metadata w;
  approval := approval w; pause := pause w; pause_disk := pause_disk w; posted := x;
  statements := statements w; database := database w; s3 := s3 w |}.
Definition set_statements (x : list statement) (w : World) : World := {|
  now := now w; metrics := metrics w; registry := registry w; metadata := metadata w;
  approval := approval w; pause := pause w; pause_disk := pause_disk w; posted := posted
  w; statements := x; database := database w; s3 := s3 w |}.
Definition set_database (x : DB) (w : World) : World := {|
  now := now w; metrics := metrics w; registry := registry w; metadata := metadata w;
  approval := approval w; pause := pause w; pause_disk := pause_disk w; posted := posted
  w; statements := statements w; database := x; s3 := s3 w |}.
Definition set_s3 (x : S3) (w : World) : World := {|
  now := now w; metrics := metrics w; registry := registry w; metadata := metadata w;
  approval := approval w; pause := pause w; pause_disk := pause_disk w; posted := posted
  w; statements := statements w; database := database w; s3 := x |}.
End world.

(** ** The configuration *)

(** The interface SnapshotVerifier, with the method verifyRecoveryGroup asks
    for through a type assertion. *)
Record SnapshotVerifier `{Postgres} := {
  VerifyLatestSidecarSnapshot : string -> string -> ST World (result SnapshotManifest);
  LatestSidecarSnapshot : option (string -> ST World (result SnapshotManifest));
}.

Record Config `{Postgres} := {
  policy : GatewayPolicy;
  environment : string;
  clusterID : string;
  has_db : bool;
  storage : string;
  snapshotBeforeCritical : bool;
  snapshotVerifier : option SnapshotVerifier;
  alert_webhook : option string;
}.

(** ** Lifting the components' operations *)
Section ops.
Context `{pg : Postgres, env : GatewayEnv}.

Definition upd_metrics (f : GatewayMetrics -> GatewayMetrics) : ST World unit :=
  modify (fun w => set_metrics (f (metrics w)) w).

(** A write to the metadata database; on a nil store the methods return nil. *)
Definition with_metadata (f : time -> MetadataStore -> result unit * MetadataStore)
    : ST World (result unit) := fun w =>
  match metadata w with
  | None => (Ok tt, w)
  | Some s =>
      let (r, s') := f (now w) s in (r, set_metadata (Some s') w)
  end.

Definition RecordDetailed (agentID query riskLevel : string) (approved : bool)
    (querySHA256 environment clusterID : string) : ST World unit := fun w =>
  let entry := new_entry (now w) agentID query riskLevel approved querySHA256
                 environment clusterID in
  let w := set_registry (record_entry entry (registry w)) w in
  let (_, w) := with_metadata (fun _ => RecordAudit entry) w in
  (tt, w).

Definition with_query (q : string) (d : ApprovalDetails) : ApprovalDetails := {|
  details_ID := details_ID d; details_Query := q;
  details_QuerySHA256 := details_QuerySHA256 d; details_AgentID := details_AgentID d;
  details_RiskLevel := details_RiskLevel d; details_Operation := details_Operation d;
  details_Schema := details_Schema d; details_Table := details_Table d;
  details_Environment := details_Environment d; details_ClusterID := details_ClusterID d;
  details_SnapshotID := details_SnapshotID d |}.

(** The registry's methods of the same names: the stored query is scrubbed. *)
Definition registry_RecordApprovalRequested (d : ApprovalDetails) : ST World (result unit) :=
  with_metadata (fun now =>
    RecordApprovalRequested now (with_query (scrubSecrets (details_Query d)) d)).

Definition registry_RecordApprovalResolved (approvalID status actor : string)
    : ST World (result unit) :=
  with_metadata (fun now => RecordApprovalResolved now approvalID status actor).

(** [ensurePostgresApplicationName] of main.go. *)
Definition ensurePostgresApplicationName (dbURL applicationName : string) : string :=
  if String.eqb (TrimSpace dbURL) "" || String.eqb (TrimSpace applicationName) "" then dbURL
  else default dbURL (url_with_application dbURL applicationName).

(** ** Emit *)

(** [sink] is the webhook of the sink, empty when there is none. *)
Definition webhook_status (webhook : string) (payload : GatewayAlertPayload) (now : time)
    : string :=
  if String.eqb webhook "" then "recorded"
  else
    match post_webhook webhook (json_text (enc_alert payload)) now with
    | InvalidURL | NetworkError => "failed"
    | StatusCode code =>
        if (code <? 200) || (300 <=? code) then "failed_http_" +:+ itoa code else "sent"
    end.

Definition stamp (ts : string) (p : GatewayAlertPayload) : GatewayAlertPayload := {|
  Severity := Severity p; EventType := EventType p;
  payload_Environment := payload_Environment p; payload_ClusterID := payload_ClusterID p;
  payload_AgentID := payload_AgentID p; payload_RiskLevel := payload_RiskLevel p;
  payload_Operation := payload_Operation p; payload_Schema := payload_Schema p;
  payload_Table := payload_Table p; payload_QuerySHA256 := payload_QuerySHA256 p;
  ApprovalID := ApprovalID p; payload_SnapshotID := payload_SnapshotID p;
  RecommendedAction := RecommendedAction p; payload_Timestamp := ts;
  Message := Message p |}.

Definition Emit (sink : option string) (payload : GatewayAlertPayload) : ST World unit :=
  match sink with
  | None => mret tt
  | Some webhook =>
      t ← gets now;
      let payload :=
        if String.eqb (payload_Timestamp payload) "" then stamp (Format_RFC3339Nano t) payload
        else payload in
      let status := webhook_status webhook payload t in
      when (negb (String.eqb webhook ""))
        (modify (fun w => set_posted (posted w ++ [payload]) w));;
      upd_metrics (IncAlert (EventType payload) status);;
      r ← with_metadata (fun now =>
        RecordAlert now (Severity payload) (EventType payload) (payload_Table payload) status
          (enc_alert payload));
      when (negb (is_ok r)) (upd_metrics (IncAlert (EventType payload) "metadata_failed"))
  end.

Definition NewGatewayAlertSink (webhook : string) : option string := Some (TrimSpace webhook).

(** [MCPServer.emitAlert]. *)
Definition emitAlert (cfg : Config) (severity eventType agentID : string)
    (analysis : sqlAnalysis) (querySHA approvalID snapshotID recommendedAction message : string)
    : ST World unit :=
  Emit (alert_webhook cfg) {|
    Severity := severity; EventType := eventType; payload_Environment := environment cfg;
    payload_ClusterID := clusterID cfg; payload_AgentID := agentID;
    payload_RiskLevel := RiskLevel analysis; payload_Operation := Operation analysis;
    payload_Schema := Schema analysis; payload_Table := Table analysis;
    payload_QuerySHA256 := querySHA; ApprovalID := approvalID;
    payload_SnapshotID := snapshotID; RecommendedAction := recommendedAction;
    payload_Timestamp := ""; Message := message |}.

(** [recordAuthDenied] of auth.go. *)
Definition recordAuthDenied (status scope principal : string) : ST World unit :=
  upd_metrics (IncBlock ("auth_" +:+ status));;
  with_metadata (fun now => RecordAlert now "warning" ("auth_" +:+ status) "" "recorded"
    (json_map [("required_scope", JString scope); ("principal", JString principal)]));;
  mret tt.
End ops.

(** ** A concrete environment

    A database that answers every query with no rows, no webhook, an empty
    bucket: the instance the examples of the development run on. *)
Definition null_postgres : Postgres := {|
  DB := unit;
  sql_Open := fun _ => Ok tt;
  QueryContext := fun _ _ d => (Ok {| Columns := []; Rows := []; Rows_Err := None |}, d);
  ExecContext := fun _ _ d => (Ok 1, d) |}.

Definition offline_env : GatewayEnv := {|
  post_webhook := fun _ _ _ => NetworkError;
  url_with_application := fun url _ => Some url;
  map_order := fun _ entries => entries |}.

Definition local_config : @Config null_postgres := {|
  policy := DefaultGatewayPolicy; environment := "local"; clusterID := "local";
  has_db := true; storage := ""; snapshotBeforeCritical := true;
  snapshotVerifier := None; alert_webhook := None |}.

Definition fresh_world (t : time) : @World null_postgres := {|
  now := t; metrics := NewGatewayMetrics;
  registry := NewAgentRegistryWithStores "" None; metadata := Some empty_store;
  approval := NewApprovalEngine (seconds 300); pause := None;
  pause_disk := {| disk := Absent; writable := true; write_fault := None |}; posted := [];
  statements := []; database := tt : @DB null_postgres;
  s3 := {| ListObjectsV2 := fun _ => []; GetObject := fun _ => Err "NoSuchKey" |} |}.
