(* ===== verification/Behavior.v ===== *)
(** * gateway/behavior.go: risky attempts and quarantine *)
From S2P Require Import Prelude GoString GoTime Postgres SqlAnalyzer Policy GatewayMetrics.
From S2P Require Import GatewayMetadata GatewayWorld.
From stdpp Require Import options.

Open Scope Z_scope.

Section behavior.
Context `{pg : Postgres, env : GatewayEnv}.

Definition agentQuarantined (cfg : Config) (agentID : string) (analysis : sqlAnalysis)
    (w : World) : bool :=
  match metadata w with
  | None => false
  | Some store =>
      match GetAgentState agentID store with
      | None => false
      | Some state =>
          match QuarantineUntil state with
          | None => false
          | Some until =>
              if After (now w) until then false
              else QuarantineBlocksSafeQueries (policy cfg)
                   || negb (String.eqb (RiskLevel analysis) RiskSafe)
          end
      end
  end.

Definition fresh_state (agentID : string) (now : time) : AgentState := {|
  AgentID := agentID; RiskyAttempts := 0; WindowStartedAt := now;
  QuarantineUntil := None; LastReason := ""; LastTable := "" |}.

(** The state an attempt at [now] leaves, and whether a quarantine starts. *)
Definition next_state (p : GatewayPolicy) (now : time) (agentID table reason : string)
    (stored : option AgentState) : AgentState * bool :=
  let window := seconds (DangerousRetryWindowSeconds p) in
  let quarantineDuration := seconds (QuarantineDurationSeconds p) in
  let state :=
    match stored with
    | None => fresh_state agentID now
    | Some state =>
        if window <? Sub now (WindowStartedAt state) then fresh_state agentID now else state
    end in
  let attempts := wrap64 (RiskyAttempts state + 1) in
  let state := {| AgentID := AgentID state; RiskyAttempts := attempts;
    WindowStartedAt := WindowStartedAt state; QuarantineUntil := QuarantineUntil state;
    LastReason := reason; LastTable := table |} in
  if MaxBlockedAttemptsPerWindow p <=? attempts then
    ({| AgentID := AgentID state; RiskyAttempts := attempts;
        WindowStartedAt := WindowStartedAt state;
        QuarantineUntil := Some (Add now quarantineDuration);
        LastReason := reason; LastTable := table |},
     match QuarantineUntil state with
     | None => true
     | Some until => Before until now
     end)
  else (state, false).

Definition recordRiskAttempt (cfg : Config) (agentID : string) (analysis : sqlAnalysis)
    (reason : string) : ST World unit := fun w =>
  match metadata w with
  | None => (tt, w)
  | Some store =>
      if String.eqb (RiskLevel analysis) RiskSafe then (tt, w)
      else
        let (state, newQuarantine) :=
          next_state (policy cfg) (now w) agentID (Table analysis) reason
            (GetAgentState agentID store) in
        (when newQuarantine
           (upd_metrics IncAgentQuarantine;;
            emitAlert cfg "critical" "agent_quarantined" agentID analysis "" "" ""
              "Inspect agent behavior and deny similar destructive retries."
              "Agent quarantined after repeated risky attempts.");;
         saved ← with_metadata (fun _ => SaveAgentState state);
         if is_ok saved then upd_metrics (IncRiskyAttempt (RiskLevel analysis))
         else upd_metrics (IncBlock "metadata_write_failed")) w
  end.

(** ** Lemmas *)

(** The other components' writes leave the agents' rows alone. *)
Definition agents_of (w : World) : option (bool * gmap string AgentRow) :=
  (fun s => (available s, agent_state s)) <$> metadata w.

Lemma with_metadata_agents f w :
  (forall t s, agent_state (snd (f t s)) = agent_state s
               /\ available (snd (f t s)) = available s) ->
  agents_of (run_state (with_metadata f) w) = agents_of w
  /\ now (run_state (with_metadata f) w) = now w.
Proof.
  intros Hf. unfold run_state, with_metadata, agents_of.
  destruct (metadata w) as [s|] eqn:Hs; [|by simpl; rewrite Hs].
  pose proof (Hf (now w) s) as [Ha Hv]. destruct (f (now w) s) as [r s']. simpl in *.
  by rewrite Ha, Hv.
Qed.

Lemma withTx_keeps fn s :
  (forall s', fn s = Ok s' -> agent_state s' = agent_state s /\ available s' = available s) ->
  agent_state (snd (withTx fn s)) = agent_state s
  /\ available (snd (withTx fn s)) = available s.
Proof.
  intros H. unfold withTx. destruct (available s) eqn:Ha; [|done].
  destruct (fn s) as [s1|] eqn:E; simpl; [by apply H|done].
Qed.

Lemma RecordAlert_agents t sev ev tab st p s :
  agent_state (snd (RecordAlert t sev ev tab st p s)) = agent_state s
  /\ available (snd (RecordAlert t sev ev tab st p s)) = available s.
Proof. apply withTx_keeps. by intros s' [= <-]. Qed.

(** [keeps_agents]: what alerts and metrics do to the agents' rows: nothing. *)
Definition keeps_agents (w w' : World) : Prop :=
  agents_of w' = agents_of w /\ now w' = now w.

Lemma Emit_agents sink p w : keeps_agents w (run_state (Emit sink p) w).
Proof.
  unfold Emit, keeps_agents. destruct sink as [webhook|]; [|done].
  set (q := if String.eqb (payload_Timestamp p) ""
            then stamp (Format_RFC3339Nano (now w)) p else p).
  pose proof (fun st w => with_metadata_agents (fun now =>
    RecordAlert now (Severity q) (EventType q) (payload_Table q) st (enc_alert q)) w
    (fun t s => RecordAlert_agents t _ _ _ _ _ s)) as Hm.
  unfold run_state, mbind, st_bind, gets, when, upd_metrics, modify. simpl. fold q.
  set (status := webhook_status webhook q (now w)).
  destruct (negb (String.eqb webhook "")); cbn [mret st_ret fst snd].
  all: match goal with
  | |- context [with_metadata ?f ?w0] =>
      specialize (Hm status w0); unfold run_state in Hm;
      destruct (with_metadata f w0) as [r w1]; simpl in Hm
  end.
  all: by destruct (negb (is_ok r)).
Qed.

Lemma recordRiskAttempt_agents cfg agentID analysis reason w store :
  metadata w = Some store -> RiskLevel analysis <> RiskSafe ->
  available store = true ->
  let w' := run_state (recordRiskAttempt cfg agentID analysis reason) w in
  let st := fst (next_state (policy cfg) (now w) agentID (Table analysis) reason
                   (GetAgentState agentID store)) in
  now w' = now w
  /\ exists store', metadata w' = Some store' /\ available store' = true
       /\ agent_state store' = agent_state (snd (SaveAgentState st store)).
Proof.
  intros Hm Hr%String.eqb_neq Ha. unfold recordRiskAttempt, run_state. rewrite Hm, Hr.
  destruct (next_state _ _ _ _ _ _) as [st newq]. cbn [fst].
  unfold mbind, st_bind.
  assert (exists w1, when newq
    (upd_metrics IncAgentQuarantine;;
     emitAlert cfg "critical" "agent_quarantined" agentID analysis "" "" ""
       "Inspect agent behavior and deny similar destructive retries."
       "Agent quarantined after repeated risky attempts.") w = (tt, w1)
    /\ keeps_agents w w1) as (w1 & Hw1 & Hk).
  { destruct newq; simpl; [|by eexists]. unfold mbind, st_bind, upd_metrics, modify.
    pose proof (Emit_agents (alert_webhook cfg)) as He. unfold emitAlert.
    match goal with |- context [Emit ?a ?p ?w0] =>
      specialize (He p w0); unfold run_state in He; destruct (Emit a p w0) as [[] w1] end.
    exists w1. split; [done|]. exact He. }
  unfold mbind, st_bind in Hw1. rewrite Hw1. destruct Hk as [Hk Hn].
  unfold agents_of in Hk. rewrite Hm in Hk.
  destruct (metadata w1) as [store1|] eqn:Hm1; [|done]. simpl in Hk.
  unfold with_metadata. rewrite Hm1. injection Hk as Hav Has.
  unfold SaveAgentState, withTx. rewrite Hav, Ha. simpl. split; [done|].
  eexists. split; [done|]. split; [by simpl; rewrite Hav|]. by simpl; rewrite Has.
Qed.

(** The attempts of one agent at given times. *)
Definition attempt_at (cfg : Config) (agentID : string) (analysis : sqlAnalysis)
    (reason : string) (t : time) : ST World unit :=
  modify (set_now t);; recordRiskAttempt cfg agentID analysis reason.

Definition attempts_at (cfg : Config) (agentID : string) (analysis : sqlAnalysis)
    (reason : string) (ts : list time) : ST World unit :=
  for_range ts (attempt_at cfg agentID analysis reason).

Lemma for_range_snoc {S A} (xs : list A) x (body : A -> ST S unit) s :
  run_state (for_range (xs ++ [x]) body) s =
  run_state (body x) (run_state (for_range xs body) s).
Proof.
  revert s. induction xs as [|y xs IH]; intros s; simpl.
  - change (run_state (mret tt) s) with s.
    unfold run_state, mbind, st_bind. by destruct (body x s) as [[] s'].
  - unfold run_state in *. unfold mbind, st_bind. destruct (body y s) as [[] s']. apply IH.
Qed.

(** The stored state after the attempts [ts] of a window that starts at [t0]. *)
Definition expected_state (p : GatewayPolicy) (agentID table reason : string) (t0 : time)
    (ts : list time) : AgentState := {|
  AgentID := agentID; RiskyAttempts := Z.of_nat (length ts); WindowStartedAt := t0;
  QuarantineUntil :=
    if MaxBlockedAttemptsPerWindow p <=? Z.of_nat (length ts)
    then Some (Add (List.last ts t0) (seconds (QuarantineDurationSeconds p))) else None;
  LastReason := reason; LastTable := table |}.

Lemma GetAgentState_of_rows aid s s' :
  available s' = true -> available s = true -> agent_state s' = agent_state s ->
  GetAgentState aid s' = GetAgentState aid s.
Proof. intros H1 H2 H3. unfold GetAgentState. by rewrite H1, H2, H3. Qed.

Lemma GetAgentState_saved st s :
  available s = true ->
  0 <= WindowStartedAt st < year_9999_end ->
  (forall q, QuarantineUntil st = Some q -> 0 <= q < year_9999_end) ->
  GetAgentState (AgentID st) (snd (SaveAgentState st s)) = Some st.
Proof.
  intros Ha Hw Hq. apply (saved_state_reads st s); [done..|].
  unfold SaveAgentState, withTx. by rewrite Ha.
Qed.

(** A window of attempts: each at most the window after the first, at times whose
    quarantine still has a four-digit year. *)
Record in_window (p : GatewayPolicy) (t0 : time) (ts : list time) : Prop := {
  win_start : 0 <= t0 < year_9999_end;
  win_times : forall t, t ∈ ts ->
    t0 <= t /\ t - t0 <= seconds (DangerousRetryWindowSeconds p)
    /\ 0 <= t + seconds (QuarantineDurationSeconds p) < year_9999_end;
  win_count : Z.of_nat (length ts) <= int64_max;
}.

Lemma next_state_in_window p t0 ts t agentID table reason :
  in_window p t0 (ts ++ [t]) ->
  (ts = [] -> t = t0) ->
  fst (next_state p t agentID table reason
         (if decide (ts = []) then None
          else Some (expected_state p agentID table reason t0 ts)))
  = expected_state p agentID table reason t0 (ts ++ [t]).
Proof.
  intros [Hs Ht Hc] Hfirst. rewrite length_app in Hc. simpl in Hc.
  destruct (Ht t ltac:(set_solver)) as (H1 & H2 & H3).
  pose proof (wrap64_range (DangerousRetryWindowSeconds p * Second)) as Hr.
  unfold seconds in H2. unfold int64_range in Hr.
  assert (Sub t t0 = t - t0) as Hsub
    by (unfold Sub; apply sat64_id; unfold int64_range, int64_min in *; lia).
  assert (wrap64 (Z.of_nat (length ts) + 1) = Z.of_nat (length (ts ++ [t]))) as Hw.
  { rewrite length_app. simpl. rewrite wrap64_id; [lia|].
    unfold int64_range, int64_min in *. lia. }
  unfold next_state, expected_state. rewrite last_last, <- Hw. clear Hw.
  destruct (decide (ts = [])) as [->|Hne].
  - rewrite (Hfirst eq_refl). simpl. by destruct (_ <=? _).
  - cbn [WindowStartedAt]. unfold seconds. rewrite Hsub.
    assert (wrap64 (DangerousRetryWindowSeconds p * Second) <? t - t0 = false) as ->
      by (apply Z.ltb_ge; lia).
    cbn [RiskyAttempts AgentID WindowStartedAt QuarantineUntil].
    pose proof (wrap64_id (Z.of_nat (length ts) + 1)) as Hw.
    rewrite Hw by (unfold int64_range, int64_min in *; lia).
    destruct (Z.leb_spec (MaxBlockedAttemptsPerWindow p) (Z.of_nat (length ts) + 1)); [done|].
    simpl. f_equal. destruct (Z.leb_spec (MaxBlockedAttemptsPerWindow p) (Z.of_nat (length ts)));
      [lia|done].
Qed.

(** At [t0] the agent has no state, or one whose window is over. *)
Definition no_window (p : GatewayPolicy) (agentID : string) (t0 : time) (s : MetadataStore) : Prop :=
  forall st, GetAgentState agentID s = Some st ->
    seconds (DangerousRetryWindowSeconds p) < Sub t0 (WindowStartedAt st).

Lemma next_state_no_window p agentID t0 s table reason :
  no_window p agentID t0 s ->
  next_state p t0 agentID table reason (GetAgentState agentID s)
    = next_state p t0 agentID table reason None.
Proof.
  intros H. unfold next_state. destruct (GetAgentState agentID s) as [st|] eqn:Hg; [|done].
  specialize (H st Hg). apply Z.ltb_lt in H. by rewrite H.
Qed.

Lemma attempts_state cfg agentID analysis reason t0 ts w store :
  metadata w = Some store -> available store = true ->
  RiskLevel analysis <> RiskSafe ->
  no_window (policy cfg) agentID t0 store ->
  in_window (policy cfg) t0 ts -> (forall t rest, ts = t :: rest -> t = t0) -> ts <> [] ->
  exists store',
    metadata (run_state (attempts_at cfg agentID analysis reason ts) w) = Some store'
    /\ available store' = true
    /\ GetAgentState agentID store' =
         Some (expected_state (policy cfg) agentID (Table analysis) reason t0 ts).
Proof.
  intros Hm Ha Hr Hnone. unfold attempts_at.
  induction ts as [|t ts IH] using rev_ind; [done|]. intros Hwin Hfirst _.
  rewrite for_range_snoc.
  assert (in_window (policy cfg) t0 ts) as Hwin'.
  { destruct Hwin as [H1 H2 H3]. split; [done| |].
    - intros t' Ht'. apply H2. set_solver.
    - rewrite length_app in H3. lia. }
  set (w1 := run_state (for_range ts (attempt_at cfg agentID analysis reason)) w).
  assert (exists store1, metadata w1 = Some store1 /\ available store1 = true
    /\ next_state (policy cfg) t agentID (Table analysis) reason (GetAgentState agentID store1) =
       next_state (policy cfg) t agentID (Table analysis) reason
         (if decide (ts = []) then None
          else Some (expected_state (policy cfg) agentID (Table analysis) reason t0 ts)))
    as (store1 & Hm1 & Ha1 & Hg1).
  { destruct (decide (ts = [])) as [->|Hne].
    - exists store. split; [done|]. split; [done|]. rewrite (Hfirst t []) by done.
      by apply next_state_no_window.
    - destruct IH as (store1 & ? & ? & Hg); [done| |done|].
      { intros t' rest ->. by apply (Hfirst t' (rest ++ [t])). }
      exists store1. by rewrite Hg. }
  unfold attempt_at.
  assert (run_state (modify (set_now t);; recordRiskAttempt cfg agentID analysis reason) w1
    = run_state (recordRiskAttempt cfg agentID analysis reason) (set_now t w1)) as -> by done.
  destruct (recordRiskAttempt_agents cfg agentID analysis reason (set_now t w1) store1
    Hm1 Hr Ha1) as (_ & store' & Hm' & Ha' & Hrows).
  exists store'. split; [exact Hm'|]. split; [done|].
  cbn [now set_now] in Hrows. rewrite Hg1 in Hrows.
  rewrite next_state_in_window in Hrows by (try done; intros ->; by apply (Hfirst t [])).
  set (st := expected_state _ _ _ _ _ (ts ++ [t])) in *.
  rewrite (GetAgentState_of_rows _ (snd (SaveAgentState st store1))); [| done | |done].
  - apply (GetAgentState_saved st); [done| |].
    + apply Hwin.
    + unfold st, expected_state. cbn [QuarantineUntil]. intros q.
      destruct (_ <=? _); [|done]. intros [= <-].
      rewrite last_last. apply (win_times _ _ _ Hwin). set_solver.
  - unfold SaveAgentState, withTx. by rewrite Ha1.
Qed.
End behavior.

(** ** Properties *)
Section properties.
Context `{pg : Postgres, env : GatewayEnv}.

(** C36. Quarantine.  An agent with no retry window open, so without a stored state or
    with one whose window is over, that makes [n] risky attempts within one window is
    quarantined exactly when [n] reaches the policy's limit, until the quarantine
    duration after the last attempt, for as long as no further attempt of its own is
    stored: queries that are not SAFE are then blocked, and SAFE ones when the policy
    says so, whatever else happens to the gateway. *)
Theorem quarantine_after_attempts cfg agentID analysis reason t0 rest w store :
  metadata w = Some store -> available store = true ->
  RiskLevel analysis <> RiskSafe -> no_window (policy cfg) agentID t0 store ->
  in_window (policy cfg) t0 (t0 :: rest) ->
  let w' := run_state (attempts_at cfg agentID analysis reason (t0 :: rest)) w in
  let until := Add (List.last (t0 :: rest) t0) (seconds (QuarantineDurationSeconds (policy cfg))) in
  forall later a,
    metadata later ≫= GetAgentState agentID = metadata w' ≫= GetAgentState agentID ->
    agentQuarantined cfg agentID a later =
      (MaxBlockedAttemptsPerWindow (policy cfg) <=? Z.of_nat (length (t0 :: rest)))
      && (now later <=? until)
      && (QuarantineBlocksSafeQueries (policy cfg) || negb (String.eqb (RiskLevel a) RiskSafe)).
Proof.
  intros Hm Ha Hr Hnone Hwin w' until later a.
  destruct (attempts_state cfg agentID analysis reason t0 (t0 :: rest) w store
    Hm Ha Hr Hnone Hwin) as (store' & Hm' & Ha' & Hg); [by intros ? ? [= <- _]|done|].
  fold w' in Hm'. rewrite Hm'. cbn [mbind option_bind]. rewrite Hg. unfold agentQuarantined.
  destruct (metadata later) as [store2|]; [|done]. cbn [mbind option_bind]. intros ->.
  unfold expected_state. cbn [QuarantineUntil].
  destruct (_ <=? Z.of_nat _); [|done]. fold until. unfold After.
  destruct (Z.ltb_spec until (now later)), (Z.leb_spec (now later) until); simpl; try lia; done.
Qed.

(** C40. A risky attempt after the retry window has passed starts a new state,
    and an active quarantine goes with the old one: when the limit is above one
    attempt, the agent is no longer quarantined although its quarantine has not
    ended. *)
Theorem late_attempt_lifts_quarantine cfg agentID analysis reason w store st until :
  metadata w = Some store -> available store = true ->
  RiskLevel analysis <> RiskSafe -> 0 <= now w < year_9999_end ->
  GetAgentState agentID store = Some st -> QuarantineUntil st = Some until ->
  now w <= until ->
  seconds (DangerousRetryWindowSeconds (policy cfg)) < Sub (now w) (WindowStartedAt st) ->
  1 < MaxBlockedAttemptsPerWindow (policy cfg) ->
  agentQuarantined cfg agentID analysis w = true
  /\ agentQuarantined cfg agentID analysis
       (run_state (recordRiskAttempt cfg agentID analysis reason) w) = false.
Proof.
  intros Hm Ha Hr Hnow Hg Hq Hu Hwin Hmax. split.
  - unfold agentQuarantined. rewrite Hm, Hg, Hq. unfold After.
    assert (until <? now w = false) as -> by (apply Z.ltb_ge; lia).
    apply String.eqb_neq in Hr as ->. apply orb_true_r.
  - destruct (recordRiskAttempt_agents cfg agentID analysis reason w store Hm Hr Ha)
      as (Hn & store' & Hm' & Ha' & Hrows).
    unfold agentQuarantined. rewrite Hm'.
    unfold next_state in Hrows. rewrite Hg in Hrows.
    assert (seconds (DangerousRetryWindowSeconds (policy cfg))
            <? Sub (now w) (WindowStartedAt st) = true) as Hlt by (by apply Z.ltb_lt).
    rewrite Hlt in Hrows.
    cbn [RiskyAttempts fresh_state AgentID WindowStartedAt QuarantineUntil] in Hrows.
    assert (MaxBlockedAttemptsPerWindow (policy cfg) <=? wrap64 (0 + 1) = false) as Hge
      by (apply Z.leb_gt; rewrite wrap64_id; [lia|unfold int64_range, int64_min, int64_max; lia]).
    rewrite Hge in Hrows. cbn [fst] in Hrows.
    set (st1 := {| AgentID := agentID; RiskyAttempts := _; WindowStartedAt := _;
      QuarantineUntil := _; LastReason := _; LastTable := _ |}) in Hrows.
    rewrite (GetAgentState_of_rows _ (snd (SaveAgentState st1 store))); [|done| |done].
    + rewrite (GetAgentState_saved st1) by done. done.
    + unfold SaveAgentState, withTx. by rewrite Ha.
Qed.
End properties.

Section witnesses.
#[local] Existing Instances null_postgres offline_env.

Definition drop_analysis : sqlAnalysis :=
  criticalAnalysis "DROP TABLE" "" "users" true "DROP TABLE destroys a table".

(** An agent quarantined until 1800 s whose window started at 0 s. *)
Definition quarantined_state : AgentState := {|
  AgentID := "agent"; RiskyAttempts := 3; WindowStartedAt := 0;
  QuarantineUntil := Some (seconds 1800); LastReason := "denied"; LastTable := "users" |}.
Definition quarantined_store : MetadataStore :=
  snd (SaveAgentState quarantined_state empty_store).

(** Its window is over after 700 s, and three more attempts open another. *)
Lemma quarantine_after_attempts_witness :
  agentQuarantined local_config "agent" drop_analysis
    (set_now (seconds 709) (run_state (attempts_at local_config "agent" drop_analysis "denied"
                    [seconds 700; seconds 701; seconds 702])
                  (set_metadata (Some quarantined_store) (fresh_world 0)))) = true.
Proof.
  rewrite (quarantine_after_attempts local_config "agent" drop_analysis "denied" (seconds 700)
    [seconds 701; seconds 702] (set_metadata (Some quarantined_store) (fresh_world 0)) quarantined_store);
    [reflexivity|reflexivity|reflexivity|discriminate| | |reflexivity].
  - intros st Hst. vm_compute in Hst. injection Hst as <-. vm_compute. reflexivity.
  - split.
    + vm_compute. split; congruence.
    + intros t Ht.
      repeat (apply elem_of_cons in Ht as [->|Ht]; [split_and!; vm_compute; congruence|]).
      by apply elem_of_nil in Ht.
    + vm_compute. congruence.
Defined.

Lemma late_attempt_lifts_quarantine_witness :
  let w := set_metadata (Some quarantined_store) (fresh_world (seconds 700)) in
  agentQuarantined local_config "agent" drop_analysis w = true
  /\ agentQuarantined local_config "agent" drop_analysis
       (run_state (recordRiskAttempt local_config "agent" drop_analysis "timeout") w) = false.
Proof.
  intros w.
  apply (late_attempt_lifts_quarantine local_config "agent" drop_analysis "timeout" w
    quarantined_store quarantined_state (seconds 1800));
    [reflexivity|reflexivity|discriminate|split; vm_compute; congruence|reflexivity
    |reflexivity|vm_compute; congruence|reflexivity|reflexivity].
Defined.
End witnesses.
