(* ===== verification/Impact.v ===== *)
(** * gateway/impact.go: how much an UPDATE or DELETE would change

    The analysis asks PostgreSQL's planner for an estimate of the affected rows
    and counts the table's rows.  Its statements are recorded as [Probe]s; the
    agent's query itself is only sent behind EXPLAIN. *)
From Stdlib Require Import SpecFloat.
From S2P Require Import Prelude GoString GoFloat Regexp Json JsonText Postgres PgAst SqlAnalyzer Policy.
From S2P Require Import GatewayWorld.
From stdpp Require Import options.

Open Scope Z_scope.

(** ** Names *)
Definition containsFold (values : list string) (target : string) : bool :=
  existsb (fun value => EqualFold value target) values.

Definition quoteIdent (identifier : string) : string :=
  str1 dquote +:+ ReplaceAll identifier dquote (String dquote (str1 dquote)) +:+ str1 dquote.

Definition quoteQualified (schema table : string) : string :=
  if String.eqb (TrimSpace schema) "" then quoteIdent table
  else quoteIdent schema +:+ "." +:+ quoteIdent table.

(** ** Columns an UPDATE assigns *)

(** The pattern: the word set, at least one byte, up to the word where or the
    end of the text; letters in either case. *)
Definition set_clause : re :=
  Seq WordB (word lit_fold "set" (Seq WordB
    (Seq (Group (LazyPlus any_byte))
      (Alt (Seq WordB (word lit_fold "where" WordB)) EndText)))).

(** The column of an assignment: what stands before its first equals sign. *)
Definition assigned_column (assignment : string) : string :=
  Trim (TrimSpace (fst (SplitN2 assignment "="))) dquote.

Definition protectedUpdatedColumns (query : string) (protected : list string) : list string :=
  match protected with
  | [] => []
  | _ =>
      match FindStringSubmatch set_clause query with
      | Some [assignments] =>
          filter (fun name => containsFold protected name)
            (map assigned_column (Split assignments ","))
      | _ => []
      end
  end.

(** ** The plan's estimate *)

(** int64 of a float64: truncation toward zero.  Outside the int64 range Go's
    conversion depends on the machine; on amd64 it yields the least int64. *)
Definition int64_of_float (f : float64) : Z :=
  match f with
  | S754_zero _ => 0
  | S754_finite s m e =>
      let a := if 0 <=? e then Z.pos m * 2 ^ e else Z.pos m / 2 ^ (- e) in
      let z := if s then - a else a in
      if (int64_min <=? z) && (z <=? int64_max) then z else int64_min
  | _ => int64_min
  end.

(** The first result of a search through a list, and the alternative chain of
    the map case. *)
Fixpoint firstPlanRows (value : any) : option Z :=
  match value with
  | AnyList items =>
      (fix first (items : list any) : option Z :=
         match items with
         | [] => None
         | item :: items =>
             match firstPlanRows item with
             | Some rows => Some rows
             | None => first items
             end
         end) items
  | AnyMap entries =>
      match any_get "Plan Rows" entries with
      | Some (AnyFloat raw) => Some (int64_of_float raw)
      | _ =>
          (* the estimate of the last entry with the key, as any_get finds it *)
          let under (key : string) :=
            (fix get (entries : list (string * any)) : option (option Z) :=
               match entries with
               | [] => None
               | (k, v) :: entries =>
                   match get entries with
                   | Some r => Some r
                   | None => if String.eqb k key then Some (firstPlanRows v) else None
                   end
               end) entries in
          match under "Plan" with
          | Some (Some rows) => Some rows
          | _ =>
              match under "Plans" with
              | Some (Some rows) => Some rows
              | _ => None
              end
          end
      end
  | _ => None
  end.

Section impact.
Context `{pg : Postgres, env : GatewayEnv}.

(** A statement of the analysis: recorded, then run. *)
Definition probe (conn : option string) (sql : string) : ST World (result sqlRows) := fun w =>
  let w := set_statements (statements w ++ [Probe conn sql]) w in
  let (r, db) := QueryContext conn sql (database w) in
  (r, set_database db w).

Definition estimateAffectedRowsWithExplain (conn : option string) (query : string)
    : ST World (result Z) :=
  rows ← probe conn ("EXPLAIN (FORMAT JSON) " +:+ TrimSpace query);
  mret (
    rows ← rows;
    match Rows rows with
    | [] => Err "EXPLAIN returned no rows"
    | row :: _ =>
        raw ← scan_one scan_string row;
        match json_document raw with
        | None => Err "invalid JSON"
        | Some payload =>
            match firstPlanRows (to_any payload) with
            | Some estimate => Ok estimate
            | None => Err "EXPLAIN plan did not include row estimate"
            end
        end
    end).

Definition unknownImpact (cfg : Config) (reason : string) : ImpactAnalysis := {|
  Status := "unknown"; ImpactReason := reason; EstimatedAffectedRows := 0;
  EstimatedTableRows := 0; AffectedPercent := f64 0; ProtectedTable := false;
  ProtectedColumns := [];
  ImpactCritical :=
    EqualFold (UnknownImpactAction (policy cfg)) PolicyActionBlock
    || EqualFold (UnknownImpactAction (policy cfg)) PolicyActionApprove |}.

Definition application_name : string := "backstop-gateway".

(** The connection a query uses: the gateway's own ([None]) or the agent's. *)
Definition openQueryDB (cfg : Config) (dbURL : string) : result (option string) :=
  if has_db cfg then Ok None
  else if String.eqb (TrimSpace dbURL) "" then
    Err "impact analysis requires gateway --db or db_url"
  else
    let url := ensurePostgresApplicationName dbURL application_name in
    sql_Open url ;;
    mret (Some url).

Definition protected_columns_of (cfg : Config) (table : string) : list string :=
  match policy_ProtectedColumns (policy cfg) with
  | Some m => default [] (m !! table)
  | None => []
  end.

(** The impact of [affected] rows of a table of [total]. *)
Definition estimated_impact (cfg : Config) (affected total : Z) : ImpactAnalysis :=
  let percent := if 0 <? total then fmul (fdiv (f64 affected) (f64 total)) (f64 100) else f64 0 in
  let critical :=
    (MaxWriteRowsWithoutCritical (policy cfg) <? affected)
    || fgtb percent (MaxWritePercentWithoutCritical (policy cfg)) in
  {| Status := "estimated";
     ImpactReason :=
       if critical then "write impact exceeds configured thresholds"
       else "write impact is below configured critical thresholds";
     EstimatedAffectedRows := affected; EstimatedTableRows := total;
     AffectedPercent := percent; ProtectedTable := false; ProtectedColumns := [];
     ImpactCritical := critical |}.

Definition analyzeImpact (cfg : Config) (query dbURL : string) (analysis : sqlAnalysis)
    : ST World (option ImpactAnalysis) :=
  if negb (ImpactAnalysisEnabled (policy cfg))
     || (negb (String.eqb (Operation analysis) "DELETE")
         && negb (String.eqb (Operation analysis) "UPDATE")) then mret None
  else
    let table := TrimSpace (Table analysis) in
    if String.eqb table "" || String.eqb (TrimSpace query) "" then
      mret (Some (unknownImpact cfg "impact analysis requires a single target table"))
    else
      let protectedTable := containsFold (ProtectedTables (policy cfg)) table in
      let protectedColumns :=
        if String.eqb (Operation analysis) "UPDATE" then
          protectedUpdatedColumns query (protected_columns_of cfg table)
        else [] in
      if protectedTable || negb (Nat.eqb (length protectedColumns) 0) then
        mret (Some {|
          Status := "protected_object";
          ImpactReason := "write touches protected table or column";
          EstimatedAffectedRows := 0; EstimatedTableRows := 0; AffectedPercent := f64 0;
          ProtectedTable := protectedTable; ProtectedColumns := protectedColumns;
          ImpactCritical := true |})
      else if negb (StatementCount analysis =? 1) then
        mret (Some (unknownImpact cfg "impact analysis requires exactly one SQL statement"))
      else
        match openQueryDB cfg dbURL with
        | Err e => mret (Some (unknownImpact cfg e))
        | Ok conn =>
            estimated ← estimateAffectedRowsWithExplain conn query;
            match estimated with
            | Err e => mret (Some (unknownImpact cfg ("affected row estimate failed: " +:+ e)))
            | Ok affected =>
                counted ← probe conn ("SELECT count(*) FROM "
                            +:+ quoteQualified (Schema analysis) table);
                match row_scan scan_int64 counted with
                | Err e => mret (Some (unknownImpact cfg ("table row count failed: " +:+ e)))
                | Ok total => mret (Some (estimated_impact cfg affected total))
                end
            end
        end.
End impact.

(** [applyImpactAnalysis] of mcp_server.go. *)
Definition applyImpactAnalysis (analysis : sqlAnalysis) (impact : option ImpactAnalysis)
    : sqlAnalysis :=
  let critical := match impact with Some i => ImpactCritical i | None => false end in
  {| RiskLevel := if critical then RiskImpactCritical else RiskLevel analysis;
     Operation := Operation analysis; Table := Table analysis; Schema := Schema analysis;
     StatementCount := StatementCount analysis;
     TableRecoverable :=
       if critical && negb (String.eqb (TrimSpace (Table analysis)) "") then true
       else TableRecoverable analysis;
     Reason :=
       match impact with
       | Some i => if ImpactCritical i then ImpactReason i else Reason analysis
       | None => Reason analysis
       end;
     ParseError := ParseError analysis; Impact := impact |}.

(** ** Quoted identifiers

    [read_ident] reads a quoted identifier as PostgreSQL's lexer does: up to the
    next quote that is not doubled. *)
Fixpoint read_quoted (s : string) : option (string * string) :=
  match s with
  | EmptyString => None
  | String c s =>
      if Ascii.eqb c dquote then
        match s with
        | String c' s' =>
            if Ascii.eqb c' dquote then
              '(name, rest) ← read_quoted s'; Some (String dquote name, rest)
            else Some (EmptyString, s)
        | EmptyString => Some (EmptyString, EmptyString)
        end
      else '(name, rest) ← read_quoted s; Some (String c name, rest)
  end.

Definition read_ident (s : string) : option (string * string) :=
  match s with
  | String c s => if Ascii.eqb c dquote then read_quoted s else None
  | EmptyString => None
  end.

Definition starts_with (c : ascii) (s : string) : bool :=
  match s with String a _ => Ascii.eqb a c | EmptyString => false end.

Lemma read_quoted_spec s rest :
  starts_with dquote rest = false ->
  read_quoted (ReplaceAll s dquote (String dquote (str1 dquote)) +:+ String dquote rest)
  = Some (s, rest).
Proof.
  intros Hrest. induction s as [|c s IH].
  - cbn [ReplaceAll]. rewrite append_nil_l. cbn [read_quoted]. rewrite Ascii.eqb_refl.
    destruct rest as [|a rest]; [done|]. cbn [starts_with] in Hrest. by rewrite Hrest.
  - cbn [ReplaceAll]. destruct (Ascii.eqb_spec c dquote) as [->|Hc].
    + change (String dquote (str1 dquote)) with (String dquote (String dquote EmptyString)) at 1.
      rewrite !append_cons, append_nil_l. cbn [read_quoted]. rewrite !Ascii.eqb_refl.
      by rewrite IH.
    + rewrite append_cons. cbn [read_quoted]. apply Ascii.eqb_neq in Hc. rewrite Hc.
      by rewrite IH.
Qed.

(** ** Lemmas *)
Lemma applyImpactAnalysis_level a i :
  RiskLevel (applyImpactAnalysis a i) =
    if match i with Some i => ImpactCritical i | None => false end
    then RiskImpactCritical else RiskLevel a.
Proof. by destruct i. Qed.

(** ** Properties *)

(** A quoted identifier is read back by PostgreSQL's rules as the same
    identifier, whatever characters it holds: the counting query the analysis
    builds names exactly the analysed table. *)
Theorem quoteIdent_read_back identifier rest :
  starts_with dquote rest = false ->
  read_ident (quoteIdent identifier +:+ rest) = Some (identifier, rest).
Proof.
  intros Hrest. unfold quoteIdent. rewrite !append_assoc. unfold str1 at 1.
  rewrite append_cons, append_nil_l. cbn [read_ident]. rewrite Ascii.eqb_refl.
  unfold str1 at 2. rewrite append_cons, append_nil_l. by apply read_quoted_spec.
Qed.

Lemma quoteIdent_read_back_witness :
  read_ident (quoteIdent (String "a" (String dquote "; DROP TABLE b")) +:+ ".t")
  = Some (String "a" (String dquote "; DROP TABLE b"), ".t").
Proof. apply quoteIdent_read_back. reflexivity. Defined.

(** Applying an impact never lowers the risk of a query, keeps what it
    targets, and marks a query whose impact is critical as IMPACT_CRITICAL with
    the impact's reason. *)
Theorem applyImpactAnalysis_raises a i :
  riskRank (RiskLevel a) <= riskRank (RiskLevel (applyImpactAnalysis a i))
  /\ Operation (applyImpactAnalysis a i) = Operation a
  /\ Table (applyImpactAnalysis a i) = Table a
  /\ (RiskLevel (applyImpactAnalysis a i) <> RiskLevel a ->
       exists impact, i = Some impact /\ ImpactCritical impact = true
         /\ RiskLevel (applyImpactAnalysis a i) = RiskImpactCritical
         /\ Reason (applyImpactAnalysis a i) = ImpactReason impact).
Proof.
  rewrite applyImpactAnalysis_level. unfold applyImpactAnalysis.
  destruct i as [impact|]; simpl; [|split; [lia|done]].
  destruct (ImpactCritical impact) eqn:Hc; simpl.
  - split; [change (riskRank RiskImpactCritical) with 3; pose proof (riskRank_range (RiskLevel a)); lia|].
    split; [done|]. split; [done|]. intros _. by exists impact.
  - split; [lia|done].
Qed.

(** The impact analysis undoes a block: two statements that delete all rows
    of two different tables are blocked by the default policy, since no single
    table recovers them, but the analysis of the same query with the impact that
    is reported for more than one statement counts as recoverable and is sent to
    approval. *)
Theorem impact_lifts_block Parse query t1 t2 impact :
  TrimSpace query <> "" ->
  Parse query = Ok [delete_all {| Schemaname := ""; Relname := t1 |};
                    delete_all {| Schemaname := ""; Relname := t2 |}] ->
  t1 <> t2 -> TrimSpace t1 <> "" -> TrimSpace t2 <> "" ->
  ImpactCritical impact = true ->
  let a := analyzeSQL Parse query in
  Action (Decide DefaultGatewayPolicy a) = PolicyActionBlock
  /\ (TrimSpace (Table a) <> "" ->
       Action (Decide DefaultGatewayPolicy (applyImpactAnalysis a (Some impact)))
         = PolicyActionApprove).
Proof.
  intros Hq%String.eqb_neq Hp Hne Ht1 Ht2 Himp. unfold analyzeSQL. rewrite Hq, Hp.
  set (stmts := [_; _]). set (r := analyzeStatements stmts).
  assert (forall t, critical_stmt (delete_all {| Schemaname := ""; Relname := t |}) = true)
    as Hcrit by done.
  assert (RiskLevel r = RiskCritical) as Hl
    by (apply critical_member; eexists; split; [by left|done]).
  assert (recovery_possible r = false) as Hrec.
  { apply not_true_iff_false. intros (t & _ & Hall)%recovery_possible_iff; [|done].
    pose proof (Hall _ ltac:(by left) (Hcrit t1)) as H1.
    pose proof (Hall _ ltac:(by right; left) (Hcrit t2)) as H2.
    apply recovers_iff in H1 as [_ H1], H2 as [_ H2]. simpl in *. congruence. }
  split.
  - unfold r. rewrite default_decision. fold r. by rewrite Hl, Hrec.
  - intros Htab. rewrite Decide_action.
    assert (Operation r = "DELETE") as Hop.
    { unfold r. rewrite analyzeStatements_operation_result. simpl.
      rewrite !analyze_step_result. reflexivity. }
    fold r. unfold applyImpactAnalysis, recovery_possible. cbn [Operation RiskLevel Table
      TableRecoverable]. rewrite Hop, Himp.
    apply String.eqb_neq in Htab. fold r in Htab. rewrite Htab. done.
Qed.

Lemma impact_lifts_block_witness :
  let Parse (_ : string) : result (list (option Node)) :=
    Ok [delete_all {| Schemaname := ""; Relname := "orders" |};
        delete_all {| Schemaname := ""; Relname := "users" |}] in
  let impact := unknownImpact local_config
    "impact analysis requires exactly one SQL statement" in
  let a := analyzeSQL Parse "q" in
  Action (Decide DefaultGatewayPolicy a) = PolicyActionBlock
  /\ (TrimSpace (Table a) <> "" ->
       Action (Decide DefaultGatewayPolicy (applyImpactAnalysis a (Some impact)))
         = PolicyActionApprove).
Proof.
  intros Parse impact.
  apply (impact_lifts_block Parse "q" "orders" "users" impact);
    [vm_compute; discriminate|reflexivity|discriminate|vm_compute; discriminate
    |vm_compute; discriminate|reflexivity].
Defined.
