(* ===== verification/SnapshotVerifier.v ===== *)
(** * gateway/snapshot_verifier.go: the latest snapshot of a table

    The verifier lists a table's manifests in the object store, keeps the valid
    one with the latest timestamp, quarantines the unreadable ones in the
    metadata database, and compares the data object with the manifest's hash. *)
From S2P Require Import Prelude GoString GoTime Json JsonText Sha256 Postgres Manifest GatewayMetadata.
From S2P Require Import GatewayWorld.
From stdpp Require Import options.

Open Scope Z_scope.

(** [safeTableKey]: every character outside A-Z, a-z, 0-9, underscore, dot and
    dash becomes an underscore; [skip] counts the bytes left of a character that
    was replaced. *)
Definition key_byte (c : ascii) : bool :=
  is_upper c || is_lower c || is_digit c || Ascii.eqb c "_" || Ascii.eqb c "."
  || Ascii.eqb c "-".
Fixpoint table_key (skip : nat) (s : string) : string :=
  match s with
  | EmptyString => EmptyString
  | String c s =>
      match skip with
      | S skip => table_key skip s
      | O =>
          if key_byte c then String c (table_key O s)
          else String "_" (table_key (rune_width c s - 1) s)
      end
  end.
Definition safeTableKey (table : string) : string := table_key O table.

(** The last path element that starts with snap_. *)
Definition snapshotIDFromManifestKey (key : string) : string :=
  default "" (head (filter (fun part => HasPrefix part "snap_")
                      (reverse (Split (Trim key "/") "/")))).

Definition manifest_suffix : string := "/manifest.json".

Section verifier.
Context `{pg : Postgres, env : GatewayEnv}.

(** [S3SnapshotVerifier]: the bucket is the world's; [has_metadata] tells whether
    [SetMetadataStore] was called with the gateway's store. *)
Record S3SnapshotVerifier := { v_Prefix : string; has_metadata : bool }.

Definition quarantineManifest (v : S3SnapshotVerifier) (key table snapshotID reason : string)
    : ST World unit := fun w =>
  if negb (has_metadata v) then (tt, w)
  else
    match metadata w with
    | None => (tt, w)
    | Some _ =>
        let snapshotID :=
          if String.eqb snapshotID "" then snapshotIDFromManifestKey key else snapshotID in
        (r ← with_metadata (fun now => QuarantineManifest now snapshotID table key reason);
         if is_ok r then mret tt
         else
           with_metadata (fun now =>
             RecordAlert now "critical" "manifest_quarantine_failed" table "failed"
               (json_map [("manifest_key", JString key); ("snapshot_id", JString snapshotID);
                          ("reason", JString reason); ("error", JString (err_text r))]));;
           mret tt) w
    end.

Definition getManifest (w : World) (key : string) : result SnapshotManifest :=
  obj ← GetObject (s3 w) key;
  text ← obj;
  Unmarshal dec_manifest (json_first text) zero_manifest.

(** The loop's variables: the latest manifest and its time. *)
Definition latest_acc : Type := option (SnapshotManifest * time).

(** One key of a page: [Err] is the loop's early return. *)
Definition latest_key (v : S3SnapshotVerifier) (table key : string) (acc : latest_acc)
    : ST World (result latest_acc) :=
  if negb (HasSuffix key manifest_suffix) then mret (Ok acc)
  else
    read ← gets (fun w => getManifest w key);
    match read with
    | Err e =>
        quarantineManifest v key table "" ("manifest read/decode failed: " +:+ e);;
        mret (Ok acc)
    | Ok manifest =>
        if negb (String.eqb (Writer manifest) sidecarWriter)
           || negb (String.eqb (TableName manifest) table) then mret (Ok acc)
        else
          match validateSidecarManifest manifest table with
          | Err e =>
              quarantineManifest v key table (SnapshotID manifest) e;;
              mret (Err e)
          | Ok _ =>
              match parseManifestTime (Timestamp manifest) with
              | Err e =>
                  quarantineManifest v key table (SnapshotID manifest)
                    ("manifest timestamp invalid: " +:+ e);;
                  mret (Ok acc)
              | Ok ts =>
                  mret (Ok (match acc with
                            | None => Some (manifest, ts)
                            | Some (_, latestTime) =>
                                if After ts latestTime then Some (manifest, ts) else acc
                            end))
              end
          end
    end.

Fixpoint latest_keys (v : S3SnapshotVerifier) (table : string) (keys : list string)
    (acc : latest_acc) : ST World (result latest_acc) :=
  match keys with
  | [] => mret (Ok acc)
  | key :: keys =>
      r ← latest_key v table key acc;
      match r with
      | Err e => mret (Err e)
      | Ok acc => latest_keys v table keys acc
      end
  end.

Fixpoint latest_pages (v : S3SnapshotVerifier) (table : string)
    (pages : list (result (list string))) (acc : latest_acc) : ST World (result latest_acc) :=
  match pages with
  | [] => mret (Ok acc)
  | Err e :: _ => mret (Err e)
  | Ok keys :: pages =>
      r ← latest_keys v table keys acc;
      match r with
      | Err e => mret (Err e)
      | Ok acc => latest_pages v table pages acc
      end
  end.

Definition snapshot_prefix (v : S3SnapshotVerifier) (table : string) : string :=
  v_Prefix v +:+ "/snapshots/" +:+ safeTableKey table +:+ "/".

Definition latestSidecarManifest (v : S3SnapshotVerifier) (table : string)
    : ST World (result SnapshotManifest) :=
  pages ← gets (fun w => ListObjectsV2 (s3 w) (snapshot_prefix v table));
  r ← latest_pages v table pages None;
  mret (match r with
        | Err e => Err e
        | Ok None => Err ("no sidecar recovery point found for table " +:+ table)
        | Ok (Some (latest, _)) => Ok latest
        end).

(** The key of the manifest's data object. *)
Definition data_key (manifest : SnapshotManifest) : string :=
  let key := TrimSpace (S3DataKey manifest) in
  if String.eqb key "" && HasSuffix (S3ManifestKey manifest) manifest_suffix then
    TrimSuffix (S3ManifestKey manifest) manifest_suffix +:+ "/data.parquet"
  else key.

Definition verifyDataObject (manifest : SnapshotManifest) (w : World) : result unit :=
  validateSidecarManifest manifest (TableName manifest);;
  let key := data_key manifest in
  if String.eqb key "" then
    Err ("snapshot " +:+ SnapshotID manifest +:+ " does not identify a data object")
  else
    match GetObject (s3 w) key with
    | Err e => Err ("snapshot data object verification failed for " +:+ key +:+ ": " +:+ e)
    | Ok obj =>
        match obj with
        | Err e => Err ("snapshot data object hashing failed for " +:+ key +:+ ": " +:+ e)
        | Ok bytes =>
            let got := sha256_hex bytes in
            if negb (EqualFold got (DataSHA256 manifest)) then
              Err ("snapshot " +:+ SnapshotID manifest +:+ " data sha256 mismatch: got "
                   +:+ got +:+ " want " +:+ DataSHA256 manifest)
            else Ok tt
        end
    end.

Definition S3_LatestSidecarSnapshot (v : S3SnapshotVerifier) (table : string)
    : ST World (result SnapshotManifest) :=
  r ← latestSidecarManifest v table;
  match r with
  | Err e => mret (Err e)
  | Ok latest =>
      verified ← gets (verifyDataObject latest);
      mret (verified;; mret latest)
  end.

Definition S3_VerifyLatestSidecarSnapshot (v : S3SnapshotVerifier) (table snapshotID : string)
    : ST World (result SnapshotManifest) :=
  if String.eqb (TrimSpace snapshotID) "" then mret (Err "snapshot_id is required")
  else
    r ← latestSidecarManifest v table;
    match r with
    | Err e => mret (Err e)
    | Ok latest =>
        if negb (String.eqb (SnapshotID latest) snapshotID) then
          mret (Err ("snapshot_id " +:+ snapshotID
                +:+ " is not latest sidecar snapshot for table " +:+ table
                +:+ "; latest is " +:+ SnapshotID latest))
        else
          verified ← gets (verifyDataObject latest);
          mret (verified;; mret latest)
    end.

(** [NewS3SnapshotVerifier] behind the interface the server uses. *)
Definition S3_verifier (v : S3SnapshotVerifier) : SnapshotVerifier := {|
  VerifyLatestSidecarSnapshot := S3_VerifyLatestSidecarSnapshot v;
  LatestSidecarSnapshot := Some (S3_LatestSidecarSnapshot v) |}.
End verifier.

(** ** The search without its writes

    Quarantining writes metadata only, so the search is a pure function of the
    bucket. *)
Definition own_manifest (table : string) (m : SnapshotManifest) : bool :=
  String.eqb (Writer m) sidecarWriter && String.eqb (TableName m) table.

Definition key_result (table key : string) (read : result SnapshotManifest)
    (acc : latest_acc) : result latest_acc :=
  if negb (HasSuffix key manifest_suffix) then Ok acc
  else
    match read with
    | Err _ => Ok acc
    | Ok m =>
        if negb (own_manifest table m) then Ok acc
        else
          match validateSidecarManifest m table with
          | Err e => Err e
          | Ok _ =>
              match parseManifestTime (Timestamp m) with
              | Err _ => Ok acc
              | Ok ts =>
                  Ok (match acc with
                      | None => Some (m, ts)
                      | Some (_, latestTime) => if After ts latestTime then Some (m, ts) else acc
                      end)
              end
          end
    end.

Fixpoint keys_result (table : string) (read : string -> result SnapshotManifest)
    (keys : list string) (acc : latest_acc) : result latest_acc :=
  match keys with
  | [] => Ok acc
  | key :: keys =>
      acc ← key_result table key (read key) acc;
      keys_result table read keys acc
  end.

(** The keys of a listing, when all its pages arrive. *)
Fixpoint listed (pages : list (result (list string))) : result (list string) :=
  match pages with
  | [] => Ok []
  | page :: pages => keys ← page; rest ← listed pages; mret (keys ++ rest)
  end.

Section pure.
Context `{pg : Postgres, env : GatewayEnv}.

Definition same_s3 (w w' : World) : Prop := s3 w' = s3 w.

Lemma with_metadata_s3 f w : same_s3 w (run_state (with_metadata f) w).
Proof.
  unfold same_s3, run_state, with_metadata. destruct (metadata w) as [s|]; [|done].
  by destruct (f (now w) s).
Qed.

Lemma quarantineManifest_s3 v key table sid reason w :
  same_s3 w (run_state (quarantineManifest v key table sid reason) w).
Proof.
  unfold run_state, quarantineManifest, same_s3.
  destruct (has_metadata v); [|done]. simpl. destruct (metadata w); [|done].
  unfold mbind, st_bind.
  set (f := fun now : time => QuarantineManifest now _ table key reason).
  pose proof (with_metadata_s3 f w) as H1. unfold same_s3, run_state in H1.
  destruct (with_metadata f w) as [r w1]. simpl in H1.
  destruct (is_ok r); [done|].
  set (g := fun now : time => RecordAlert now _ _ table _ _).
  pose proof (with_metadata_s3 g w1) as H2. unfold same_s3, run_state in H2.
  destruct (with_metadata g w1) as [r2 w2]. simpl in *. congruence.
Qed.

Lemma quarantine_then {A} v key table sid reason (r : A) w :
  exists w', (quarantineManifest v key table sid reason;; mret r) w = (r, w') /\ same_s3 w w'.
Proof.
  pose proof (quarantineManifest_s3 v key table sid reason w) as H.
  unfold run_state in H. unfold mbind, st_bind.
  destruct (quarantineManifest v key table sid reason w) as [[] w']. eauto.
Qed.

Lemma latest_key_pure v table key acc w :
  exists w', latest_key v table key acc w = (key_result table key (getManifest w key) acc, w')
    /\ same_s3 w w'.
Proof.
  unfold latest_key, key_result, own_manifest.
  destruct (negb (HasSuffix key manifest_suffix)); [by eexists|].
  rewrite run_bind. unfold run_value, run_state, gets. cbn [fst snd].
  destruct (getManifest w key) as [m|e]; [|apply quarantine_then].
  rewrite negb_andb.
  destruct (negb (String.eqb (Writer m) sidecarWriter) || _); [by eexists|].
  destruct (validateSidecarManifest m table) as [[]|e]; [|apply quarantine_then].
  destruct (parseManifestTime (Timestamp m)) as [ts|e]; [by eexists|apply quarantine_then].
Qed.

Lemma latest_keys_pure v table keys acc w :
  exists w', latest_keys v table keys acc w = (keys_result table (getManifest w) keys acc, w')
    /\ same_s3 w w'.
Proof.
  revert acc w. induction keys as [|key keys IH]; intros acc w; [by eexists|].
  cbn [latest_keys keys_result]. unfold mbind, st_bind, result_bind.
  destruct (latest_key_pure v table key acc w) as (w1 & -> & H1).
  destruct (key_result table key (getManifest w key) acc) as [acc'|e]; [|by eexists].
  destruct (IH acc' w1) as (w2 & -> & H2). exists w2. split; [|by unfold same_s3 in *; congruence].
  f_equal. unfold same_s3 in H1. unfold getManifest. by rewrite H1.
Qed.

Lemma keys_result_app table read ks1 ks2 acc :
  keys_result table read (ks1 ++ ks2) acc =
    (acc ← keys_result table read ks1 acc; keys_result table read ks2 acc).
Proof.
  revert acc. induction ks1 as [|k ks1 IH]; intros acc; [done|]. simpl.
  destruct (key_result table k (read k) acc); [|done]. simpl. apply IH.
Qed.

Lemma latest_pages_pure v table pages acc w r w' :
  latest_pages v table pages acc w = (Ok r, w') ->
  same_s3 w w' /\ exists keys, listed pages = Ok keys
    /\ keys_result table (getManifest w) keys acc = Ok r.
Proof.
  revert acc w. induction pages as [|page pages IH]; intros acc w; simpl.
  - intros [= <- <-]. split; [done|]. by exists [].
  - destruct page as [keys|]; [|done]. unfold mbind, st_bind.
    destruct (latest_keys_pure v table keys acc w) as (w1 & -> & H1).
    destruct (keys_result table (getManifest w) keys acc) as [acc'|e] eqn:Hk; [|done].
    intros (H2 & rest & -> & Hr)%IH. split; [by unfold same_s3 in *; congruence|].
    exists (keys ++ rest). split; [done|]. rewrite keys_result_app, Hk. simpl.
    unfold getManifest in *. unfold same_s3 in H1. by rewrite <- H1.
Qed.

Lemma latestSidecarManifest_pure v table w m w' :
  latestSidecarManifest v table w = (Ok m, w') ->
  same_s3 w w' /\ exists keys ts,
    listed (ListObjectsV2 (s3 w) (snapshot_prefix v table)) = Ok keys
    /\ keys_result table (getManifest w) keys None = Ok (Some (m, ts)).
Proof.
  unfold latestSidecarManifest. rewrite run_bind. unfold run_value, run_state, gets.
  cbn [fst snd]. unfold mbind, st_bind.
  destruct (latest_pages v table _ None w) as [r w1] eqn:Hp.
  destruct r as [[[m0 ts]|]|e]; intros [= <- <-].
  apply latest_pages_pure in Hp as (H1 & keys & Hl & Hk). eauto 6.
Qed.
End pure.

(** The search of a listing without a failing page. *)
Lemma keys_result_ok table read keys acc :
  (forall key m, key ∈ keys -> HasSuffix key manifest_suffix = true -> read key = Ok m ->
     own_manifest table m = true -> manifest_valid m table = true) ->
  exists r, keys_result table read keys acc = Ok r.
Proof.
  revert acc. induction keys as [|k keys IH]; intros acc Hk; [by eexists|]. cbn [keys_result].
  assert (exists acc', key_result table k (read k) acc = Ok acc') as [acc' ->].
  { unfold key_result. destruct (HasSuffix k manifest_suffix) eqn:Hs; [|by eexists].
    destruct (read k) as [m|e] eqn:Hr; [|by eexists].
    destruct (own_manifest table m) eqn:Ho; [|by eexists].
    assert (manifest_valid m table = true) as ->%validateSidecarManifest_ok
      by (apply (Hk k); set_solver).
    destruct (parseManifestTime _); by eexists. }
  apply IH. intros key m Hin. apply Hk. by right.
Qed.

Section pure_pages.
Context `{pg : Postgres, env : GatewayEnv}.

Lemma latest_pages_listed v table pages keys acc w :
  listed pages = Ok keys ->
  exists w', latest_pages v table pages acc w = (keys_result table (getManifest w) keys acc, w')
    /\ same_s3 w w'.
Proof.
  revert keys acc w. induction pages as [|page pages IH]; intros keys acc w; simpl.
  - intros [= <-]. by eexists.
  - destruct page as [ks|]; [|done]. destruct (listed pages) as [rest|]; [|done].
    intros [= <-]. unfold mbind, st_bind.
    destruct (latest_keys_pure v table ks acc w) as (w1 & -> & H1).
    rewrite keys_result_app.
    destruct (keys_result table (getManifest w) ks acc) as [acc'|e]; [|by eexists].
    destruct (IH rest acc' w1 eq_refl) as (w2 & -> & H2). exists w2.
    unfold getManifest. unfold same_s3 in *. rewrite H1. split; [done|congruence].
Qed.

(** What the search only reads: nothing under the key is quarantined. *)
Definition clean (table : string) (read : string -> result SnapshotManifest) (key : string)
    : Prop :=
  HasSuffix key manifest_suffix = true ->
  exists m, read key = Ok m
    /\ (own_manifest table m = true -> manifest_valid m table = true
          /\ exists ts, parseManifestTime (Timestamp m) = Ok ts).

Lemma latest_key_clean v table key acc w :
  clean table (getManifest w) key ->
  latest_key v table key acc w = (key_result table key (getManifest w key) acc, w).
Proof.
  intros Hk. unfold latest_key, key_result, own_manifest.
  destruct (HasSuffix key manifest_suffix) eqn:Hs; cbn [negb]; [|done].
  destruct (Hk Hs) as (m & Hr & Hown). unfold mbind, st_bind, gets. rewrite Hr, negb_andb.
  destruct (negb (String.eqb (Writer m) sidecarWriter) || _) eqn:Ho; [done|].
  rewrite <- negb_andb, negb_false_iff in Ho.
  destruct (Hown Ho) as (->%validateSidecarManifest_ok & ts & ->). done.
Qed.

Lemma latest_keys_clean v table keys acc w :
  Forall (clean table (getManifest w)) keys ->
  latest_keys v table keys acc w = (keys_result table (getManifest w) keys acc, w).
Proof.
  intros Hall. revert acc. induction Hall as [|key keys Hk _ IH]; intros acc; [done|].
  cbn [latest_keys keys_result]. unfold mbind, st_bind, result_bind.
  rewrite latest_key_clean by done. by destruct (key_result _ _ _ _).
Qed.

Lemma latest_pages_clean v table pages keys acc w :
  listed pages = Ok keys -> Forall (clean table (getManifest w)) keys ->
  (latest_pages v table pages acc w).2 = w.
Proof.
  revert keys acc. induction pages as [|page pages IH]; intros keys acc; simpl; [done|].
  destruct page as [ks|]; [|done]. destruct (listed pages) as [rest|]; [|done].
  intros [= <-] [Hks Hrest]%Forall_app. unfold mbind, st_bind.
  rewrite latest_keys_clean by done. destruct (keys_result _ _ _ _) as [acc'|]; [|done].
  by eapply IH.
Qed.

Lemma latestSidecarManifest_clean v table keys w :
  listed (ListObjectsV2 (s3 w) (snapshot_prefix v table)) = Ok keys ->
  Forall (clean table (getManifest w)) keys ->
  (latestSidecarManifest v table w).2 = w.
Proof.
  intros Hl Hall. unfold latestSidecarManifest, mbind, st_bind, gets.
  pose proof (latest_pages_clean v table _ keys None w Hl Hall) as H.
  by destruct (latest_pages v table _ None w) as [r w1].
Qed.
End pure_pages.

(** What the search has found among the keys seen so far. *)
Definition usable (table : string) (read : string -> result SnapshotManifest) (key : string)
    (m : SnapshotManifest) (ts : time) : Prop :=
  HasSuffix key manifest_suffix = true /\ read key = Ok m
  /\ own_manifest table m = true /\ parseManifestTime (Timestamp m) = Ok ts.

Lemma keys_result_inv table read keys acc r :
  keys_result table read keys acc = Ok r ->
  (forall key m, key ∈ keys -> HasSuffix key manifest_suffix = true -> read key = Ok m ->
     own_manifest table m = true -> manifest_valid m table = true)
  /\ (forall m ts, r = Some (m, ts) ->
        (acc = Some (m, ts) \/ exists key, key ∈ keys /\ usable table read key m ts)
        /\ (forall m0 ts0, acc = Some (m0, ts0) -> ts0 <= ts)
        /\ (forall key m' ts', key ∈ keys -> usable table read key m' ts' -> ts' <= ts))
  /\ (r = None -> acc = None /\ forall key m ts, key ∈ keys -> ~ usable table read key m ts).
Proof.
  revert acc. induction keys as [|k keys IH]; intros acc; cbn [keys_result].
  - intros [= <-]. split; [set_solver|]. split; [|set_solver].
    intros m ts ->. split; [by left|]. split; [|set_solver]. intros m0 ts0 [= -> ->]. lia.
  - destruct (key_result table k (read k) acc) as [acc1|] eqn:Hk; [|done]. simpl.
    intros (Hv & Hs & Hn)%IH.
    assert ((forall m, HasSuffix k manifest_suffix = true -> read k = Ok m ->
               own_manifest table m = true -> manifest_valid m table = true)
      /\ ((acc1 = acc /\ (forall m ts, usable table read k m ts ->
             exists m0 ts0, acc = Some (m0, ts0) /\ ts <= ts0))
          \/ exists m ts, acc1 = Some (m, ts) /\ usable table read k m ts
               /\ forall m0 ts0, acc = Some (m0, ts0) -> ts0 <= ts)) as [Hkv Hka].
    { revert Hk. unfold key_result, usable.
      destruct (HasSuffix k manifest_suffix); simpl; [|intros [= <-]; naive_solver].
      destruct (read k) as [m|e]; [|intros [= <-]; naive_solver].
      destruct (own_manifest table m) eqn:Ho; simpl;
        [|intros [= <-]; split; [intros ? _ [= <-]; congruence|left; split; [done|];
          intros ? ? (_ & [= <-] & ? & _); congruence]].
      destruct (validateSidecarManifest m table) as [[]|e] eqn:Hval; [|done].
      apply validateSidecarManifest_ok in Hval.
      destruct (parseManifestTime (Timestamp m)) as [ts|e] eqn:Hts;
        [|intros [= <-]; split; [by intros ? _ [= <-]|left; split; [done|];
          intros ? ? (_ & [= <-] & _ & ?); congruence]].
      intros [= <-]. split; [by intros ? _ [= <-]|].
      destruct acc as [[m0 ts0]|]; [|right; exists m, ts; naive_solver].
      unfold After. destruct (Z.ltb_spec ts0 ts).
      - right. exists m, ts. split; [done|]. split; [done|]. intros ? ? [= <- <-]. lia.
      - left. split; [done|]. intros m' ts' (_ & [= <-] & _ & Hp). exists m0, ts0.
        split; [done|]. rewrite Hts in Hp. injection Hp as <-. lia. }
    split; [intros key m [->|?]%elem_of_cons; [apply Hkv|by apply (Hv key)]|]. split.
    + intros m ts Hr. destruct (Hs m ts Hr) as (Hfrom & Hacc & Hmax).
      destruct Hka as [[-> Hle]|(m1 & ts1 & -> & Hu & Hle)].
      * split; [naive_solver set_solver|]. split; [done|].
        intros key m' ts' [->|?]%elem_of_cons Hu; [|by eapply Hmax].
        destruct (Hle _ _ Hu) as (m0 & ts0 & -> & ?).
        specialize (Hacc m0 ts0 eq_refl). lia.
      * specialize (Hacc m1 ts1 eq_refl). split.
        -- right. destruct Hfrom as [[= <- <-]|(key & ? & ?)]; [exists k|exists key]; set_solver.
        -- split; [intros m0 ts0 Ha; specialize (Hle _ _ Ha); lia|].
           intros key m' ts' [->|?]%elem_of_cons Hu'; [|by eapply Hmax].
           destruct Hu as (_ & H1 & _ & H2), Hu' as (_ & H1' & _ & H2').
           rewrite H1 in H1'. injection H1' as <-. rewrite H2 in H2'. by injection H2' as <-.
    + intros Hr. destruct (Hn Hr) as [Hacc1 Hno].
      destruct Hka as [[-> Hle]|(m1 & ts1 & -> & _)]; [|done]. split; [done|].
      intros key m ts [->|?]%elem_of_cons Hu; [|by eapply Hno].
      destruct (Hle _ _ Hu) as (? & ? & ? & _). congruence.
Qed.

(** ** Properties *)
Section properties.
Context `{pg : Postgres, env : GatewayEnv}.

(** What the verifier has found out when it accepts. *)
Lemma S3_VerifyLatest_facts v table sid w m w' :
  S3_VerifyLatestSidecarSnapshot v table sid w = (Ok m, w') ->
  SnapshotID m = sid /\ manifest_valid m table = true
  /\ (exists keys key ts,
        listed (ListObjectsV2 (s3 w) (snapshot_prefix v table)) = Ok keys
        /\ key ∈ keys /\ usable table (getManifest w) key m ts
        /\ forall key' m' ts', key' ∈ keys -> usable table (getManifest w) key' m' ts' ->
             ts' <= ts)
  /\ exists bytes, GetObject (s3 w) (data_key m) = Ok (Ok bytes)
       /\ EqualFold (sha256_hex bytes) (DataSHA256 m) = true.
Proof.
  unfold S3_VerifyLatestSidecarSnapshot. destruct (String.eqb _ _); [done|].
  unfold mbind at 1, st_bind at 1.
  destruct (latestSidecarManifest v table w) as [[m0|] w1] eqn:Hl; [|done].
  apply latestSidecarManifest_pure in Hl as (Hs3 & keys & ts & Hkeys & Hres).
  destruct (String.eqb_spec (SnapshotID m0) sid) as [Hid|]; [|done]. cbn [negb].
  rewrite run_bind. unfold run_value, run_state, gets. cbn [fst snd].
  destruct (verifyDataObject m0 w1) as [[]|] eqn:Hv; [|done]. intros [= <- <-].
  destruct (keys_result_inv _ _ _ _ _ Hres) as (Hvalid & Hsome & _).
  destruct (Hsome m0 ts eq_refl) as ([?|(key & Hin & Hu)] & _ & Hmax); [done|].
  destruct Hu as (Hu1 & Hu2 & Hu3 & Hu4).
  split; [done|]. split; [by eapply Hvalid|].
  split; [exists keys, key, ts; unfold usable; split_and!; try done; by intros; eapply Hmax|].
  revert Hv. unfold verifyDataObject. unfold same_s3 in Hs3. rewrite Hs3.
  destruct (validateSidecarManifest m0 (TableName m0)); [|done]. simpl.
  destruct (String.eqb (data_key m0) ""); [done|].
  destruct (GetObject (s3 w) (data_key m0)) as [[bytes|]|]; [|done..].
  destruct (EqualFold (sha256_hex bytes) (DataSHA256 m0)) eqn:He; [|done].
  intros _. by exists bytes.
Qed.

(** C30. A verified recovery point is trustworthy: when the verifier accepts a
    snapshot id for a table, the manifest it returns has that id, is valid for
    the table, was read from a listed manifest key, is the latest by timestamp
    of all the sidecar's manifests for the table, and the bytes stored under its
    data key hash to the manifest's SHA-256. *)
Theorem VerifyLatest_sound v table sid w m w' :
  S3_VerifyLatestSidecarSnapshot v table sid w = (Ok m, w') ->
  SnapshotID m = sid /\ manifest_valid m table = true
  /\ (exists keys key ts,
        listed (ListObjectsV2 (s3 w) (snapshot_prefix v table)) = Ok keys
        /\ key ∈ keys /\ usable table (getManifest w) key m ts
        /\ forall key' m' ts', key' ∈ keys -> usable table (getManifest w) key' m' ts' ->
             ts' <= ts)
  /\ exists bytes, GetObject (s3 w) (data_key m) = Ok (Ok bytes)
       /\ EqualFold (sha256_hex bytes) (DataSHA256 m) = true.
Proof. apply S3_VerifyLatest_facts. Qed.

(** One invalid manifest hides every valid one: when a listed manifest of the
    sidecar for the table is invalid, no snapshot of the table is accepted,
    however many newer valid snapshots there are. *)
Theorem invalid_manifest_blocks_table v table sid w keys key m :
  listed (ListObjectsV2 (s3 w) (snapshot_prefix v table)) = Ok keys ->
  key ∈ keys -> HasSuffix key manifest_suffix = true -> getManifest w key = Ok m ->
  own_manifest table m = true -> manifest_valid m table = false ->
  is_ok (run_value (S3_VerifyLatestSidecarSnapshot v table sid) w) = false.
Proof.
  intros Hkeys Hin Hsuf Hread Hown Hinv. unfold run_value, S3_VerifyLatestSidecarSnapshot.
  destruct (String.eqb _ _); [done|].
  unfold mbind at 1, st_bind at 1.
  destruct (latestSidecarManifest v table w) as [[m0|] w1] eqn:Hl; [exfalso|done].
  apply latestSidecarManifest_pure in Hl as (_ & keys' & ts & Hkeys' & Hres).
  rewrite Hkeys in Hkeys'. injection Hkeys' as <-.
  destruct (keys_result_inv _ _ _ _ _ Hres) as (Hvalid & _).
  specialize (Hvalid key m Hin Hsuf Hread Hown). congruence.
Qed.

(** A manifest without its data hides every older snapshot: when the newest
    manifest of a table has no readable data object, no snapshot of the table is
    accepted. *)
Theorem manifest_without_data_blocks v table sid w keys key m ts :
  listed (ListObjectsV2 (s3 w) (snapshot_prefix v table)) = Ok keys ->
  key ∈ keys -> usable table (getManifest w) key m ts ->
  (forall key' m' ts', key' ∈ keys -> key' <> key ->
     usable table (getManifest w) key' m' ts' -> ts' < ts) ->
  (forall bytes, GetObject (s3 w) (data_key m) <> Ok (Ok bytes)) ->
  is_ok (run_value (S3_VerifyLatestSidecarSnapshot v table sid) w) = false.
Proof.
  intros Hkeys Hin Hu Hnewest Hdata. unfold run_value.
  destruct (S3_VerifyLatestSidecarSnapshot v table sid w) as [[m0|e] w'] eqn:Hv; [exfalso|done].
  apply S3_VerifyLatest_facts in Hv
    as (_ & _ & (keys' & key0 & ts0 & Hkeys' & Hin0 & Hu0 & Hmax) & bytes & Hbytes & _).
  rewrite Hkeys in Hkeys'. injection Hkeys' as <-.
  destruct (decide (key0 = key)) as [->|Hne].
  - destruct Hu as (_ & Hr & _), Hu0 as (_ & Hr0 & _). rewrite Hr in Hr0.
    injection Hr0 as <-. by apply (Hdata bytes).
  - specialize (Hmax key m ts Hin Hu). specialize (Hnewest key0 m0 ts0 Hin0 Hne Hu0). lia.
Qed.
End properties.

Section witnesses.
#[local] Existing Instances null_postgres offline_env.

(** A bucket with one snapshot of the table users, and a second manifest. *)
Definition snapshot_manifest (sid status ts : string) : SnapshotManifest := {|
  ManifestVersion := 1; Writer := sidecarWriter; DBName := "app"; SchemaName := "public";
  SnapshotID := sid; Timestamp := ts; TableName := "users";
  manifest_Operation := "SYNC_SNAPSHOT"; RowCount := 1; S3DataKey := "data";
  S3ManifestKey := "m"; SnapshotScope := "table"; DataSHA256 := sha256_hex "rows";
  manifest_Status := status; ValidationError := "" |}.

Definition bucket (ms : list (string * SnapshotManifest)) : S3 := {|
  ListObjectsV2 := fun _ => [Ok (map fst ms)];
  GetObject := fun key =>
    if String.eqb key "data" then Ok (Ok "rows")
    else
      match list_to_map (M := gmap string string)
              (map (fun '(k, m) => (k, json_indent (enc_manifest m))) ms) !! key with
      | Some text => Ok (Ok text)
      | None => Err "NoSuchKey"
      end |}.

Definition one_snapshot : World :=
  set_s3 (bucket [("a/manifest.json", snapshot_manifest "snap_1" "valid" "2024-01-01T00:00:00Z")])
    (fresh_world 0).
Definition two_snapshots : World :=
  set_s3 (bucket [("a/manifest.json", snapshot_manifest "snap_1" "pending" "2024-01-01T00:00:00Z");
                  ("b/manifest.json", snapshot_manifest "snap_2" "valid" "2024-01-02T00:00:00Z")])
    (fresh_world 0).
Definition test_verifier : S3SnapshotVerifier :=
  {| v_Prefix := "backstop"; has_metadata := true |}.

Lemma VerifyLatest_sound_witness :
  let m := snapshot_manifest "snap_1" "valid" "2024-01-01T00:00:00Z" in
  SnapshotID m = "snap_1" /\ manifest_valid m "users" = true
  /\ (exists keys key ts,
        listed (ListObjectsV2 (s3 one_snapshot) (snapshot_prefix test_verifier "users")) = Ok keys
        /\ key ∈ keys /\ usable "users" (getManifest one_snapshot) key m ts
        /\ forall key' m' ts', key' ∈ keys ->
             usable "users" (getManifest one_snapshot) key' m' ts' -> ts' <= ts)
  /\ exists bytes, GetObject (s3 one_snapshot) (data_key m) = Ok (Ok bytes)
       /\ EqualFold (sha256_hex bytes) (DataSHA256 m) = true.
Proof.
  intros m. apply (VerifyLatest_sound test_verifier "users" "snap_1" one_snapshot m one_snapshot).
  vm_compute. reflexivity.
Defined.

Lemma invalid_manifest_blocks_table_witness :
  is_ok (run_value (S3_VerifyLatestSidecarSnapshot test_verifier "users" "snap_2")
           two_snapshots) = false.
Proof.
  apply (invalid_manifest_blocks_table test_verifier "users" "snap_2" two_snapshots
    ["a/manifest.json"; "b/manifest.json"] "a/manifest.json"
    (snapshot_manifest "snap_1" "pending" "2024-01-01T00:00:00Z"));
    [reflexivity|left|reflexivity|vm_compute; reflexivity|reflexivity|vm_compute; reflexivity].
Defined.
End witnesses.
