(* ===== verification/McpServer.v ===== *)
(** * gateway/mcp_server.go: the MCP tools

    [Handle] dispatches a JSON-RPC request.  [execute_query] may wait for an
    operator: [toolExecuteQuery] runs up to the wait and returns what is in
    flight, [resumeExecuteQuery] runs from the engine's answer to the end.
    Each part runs without interleaving. *)
From S2P Require Import Prelude GoString GoTime Json JsonText Sha256 Postgres PgAst SqlAnalyzer Policy.
From S2P Require Import GatewayMetrics Manifest AgentIdentity Approval Pause Auth GatewayMetadata.
From S2P Require Import GatewayWorld Behavior Impact.
From stdpp Require Import options.

Open Scope Z_scope.

(** ** JSON-RPC *)
Record RPCError := { Code : Z; rpc_Message : string }.
Record MCPResponse := { resp_ID : any; Result : option any; Error : option RPCError }.

Definition rpcParseError : Z := -32700.
Definition rpcInvalidRequest : Z := -32600.
Definition rpcMethodNotFound : Z := -32601.
Definition rpcInvalidParams : Z := -32602.

Definition okResponse (id : any) (result : any) : MCPResponse :=
  {| resp_ID := id; Result := Some result; Error := None |}.
Definition errorResponse (id : any) (code : Z) (message : string) : MCPResponse :=
  {| resp_ID := id; Result := None; Error := Some {| Code := code; rpc_Message := message |} |}.

Record MCPRequest := {
  JSONRPC : string; req_ID : any; Method : string; Params : option json;
}.

(** A [json.RawMessage], nil when the member is absent. *)
Definition dec_raw : decoder (option json) := fun _ v => Ok (Some v).
Definition dec_any : decoder any := fun _ v => Ok (to_any v).

Definition dec_request : decoder MCPRequest := dec_struct (fun r members =>
  v0 ← field dec_string "jsonrpc" (JSONRPC r) members;
  v1 ← field dec_any "id" (req_ID r) members;
  v2 ← field dec_string "method" (Method r) members;
  v3 ← field dec_raw "params" (Params r) members;
  mret {| JSONRPC := v0; req_ID := v1; Method := v2; Params := v3 |}).

Definition zero_request : MCPRequest :=
  {| JSONRPC := ""; req_ID := AnyNil; Method := ""; Params := None |}.

Record toolCall := { tool_Name : string; Arguments : option json }.
Definition dec_toolCall : decoder toolCall := dec_struct (fun c members =>
  v0 ← field dec_string "name" (tool_Name c) members;
  v1 ← field dec_raw "arguments" (Arguments c) members;
  mret {| tool_Name := v0; Arguments := v1 |}).

Record executeQueryParams := {
  args_Query : string; args_AgentID : string; DBURL : string; args_SnapshotID : string;
}.
Definition dec_executeQuery : decoder executeQueryParams := dec_struct (fun a members =>
  v0 ← field dec_string "query" (args_Query a) members;
  v1 ← field dec_string "agent_id" (args_AgentID a) members;
  v2 ← field dec_string "db_url" (DBURL a) members;
  v3 ← field dec_string "snapshot_id" (args_SnapshotID a) members;
  mret {| args_Query := v0; args_AgentID := v1; DBURL := v2; args_SnapshotID := v3 |}).
Definition zero_executeQuery : executeQueryParams :=
  {| args_Query := ""; args_AgentID := ""; DBURL := ""; args_SnapshotID := "" |}.

(** [analyzeQueryParams]: the same without the snapshot. *)
Definition dec_analyzeQuery : decoder executeQueryParams := dec_struct (fun a members =>
  v0 ← field dec_string "query" (args_Query a) members;
  v1 ← field dec_string "agent_id" (args_AgentID a) members;
  v2 ← field dec_string "db_url" (DBURL a) members;
  mret {| args_Query := v0; args_AgentID := v1; DBURL := v2; args_SnapshotID := "" |}).

Record restoreSnapshotParams := {
  restore_SnapshotID : string; restore_Table : string; TargetTable : string;
  restore_AgentID : string;
}.
Definition dec_restoreSnapshot : decoder restoreSnapshotParams := dec_struct (fun a members =>
  v0 ← field dec_string "snapshot_id" (restore_SnapshotID a) members;
  v1 ← field dec_string "table" (restore_Table a) members;
  v2 ← field dec_string "target_table" (TargetTable a) members;
  v3 ← field dec_string "agent_id" (restore_AgentID a) members;
  mret {| restore_SnapshotID := v0; restore_Table := v1; TargetTable := v2;
          restore_AgentID := v3 |}).
Definition zero_restoreSnapshot : restoreSnapshotParams :=
  {| restore_SnapshotID := ""; restore_Table := ""; TargetTable := ""; restore_AgentID := "" |}.

(** ** The tool manifest *)
Definition string_property (name description : string) : string * any :=
  (name, AnyMap [("type", AnyString "string"); ("description", AnyString description)]).

(** A [toolDef]; [required] is absent for [list_tools]. *)
Definition tool_def (name description : string) (properties : list (string * any))
    (required : option (list string)) : any :=
  AnyMap [("name", AnyString name); ("description", AnyString description);
          ("inputSchema", AnyMap (
            [("type", AnyString "object"); ("properties", AnyMap properties)]
            ++ match required with
               | None => []
               | Some names => [("required", AnyList (map AnyString names))]
               end))].

Definition builtinTools : list any := [
  tool_def "execute_query"
    "Execute SQL through backstop. SAFE reads execute immediately, HIGH and CRITICAL queries may require approval, CRITICAL table operations require recovery readiness, and DROP DATABASE/DROP SCHEMA are blocked."
    [string_property "query" "SQL query to execute";
     string_property "agent_id" "Stable identifier for the calling agent. If using the backstop MCP wrapper, this is normally supplied by BACKSTOP_AGENT_ID.";
     string_property "db_url" "Optional PostgreSQL connection string when gateway was not started with --db";
     string_property "snapshot_id" "Latest sidecar snapshot ID required before approved CRITICAL execution when --snapshot-before-critical is enabled"]
    (Some ["query"; "agent_id"]);
  tool_def "analyze_query"
    "Analyze SQL through backstop policy without executing it. Use before UPDATE, DELETE, DROP, ALTER, TRUNCATE, migrations, or any agent-generated SQL that might modify data."
    [string_property "query" "SQL query to analyze without executing";
     string_property "agent_id" "Optional stable identifier for the calling agent";
     string_property "db_url" "Optional PostgreSQL connection string when impact analysis needs a DB and gateway was not started with --db"]
    (Some ["query"]);
  tool_def "prepare_restore_snapshot"
    "Prepare a restore plan for a previously captured Backstop snapshot. The gateway never returns database passwords; run the Backstop CLI with your local DB URL to perform the restore."
    [string_property "snapshot_id" "Snapshot ID (snap_xxxx)";
     string_property "table" "Original table name";
     string_property "target_table" "Optional restore target table. Defaults to {table}_recovered";
     string_property "agent_id" "Identifier for the calling agent"]
    (Some ["snapshot_id"; "table"; "agent_id"]);
  tool_def "list_tools" "List all available MCP tools exposed by this gateway." [] None].

(** ** Helpers *)
Definition returnsRows (analysis : sqlAnalysis) : bool :=
  String.eqb (Operation analysis) "SELECT" || String.eqb (Operation analysis) "SHOW"
  || HasPrefix (Operation analysis) "EXPLAIN".

Definition normalizeSQLValue (value : sqlValue) : any :=
  match value with
  | SqlNull => AnyNil
  | SqlInt z => AnyInt z
  | SqlFloat x => AnyFloat x
  | SqlBool b => AnyBool b
  | SqlBytes s | SqlString s => AnyString s
  | SqlTime t => AnyString (Format_RFC3339Nano t)
  end.

Definition nullableString (value : string) : any :=
  if String.eqb (TrimSpace value) "" then AnyNil else AnyString value.

Definition querySHA256 (query : string) : string := sha256_hex (TrimSpace query).

Definition shellQuote (value : string) : string :=
  if String.eqb value "" then String dquote (str1 dquote)
  else str1 squote
       +:+ ReplaceAll value squote
             (String squote (String backslash (String squote (str1 squote))))
       +:+ str1 squote.

Definition blockReasonLabel (analysis : sqlAnalysis) (d : PolicyDecision) : string :=
  if negb (String.eqb (Operation analysis) "") then Operation analysis
  else if negb (String.eqb (decision_Reason d) "") then decision_Reason d
  else "unknown".

(** [generateID]: 16 random bytes in hexadecimal, or the clock when the random
    source fails. *)
Definition generateID (prefix : string) (entropy : option (list Z)) (now : time) : string :=
  match entropy with
  | Some bytes => prefix +:+ "_" +:+ hex_encode bytes
  | None => prefix +:+ "_" +:+ itoa_hex (wrap64 now)
  end.

Section server.
Context `{pg : Postgres, env : GatewayEnv}.
Variable Parse : string -> result (list (option Node)).
Variable cfg : Config.

Definition safetyMetadata (analysis : sqlAnalysis) (d : PolicyDecision) : any :=
  AnyMap (
    [("risk_level", AnyString (RiskLevel analysis));
     ("operation", AnyString (Operation analysis));
     ("reason", AnyString (Reason analysis));
     ("table", nullableString (Table analysis));
     ("schema", nullableString (Schema analysis));
     ("table_recoverable", AnyBool (TableRecoverable analysis));
     ("recovery_required", AnyBool (RequiresRecovery d));
     ("recovery_possible", AnyBool (RecoveryPossible d));
     ("policy_action", AnyString (Action d));
     ("policy_reason", AnyString (decision_Reason d));
     ("requires_approval", AnyBool (RequiresApproval d));
     ("parse_error_present",
       AnyBool (match ParseError analysis with Some _ => true | None => false end));
     ("environment", AnyString (environment cfg));
     ("cluster_id", AnyString (clusterID cfg))]
    ++ match Impact analysis with
       | None => []
       | Some i =>
           [("estimated_affected_rows", AnyInt (EstimatedAffectedRows i));
            ("estimated_table_rows", AnyInt (EstimatedTableRows i));
            ("affected_percent", AnyFloat (AffectedPercent i));
            ("protected_table", AnyBool (ProtectedTable i));
            ("protected_columns", AnyList (map AnyString (ProtectedColumns i)));
            ("impact_status", AnyString (SqlAnalyzer.Status i))]
       end
    ++ match ParseError analysis with
       | None => []
       | Some e => [("parse_error", AnyString e)]
       end).

(** ** Recovery readiness *)
Definition checkRecoveryReadiness (manifest : SnapshotManifest) (w : World) : result unit :=
  let maxAgeSeconds := MaxSnapshotAgeSeconds (policy cfg) in
  (if 0 <? maxAgeSeconds then
     match parseManifestTime (Timestamp manifest) with
     | Err e => Err ("snapshot timestamp is invalid: " +:+ e)
     | Ok ts =>
         let age := Sub (now w) ts in
         let maxAge := seconds maxAgeSeconds in
         if maxAge <? age then
           Err ("recovery readiness failed: snapshot age " +:+ fmt_duration (Round age Second)
                +:+ " exceeds RPO " +:+ fmt_duration maxAge)
         else Ok tt
     end
   else Ok tt);;
  (match metadata w with
   | None =>
       if RequireSidecarHeartbeat (policy cfg) then
         Err "recovery readiness failed: metadata DB is required for sidecar heartbeat and snapshot metadata validation"
       else Ok tt
   | Some _ =>
       wrap_err "recovery readiness failed: " (ValidateSnapshotRecord manifest (metadata w))
   end);;
  if RequireSidecarHeartbeat (policy cfg) then
    match GetHealth "sync" (metadata w) with
    | None => Err "recovery readiness failed: sync sidecar heartbeat is missing"
    | Some (status, checkedAt) =>
        if negb (String.eqb status "healthy") then
          Err ("recovery readiness failed: sync sidecar status is " +:+ status)
        else if seconds (MaxSidecarHeartbeatSeconds (policy cfg)) <? Sub (now w) checkedAt then
          Err "recovery readiness failed: sync sidecar heartbeat is stale"
        else Ok tt
    end
  else Ok tt.

(** The first group that names the table, as Go visits them at that time. *)
Definition recoveryGroupForTable (at_time : time) (table : string) : option (string * list string) :=
  match RecoveryGroups (policy cfg) with
  | None => None
  | Some groups =>
      head (filter (fun g => containsFold g.2 table) (visited at_time groups))
  end.

(** The members of the group without a ready snapshot. *)
Fixpoint missing_members (latest : string -> ST World (result SnapshotManifest))
    (table : string) (members : list string) : ST World (list string) :=
  match members with
  | [] => mret []
  | member :: members =>
      if EqualFold member table then missing_members latest table members
      else
        r ← latest member;
        ready ← gets (fun w => match r with
                               | Err _ => false
                               | Ok m => is_ok (checkRecoveryReadiness m w)
                               end);
        rest ← missing_members latest table members;
        mret (if (ready : bool) then rest else member :: rest)
  end.

Definition verifyRecoveryGroup (table : string) (verifier : SnapshotVerifier)
    : ST World (result unit) :=
  at_time ← gets now;
  match recoveryGroupForTable at_time table with
  | None => mret (Ok tt)
  | Some (groupName, members) =>
      if String.eqb groupName "" || (length members <=? 1)%nat then mret (Ok tt)
      else
        match LatestSidecarSnapshot verifier with
        | None =>
            mret (Err ("recovery group " +:+ groupName
              +:+ " requires a snapshot verifier that can inspect all group tables"))
        | Some latest =>
            missing ← missing_members latest table members;
            mret (match missing with
                  | [] => Ok tt
                  | _ => Err ("recovery group " +:+ groupName
                              +:+ " is missing ready snapshots for: " +:+ Join missing ", ")
                  end)
        end
  end.

Definition verifyCriticalRecoveryPointWithAnalysis (args : executeQueryParams)
    (analysis : sqlAnalysis) : ST World (string * result SnapshotManifest) :=
  match criticalRecoveryTableFromAnalysis analysis with
  | Err e => mret ("", Err e)
  | Ok table =>
      if String.eqb (TrimSpace (args_SnapshotID args)) "" then
        mret (table, Err "approved CRITICAL query requires the latest sidecar snapshot_id before gateway execution")
      else
        match snapshotVerifier cfg with
        | None =>
            mret (table, Err "gateway --storage is required to verify sidecar snapshot_id before CRITICAL execution")
        | Some verifier =>
            r ← VerifyLatestSidecarSnapshot verifier table (args_SnapshotID args);
            match r with
            | Err e =>
                upd_metrics (IncRecoveryReadiness "failed" "snapshot_verification");;
                mret (table, Err ("sidecar recovery point verification failed: " +:+ e))
            | Ok manifest =>
                ready ← gets (checkRecoveryReadiness manifest);
                match ready with
                | Err e =>
                    upd_metrics (IncRecoveryReadiness "failed" "readiness");;
                    mret (table, Err e)
                | Ok _ =>
                    group ← verifyRecoveryGroup table verifier;
                    match group with
                    | Err e =>
                        upd_metrics (IncRecoveryReadiness "failed" "group");;
                        mret (table, Err e)
                    | Ok _ =>
                        upd_metrics (IncRecoveryReadiness "ok" "verified");;
                        mret (table, Ok manifest)
                    end
                end
            end
        end
  end.

Definition verifyCriticalRecoveryPoint (args : executeQueryParams)
    : ST World (string * result SnapshotManifest) :=
  verifyCriticalRecoveryPointWithAnalysis args (analyzeSQL Parse (args_Query args)).

(** ** Execution *)
Definition execution_conn (args : executeQueryParams) : result (option string) :=
  if has_db cfg then Ok None
  else if String.eqb (TrimSpace (DBURL args)) "" then
    Err "gateway has no --db configured and db_url argument is empty"
  else
    let url := ensurePostgresApplicationName (DBURL args) application_name in
    sql_Open url;;
    mret (Some url).

Definition rows_result (rows : sqlRows) : result (list (string * any)) :=
  match Rows_Err rows with
  | Some e => Err e
  | None =>
      Ok [("result_type", AnyString "rows");
          ("columns", AnyList (map AnyString (Columns rows)));
          ("row_count", AnyInt (Z.of_nat (length (Rows rows))));
          ("preview", AnyList (map (fun row =>
             AnyMap (zip (Columns rows) (map normalizeSQLValue row)))
             (take 20 (Rows rows))))]
  end.

Definition executeSQL (args : executeQueryParams) (analysis : sqlAnalysis)
    : ST World (result (list (string * any))) := fun w =>
  match execution_conn args with
  | Err e => (Err e, w)
  | Ok conn =>
      let w := set_statements (statements w ++ [Executed conn (args_Query args)]) w in
      if returnsRows analysis then
        let (r, db) := QueryContext conn (args_Query args) (database w) in
        (rows ← r; rows_result rows, set_database db w)
      else
        let (r, db) := ExecContext conn (args_Query args) (database w) in
        (rowsAffected ← r;
         mret [("result_type", AnyString "command"); ("rows_affected", AnyInt rowsAffected)],
         set_database db w)
  end.

(** ** analyze_query *)
Definition risk_analysis (args : executeQueryParams) : ST World sqlAnalysis :=
  let analysis := analyzeSQL Parse (args_Query args) in
  impact ← analyzeImpact cfg (args_Query args) (DBURL args) analysis;
  mret (applyImpactAnalysis analysis impact).

Definition toolAnalyzeQuery (id : any) (rawArgs : option json) : ST World MCPResponse :=
  match Unmarshal dec_analyzeQuery rawArgs zero_executeQuery with
  | Err e => mret (errorResponse id rpcInvalidParams ("invalid arguments: " +:+ e))
  | Ok args =>
      if String.eqb (TrimSpace (args_Query args)) "" then
        mret (errorResponse id rpcInvalidParams "query is required")
      else
        analysis ← risk_analysis args;
        let decision := Decide (policy cfg) analysis in
        mret (okResponse id (AnyMap [
          ("status", AnyString "analyzed"); ("risk_level", AnyString (RiskLevel analysis));
          ("safety_metadata", safetyMetadata analysis decision);
          ("message", AnyString (decision_Reason decision))]))
  end.

(** ** execute_query *)

(** What the goroutine of a request holds on to while it waits. *)
Record inflight := {
  fl_id : any;
  fl_args : executeQueryParams;
  fl_analysis : sqlAnalysis;
  fl_decision : PolicyDecision;
  fl_querySHA : string;
  fl_approvalID : string;
  fl_details : ApprovalDetails;
  fl_recovery : SnapshotManifest;
}.

Definition RecordQuery (args : executeQueryParams) (risk querySHA : string) (approved : bool)
    : ST World unit :=
  RecordDetailed (args_AgentID args) (args_Query args) risk approved querySHA
    (environment cfg) (clusterID cfg).

Definition block_only_decision (why : string) (d : PolicyDecision) : PolicyDecision :=
  block_decision why (RecoveryPossible d).

(** The answers of a blocked, failed or executed query, and of one that was
    waiting. *)
Definition status_response (id : any) (status risk : string) (metadata message : any)
    (extra : list (string * any)) : MCPResponse :=
  okResponse id (AnyMap ([("status", AnyString status)] ++ extra
    ++ [("risk_level", AnyString risk); ("safety_metadata", metadata);
        ("message", message)])).

Definition alert_for (severity eventType : string) (args : executeQueryParams)
    (analysis : sqlAnalysis) (querySHA approvalID action message : string) : ST World unit :=
  emitAlert cfg severity eventType (args_AgentID args) analysis querySHA approvalID
    (args_SnapshotID args) action message.

Definition block_paused (id : any) (args : executeQueryParams) (analysis : sqlAnalysis)
    (d : PolicyDecision) (querySHA : string) : ST World MCPResponse :=
  RecordQuery args (RiskLevel analysis) querySHA false;;
  upd_metrics (IncQuery (RiskLevel analysis) "blocked");;
  upd_metrics (IncBlock "paused");;
  alert_for "critical" "execution_blocked_paused" args analysis querySHA ""
    "Gateway is paused. Resume only after incident review."
    "Query execution blocked by emergency pause.";;
  mret (status_response id "blocked" (RiskLevel analysis)
    (safetyMetadata analysis (block_only_decision "gateway is paused" d))
    (AnyString "Gateway emergency pause is active; query not executed.") []).

Definition block_quarantined (id : any) (args : executeQueryParams) (analysis : sqlAnalysis)
    (d : PolicyDecision) (querySHA : string) : ST World MCPResponse :=
  RecordQuery args (RiskLevel analysis) querySHA false;;
  upd_metrics (IncQuery (RiskLevel analysis) "blocked");;
  upd_metrics (IncBlock "agent_quarantined");;
  alert_for "critical" "agent_quarantined" args analysis querySHA ""
    "Inspect agent prompt/tool loop and keep writes blocked for this agent."
    "Agent is quarantined after repeated risky attempts.";;
  mret (status_response id "blocked" (RiskLevel analysis)
    (safetyMetadata analysis (block_only_decision "agent is quarantined" d))
    (AnyString "Agent is temporarily quarantined after repeated risky attempts.") []).

Definition block_by_policy (id : any) (args : executeQueryParams) (analysis : sqlAnalysis)
    (d : PolicyDecision) (querySHA : string) : ST World MCPResponse :=
  RecordQuery args (RiskLevel analysis) querySHA false;;
  recordRiskAttempt cfg (args_AgentID args) analysis "blocked";;
  upd_metrics (IncQuery (RiskLevel analysis) "blocked");;
  upd_metrics (IncBlock (blockReasonLabel analysis d));;
  when (String.eqb (Operation analysis) "DROP DATABASE"
        || String.eqb (Operation analysis) "DROP SCHEMA")
    (alert_for "critical"
       ("blocked_" +:+ ToLower (ReplaceAll (Operation analysis) " " "_")) args analysis
       querySHA ""
       "Use native backup/PITR planning. Table snapshots cannot recover this operation."
       (decision_Reason d));;
  mret (status_response id "blocked" (RiskLevel analysis) (safetyMetadata analysis d)
    (AnyString (decision_Reason d)) []).

(** The end of both execution paths; [extra] are the members only an approved
    query's answer has. *)
Definition execution_response (id : any) (args : executeQueryParams) (analysis : sqlAnalysis)
    (d : PolicyDecision) (snapshot : any) (approvalID recoveryPoint : list (string * any))
    : ST World MCPResponse :=
  result ← executeSQL args analysis;
  match result with
  | Err e =>
      upd_metrics (IncQuery (RiskLevel analysis) "failed");;
      mret (okResponse id (AnyMap ([("status", AnyString "failed")] ++ approvalID
        ++ [("risk_level", AnyString (RiskLevel analysis)); ("snapshot_id", snapshot);
            ("safety_metadata", safetyMetadata analysis d); ("error", AnyString e)])))
  | Ok members =>
      upd_metrics (IncQuery (RiskLevel analysis) "executed");;
      mret (okResponse id (AnyMap (members ++ [("status", AnyString "executed")] ++ approvalID
        ++ [("risk_level", AnyString (RiskLevel analysis)); ("snapshot_id", snapshot);
            ("safety_metadata", safetyMetadata analysis d)] ++ recoveryPoint)))
  end.

Definition execute_now (id : any) (args : executeQueryParams) (analysis : sqlAnalysis)
    (d : PolicyDecision) (querySHA : string) : ST World MCPResponse :=
  RecordQuery args (RiskLevel analysis) querySHA true;;
  execution_response id args analysis d AnyNil [] [].

Definition block_recovery (id : any) (args : executeQueryParams) (analysis : sqlAnalysis)
    (d : PolicyDecision) (querySHA approvalID table e : string) : ST World MCPResponse :=
  RecordQuery args (RiskLevel analysis) querySHA false;;
  upd_metrics (IncRecovery "failed");;
  upd_metrics (IncQuery (RiskLevel analysis) "blocked");;
  alert_for "critical" "recovery_readiness_failed" args analysis querySHA approvalID
    "Capture or repair a latest sidecar snapshot before approving this operation." e;;
  mret (status_response id "blocked" (RiskLevel analysis) (safetyMetadata analysis d)
    (AnyString e)
    [("approval_id", AnyString approvalID);
     ("snapshot_id", nullableString (args_SnapshotID args)); ("table", AnyString table)]).

Definition block_metadata (id : any) (args : executeQueryParams) (analysis : sqlAnalysis)
    (d : PolicyDecision) (querySHA approvalID e : string) : ST World MCPResponse :=
  RecordQuery args (RiskLevel analysis) querySHA false;;
  upd_metrics (IncQuery (RiskLevel analysis) "blocked");;
  upd_metrics (IncBlock "metadata_write_failed");;
  alert_for "critical" "approval_metadata_write_failed" args analysis querySHA approvalID
    "Treat recovery state as ambiguous; repair metadata storage before approving destructive operations."
    e;;
  mret (status_response id "blocked" (RiskLevel analysis) (safetyMetadata analysis d)
    (AnyString "Approval metadata could not be durably recorded; query not executed.")
    [("approval_id", AnyString approvalID)]).

(** [RequestApproval] up to its select. *)
Definition begin_approval (fl : inflight) : ST World (option approvalError) := fun w =>
  match request_begin (now w) (fl_details fl) (approval w) with
  | inl e => (None, set_approval e w)
  | inr err => (Some err, w)
  end.

(** The request after the wait: [resolution] and [err] are what [RequestApproval]
    returned. *)
Definition resume_denied (fl : inflight) (status approved_metric event actor message action : string)
    : ST World MCPResponse :=
  let risk := RiskLevel (fl_analysis fl) in
  RecordQuery (fl_args fl) risk (fl_querySHA fl) false;;
  registry_RecordApprovalResolved (fl_approvalID fl) status actor;;
  recordRiskAttempt cfg (args_AgentID (fl_args fl)) (fl_analysis fl) status;;
  upd_metrics (IncApproval approved_metric);;
  upd_metrics (IncQuery risk "denied");;
  alert_for "warning" event (fl_args fl) (fl_analysis fl) (fl_querySHA fl) (fl_approvalID fl)
    action message;;
  mret (status_response (fl_id fl) "denied" risk
    (safetyMetadata (fl_analysis fl) (fl_decision fl)) (AnyString message)
    [("approval_id", AnyString (fl_approvalID fl))]).

Definition binding_matches (fl : inflight) : bool :=
  String.eqb (querySHA256 (args_Query (fl_args fl))) (details_QuerySHA256 (fl_details fl))
  && String.eqb (environment cfg) (details_Environment (fl_details fl))
  && String.eqb (clusterID cfg) (details_ClusterID (fl_details fl))
  && String.eqb (Table (fl_analysis fl)) (details_Table (fl_details fl))
  && String.eqb (RiskLevel (fl_analysis fl)) (details_RiskLevel (fl_details fl)).

Definition resume_blocked (fl : inflight) (status actor message : string)
    (record : ST World unit) : ST World MCPResponse :=
  let risk := RiskLevel (fl_analysis fl) in
  RecordQuery (fl_args fl) risk (fl_querySHA fl) false;;
  registry_RecordApprovalResolved (fl_approvalID fl) status actor;;
  record;;
  mret (status_response (fl_id fl) "blocked" risk
    (safetyMetadata (fl_analysis fl) (fl_decision fl)) (AnyString message)
    [("approval_id", AnyString (fl_approvalID fl))]).

Definition recovery_member (recovery : SnapshotManifest) : list (string * any) :=
  if String.eqb (SnapshotID recovery) "" then []
  else [("recovery_point", AnyMap [
    ("snapshot_id", AnyString (SnapshotID recovery)); ("table", AnyString (TableName recovery));
    ("timestamp", AnyString (Timestamp recovery)); ("row_count", AnyInt (RowCount recovery));
    ("manifest_key", AnyString (S3ManifestKey recovery))])].

Definition resume_approved (fl : inflight) (resolution : ApprovalResolution)
    : ST World MCPResponse :=
  let risk := RiskLevel (fl_analysis fl) in
  RecordQuery (fl_args fl) risk (fl_querySHA fl) (res_Approved resolution);;
  if negb (res_Approved resolution) then
    registry_RecordApprovalResolved (fl_approvalID fl) "denied" (res_Actor resolution);;
    recordRiskAttempt cfg (args_AgentID (fl_args fl)) (fl_analysis fl) "denied";;
    upd_metrics (IncApproval "denied");;
    upd_metrics (IncQuery risk "denied");;
    mret (status_response (fl_id fl) "denied" risk
      (safetyMetadata (fl_analysis fl) (fl_decision fl))
      (AnyString "Query denied by operator.")
      [("approval_id", AnyString (fl_approvalID fl))])
  else
    registry_RecordApprovalResolved (fl_approvalID fl) "approved" (res_Actor resolution);;
    upd_metrics (IncApproval "approved");;
    execution_response (fl_id fl) (fl_args fl) (fl_analysis fl) (fl_decision fl)
      (nullableString (args_SnapshotID (fl_args fl)))
      [("approval_id", AnyString (fl_approvalID fl))]
      (recovery_member (fl_recovery fl)).

Definition resumeExecuteQuery (fl : inflight) (resolution : ApprovalResolution)
    (err : option approvalError) : ST World MCPResponse :=
  match err with
  | Some ErrApprovalTimeout =>
      resume_denied fl "timeout" "timeout" "approval_timeout" ""
        "Approval request timed out; query not executed."
        "Re-submit only after confirming current query hash and recovery readiness."
  | Some e =>
      resume_denied fl "denied" "denied" "approval_denied" (res_Actor resolution)
        (approvalError_Error e)
        "Inspect repeated attempts from this agent before retrying."
  | None =>
      let risk := RiskLevel (fl_analysis fl) in
      if negb (binding_matches fl) then
        resume_blocked fl "binding_mismatch" (res_Actor resolution)
          "Approval binding mismatch; query not executed."
          (upd_metrics (IncApproval "binding_mismatch");;
           upd_metrics (IncQuery risk "blocked");;
           upd_metrics (IncBlock "approval_binding_mismatch"))
      else
        paused ← gets (fun w => BlocksRisk (pause w) risk);
        if (paused : bool) then
          resume_blocked fl "paused" (res_Actor resolution)
            "Gateway emergency pause became active after approval; query not executed."
            (upd_metrics (IncQuery risk "blocked");;
             upd_metrics (IncBlock "paused");;
             alert_for "critical" "approved_execution_blocked_paused" (fl_args fl)
               (fl_analysis fl) (fl_querySHA fl) (fl_approvalID fl)
               "Gateway was paused after approval. Re-review before resuming."
               "Approved query blocked by emergency pause.")
        else resume_approved fl resolution
  end.

Definition new_details (args : executeQueryParams) (analysis : sqlAnalysis)
    (querySHA approvalID : string) : ApprovalDetails := {|
  details_ID := approvalID; details_Query := args_Query args;
  details_QuerySHA256 := querySHA; details_AgentID := args_AgentID args;
  details_RiskLevel := RiskLevel analysis; details_Operation := Operation analysis;
  details_Schema := Schema analysis; details_Table := Table analysis;
  details_Environment := environment cfg; details_ClusterID := clusterID cfg;
  details_SnapshotID := args_SnapshotID args |}.

(** The approval path up to the wait: an answer, or the request in flight. *)
Definition request_approval_path (id : any) (args : executeQueryParams)
    (analysis : sqlAnalysis) (d : PolicyDecision) (querySHA approvalID : string)
    : ST World (MCPResponse + inflight) :=
  verified ←
    (if RequiresRecovery d && snapshotBeforeCritical cfg then
       verifyCriticalRecoveryPointWithAnalysis args analysis
     else mret ("", Ok zero_manifest));
  match verified with
  | (table, Err e) =>
      resp ← block_recovery id args analysis d querySHA approvalID table e;
      mret (inl resp)
  | (_, Ok recovery) =>
      when (RequiresRecovery d && snapshotBeforeCritical cfg)
        (upd_metrics (IncRecovery "verified"));;
      let details := new_details args analysis querySHA approvalID in
      let fl := {| fl_id := id; fl_args := args; fl_analysis := analysis; fl_decision := d;
                   fl_querySHA := querySHA; fl_approvalID := approvalID;
                   fl_details := details; fl_recovery := recovery |} in
      recorded ← registry_RecordApprovalRequested details;
      match recorded with
      | Err e =>
          resp ← block_metadata id args analysis d querySHA approvalID e;
          mret (inl resp)
      | Ok _ =>
          alert_for "warning" "approval_requested" args analysis querySHA approvalID
            "Review exact query hash, environment, and recovery point before approving."
            (decision_Reason d);;
          begun ← begin_approval fl;
          match begun with
          | None => mret (inr fl)
          | Some err =>
              resp ← resumeExecuteQuery fl zero_resolution (Some err);
              mret (inl resp)
          end
      end
  end.

Definition block_unknown_action (id : any) (args : executeQueryParams)
    (analysis : sqlAnalysis) (d : PolicyDecision) (querySHA : string) : ST World MCPResponse :=
  RecordQuery args (RiskLevel analysis) querySHA false;;
  upd_metrics (IncQuery (RiskLevel analysis) "blocked");;
  upd_metrics (IncBlock "unknown_policy_action");;
  mret (status_response id "blocked" (RiskLevel analysis) (safetyMetadata analysis d)
    (AnyString "policy returned an unknown action; gateway failed closed") []).

Definition answer (m : ST World MCPResponse) : ST World (MCPResponse + inflight) :=
  resp ← m; mret (inl resp).

(** [entropy] is what the random source gives for the approval's id. *)
Definition toolExecuteQuery (entropy : option (list Z)) (id : any) (rawArgs : option json)
    : ST World (MCPResponse + inflight) :=
  match Unmarshal dec_executeQuery rawArgs zero_executeQuery with
  | Err e => mret (inl (errorResponse id rpcInvalidParams ("invalid arguments: " +:+ e)))
  | Ok args =>
      if String.eqb (TrimSpace (args_Query args)) "" then
        mret (inl (errorResponse id rpcInvalidParams "query is required"))
      else if String.eqb (args_AgentID args) "" then
        mret (inl (errorResponse id rpcInvalidParams "agent_id is required"))
      else
        analysis ← risk_analysis args;
        let decision := Decide (policy cfg) analysis in
        let querySHA := querySHA256 (args_Query args) in
        paused ← gets (fun w => BlocksRisk (pause w) (RiskLevel analysis));
        if (paused : bool) then answer (block_paused id args analysis decision querySHA)
        else
          quarantined ← gets (agentQuarantined cfg (args_AgentID args) analysis);
          if (quarantined : bool) then answer (block_quarantined id args analysis decision querySHA)
          else if String.eqb (Action decision) PolicyActionBlock then
            answer (block_by_policy id args analysis decision querySHA)
          else if String.eqb (Action decision) PolicyActionExecute then
            answer (execute_now id args analysis decision querySHA)
          else if String.eqb (Action decision) PolicyActionApprove then
            t ← gets now;
            request_approval_path id args analysis decision querySHA
              (generateID "appr" entropy t)
          else answer (block_unknown_action id args analysis decision querySHA)
  end.

(** ** prepare_restore_snapshot *)
Definition restore_command (args : restoreSnapshotParams) (targetTable : string) : string :=
  "backstop restore --db " +:+ str1 dquote +:+ "$BACKSTOP_RESTORE_DB" +:+ str1 dquote
  +:+ " --storage " +:+ shellQuote (storage cfg)
  +:+ " --snapshot-id " +:+ shellQuote (restore_SnapshotID args)
  +:+ " --table " +:+ shellQuote (restore_Table args)
  +:+ " --target-table " +:+ shellQuote targetTable.

Definition toolRestoreSnapshot (id : any) (rawArgs : option json) : ST World MCPResponse :=
  match Unmarshal dec_restoreSnapshot rawArgs zero_restoreSnapshot with
  | Err e => mret (errorResponse id rpcInvalidParams ("invalid arguments: " +:+ e))
  | Ok args =>
      if String.eqb (restore_SnapshotID args) "" then
        mret (errorResponse id rpcInvalidParams "snapshot_id is required")
      else if String.eqb (restore_Table args) "" then
        mret (errorResponse id rpcInvalidParams "table is required")
      else if String.eqb (restore_AgentID args) "" then
        mret (errorResponse id rpcInvalidParams "agent_id is required")
      else if String.eqb (storage cfg) "" then
        mret (errorResponse id rpcInvalidParams
          "gateway --storage is required to build the Python restore command")
      else
        RecordDetailed (restore_AgentID args)
          ("RESTORE " +:+ restore_Table args +:+ " FROM " +:+ restore_SnapshotID args)
          RiskHigh true "" (environment cfg) (clusterID cfg);;
        t ← gets now;
        let target := TrimSpace (TargetTable args) in
        let targetTable :=
          if String.eqb target "" then restore_Table args +:+ "_recovered" else target in
        mret (okResponse id (AnyMap [
          ("status", AnyString "restore_plan");
          ("snapshot_id", AnyString (restore_SnapshotID args));
          ("source_table", AnyString (restore_Table args));
          ("target_table", AnyString targetTable);
          ("restore_command", AnyString (restore_command args targetTable));
          ("message", AnyString "Run this Backstop CLI command in an operator shell with BACKSTOP_RESTORE_DB set. The gateway intentionally does not return database credentials.");
          ("recorded_at", AnyString (Format_RFC3339 t));
          ("environment", AnyString (environment cfg));
          ("cluster_id", AnyString (clusterID cfg))]))
  end.

(** ** Dispatch *)
Definition handleListTools (id : any) : MCPResponse :=
  okResponse id (AnyMap [("tools", AnyList builtinTools)]).

(** Without a principal in the context every scope is granted. *)
Definition contextHasScope (principal : option AuthPrincipal) (scope : string) : bool :=
  match principal with
  | None => true
  | Some p => hasScope p scope
  end.

Definition forbidden (id : any) (scope : string) : MCPResponse :=
  errorResponse id rpcInvalidRequest ("forbidden: " +:+ scope +:+ " scope is required").

Definition handleToolsCall (entropy : option (list Z)) (principal : option AuthPrincipal)
    (req : MCPRequest) : ST World (MCPResponse + inflight) :=
  match Unmarshal dec_toolCall (Params req) {| tool_Name := ""; Arguments := None |} with
  | Err e => mret (inl (errorResponse (req_ID req) rpcInvalidParams ("invalid params: " +:+ e)))
  | Ok call =>
      let name := tool_Name call in
      if String.eqb name "execute_query" then
        if negb (contextHasScope principal "query:execute") then
          mret (inl (forbidden (req_ID req) "query:execute"))
        else toolExecuteQuery entropy (req_ID req) (Arguments call)
      else if String.eqb name "analyze_query" then
        if negb (contextHasScope principal "query:analyze") then
          mret (inl (forbidden (req_ID req) "query:analyze"))
        else answer (toolAnalyzeQuery (req_ID req) (Arguments call))
      else if String.eqb name "prepare_restore_snapshot"
              || String.eqb name "restore_snapshot" then
        if negb (contextHasScope principal "restore:prepare") then
          mret (inl (forbidden (req_ID req) "restore:prepare"))
        else answer (toolRestoreSnapshot (req_ID req) (Arguments call))
      else if String.eqb name "list_tools" then mret (inl (handleListTools (req_ID req)))
      else
        mret (inl (errorResponse (req_ID req) rpcMethodNotFound ("unknown tool: " +:+ name)))
  end.

(** [Handle] of a request body. *)
Definition Handle (entropy : option (list Z)) (principal : option AuthPrincipal)
    (body : string) : ST World (MCPResponse + inflight) :=
  match Unmarshal dec_request (json_document body) zero_request with
  | Err e => mret (inl (errorResponse AnyNil rpcParseError ("parse error: " +:+ e)))
  | Ok req =>
      if String.eqb (Method req) "" then
        mret (inl (errorResponse (req_ID req) rpcInvalidRequest "missing method"))
      else if String.eqb (Method req) "tools/list" then
        mret (inl (handleListTools (req_ID req)))
      else if String.eqb (Method req) "tools/call" then handleToolsCall entropy principal req
      else
        mret (inl (errorResponse (req_ID req) rpcMethodNotFound
          ("unknown method: " +:+ Method req)))
  end.
End server.
