(* ===== verification/GatewayCalls.v ===== *)
(** * execute_query among concurrent requests

    The handlers of mcp_server.go and behavior.go as calls: the same code as in
    McpServer and Behavior, with each operation of a component an action of its own.
    An operation is one action when the component makes it so: the registry has its
    mutex, the metrics theirs, the approval engine its concurrent map and channels,
    a transaction of the metadata database is one, and so is a statement.  The impact
    analysis and the check of the recovery point, which write nothing the other
    calls read, count as one action, and so does posting an alert.  The lemmas at the
    end say that a call by itself is the handler. *)
From S2P Require Import Prelude GoString GoTime Json Postgres PgAst SqlAnalyzer Policy.
From S2P Require Import GatewayMetrics Manifest AgentIdentity Approval Pause GatewayMetadata.
From S2P Require Import GatewayWorld Behavior Impact McpServer Interleave.

Open Scope Z_scope.

Section calls.
Context `{pg : Postgres, env : GatewayEnv}.
Variable Parse : string -> result (list (option Node)).
Variable cfg : Config.

Definition recordRiskAttempt_call (agentID : string) (analysis : sqlAnalysis) (reason : string)
    : call World unit :=
  if String.eqb (RiskLevel analysis) RiskSafe then mret tt
  else
    t ← atomic (gets now);
    read ← atomic (gets (fun w => GetAgentState agentID <$> metadata w));
    match read with
    | None => mret tt
    | Some stored =>
        let (state, newQuarantine) :=
          next_state (policy cfg) t agentID (Table analysis) reason stored in
        cwhen newQuarantine
          (atomic (upd_metrics IncAgentQuarantine);;
           atomic (emitAlert cfg "critical" "agent_quarantined" agentID analysis "" "" ""
             "Inspect agent behavior and deny similar destructive retries."
             "Agent quarantined after repeated risky attempts."));;
        saved ← atomic (with_metadata (fun _ => SaveAgentState state));
        if is_ok saved then atomic (upd_metrics (IncRiskyAttempt (RiskLevel analysis)))
        else atomic (upd_metrics (IncBlock "metadata_write_failed"))
    end.

Definition block_paused_call (id : any) (args : executeQueryParams) (analysis : sqlAnalysis)
    (d : PolicyDecision) (querySHA : string) : call World MCPResponse :=
  atomic (RecordQuery cfg args (RiskLevel analysis) querySHA false);;
  atomic (upd_metrics (IncQuery (RiskLevel analysis) "blocked"));;
  atomic (upd_metrics (IncBlock "paused"));;
  atomic (alert_for cfg "critical" "execution_blocked_paused" args analysis querySHA ""
    "Gateway is paused. Resume only after incident review."
    "Query execution blocked by emergency pause.");;
  mret (status_response id "blocked" (RiskLevel analysis)
    (safetyMetadata cfg analysis (block_only_decision "gateway is paused" d))
    (AnyString "Gateway emergency pause is active; query not executed.") []).

Definition block_quarantined_call (id : any) (args : executeQueryParams)
    (analysis : sqlAnalysis) (d : PolicyDecision) (querySHA : string) : call World MCPResponse :=
  atomic (RecordQuery cfg args (RiskLevel analysis) querySHA false);;
  atomic (upd_metrics (IncQuery (RiskLevel analysis) "blocked"));;
  atomic (upd_metrics (IncBlock "agent_quarantined"));;
  atomic (alert_for cfg "critical" "agent_quarantined" args analysis querySHA ""
    "Inspect agent prompt/tool loop and keep writes blocked for this agent."
    "Agent is quarantined after repeated risky attempts.");;
  mret (status_response id "blocked" (RiskLevel analysis)
    (safetyMetadata cfg analysis (block_only_decision "agent is quarantined" d))
    (AnyString "Agent is temporarily quarantined after repeated risky attempts.") []).

Definition block_by_policy_call (id : any) (args : executeQueryParams) (analysis : sqlAnalysis)
    (d : PolicyDecision) (querySHA : string) : call World MCPResponse :=
  atomic (RecordQuery cfg args (RiskLevel analysis) querySHA false);;
  recordRiskAttempt_call (args_AgentID args) analysis "blocked";;
  atomic (upd_metrics (IncQuery (RiskLevel analysis) "blocked"));;
  atomic (upd_metrics (IncBlock (blockReasonLabel analysis d)));;
  cwhen (String.eqb (Operation analysis) "DROP DATABASE"
         || String.eqb (Operation analysis) "DROP SCHEMA")
    (atomic (alert_for cfg "critical"
       ("blocked_" +:+ ToLower (ReplaceAll (Operation analysis) " " "_")) args analysis
       querySHA ""
       "Use native backup/PITR planning. Table snapshots cannot recover this operation."
       (decision_Reason d)));;
  mret (status_response id "blocked" (RiskLevel analysis) (safetyMetadata cfg analysis d)
    (AnyString (decision_Reason d)) []).

Definition execution_response_call (id : any) (args : executeQueryParams)
    (analysis : sqlAnalysis) (d : PolicyDecision) (snapshot : any)
    (approvalID recoveryPoint : list (string * any)) : call World MCPResponse :=
  result ← atomic (executeSQL cfg args analysis);
  match result with
  | Err e =>
      atomic (upd_metrics (IncQuery (RiskLevel analysis) "failed"));;
      mret (okResponse id (AnyMap ([("status", AnyString "failed")] ++ approvalID
        ++ [("risk_level", AnyString (RiskLevel analysis)); ("snapshot_id", snapshot);
            ("safety_metadata", safetyMetadata cfg analysis d); ("error", AnyString e)])))
  | Ok members =>
      atomic (upd_metrics (IncQuery (RiskLevel analysis) "executed"));;
      mret (okResponse id (AnyMap (members ++ [("status", AnyString "executed")] ++ approvalID
        ++ [("risk_level", AnyString (RiskLevel analysis)); ("snapshot_id", snapshot);
            ("safety_metadata", safetyMetadata cfg analysis d)] ++ recoveryPoint)))
  end.

Definition execute_now_call (id : any) (args : executeQueryParams) (analysis : sqlAnalysis)
    (d : PolicyDecision) (querySHA : string) : call World MCPResponse :=
  atomic (RecordQuery cfg args (RiskLevel analysis) querySHA true);;
  execution_response_call id args analysis d AnyNil [] [].

Definition block_recovery_call (id : any) (args : executeQueryParams) (analysis : sqlAnalysis)
    (d : PolicyDecision) (querySHA approvalID table e : string) : call World MCPResponse :=
  atomic (RecordQuery cfg args (RiskLevel analysis) querySHA false);;
  atomic (upd_metrics (IncRecovery "failed"));;
  atomic (upd_metrics (IncQuery (RiskLevel analysis) "blocked"));;
  atomic (alert_for cfg "critical" "recovery_readiness_failed" args analysis querySHA approvalID
    "Capture or repair a latest sidecar snapshot before approving this operation." e);;
  mret (status_response id "blocked" (RiskLevel analysis) (safetyMetadata cfg analysis d)
    (AnyString e)
    [("approval_id", AnyString approvalID);
     ("snapshot_id", nullableString (args_SnapshotID args)); ("table", AnyString table)]).

Definition block_metadata_call (id : any) (args : executeQueryParams) (analysis : sqlAnalysis)
    (d : PolicyDecision) (querySHA approvalID e : string) : call World MCPResponse :=
  atomic (RecordQuery cfg args (RiskLevel analysis) querySHA false);;
  atomic (upd_metrics (IncQuery (RiskLevel analysis) "blocked"));;
  atomic (upd_metrics (IncBlock "metadata_write_failed"));;
  atomic (alert_for cfg "critical" "approval_metadata_write_failed" args analysis querySHA approvalID
    "Treat recovery state as ambiguous; repair metadata storage before approving destructive operations."
    e);;
  mret (status_response id "blocked" (RiskLevel analysis) (safetyMetadata cfg analysis d)
    (AnyString "Approval metadata could not be durably recorded; query not executed.")
    [("approval_id", AnyString approvalID)]).

Definition resume_denied_call (fl : inflight)
    (status approved_metric event actor message action : string) : call World MCPResponse :=
  let risk := RiskLevel (fl_analysis fl) in
  atomic (RecordQuery cfg (fl_args fl) risk (fl_querySHA fl) false);;
  atomic (registry_RecordApprovalResolved (fl_approvalID fl) status actor);;
  recordRiskAttempt_call (args_AgentID (fl_args fl)) (fl_analysis fl) status;;
  atomic (upd_metrics (IncApproval approved_metric));;
  atomic (upd_metrics (IncQuery risk "denied"));;
  atomic (alert_for cfg "warning" event (fl_args fl) (fl_analysis fl) (fl_querySHA fl)
    (fl_approvalID fl) action message);;
  mret (status_response (fl_id fl) "denied" risk
    (safetyMetadata cfg (fl_analysis fl) (fl_decision fl)) (AnyString message)
    [("approval_id", AnyString (fl_approvalID fl))]).

Definition resume_blocked_call (fl : inflight) (status actor message : string)
    (record : call World unit) : call World MCPResponse :=
  let risk := RiskLevel (fl_analysis fl) in
  atomic (RecordQuery cfg (fl_args fl) risk (fl_querySHA fl) false);;
  atomic (registry_RecordApprovalResolved (fl_approvalID fl) status actor);;
  record;;
  mret (status_response (fl_id fl) "blocked" risk
    (safetyMetadata cfg (fl_analysis fl) (fl_decision fl)) (AnyString message)
    [("approval_id", AnyString (fl_approvalID fl))]).

Definition resume_approved_call (fl : inflight) (resolution : ApprovalResolution)
    : call World MCPResponse :=
  let risk := RiskLevel (fl_analysis fl) in
  atomic (RecordQuery cfg (fl_args fl) risk (fl_querySHA fl) (res_Approved resolution));;
  if negb (res_Approved resolution) then
    atomic (registry_RecordApprovalResolved (fl_approvalID fl) "denied" (res_Actor resolution));;
    recordRiskAttempt_call (args_AgentID (fl_args fl)) (fl_analysis fl) "denied";;
    atomic (upd_metrics (IncApproval "denied"));;
    atomic (upd_metrics (IncQuery risk "denied"));;
    mret (status_response (fl_id fl) "denied" risk
      (safetyMetadata cfg (fl_analysis fl) (fl_decision fl))
      (AnyString "Query denied by operator.")
      [("approval_id", AnyString (fl_approvalID fl))])
  else
    atomic (registry_RecordApprovalResolved (fl_approvalID fl) "approved" (res_Actor resolution));;
    atomic (upd_metrics (IncApproval "approved"));;
    execution_response_call (fl_id fl) (fl_args fl) (fl_analysis fl) (fl_decision fl)
      (nullableString (args_SnapshotID (fl_args fl)))
      [("approval_id", AnyString (fl_approvalID fl))]
      (recovery_member (fl_recovery fl)).

(** The request after its wait. *)
Definition resumeExecuteQuery_call (fl : inflight) (resolution : ApprovalResolution)
    (err : option approvalError) : call World MCPResponse :=
  match err with
  | Some ErrApprovalTimeout =>
      resume_denied_call fl "timeout" "timeout" "approval_timeout" ""
        "Approval request timed out; query not executed."
        "Re-submit only after confirming current query hash and recovery readiness."
  | Some e =>
      resume_denied_call fl "denied" "denied" "approval_denied" (res_Actor resolution)
        (approvalError_Error e)
        "Inspect repeated attempts from this agent before retrying."
  | None =>
      let risk := RiskLevel (fl_analysis fl) in
      if negb (binding_matches cfg fl) then
        resume_blocked_call fl "binding_mismatch" (res_Actor resolution)
          "Approval binding mismatch; query not executed."
          (atomic (upd_metrics (IncApproval "binding_mismatch"));;
           atomic (upd_metrics (IncQuery risk "blocked"));;
           atomic (upd_metrics (IncBlock "approval_binding_mismatch")))
      else
        paused ← atomic (gets (fun w => BlocksRisk (pause w) risk));
        if (paused : bool) then
          resume_blocked_call fl "paused" (res_Actor resolution)
            "Gateway emergency pause became active after approval; query not executed."
            (atomic (upd_metrics (IncQuery risk "blocked"));;
             atomic (upd_metrics (IncBlock "paused"));;
             atomic (alert_for cfg "critical" "approved_execution_blocked_paused" (fl_args fl)
               (fl_analysis fl) (fl_querySHA fl) (fl_approvalID fl)
               "Gateway was paused after approval. Re-review before resuming."
               "Approved query blocked by emergency pause."))
        else resume_approved_call fl resolution
  end.

Definition answer_call (m : call World MCPResponse) : call World (MCPResponse + inflight) :=
  resp ← m; mret (inl resp).

(** The approval path: the operator is told of the request before the engine holds
    it. *)
Definition request_approval_path_call (id : any) (args : executeQueryParams)
    (analysis : sqlAnalysis) (d : PolicyDecision) (querySHA approvalID : string)
    : call World (MCPResponse + inflight) :=
  verified ←
    (if RequiresRecovery d && snapshotBeforeCritical cfg then
       atomic (verifyCriticalRecoveryPointWithAnalysis cfg args analysis)
     else mret ("", Ok zero_manifest));
  match verified with
  | (table, Err e) =>
      resp ← block_recovery_call id args analysis d querySHA approvalID table e;
      mret (inl resp)
  | (_, Ok recovery) =>
      cwhen (RequiresRecovery d && snapshotBeforeCritical cfg)
        (atomic (upd_metrics (IncRecovery "verified")));;
      let details := new_details cfg args analysis querySHA approvalID in
      let fl := {| fl_id := id; fl_args := args; fl_analysis := analysis; fl_decision := d;
                   fl_querySHA := querySHA; fl_approvalID := approvalID;
                   fl_details := details; fl_recovery := recovery |} in
      recorded ← atomic (registry_RecordApprovalRequested details);
      match recorded with
      | Err e =>
          resp ← block_metadata_call id args analysis d querySHA approvalID e;
          mret (inl resp)
      | Ok _ =>
          atomic (alert_for cfg "warning" "approval_requested" args analysis querySHA approvalID
            "Review exact query hash, environment, and recovery point before approving."
            (decision_Reason d));;
          begun ← atomic (begin_approval fl);
          match begun with
          | None => mret (inr fl)
          | Some err =>
              resp ← resumeExecuteQuery_call fl zero_resolution (Some err);
              mret (inl resp)
          end
      end
  end.

Definition block_unknown_action_call (id : any) (args : executeQueryParams)
    (analysis : sqlAnalysis) (d : PolicyDecision) (querySHA : string) : call World MCPResponse :=
  atomic (RecordQuery cfg args (RiskLevel analysis) querySHA false);;
  atomic (upd_metrics (IncQuery (RiskLevel analysis) "blocked"));;
  atomic (upd_metrics (IncBlock "unknown_policy_action"));;
  mret (status_response id "blocked" (RiskLevel analysis) (safetyMetadata cfg analysis d)
    (AnyString "policy returned an unknown action; gateway failed closed") []).

(** The request up to its answer or its wait. *)
Definition toolExecuteQuery_call (entropy : option (list Z)) (id : any) (rawArgs : option json)
    : call World (MCPResponse + inflight) :=
  match Unmarshal dec_executeQuery rawArgs zero_executeQuery with
  | Err e => mret (inl (errorResponse id rpcInvalidParams ("invalid arguments: " +:+ e)))
  | Ok args =>
      if String.eqb (TrimSpace (args_Query args)) "" then
        mret (inl (errorResponse id rpcInvalidParams "query is required"))
      else if String.eqb (args_AgentID args) "" then
        mret (inl (errorResponse id rpcInvalidParams "agent_id is required"))
      else
        analysis ← atomic (risk_analysis Parse cfg args);
        let decision := Decide (policy cfg) analysis in
        let querySHA := querySHA256 (args_Query args) in
        paused ← atomic (gets (fun w => BlocksRisk (pause w) (RiskLevel analysis)));
        if (paused : bool) then answer_call (block_paused_call id args analysis decision querySHA)
        else
          quarantined ← atomic (gets (agentQuarantined cfg (args_AgentID args) analysis));
          if (quarantined : bool) then
            answer_call (block_quarantined_call id args analysis decision querySHA)
          else if String.eqb (Action decision) PolicyActionBlock then
            answer_call (block_by_policy_call id args analysis decision querySHA)
          else if String.eqb (Action decision) PolicyActionExecute then
            answer_call (execute_now_call id args analysis decision querySHA)
          else if String.eqb (Action decision) PolicyActionApprove then
            t ← atomic (gets now);
            request_approval_path_call id args analysis decision querySHA
              (generateID "appr" entropy t)
          else answer_call (block_unknown_action_call id args analysis decision querySHA)
  end.
End calls.

(** ** A call by itself *)
Section alone.
Context `{pg : Postgres, env : GatewayEnv}.
Variable Parse : string -> result (list (option Node)).
Variable cfg : Config.

Lemma seq_recordRiskAttempt a an r :
  sequentially (recordRiskAttempt cfg a an r) (recordRiskAttempt_call cfg a an r).
Proof.
  intros w. unfold recordRiskAttempt, recordRiskAttempt_call.
  destruct (String.eqb (RiskLevel an) RiskSafe) eqn:Hr; [by destruct (metadata w)|].
  rewrite alone_bind, seq_atomic. cbn [run_gets gets mbind option_bind].
  rewrite alone_bind, seq_atomic. cbn [run_gets gets mbind option_bind].
  destruct (metadata w) as [store|]; [|done]. cbn [fmap option_fmap option_map].
  destruct (next_state _ _ _ _ _ _) as [st newq].
  match goal with |- alone ?c w = Some (?m w) => enough (sequentially m c) as H by apply H end.
  sequence.
Qed.
#[local] Hint Resolve seq_recordRiskAttempt : sequential.

Lemma seq_execution_response id args an d sn ai rp :
  sequentially (execution_response cfg id args an d sn ai rp)
    (execution_response_call cfg id args an d sn ai rp).
Proof. unfold execution_response, execution_response_call. sequence. Qed.
#[local] Hint Resolve seq_execution_response : sequential.

Lemma seq_resume_denied fl s m ev ac msg a :
  sequentially (resume_denied cfg fl s m ev ac msg a) (resume_denied_call cfg fl s m ev ac msg a).
Proof. unfold resume_denied, resume_denied_call. sequence. Qed.
Lemma seq_resume_blocked fl s ac msg m c :
  sequentially m c ->
  sequentially (resume_blocked cfg fl s ac msg m) (resume_blocked_call cfg fl s ac msg c).
Proof. intros H. unfold resume_blocked, resume_blocked_call. sequence. Qed.
Lemma seq_resume_approved fl r :
  sequentially (resume_approved cfg fl r) (resume_approved_call cfg fl r).
Proof. unfold resume_approved, resume_approved_call. sequence. Qed.
#[local] Hint Resolve seq_resume_denied seq_resume_blocked seq_resume_approved : sequential.

Lemma seq_resumeExecuteQuery fl r err :
  sequentially (resumeExecuteQuery cfg fl r err) (resumeExecuteQuery_call cfg fl r err).
Proof.
  unfold resumeExecuteQuery, resumeExecuteQuery_call. destruct err as [[]|]; sequence.
  all: apply seq_resume_blocked; sequence.
Qed.
#[local] Hint Resolve seq_resumeExecuteQuery : sequential.

Lemma seq_answer m c : sequentially m c -> sequentially (answer m) (answer_call c).
Proof. intros H. unfold answer, answer_call. sequence. Qed.

Lemma seq_request_approval_path id args an d h ai :
  sequentially (request_approval_path cfg id args an d h ai)
    (request_approval_path_call cfg id args an d h ai).
Proof.
  unfold request_approval_path, request_approval_path_call,
    block_recovery, block_recovery_call, block_metadata, block_metadata_call. sequence.
Qed.
#[local] Hint Resolve seq_answer seq_request_approval_path : sequential.

Lemma seq_toolExecuteQuery entropy id raw :
  sequentially (toolExecuteQuery Parse cfg entropy id raw)
    (toolExecuteQuery_call Parse cfg entropy id raw).
Proof.
  unfold toolExecuteQuery, toolExecuteQuery_call.
  sequence; apply seq_answer;
    unfold block_paused, block_paused_call, block_quarantined, block_quarantined_call,
      block_by_policy, block_by_policy_call, execute_now, execute_now_call,
      block_unknown_action, block_unknown_action_call; sequence.
Qed.

(** By itself a request is handled as McpServer says, before its wait and after it. *)
Theorem requests_alone entropy id raw fl r err w :
  alone (toolExecuteQuery_call Parse cfg entropy id raw) w
    = Some (toolExecuteQuery Parse cfg entropy id raw w)
  /\ alone (resumeExecuteQuery_call cfg fl r err) w = Some (resumeExecuteQuery cfg fl r err w).
Proof. split; [apply seq_toolExecuteQuery|apply seq_resumeExecuteQuery]. Qed.
End alone.
