(* ===== verification/BehaviorConcurrent.v ===== *)
(** * Risky attempts that overlap

    [recordRiskAttempt] reads an agent's state from the metadata database and writes
    it back in another transaction.  Attempts of different agents do not disturb
    each other; attempts of one agent that overlap are counted once. *)
From S2P Require Import Prelude GoString GoTime Postgres SqlAnalyzer Policy GatewayMetrics.
From S2P Require Import GatewayMetadata GatewayWorld Behavior Interleave McpServer GatewayCalls.

Open Scope Z_scope.

Section attempts.
Context `{pg : Postgres, env : GatewayEnv}.
Variable cfg : Config.

(** What the database holds of an agent. *)
Definition row_of (agentID : string) (w : World) : option (bool * option AgentRow) :=
  (fun s => (available s, agent_state s !! agentID)) <$> metadata w.

Lemma row_of_agents a w w' : agents_of w' = agents_of w -> row_of a w' = row_of a w.
Proof.
  unfold agents_of, row_of. destruct (metadata w), (metadata w'); cbn; congruence.
Qed.

Lemma GetAgentState_row a w w' :
  row_of a w' = row_of a w -> GetAgentState a <$> metadata w' = GetAgentState a <$> metadata w.
Proof.
  unfold row_of, GetAgentState. destruct (metadata w) as [s|], (metadata w') as [s'|]; cbn; try done.
  by intros [= -> ->].
Qed.

(** The state an attempt leaves, given the one it read. *)
Definition attempted (t : time) (a : string) (analysis : sqlAnalysis) (reason : string)
    (stored : option AgentState) : AgentState :=
  (next_state (policy cfg) t a (Table analysis) reason stored).1.

Definition saved (st : AgentState) : ST World (result unit) :=
  with_metadata (fun _ => SaveAgentState st).

(** A save writes the row of its agent, from what the row's table was, and no other. *)
Lemma saved_rows st w a :
  row_of a (run_state (saved st) w) =
    if decide (a = AgentID st) then
      row_of a (run_state (saved st) w)
    else row_of a w.
Proof.
  destruct (decide _) as [|Hne]; [done|].
  unfold row_of, run_state, saved, with_metadata.
  destruct (metadata w) as [s|] eqn:Hm; [|by cbn; rewrite Hm].
  unfold SaveAgentState, withTx. destruct (available s) eqn:Ha; cbn; rewrite Ha; [|done].
  by rewrite lookup_insert_ne.
Qed.

Lemma saved_own st w w' :
  row_of (AgentID st) w = row_of (AgentID st) w' ->
  row_of (AgentID st) (run_state (saved st) w) = row_of (AgentID st) (run_state (saved st) w').
Proof.
  unfold row_of, run_state, saved, with_metadata.
  destruct (metadata w) as [s|] eqn:Hm, (metadata w') as [s'|] eqn:Hm'; try done;
    [|by cbn; rewrite Hm, Hm'].
  unfold SaveAgentState, withTx. cbn. intros [= Ha Hr]. rewrite Ha.
  destruct (available s') eqn:Ha'; cbn; rewrite ?Ha, ?Ha', ?lookup_insert_eq; congruence.
Qed.

Lemma next_state_agent t a analysis reason stored :
  (forall st, stored = Some st -> AgentID st = a) ->
  AgentID (attempted t a analysis reason stored) = a.
Proof.
  intros H. unfold attempted, next_state.
  destruct stored as [st|]; [specialize (H st eq_refl)|]; repeat case_match; done.
Qed.

Lemma GetAgentState_agent a s st : GetAgentState a s = Some st -> AgentID st = a.
Proof.
  unfold GetAgentState. destruct (available s); [|done].
  destruct (agent_state s !! a) as [row|]; [|done]. cbn.
  destruct (row_last_reason row), (row_last_table row); cbn; try done. by intros [= <-].
Qed.

(** ** Among attempts of other agents *)
Definition relies (a : string) (w w' : World) : Prop := row_of a w' = row_of a w.
Definition guarantees (a : string) (w w' : World) : Prop :=
  forall b, b <> a -> row_of b w' = row_of b w.

Lemma relies_rtc a w w' : rtc (relies a) w w' -> row_of a w' = row_of a w.
Proof. induction 1 as [|x y z Hxy _ IH]; [done|]. unfold relies in Hxy. congruence. Qed.

(** An action that leaves the agents' rows alone. *)
Lemma safe_incidental {A B} a (Q : B -> World -> Prop) (m : ST World A) (k : A -> call World B) w :
  (forall s, agents_of (run_state m s) = agents_of s) ->
  (forall s, row_of a s = row_of a w ->
     safe (relies a) (guarantees a) Q (k (run_value m s)) (run_state m s)) ->
  safe (relies a) (guarantees a) Q (atomic m ≫= k) w.
Proof.
  intros Hm Hk s Hr%relies_rtc _. split; [|by apply Hk].
  intros b _. by apply row_of_agents.
Qed.

Lemma metrics_agents f w : agents_of (run_state (upd_metrics f) w) = agents_of w.
Proof. done. Qed.

Lemma alert_agents sev ev a an sha ai sid act msg w :
  agents_of (run_state (emitAlert cfg sev ev a an sha ai sid act msg) w) = agents_of w.
Proof. apply (Emit_agents (alert_webhook cfg)). Qed.

(** The row an attempt leaves by itself. *)
Definition row_alone (t : time) (a : string) (analysis : sqlAnalysis) (reason : string) (w : World)
    : option (bool * option AgentRow) :=
  row_of a (run_state (recordRiskAttempt cfg a analysis reason) (set_now t w)).

Lemma row_alone_saved t a analysis reason w store :
  metadata w = Some store -> String.eqb (RiskLevel analysis) RiskSafe = false ->
  row_alone t a analysis reason w
  = row_of a (run_state (saved (attempted t a analysis reason (GetAgentState a store))) w).
Proof.
  intros Hm Hr. unfold row_alone, recordRiskAttempt, run_state. cbn [metadata set_now]. rewrite Hm, Hr.
  unfold attempted. change (now (set_now t w)) with t.
  destruct (next_state _ _ _ _ _ _) as [st newq] eqn:Hst. cbn [fst].
  assert (AgentID st = a) as <-.
  { change st with (st, newq).1. rewrite <- Hst. apply next_state_agent.
    intros st0. apply GetAgentState_agent. }
  rewrite !run_bind. cbn [snd]. set (w1 := run_state (when newq _) _).
  assert (agents_of w1 = agents_of w) as H1.
  { unfold w1. destruct newq; [|done]. unfold when, run_state. rewrite run_bind.
    etransitivity; [apply alert_agents|done]. }
  clearbody w1. change (with_metadata (fun _ => SaveAgentState st)) with (saved st).
  transitivity (row_of (AgentID st) (run_state (saved st) w1)).
  - by destruct (is_ok _).
  - apply saved_own. by apply row_of_agents.
Qed.

(** What an attempt does once it knows the state to save. *)
Definition counted (st : AgentState) (analysis : sqlAnalysis) : call World unit :=
  ok ← atomic (saved st);
  if is_ok ok then atomic (upd_metrics (IncRiskyAttempt (RiskLevel analysis)))
  else atomic (upd_metrics (IncBlock "metadata_write_failed")).

(** The save, when the agent's row is still what it was read from. *)
Lemma counted_safe a st analysis w s :
  AgentID st = a -> row_of a s = row_of a w ->
  safe (relies a) (guarantees a) (fun _ s => row_of a s = row_of a (run_state (saved st) w))
    (counted st analysis) s.
Proof.
  intros Ha Hs s' Hs'%relies_rtc _. split.
  { intros b Hb. change (row_of b (run_state (saved st) s') = row_of b s').
    rewrite saved_rows. by rewrite decide_False by congruence. }
  assert (row_of a (run_state (saved st) s') = row_of a (run_state (saved st) w)) as Hrow.
  { rewrite <- Ha. apply saved_own. rewrite Ha. congruence. }
  change (safe (relies a) (guarantees a) (fun _ s => row_of a s = row_of a (run_state (saved st) w))
    (if is_ok (run_value (saved st) s') then atomic (upd_metrics (IncRiskyAttempt (RiskLevel analysis)))
     else atomic (upd_metrics (IncBlock "metadata_write_failed"))) (run_state (saved st) s')).
  destruct (is_ok _); (intros s5 H5%relies_rtc _; split; [done|]; intros s6 H6%relies_rtc;
    rewrite H6; change (row_of a s5 = row_of a (run_state (saved st) w)); by rewrite H5).
Qed.

Lemma attempt_safe a analysis reason w :
  safe (relies a) (guarantees a)
    (fun _ s => exists t, row_of a s = row_alone t a analysis reason w)
    (recordRiskAttempt_call cfg a analysis reason) w.
Proof.
  unfold recordRiskAttempt_call.
  destruct (String.eqb (RiskLevel analysis) RiskSafe) eqn:Hr.
  { intros s Hs%relies_rtc. exists 0. rewrite Hs. unfold row_alone, recordRiskAttempt, run_state.
    cbn [metadata set_now]. rewrite Hr. by destruct (metadata w). }
  apply safe_incidental; [done|]. intros s1 H1. unfold run_value, gets. cbn [fst].
  apply safe_incidental; [done|]. intros s2 H2. unfold run_value, gets. cbn [fst].
  change (run_state _ s1) with s1 in H2. change (run_state _ s2) with s2.
  rewrite (GetAgentState_row a w s2) by congruence.
  destruct (metadata w) as [store|] eqn:Hm; cbn [fmap option_fmap option_map].
  2: { intros s Hs%relies_rtc. exists 0. rewrite Hs, H2, H1. unfold row_alone, recordRiskAttempt, run_state.
       cbn [metadata set_now]. by rewrite Hm. }
  destruct (next_state _ _ _ _ _ _) as [st newq] eqn:Hst.
  assert (attempted (now s1) a analysis reason (GetAgentState a store) = st) as Hatt
    by (unfold attempted; by rewrite Hst).
  assert (AgentID st = a) as Ha.
  { rewrite <- Hatt. apply next_state_agent. intros st0. apply GetAgentState_agent. }
  set (rest := counted st analysis).
  enough (forall s, row_of a s = row_of a w -> safe (relies a) (guarantees a)
    (fun _ s => exists t, row_of a s = row_alone t a analysis reason w) rest s) as Hsave.
  { destruct newq; [|apply Hsave; congruence].
    set (alert := emitAlert cfg "critical" "agent_quarantined" a analysis "" "" ""
      "Inspect agent behavior and deny similar destructive retries."
      "Agent quarantined after repeated risky attempts.").
    change (safe (relies a) (guarantees a)
      (fun _ s => exists t, row_of a s = row_alone t a analysis reason w)
      (atomic (upd_metrics IncAgentQuarantine) ≫= (fun _ => atomic alert ≫= (fun _ => rest))) s2).
    apply safe_incidental; [apply metrics_agents|]. intros s3 H3.
    apply safe_incidental; [intros; apply alert_agents|]. intros s4 H4. apply Hsave.
    etransitivity; [apply row_of_agents, alert_agents|]. rewrite H4.
    change (row_of a s3 = row_of a w). congruence. }
  intros s Hs. eapply safe_post; [|by apply counted_safe].
  intros _ s' ->. exists (now s1). by rewrite (row_alone_saved _ _ _ _ _ _ Hm Hr), Hatt.
Qed.

(** ** Attempts of one agent that overlap *)

Definition first_attempt (t : time) (a : string) (analysis : sqlAnalysis) (reason : string)
    : AgentState := {|
  AgentID := a; RiskyAttempts := 1; WindowStartedAt := t; QuarantineUntil := None;
  LastReason := reason; LastTable := Table analysis |}.

Lemma first_attempt_next t a analysis reason :
  1 < MaxBlockedAttemptsPerWindow (policy cfg) ->
  next_state (policy cfg) t a (Table analysis) reason None = (first_attempt t a analysis reason, false).
Proof.
  intros Hmax. unfold next_state. cbn [RiskyAttempts fresh_state].
  rewrite (wrap64_id (0 + 1)) by (unfold int64_range, int64_min, int64_max; lia).
  by assert (MaxBlockedAttemptsPerWindow (policy cfg) <=? 0 + 1 = false) as -> by (apply Z.leb_gt; lia).
Qed.

(** Until it saves, an attempt changes nothing. *)
Lemma attempt_reads a analysis reason w store :
  metadata w = Some store -> RiskLevel analysis <> RiskSafe -> GetAgentState a store = None ->
  1 < MaxBlockedAttemptsPerWindow (policy cfg) ->
  solo 2 (recordRiskAttempt_call cfg a analysis reason) w
  = Some (counted (first_attempt (now w) a analysis reason) analysis, w).
Proof.
  intros Hm Hr%String.eqb_neq Hnone Hmax. unfold recordRiskAttempt_call. rewrite Hr. cbn -[next_state].
  unfold run_state, run_value, gets. cbn [fst snd]. rewrite Hm. cbn [fmap option_fmap option_map].
  by rewrite Hnone, first_attempt_next.
Qed.

Definition db_available (w : World) : Prop :=
  exists store, metadata w = Some store /\ available store = true.
Definition stores (st : AgentState) (w : World) : Prop :=
  exists store, metadata w = Some store /\ available store = true
    /\ GetAgentState (AgentID st) store = Some st.

Lemma counted_saves st analysis s :
  0 <= WindowStartedAt st < year_9999_end -> QuarantineUntil st = None ->
  db_available s ->
  exists m s', solo m (counted st analysis) s = Some (Ret tt, s') /\ stores st s'.
Proof.
  intros Hw Hq (store & Hm & Ha).
  exists 2%nat, (run_state (upd_metrics (IncRiskyAttempt (RiskLevel analysis))) (run_state (saved st) s)).
  assert (saved st s = (Ok tt, set_metadata (Some (snd (SaveAgentState st store))) s)) as Hs.
  { unfold saved, with_metadata. rewrite Hm. unfold SaveAgentState, withTx. by rewrite Ha. }
  split.
  - unfold counted.
    change (solo 1 (if is_ok (run_value (saved st) s) then atomic (upd_metrics (IncRiskyAttempt (RiskLevel analysis)))
      else atomic (upd_metrics (IncBlock "metadata_write_failed"))) (run_state (saved st) s)
      = Some (Ret tt, run_state (upd_metrics (IncRiskyAttempt (RiskLevel analysis))) (run_state (saved st) s))).
    unfold run_value at 1. by rewrite Hs.
  - unfold run_state at 2. rewrite Hs. exists (snd (SaveAgentState st store)). split; [done|]. split.
    + unfold SaveAgentState, withTx. by rewrite Ha.
    + apply GetAgentState_saved; [done..|]. by rewrite Hq.
Qed.

Lemma last_replicated {A} n (x : A) : List.last (replicate n x) x = x.
Proof. induction n as [|[|n] IH]; [done|done|exact IH]. Qed.

Lemma stores_available st w : stores st w -> db_available w.
Proof. intros (s & ? & ? & _). by exists s. Qed.

Lemma reads_all n a analysis reason w :
  forall c', solo 2 (recordRiskAttempt_call cfg a analysis reason) w = Some (c', w) ->
  exists js,
    schedule js {| shared := w; calls := replicate n (recordRiskAttempt_call cfg a analysis reason) |}
    = Some {| shared := w; calls := replicate n c' |}.
Proof.
  intros c' Hc.
  destruct (run_each (eq w) (replicate n (recordRiskAttempt_call cfg a analysis reason))
    (replicate n c')) with (before := @nil (call World unit)) (s := w) as (js & s' & Hrun & <-); [|done|].
  - apply Forall2_replicate. intros s <-. by exists 2%nat, w.
  - by exists js.
Qed.

Lemma saves_all n st analysis w :
  0 <= WindowStartedAt st < year_9999_end -> QuarantineUntil st = None -> db_available w ->
  exists js w',
    schedule js {| shared := w; calls := replicate (S n) (counted st analysis) |}
      = Some {| shared := w'; calls := replicate (S n) (Ret tt) |}
    /\ stores st w'.
Proof.
  intros Hw Hq Ha. destruct (counted_saves st analysis w Hw Hq Ha) as (m & w1 & Hsolo & H1).
  destruct (run_each (stores st) (replicate n (counted st analysis)) (replicate n (Ret tt)))
    with (before := [@Ret World unit tt]) (s := w1) as (js & w2 & Hrun & H2); [|done|].
  - apply Forall2_replicate. intros s Hs. apply counted_saves; [done..|]. by eapply stores_available.
  - exists (replicate m 0%nat ++ js), w2. split; [|done].
    rewrite schedule_app.
    pose proof (solo_schedule m _ _ _ _ [] (replicate n (counted st analysis)) Hsolo) as Hs.
    cbn [length app] in Hs. cbn [replicate]. rewrite Hs. exact Hrun.
Qed.
End attempts.

(** ** Properties *)
Section properties.
Context `{pg : Postgres, env : GatewayEnv}.

(** C37. Risky attempts of different agents do not disturb each other.  However
    their actions interleave, and whatever goes on elsewhere that leaves the
    agents' rows alone, an attempt that has returned leaves in its agent's row
    exactly what it leaves there by itself, from the world all of them started in. *)
Theorem agents_do_not_interfere cfg (attempts : list (string * sqlAnalysis * string)) elsewhere w p' :
  NoDup attempts.*1.*1 ->
  (forall a s s', elsewhere s s' -> row_of a s' = row_of a s) ->
  preaches (fun _ _ => False) elsewhere
    {| shared := w;
       calls := (fun '(a, analysis, reason) => recordRiskAttempt_call cfg a analysis reason) <$> attempts |}
    p' ->
  forall i a analysis reason,
    attempts !! i = Some (a, analysis, reason) -> calls p' !! i = Some (Ret tt) ->
    exists t, row_of a (shared p') = row_alone cfg t a analysis reason w.
Proof.
  intros Hnd Helse Hr i a analysis reason Hi Hret.
  pose (R := fun j => match attempts !! j with Some (b, _, _) => relies b | None => fun _ _ => True end).
  pose (G := fun j => match attempts !! j with Some (b, _, _) => guarantees b | None => fun _ _ => False end).
  pose (Q := fun j (_ : unit) s => match attempts !! j with
    | Some (b, an, r) => exists t, row_of b s = row_alone cfg t b an r w | None => True end).
  assert (safe (R i) (G i) (Q i) (Ret tt) (shared p')) as Hsafe.
  { refine (rely_guarantee R G Q elsewhere _ _ _ _ _ Hr _ _ Hret); unfold R, G, Q.
    - intros j k Hne s s'.
      destruct (attempts !! j) as [[[b ?] ?]|] eqn:Hj, (attempts !! k) as [[[b' ?] ?]|] eqn:Hk; try done.
      intros HG. apply HG. intros <-. apply Hne. eapply NoDup_lookup; [exact Hnd| |];
        by rewrite !list_lookup_fmap, ?Hj, ?Hk.
    - intros j s s' Hs. destruct (attempts !! j) as [[[b ?] ?]|]; [by apply Helse|done].
    - cbn [calls shared]. intros j c. rewrite list_lookup_fmap.
      destruct (attempts !! j) as [[[b an] r]|]; [|done]. intros [= <-]. apply attempt_safe. }
  specialize (Hsafe _ (rtc_refl _ _)). unfold Q in Hsafe. by rewrite Hi in Hsafe.
Qed.

(** C38. Overlapping risky attempts of one agent are counted once.  However many
    attempts an agent without a stored state makes at the same time, there is an order of
    their transactions in which each reads before any saves: all of them return, the agent's
    state says one attempt, and the agent is not quarantined - while the same attempts
    one after the other do quarantine it once they reach the policy's limit. *)
Theorem overlapping_attempts_count_once cfg n agentID analysis reason w store :
  metadata w = Some store -> available store = true ->
  RiskLevel analysis <> RiskSafe -> GetAgentState agentID store = None ->
  in_window (policy cfg) (now w) (replicate (S n) (now w)) ->
  1 < MaxBlockedAttemptsPerWindow (policy cfg) <= Z.of_nat (S n) ->
  (exists js w',
     schedule js {| shared := w;
       calls := replicate (S n) (recordRiskAttempt_call cfg agentID analysis reason) |}
       = Some {| shared := w'; calls := replicate (S n) (Ret tt) |}
     /\ (GetAgentState agentID <$> metadata w')
          = Some (Some (first_attempt (now w) agentID analysis reason))
     /\ forall t a, agentQuarantined cfg agentID a (set_now t w') = false)
  /\ forall t, t <= Add (now w) (seconds (QuarantineDurationSeconds (policy cfg))) ->
       agentQuarantined cfg agentID analysis (set_now t
         (run_state (attempts_at cfg agentID analysis reason (replicate (S n) (now w))) w)) = true.
Proof.
  intros Hm Ha Hr Hnone Hwin [Hmax Hn].
  destruct (attempts_state cfg agentID analysis reason (now w) (replicate (S n) (now w)) w store
    Hm Ha Hr ltac:(intros st; rewrite Hnone; done) Hwin) as (store' & Hm' & _ & Hg); [by intros ? ? [= <- _]|done|].
  split; cycle 1.
  { intros t Ht. apply String.eqb_neq in Hr as Hb. unfold agentQuarantined. cbn [metadata set_now].
    rewrite Hm', Hg, Hb, orb_true_r. unfold expected_state. cbn [QuarantineUntil].
    rewrite length_replicate, (proj2 (Z.leb_le _ _) Hn), last_replicated. unfold After. cbn [now].
    apply Z.ltb_ge in Ht. cbn in *. by rewrite Ht. }
  destruct (reads_all cfg (S n) agentID analysis reason w _
    (attempt_reads cfg agentID analysis reason w store Hm Hr Hnone Hmax)) as [js1 Hreads].
  destruct (saves_all n (first_attempt (now w) agentID analysis reason) analysis w)
    as (js2 & w' & Hsaves & store1 & Hm1 & Ha1 & Hg1); [apply Hwin|done|by exists store|].
  exists (js1 ++ js2), w'. split; [by rewrite schedule_app, Hreads|].
  cbn [AgentID first_attempt] in Hg1. split; [by rewrite Hm1; cbn; rewrite Hg1|].
  intros t a. unfold agentQuarantined. cbn [metadata set_now]. by rewrite Hm1, Hg1.
Qed.
End properties.

Section witnesses.
#[local] Existing Instances null_postgres offline_env.

(** Two agents, the second of which reads and writes while the first is between its
    read and its write. *)
Definition two_agents : list (string * sqlAnalysis * string) :=
  [("one", drop_analysis, "denied"); ("two", drop_analysis, "timeout")].

Definition two_attempts : pool World unit := {|
  shared := fresh_world 7;
  calls := (fun '(a, analysis, reason) => recordRiskAttempt_call local_config a analysis reason)
             <$> two_agents |}.

Definition two_returned : pool World unit :=
  default two_attempts (schedule [0; 0; 1; 1; 1; 0; 0; 1]%nat two_attempts).

Lemma agents_do_not_interfere_witness :
  exists t, row_of "one" (shared two_returned)
            = row_alone local_config t "one" drop_analysis "denied" (fresh_world 7).
Proof.
  apply (agents_do_not_interfere local_config two_agents (fun _ _ => False)) with (i := 0%nat).
  - apply (bool_decide_unpack _). vm_compute. exact I.
  - intros a s s' [].
  - apply (schedule_preaches (fun _ _ => False) (fun _ _ => False) [0; 0; 1; 1; 1; 0; 0; 1]%nat).
    vm_compute. reflexivity.
  - reflexivity.
  - vm_compute. reflexivity.
Defined.

Lemma overlapping_attempts_count_once_witness :
  exists js w',
    schedule js {| shared := fresh_world 7;
      calls := replicate 3 (recordRiskAttempt_call local_config "agent" drop_analysis "denied") |}
      = Some {| shared := w'; calls := replicate 3 (Ret tt) |}
    /\ (GetAgentState "agent" <$> metadata w')
         = Some (Some (first_attempt 7 "agent" drop_analysis "denied"))
    /\ forall t a, agentQuarantined local_config "agent" a (set_now t w') = false.
Proof.
  apply (overlapping_attempts_count_once local_config 2 "agent" drop_analysis "denied"
    (fresh_world 7) empty_store).
  - reflexivity.
  - reflexivity.
  - discriminate.
  - reflexivity.
  - split.
    + unfold year_9999_end, Second. cbn. lia.
    + intros t Ht. change (seconds _) with 600000000000 at 1.
      change (seconds (QuarantineDurationSeconds _)) with 1800000000000.
      change (replicate 3 (now (fresh_world 7))) with [7; 7; 7] in Ht. change (now (fresh_world 7)) with 7.
      unfold year_9999_end, Second.
      repeat (apply elem_of_cons in Ht as [->|Ht]; [lia|]). by apply elem_of_nil in Ht.
    + unfold int64_max. cbn. lia.
  - vm_compute. split; congruence.
Defined.
End witnesses.
