(* ===== verification/Gateway.v ===== *)
(** * gateway/main.go: the HTTP endpoints

    [serve] is the server's mux: it routes a request, authenticates it and runs
    its handler.  A POST to / may leave a request waiting for an operator. *)
From S2P Require Import Prelude GoString GoTime Json JsonText Postgres PgAst SqlAnalyzer Policy.
From S2P Require Import GatewayMetrics AgentIdentity Approval Pause Auth GatewayMetadata.
From S2P Require Import GatewayWorld McpServer.
From stdpp Require Import options.

Open Scope Z_scope.

Record httpResponse := { http_status : Z; http_body : any }.

(** [writeJSON], and the text of the metrics endpoint. *)
Definition writeJSON (status : Z) (v : any) : httpResponse :=
  {| http_status := status; http_body := v |}.
Definition error_body (e : string) : any := AnyMap [("error", AnyString e)].

Definition StatusOK : Z := 200.
Definition StatusBadRequest : Z := 400.
Definition StatusUnauthorized : Z := 401.
Definition StatusForbidden : Z := 403.
Definition StatusNotFound : Z := 404.
Definition StatusMethodNotAllowed : Z := 405.
Definition StatusUnsupportedMediaType : Z := 415.
Definition StatusTooManyRequests : Z := 429.
Definition StatusInternalServerError : Z := 500.

(** ** Start-up *)
Definition validateAuthConfig (requireAuth allowInsecure : bool) (token tokenFile : string)
    : result unit :=
  if requireAuth && String.eqb (TrimSpace token) "" && String.eqb (TrimSpace tokenFile) ""
     && negb allowInsecure then
    Err "auth token is required; set --auth-token/BACKSTOP_GATEWAY_AUTH_TOKEN or --auth-tokens-file/BACKSTOP_AUTH_TOKENS_FILE, or explicitly use --allow-insecure-no-auth=true for local development"
  else Ok tt.

Definition getenvDefault (getenv : string -> string) (key fallback : string) : string :=
  let value := TrimSpace (getenv key) in
  if String.eqb value "" then fallback else value.

Definition runHTTPHealthcheck (outcome : httpOutcome) : result unit :=
  match outcome with
  | InvalidURL | NetworkError => Err "healthcheck request failed"
  | StatusCode code =>
      if (code <? 200) || (300 <=? code) then Err ("healthcheck failed: " +:+ itoa code)
      else Ok tt
  end.

Record request := {
  method : string;
  path : string;
  http : httpRequest;
  query_params : gmap string string;
  req_body : result string;
}.

(** The authentication main.go sets up, and the options of its mux. *)
Record ServerConfig := {
  auth : option TokenAuthenticator;
  metricsPublic : bool;
  maxConcurrentRequests : Z;
}.

Section gateway.
Context `{pg : Postgres, env : GatewayEnv}.
Variable Parse : string -> result (list (option Node)).
Variable cfg : Config.

(** An answer, or a request that waits. *)
Definition reply : Type := httpResponse + inflight.
Definition handler : Type := option AuthPrincipal -> ST World reply.

Definition respond (r : httpResponse) : ST World reply := mret (inl r).

(** [requireScopedAuth]. *)
Definition requireScopedAuth (auth : option TokenAuthenticator) (requiredScope : string)
    (r : request) (next : handler) : ST World reply :=
  if negb (Enabled auth) then next None
  else
    match Authenticate auth (http r) with
    | None =>
        recordAuthDenied "unauthorized" requiredScope "";;
        respond (writeJSON StatusUnauthorized (error_body "unauthorized"))
    | Some principal =>
        if negb (hasScope principal requiredScope) then
          recordAuthDenied "forbidden" requiredScope (Name principal);;
          respond (writeJSON StatusForbidden (AnyMap [("error", AnyString "forbidden");
            ("required_scope", AnyString requiredScope)]))
        else next (Some principal)
    end.

(** [requireAuth], which nothing calls any more. *)
Definition requireAuth (token : string) (r : request) (next : ST World reply) : ST World reply :=
  if String.eqb (TrimSpace token) "" then next
  else if negb (legacyValidAuthToken (http r) token) then
    respond (writeJSON StatusUnauthorized (error_body "unauthorized"))
  else next.

(** [limitConcurrent]: [active] requests hold the semaphore. *)
Definition limitConcurrent (max active : Z) (next : ST World reply) : ST World reply :=
  if max <=? 0 then next
  else if active <? max then next
  else respond (writeJSON StatusTooManyRequests (error_body "too many concurrent requests")).

Definition handleHealth : ST World reply :=
  t ← gets now;
  respond (writeJSON StatusOK (AnyMap [("status", AnyString "ok");
    ("service", AnyString "backstop-gateway"); ("time", AnyString (Format_RFC3339 t))])).

(** The JSON-RPC response as a JSON object. *)
Definition response_body (r : MCPResponse) : any :=
  AnyMap ([("jsonrpc", AnyString "2.0"); ("id", resp_ID r)]
    ++ match Result r with Some v => [("result", v)] | None => [] end
    ++ match Error r with
       | Some e => [("error", AnyMap [("code", AnyInt (Code e));
                                      ("message", AnyString (rpc_Message e))])]
       | None => []
       end).

(** [io.ReadAll] of a body behind [http.MaxBytesReader]. *)
Definition read_limited (limit : Z) (body : result string) : result string :=
  text ← body;
  if limit <? Z.of_nat (String.length text) then Err "http: request body too large" else Ok text.

Definition makeMCPHandler (entropy : option (list Z)) (r : request) : handler := fun principal =>
  if negb (HasPrefix (Header_Get (http r) "Content-Type") "application/json") then
    respond (writeJSON StatusUnsupportedMediaType
      (error_body "Content-Type must be application/json"))
  else
    match read_limited (2 ^ 20) (req_body r) with
    | Err e => respond (writeJSON StatusBadRequest (error_body e))
    | Ok body =>
        resp ← Handle Parse cfg entropy principal body;
        match resp with
        | inl resp => respond (writeJSON StatusOK (response_body resp))
        | inr fl => mret (inr fl)
        end
    end.

Definition approval_signal (approve : bool) (id actor : string) : ST World bool := fun w =>
  let (found, e) := (if approve then Approve id actor else Deny id actor) (approval w) in
  (found, set_approval e w).

Definition makeApproveHandler (approve : bool) (id : string) : handler := fun principal =>
  if String.eqb id "" then
    respond (writeJSON StatusBadRequest (error_body "missing approval id"))
  else
    let actor := match principal with Some p => Name p | None => "unknown" end in
    found ← approval_signal approve id actor;
    if (found : bool) then
      respond (writeJSON StatusOK (AnyMap [
        ("status", AnyString (if approve then "approved" else "denied"));
        ("approval_id", AnyString id)]))
    else respond (writeJSON StatusNotFound (error_body "approval ID not found")).

(** [SetPaused] on the world; on a nil controller it does nothing. *)
Definition set_paused (pausing : bool) (why : string) : ST World bool := fun w =>
  match pause w with
  | None => (true, w)
  | Some p =>
      let '(ok, p', d') := SetPaused (now w) pausing why p (pause_disk w) in
      (ok, set_pause_disk d' (set_pause (Some p') w))
  end.

(** The reason member of the body: a decoding error is dropped, and a value that
    is no string leaves the reason as it was. *)
Definition decode_reason (v : json) : string :=
  match v with
  | JObject members =>
      fold_left (fun old '(k, v) =>
        if EqualFold k "reason" then match v with JString s => s | _ => old end else old)
        members ""
  | _ => ""
  end.

Definition pause_reason (pausing : bool) (body : result string) : string :=
  let given :=
    match body with
    | Ok text => TrimSpace (default "" (decode_reason <$> json_first text))
    | Err _ => ""
    end in
  if String.eqb given "" then
    if pausing then "manual emergency pause" else "manual emergency resume"
  else given.

Definition makePauseHandler (pausing : bool) (r : request) : handler := fun _ =>
  let why := pause_reason pausing (req_body r) in
  ok ← set_paused pausing why;
  if negb ok then
    respond (writeJSON StatusInternalServerError (error_body "write pause state"))
  else
    upd_metrics (SetPauseState pausing);;
    let eventType := if pausing then "emergency_paused" else "emergency_resumed" in
    Emit (alert_webhook cfg) {|
      Severity := "critical"; EventType := eventType;
      payload_Environment := environment cfg; payload_ClusterID := clusterID cfg;
      payload_AgentID := ""; payload_RiskLevel := ""; payload_Operation := "";
      payload_Schema := ""; payload_Table := ""; payload_QuerySHA256 := "";
      ApprovalID := ""; payload_SnapshotID := "";
      RecommendedAction :=
        "Review active agents and pending destructive operations before resuming writes.";
      payload_Timestamp := ""; Message := why |};;
    st ← gets (fun w => Pause.Status (pause w));
    respond (writeJSON StatusOK (AnyMap [("status", AnyString eventType); ("pause", st)])).

Definition makeAdminStatusHandler : handler := fun _ =>
  st ← gets (fun w => Pause.Status (pause w));
  respond (writeJSON StatusOK (AnyMap [("environment", AnyString (environment cfg));
    ("cluster_id", AnyString (clusterID cfg)); ("pause", st)])).

(** A string member that is omitted when empty. *)
Definition omit (key value : string) : list (string * any) :=
  if String.eqb value "" then [] else [(key, AnyString value)].

Definition approval_request_body (a : ApprovalRequest) : any :=
  let d := req_details a in
  AnyMap ([("id", AnyString (details_ID d)); ("query", AnyString (details_Query d));
    ("query_sha256", AnyString (details_QuerySHA256 d));
    ("agent_id", AnyString (details_AgentID d));
    ("risk_level", AnyString (details_RiskLevel d));
    ("operation", AnyString (details_Operation d))]
    ++ omit "schema" (details_Schema d) ++ omit "table" (details_Table d)
    ++ [("environment", AnyString (details_Environment d));
        ("cluster_id", AnyString (details_ClusterID d))]
    ++ omit "snapshot_id" (details_SnapshotID d)
    ++ [("created_at", AnyString (Format_RFC3339Nano (req_CreatedAt a)))]).

Definition makePendingHandler : handler := fun _ =>
  ps ← gets (fun w => PendingList (approval w));
  respond (writeJSON StatusOK (AnyMap [("pending", AnyList (map approval_request_body ps))])).

Definition entry_body (e : AuditEntry) : any :=
  AnyMap ([("agent_id", AnyString (entry_AgentID e)); ("query", AnyString (Query e))]
    ++ omit "query_sha256" (QuerySHA256 e)
    ++ [("risk_level", AnyString (entry_RiskLevel e)); ("approved", AnyBool (Approved e))]
    ++ omit "environment" (Environment e) ++ omit "cluster_id" (ClusterID e)
    ++ [("timestamp", AnyString (Format_RFC3339Nano (entry_Timestamp e)))]).

Definition param (r : request) (key : string) : string := default "" (query_params r !! key).

Definition makeAuditHandler (r : request) : handler := fun _ =>
  let agentID := param r "agent_id" in
  es ← gets (fun w => if negb (String.eqb agentID "") then GetHistory (registry w) agentID
                      else AllEntries (registry w));
  respond (writeJSON StatusOK (AnyMap [("entries", AnyList (map entry_body es));
    ("count", AnyInt (Z.of_nat (length es)))])).

Definition makeGatewayMetricsHandler : handler := fun _ =>
  text ← gets (fun w => Prometheus (metrics w));
  respond {| http_status := StatusOK; http_body := AnyString text |}.

Definition writeMetadataResponse {A} (row : A -> any) (rows : result (list A)) : httpResponse :=
  match rows with
  | Err e => writeJSON StatusInternalServerError (error_body e)
  | Ok rows =>
      writeJSON StatusOK (AnyMap [("items", AnyList (map row rows));
        ("count", AnyInt (Z.of_nat (length rows)))])
  end.

(** The columns of a row that the metadata model keeps; NULL is nil. *)
Definition nullable (v : option string) : any :=
  match v with Some s => AnyString s | None => AnyNil end.

Definition snapshot_body (r : string * SnapshotRow) : any :=
  AnyMap [("snapshot_id", AnyString r.1); ("table_name", AnyString (snap_table_name r.2));
    ("writer", nullable (snap_writer r.2)); ("snapshot_scope", nullable (snap_scope r.2));
    ("row_count", match snap_row_count r.2 with Some n => AnyInt n | None => AnyNil end);
    ("manifest_key", nullable (snap_manifest_key r.2));
    ("timestamp", AnyString (snap_timestamp r.2));
    ("payload_json", nullable (snap_payload_json r.2)); ("status", AnyString (snap_status r.2));
    ("validation_error", nullable (snap_validation_error r.2))].

Definition makeMetadataSnapshotsHandler (r : request) : handler := fun _ =>
  let latestValidOnly :=
    String.eqb (param r "latest") "valid" || String.eqb (param r "latest_valid") "true" in
  rows ← gets (fun w => QuerySnapshots (param r "table") latestValidOnly (metadata w));
  respond (writeMetadataResponse snapshot_body rows).

Definition audit_body (r : AuditRow) : any :=
  AnyMap [("timestamp", AnyString (audit_timestamp r));
    ("agent_id", AnyString (audit_agent_id r)); ("query", AnyString (audit_query r));
    ("risk_level", AnyString (audit_risk_level r)); ("approved", AnyInt (audit_approved r));
    ("query_sha256", AnyString (audit_query_sha256 r));
    ("environment", AnyString (audit_environment r));
    ("cluster_id", AnyString (audit_cluster_id r))].

Definition makeMetadataAuditHandler (r : request) : handler := fun _ =>
  rows ← gets (fun w => QueryAudit (param r "agent_id") (param r "risk") (metadata w));
  respond (writeMetadataResponse audit_body rows).

Definition alert_body (r : AlertRow) : any :=
  AnyMap [("timestamp", AnyString (alert_timestamp r));
    ("severity", AnyString (alert_severity r)); ("event_type", AnyString (alert_event_type r));
    ("table_name", AnyString (alert_table_name r)); ("status", AnyString (alert_status r));
    ("payload_json", AnyString (alert_payload_json r))].

Definition makeMetadataAlertsHandler : handler := fun _ =>
  rows ← gets (fun w => QueryAlerts (metadata w));
  respond (writeMetadataResponse alert_body rows).

Definition health_body (r : string * HealthRow) : any :=
  AnyMap [("component", AnyString r.1); ("status", AnyString (health_status r.2));
    ("checked_at", AnyString (health_checked_at r.2));
    ("detail_json", AnyString (health_detail_json r.2))].

Definition makeMetadataHealthHandler : handler := fun _ =>
  rows ← gets (fun w => QueryHealth (metadata w));
  respond (writeMetadataResponse health_body rows).

(** ** The mux *)
Inductive endpoint :=
  | EHealth | EMCP
  | EApprove (id : string) | EDeny (id : string)
  | EPending | EAudit | ESnapshots | EMetadataAudit | EAlerts | EMetadataHealth
  | EPause | EResume | EStatus | EMetrics.

(** The one segment after a prefix. *)
Definition segment (prefix p : string) : option string :=
  if HasPrefix p prefix && negb (has_byte "/" (TrimPrefix p prefix))
     && negb (String.eqb (TrimPrefix p prefix) "")
  then Some (TrimPrefix p prefix) else None.

(** A GET pattern also serves HEAD; "POST /" takes every other POST. *)
Definition route (r : request) : option endpoint :=
  let p := path r in
  if String.eqb (method r) "POST" then
    match segment "/approve/" p, segment "/deny/" p with
    | Some id, _ => Some (EApprove id)
    | _, Some id => Some (EDeny id)
    | _, _ =>
        if String.eqb p "/admin/pause" then Some EPause
        else if String.eqb p "/admin/resume" then Some EResume
        else Some EMCP
    end
  else if String.eqb (method r) "GET" || String.eqb (method r) "HEAD" then
    if String.eqb p "/health" then Some EHealth
    else if String.eqb p "/pending" then Some EPending
    else if String.eqb p "/audit" then Some EAudit
    else if String.eqb p "/metadata/snapshots" then Some ESnapshots
    else if String.eqb p "/metadata/audit" then Some EMetadataAudit
    else if String.eqb p "/metadata/alerts" then Some EAlerts
    else if String.eqb p "/metadata/health" then Some EMetadataHealth
    else if String.eqb p "/admin/status" then Some EStatus
    else if String.eqb p "/metrics" then Some EMetrics
    else None
  else None.

(** The scope of an endpoint; [None] when it takes no authentication. *)
Definition endpoint_scope (s : ServerConfig) (e : endpoint) : option string :=
  match e with
  | EHealth => None
  | EMCP => Some ""
  | EApprove _ | EDeny _ => Some "approval:write"
  | EPending => Some "approval:read"
  | EAudit | ESnapshots | EMetadataAudit | EAlerts | EMetadataHealth => Some "metadata:read"
  | EPause | EResume | EStatus => Some "admin:*"
  | EMetrics => if metricsPublic s then None else Some "metrics:read"
  end.

Definition endpoint_handler (entropy : option (list Z)) (r : request) (e : endpoint)
    : handler :=
  match e with
  | EHealth => fun _ => handleHealth
  | EMCP => makeMCPHandler entropy r
  | EApprove id => makeApproveHandler true id
  | EDeny id => makeApproveHandler false id
  | EPending => makePendingHandler
  | EAudit => makeAuditHandler r
  | ESnapshots => makeMetadataSnapshotsHandler r
  | EMetadataAudit => makeMetadataAuditHandler r
  | EAlerts => makeMetadataAlertsHandler
  | EMetadataHealth => makeMetadataHealthHandler
  | EPause => makePauseHandler true r
  | EResume => makePauseHandler false r
  | EStatus => makeAdminStatusHandler
  | EMetrics => makeGatewayMetricsHandler
  end.

Definition serve (s : ServerConfig) (entropy : option (list Z)) (active : Z) (r : request)
    : ST World reply :=
  match route r with
  | None => respond (writeJSON StatusMethodNotAllowed AnyNil)
  | Some e =>
      let run :=
        match endpoint_scope s e with
        | None => endpoint_handler entropy r e None
        | Some scope => requireScopedAuth (auth s) scope r (endpoint_handler entropy r e)
        end in
      match e with
      | EMCP => limitConcurrent (maxConcurrentRequests s) active run
      | _ => run
      end
  end.
End gateway.
