(* ===== verification/ConcurrencyLimit.v ===== *)
(** * limitConcurrent of gateway/main.go among concurrent requests

    The middleware's channel is a semaphore: a request that finds a free place runs
    the handler and gives the place back when the handler returns; one that finds
    none is refused.  The handlers are calls that do anything else. *)
From S2P Require Import Prelude Interleave GatewayWorld Gateway.
From stdpp Require Import options.

Open Scope Z_scope.

(** The semaphore, next to what the handlers share. *)
Record Limited (S : Type) := { semaphore : Z; handlers : S }.
Arguments Build_Limited {S} semaphore handlers.
Arguments semaphore {S} l.
Arguments handlers {S} l.

Section limit.
Context {S A : Type}.
Variable max : Z.
Variable refusal : A.

(** A handler does not see the semaphore. *)
Fixpoint within (c : call S A) : call (Limited S) A :=
  match c with
  | Ret a => Ret a
  | Act e f k =>
      Act (fun s => e (handlers s))
        (fun s => {| semaphore := semaphore s; handlers := f (handlers s) |})
        (fun s => within (k (handlers s)))
  end.

(** The send that does not block, and the receive. *)
Definition acquire : ST (Limited S) bool := fun s =>
  if semaphore s <? max then
    (true, {| semaphore := semaphore s + 1; handlers := handlers s |})
  else (false, s).
Definition release : ST (Limited S) unit :=
  modify (fun s => {| semaphore := semaphore s - 1; handlers := handlers s |}).

Definition limitConcurrent_call (next : call S A) : call (Limited S) A :=
  if max <=? 0 then within next
  else
    entered ← atomic acquire;
    if (entered : bool) then
      a ← within next; atomic release;; mret a
    else mret refusal.

(** ** The places in use *)
Definition inside (c : call S A) : call (Limited S) A :=
  a ← within c; atomic release;; mret a.

(** A request before the semaphore, with a place, and answered. *)
Inductive stage : call (Limited S) A -> Z -> Prop :=
  | stage_waiting next : stage (limitConcurrent_call next) 0
  | stage_inside c : stage (inside c) 1
  | stage_answered a : stage (Ret a) 0.

Fixpoint places (ns : list Z) : Z :=
  match ns with [] => 0 | n :: ns => n + places ns end.

Lemma places_app ns ns' : places (ns ++ ns') = places ns + places ns'.
Proof using Type. induction ns as [|n ns IH]; cbn; [done|lia]. Qed.

Lemma places_insert ns i n n' :
  ns !! i = Some n -> places (<[i := n']> ns) = places ns - n + n'.
Proof using Type.
  revert i. induction ns as [|m ns IH]; intros [|i]; [done|done|intros [= ->]; cbn; lia|].
  intros H%IH. change (m + places (<[i:=n']> ns) = m + places ns - n + n'). lia.
Qed.

(** The semaphore counts the requests with a place, which are at most [max]. *)
Definition limited (p : pool (Limited S) A) : Prop :=
  exists ns, Forall2 stage (calls p) ns
    /\ semaphore (shared p) = places ns /\ 0 <= semaphore (shared p) <= max.

Hypothesis max_positive : 0 < max.

Lemma limitConcurrent_eq next : limitConcurrent_call next =
  Act (fun _ => true) (run_state acquire)
    (fun s => if run_value acquire s then inside next else Ret refusal).
Proof using max_positive.
  unfold limitConcurrent_call. destruct (Z.leb_spec max 0); [lia|]. done.
Qed.

(** What a request does next with the semaphore. *)
Lemma stage_act c n e f k s : stage c n -> c = Act e f k ->
  exists n', stage (k s) n'
    /\ semaphore (f s) = semaphore s - n + n'
    /\ (0 <= semaphore s <= max -> semaphore (f s) <= max).
Proof using max_positive.
  intros [next|[a|e0 f0 k0]|a] H.
  - rewrite limitConcurrent_eq in H. injection H as <- <- <-.
    unfold run_value, run_state, acquire.
    destruct (Z.ltb_spec (semaphore s) max); cbn.
    + exists 1. split; [apply stage_inside|]. lia.
    + exists 0. split; [apply stage_answered|]. lia.
  - cbn in H. injection H as <- <- <-. exists 0. split; [apply stage_answered|]. cbn. lia.
  - cbn in H. injection H as <- <- <-. exists 1. split; [apply (stage_inside (k0 _))|]. cbn. lia.
  - done.
Qed.

(** Requests come in at any time; the handlers' state changes at any time. *)
Definition a_request (_ : pool (Limited S) A) (c : call (Limited S) A) : Prop :=
  exists next, c = limitConcurrent_call next.
Definition outside_semaphore (s s' : Limited S) : Prop := semaphore s' = semaphore s.

Lemma places_nonneg p ns : Forall2 stage p ns -> 0 <= places ns.
Proof using Type. induction 1 as [|c n cs ns Hc _ IH]; [done|]. destruct Hc; cbn; lia. Qed.

Lemma limited_step p p' : limited p -> pstep a_request outside_semaphore p p' -> limited p'.
Proof using max_positive.
  intros (ns & Hns & Hsem & Hle) Hstep. destruct Hstep as [i p p' Hm|c p [next ->]|s' p Hs].
  - apply move_inv in Hm as (e & f & k & Hi & _ & ->). cbn [calls shared].
    destruct (Forall2_lookup_l _ _ _ _ _ Hns Hi) as (n & Hn & Hst).
    destruct (stage_act _ _ e f k (shared p) Hst eq_refl) as (n' & Hst' & Hf & Hmax).
    assert (Forall2 stage (<[i:=k (shared p)]> (calls p)) (<[i:=n']> ns)) as Hns'
      by (by apply Forall2_insert).
    assert (semaphore (f (shared p)) = places (<[i:=n']> ns)) as Heq
      by (rewrite (places_insert _ _ _ _ Hn); lia).
    exists (<[i := n']> ns). split; [done|]. split; [done|].
    cbn [shared]. split; [rewrite Heq; by eapply places_nonneg|by apply Hmax].
  - exists (ns ++ [0]). cbn [calls shared]. split; [|rewrite places_app; cbn; lia].
    apply Forall2_app; [done|]. constructor; [apply stage_waiting|constructor].
  - exists ns. cbn [calls shared]. by rewrite Hs.
Qed.

Lemma limited_start s : semaphore s = 0 -> limited {| shared := s; calls := [] |}.
Proof using max_positive. intros Hs. exists []. cbn. rewrite Hs. split; [constructor|]. lia. Qed.

Lemma limited_reachable p p' :
  limited p -> preaches a_request outside_semaphore p p' -> limited p'.
Proof using max_positive. intros Hp. exact (preaches_ind _ _ limited p p' Hp limited_step). Qed.

Lemma returned_no_place c n : stage c n -> returned c = true -> n = 0.
Proof using Type. by intros [next|[a|e f k]|a]. Qed.

Lemma quiescent_places cs ns :
  Forall2 stage cs ns -> Forall (fun c => returned c = true) cs -> places ns = 0.
Proof using Type.
  induction 1 as [|c n cs ns Hc _ IH]; intros Hq; [done|]. apply Forall_cons in Hq as [H1 H2].
  cbn. rewrite (returned_no_place c n) by done. by apply IH.
Qed.
End limit.

(** ** Properties *)
Section property.
Context {S A : Type}.
Implicit Types p : pool (Limited S) A.

(** C14. The limit holds.  However many requests come in, and whatever their handlers do
    and however they interleave: at most [max] of them have a place at any time, the
    semaphore counts them, one is refused only while all places are taken, and when
    none runs all places are free again. *)
Theorem requests_are_limited max refusal s0 p :
  0 < max -> semaphore s0 = 0 ->
  preaches (a_request (S:=S) (A:=A) max refusal) outside_semaphore
    {| shared := s0; calls := [] |} p ->
  (exists ns, Forall2 (stage max refusal) (calls p) ns /\ semaphore (shared p) = places ns)
  /\ 0 <= semaphore (shared p) <= max
  /\ (forall i next p', calls p !! i = Some (limitConcurrent_call max refusal next) ->
        move i p = Some p' ->
        (calls p' !! i = Some (Ret refusal) /\ semaphore (shared p) = max
           /\ shared p' = shared p)
        \/ (calls p' !! i = Some (inside next) /\ semaphore (shared p) < max
           /\ semaphore (shared p') = semaphore (shared p) + 1))
  /\ (quiescent p -> semaphore (shared p) = 0).
Proof.
  intros Hmax Hs0 Hr.
  destruct (limited_reachable max refusal Hmax _ _ (limited_start max refusal Hmax _ Hs0) Hr)
    as (ns & Hns & Hsem & Hle).
  split; [by exists ns|]. split; [done|]. split.
  - intros i next p' Hi Hm. apply move_inv in Hm as (e & f & k & Hi' & _ & ->).
    rewrite Hi in Hi'. rewrite limitConcurrent_eq in Hi' by done. injection Hi' as <- <- <-.
    cbn [calls shared]. rewrite list_lookup_insert_eq by (by eapply lookup_lt_Some).
    unfold run_value, run_state, acquire.
    destruct (Z.ltb_spec (semaphore (shared p)) max); cbn; [by right|left].
    split; [done|]. split; [lia|done].
  - intros Hq. rewrite Hsem. by eapply quiescent_places.
Qed.

(** By itself the middleware is Gateway's, with the semaphore's count. *)
Lemma limitConcurrent_alone `{pg : Postgres.Postgres, env : GatewayEnv} max next c n w :
  sequentially next c ->
  alone (limitConcurrent_call max
      (inl (writeJSON StatusTooManyRequests (error_body "too many concurrent requests"))) c)
    {| semaphore := n; handlers := w |}
  = let (r, w') := limitConcurrent max n next w in
    Some (r, {| semaphore := n; handlers := w' |}).
Proof.
  intros Hc.
  assert (forall m, alone (within c) {| semaphore := m; handlers := w |}
    = let (r, w') := next w in Some (r, {| semaphore := m; handlers := w' |})) as Hin.
  { intros m. specialize (Hc w). revert Hc. generalize (next w). intros [r w'].
    revert w. induction c as [a|e f k IH]; intros w; cbn.
    - by intros [= -> ->].
    - destruct (e w); [|done]. apply IH. }
  unfold limitConcurrent_call, limitConcurrent, acquire. destruct (max <=? 0); [apply Hin|].
  cbn. unfold run_value, run_state. cbn. destruct (n <? max); [|done].
  cbn. rewrite alone_bind, Hin. destruct (next w) as [r w']. cbn. do 3 f_equal. lia.
Qed.
End property.

(** Two requests at a limit of one: the second is refused, the first gives its place
    back. *)
Definition demo_handler : call Z string := atomic (modify (Z.add 1));; mret "done".
Definition demo_request : call (Limited Z) string := limitConcurrent_call 1 "refused" demo_handler.

Lemma requests_are_limited_witness :
  let p := {| shared := {| semaphore := 0; handlers := 1 |}; calls := [Ret "done"; Ret "refused"] |} in
  (exists ns, Forall2 (stage 1 "refused") (calls p) ns /\ semaphore (shared p) = places ns)
  /\ 0 <= semaphore (shared p) <= 1 /\ (quiescent p -> semaphore (shared p) = 0).
Proof.
  intros p.
  assert (preaches (a_request 1 "refused") outside_semaphore
    {| shared := {| semaphore := 0; handlers := 0 |}; calls := [] |} p) as Hr.
  { eapply rtc_l; [apply (p_arrive _ _ demo_request); by eexists|].
    eapply rtc_l; [apply (p_arrive _ _ demo_request); by eexists|].
    by apply (schedule_preaches _ _ [0; 1; 0; 0]%nat). }
  destruct (requests_are_limited 1 "refused" {| semaphore := 0; handlers := 0 |} p
    ltac:(lia) eq_refl Hr) as (H1 & H2 & _ & H3). by split_and!.
Defined.
