(* ===== verification/GatewaySafety.v ===== *)
(** * What the gateway executes

    The gateway as a transition system: requests, operators' decisions, timeouts,
    pauses and changes of the outside world interleave between the parts of the
    handlers that run without waiting.  The approval engine inside it behaves as
    [Approval.step], and every statement the gateway executes was either allowed
    at once by the policy or approved by the first decision signalled for it.
    GatewayConcurrent has the runs in which these parts interleave, too. *)
From S2P Require Import Prelude GoString GoTime Json Sha256 Postgres PgAst SqlAnalyzer Policy.
From S2P Require Import GatewayMetrics Manifest AgentIdentity Approval Pause Auth GatewayMetadata.
From S2P Require Import GatewayWorld Behavior Impact McpServer Gateway.

Open Scope Z_scope.

(** ** What handlers leave alone *)
Section frames.
Context `{pg : Postgres, env : GatewayEnv}.

(** [leaves obs m]: the handler [m] leaves what [obs] sees of the state as it is. *)
Definition leaves {X} (obs : World -> X) {A} (m : ST World A) : Prop :=
  forall w, obs (run_state m w) = obs w.

(** Most handlers only count, write metadata and post alerts; [Incidental]
    observations do not see that, nor [Unlogged] ones the audit log. *)
Class Incidental {X} (obs : World -> X) : Prop := {
  obs_metrics : forall m w, obs (set_metrics m w) = obs w;
  obs_metadata : forall m w, obs (set_metadata m w) = obs w;
  obs_posted : forall p w, obs (set_posted p w) = obs w;
}.
Class Unlogged {X} (obs : World -> X) : Prop :=
  obs_registry : forall r w, obs (set_registry r w) = obs w.

Section rules.
Context {X : Type} (obs : World -> X).

Lemma leaves_ret {A} (a : A) : leaves obs (mret a).
Proof. done. Qed.

Lemma leaves_gets {A} (f : World -> A) : leaves obs (gets f).
Proof. done. Qed.

Lemma leaves_bind {A B} (m : ST World A) (f : A -> ST World B) :
  leaves obs m -> (forall a, leaves obs (f a)) -> leaves obs (m ≫= f).
Proof.
  intros Hm Hf w. unfold run_state at 1. rewrite run_bind.
  transitivity (obs (run_state m w)); [apply Hf|apply Hm].
Qed.

Lemma leaves_when b (m : ST World unit) : leaves obs m -> leaves obs (when b m).
Proof. by destruct b. Qed.

Context `{!Incidental obs}.

Lemma leaves_metrics f : leaves obs (upd_metrics f).
Proof. intros w. apply obs_metrics. Qed.

Lemma leaves_with_metadata f : leaves obs (with_metadata f).
Proof.
  intros w. unfold run_state, with_metadata. destruct (metadata w); [|done].
  destruct (f (now w) m). apply obs_metadata.
Qed.

Lemma leaves_RecordDetailed `{!Unlogged obs} a q r ap h e c :
  leaves obs (RecordDetailed a q r ap h e c).
Proof.
  intros w. unfold run_state, RecordDetailed.
  set (f := fun _ : time => RecordAudit _). set (w0 := set_registry _ w).
  pose proof (leaves_with_metadata f w0) as H. unfold run_state in H.
  destruct (with_metadata f w0) as [r0 w1]. cbn [snd] in *. rewrite H. apply obs_registry.
Qed.

Lemma leaves_Emit sink p : leaves obs (Emit sink p).
Proof.
  unfold Emit. destruct sink as [webhook|]; [|apply leaves_ret].
  apply leaves_bind; [apply leaves_gets|intros t].
  apply leaves_bind; [apply leaves_when; intros w; apply obs_posted|intros _].
  apply leaves_bind; [apply leaves_metrics|intros _].
  apply leaves_bind; [apply leaves_with_metadata|intros r].
  apply leaves_when, leaves_metrics.
Qed.

Lemma leaves_recordRiskAttempt cfg a an r : leaves obs (recordRiskAttempt cfg a an r).
Proof.
  intros w. unfold run_state, recordRiskAttempt. destruct (metadata w) as [s|]; [|done].
  destruct (String.eqb _ _); [done|]. destruct (next_state _ _ _ _ _ _) as [st newq].
  match goal with |- obs (?m w).2 = _ => change (obs (run_state m w) = obs w) end.
  revert w. change (leaves obs (
    when newq (upd_metrics IncAgentQuarantine;;
      emitAlert cfg "critical" "agent_quarantined" a an "" "" ""
        "Inspect agent behavior and deny similar destructive retries."
        "Agent quarantined after repeated risky attempts.");;
    saved ← with_metadata (fun _ => SaveAgentState st);
    if is_ok saved then upd_metrics (IncRiskyAttempt (RiskLevel an))
    else upd_metrics (IncBlock "metadata_write_failed"))).
  apply leaves_bind; [apply leaves_when, leaves_bind; [apply leaves_metrics|intros _; apply leaves_Emit]|].
  intros _. apply leaves_bind; [apply leaves_with_metadata|]. intros saved.
  destruct (is_ok saved); apply leaves_metrics.
Qed.
End rules.

(** The part of the state on which execution depends. *)
Definition core (w : World) : list statement * ApprovalEngine * option PauseController * time :=
  (statements w, approval w, pause w, now w).

#[export] Instance core_incidental : Incidental core.
Proof. by split. Qed.
#[export] Instance core_unlogged : Unlogged core.
Proof. done. Qed.
#[export] Instance registry_incidental : Incidental registry.
Proof. by split. Qed.
#[export] Instance statements_incidental : Incidental statements.
Proof. by split. Qed.
#[export] Instance statements_unlogged : Unlogged statements.
Proof. done. Qed.
#[export] Instance now_incidental : Incidental now.
Proof. by split. Qed.
End frames.

(** A quiet handler neither runs SQL nor decides. *)
Notation quiet m := (leaves core m).

Create HintDb quiet.
#[export] Hint Resolve leaves_ret leaves_gets leaves_metrics leaves_with_metadata
  leaves_RecordDetailed leaves_Emit leaves_recordRiskAttempt : quiet.

(** [quieten] takes a handler apart. *)
Ltac quieten :=
  repeat first
    [ solve [eauto with quiet typeclass_instances]
    | apply leaves_bind; [|intros ?]
    | apply leaves_when
    | match goal with
      | |- leaves _ (match ?x with _ => _ end) => destruct x
      | |- leaves _ (if ?x then _ else _) => destruct x
      end ].

(** ** The interface of the snapshot verifier

    What the gateway relies on: looking snapshots up runs no SQL, decides nothing
    and writes no audit entry. *)
Class QuietVerifier `{pg : Postgres} (v : SnapshotVerifier) : Prop := {
  verify_quiet : forall {X} (obs : World -> X) `{!Incidental obs} table sid,
    leaves obs (VerifyLatestSidecarSnapshot v table sid);
  latest_quiet : forall {X} (obs : World -> X) `{!Incidental obs} f table,
    LatestSidecarSnapshot v = Some f -> leaves obs (f table);
}.

Section handlers.
Context `{pg : Postgres, env : GatewayEnv}.
Variable Parse : string -> result (list (option Node)).
Variable cfg : Config.
Hypothesis verifier_ok : forall v, snapshotVerifier cfg = Some v -> QuietVerifier v.

(** ** The quiet handlers *)
Section verifying.
Context {X : Type} (obs : World -> X) `{!Incidental obs}.

Lemma leaves_missing_members latest table members :
  (forall t, leaves obs (latest t)) -> leaves obs (missing_members cfg latest table members).
Proof.
  intros Hl. induction members as [|m members IH]; simpl; [apply leaves_ret|].
  destruct (EqualFold m table); [done|].
  apply leaves_bind; [apply Hl|intros r]. apply leaves_bind; [apply leaves_gets|intros ready].
  apply leaves_bind; [done|intros rest]. apply leaves_ret.
Qed.

Lemma leaves_verifyRecoveryGroup table v :
  QuietVerifier v -> leaves obs (verifyRecoveryGroup cfg table v).
Proof.
  intros Hv. unfold verifyRecoveryGroup. apply leaves_bind; [apply leaves_gets|intros t].
  destruct (recoveryGroupForTable cfg t table) as [[name members]|]; [|apply leaves_ret].
  destruct (_ || _); [apply leaves_ret|].
  destruct (LatestSidecarSnapshot v) as [latest|] eqn:Hl; [|apply leaves_ret].
  apply leaves_bind; [|intros ?; apply leaves_ret].
  apply leaves_missing_members. intros ?. by eapply latest_quiet.
Qed.

Lemma leaves_verifyCriticalRecoveryPoint args analysis :
  leaves obs (verifyCriticalRecoveryPointWithAnalysis cfg args analysis).
Proof.
  unfold verifyCriticalRecoveryPointWithAnalysis.
  destruct (criticalRecoveryTableFromAnalysis analysis) as [table|]; [|apply leaves_ret].
  destruct (String.eqb _ _); [apply leaves_ret|].
  destruct (snapshotVerifier cfg) as [v|] eqn:Hv; [|apply leaves_ret].
  specialize (verifier_ok v eq_refl).
  apply leaves_bind; [by apply verify_quiet|intros r].
  destruct r; [|quieten].
  apply leaves_bind; [apply leaves_gets|intros ready]. destruct ready; [|quieten].
  apply leaves_bind; [by apply leaves_verifyRecoveryGroup|intros group].
  destruct group; quieten.
Qed.
End verifying.

Lemma quiet_block_paused id args an d h : quiet (block_paused cfg id args an d h).
Proof. unfold block_paused, RecordQuery, alert_for, emitAlert. quieten. Qed.
Lemma quiet_block_quarantined id args an d h : quiet (block_quarantined cfg id args an d h).
Proof. unfold block_quarantined, RecordQuery, alert_for, emitAlert. quieten. Qed.
Lemma quiet_block_by_policy id args an d h : quiet (block_by_policy cfg id args an d h).
Proof. unfold block_by_policy, RecordQuery, alert_for, emitAlert. quieten. Qed.
Lemma quiet_block_recovery id args an d h a t e : quiet (block_recovery cfg id args an d h a t e).
Proof. unfold block_recovery, RecordQuery, alert_for, emitAlert. quieten. Qed.
Lemma quiet_block_metadata id args an d h a e : quiet (block_metadata cfg id args an d h a e).
Proof. unfold block_metadata, RecordQuery, alert_for, emitAlert. quieten. Qed.
Lemma quiet_block_unknown_action id args an d h : quiet (block_unknown_action cfg id args an d h).
Proof. unfold block_unknown_action, RecordQuery. quieten. Qed.
Lemma quiet_resume_denied fl s m ev ac msg a : quiet (resume_denied cfg fl s m ev ac msg a).
Proof.
  unfold resume_denied, RecordQuery, alert_for, emitAlert, registry_RecordApprovalResolved.
  quieten.
Qed.
Lemma quiet_resume_blocked fl s ac msg m : quiet m -> quiet (resume_blocked cfg fl s ac msg m).
Proof.
  intros Hm. unfold resume_blocked, RecordQuery, registry_RecordApprovalResolved.
  repeat first [exact Hm | progress quieten].
Qed.
Lemma quiet_toolRestoreSnapshot id raw : quiet (toolRestoreSnapshot cfg id raw).
Proof. unfold toolRestoreSnapshot. quieten. Qed.
Lemma quiet_recordAuthDenied status scope who : quiet (recordAuthDenied status scope who).
Proof. unfold recordAuthDenied. quieten. Qed.

(** ** The handlers that send SQL *)
Definition is_probe (s : statement) : bool :=
  match s with Probe _ _ => true | Executed _ _ => false end.

(** [adds w stmts w']: the handler added [stmts] to the statements sent and kept
    the rest of the core. *)
Definition adds (w : World) (stmts : list statement) (w' : World) : Prop :=
  statements w' = statements w ++ stmts /\ approval w' = approval w
  /\ pause w' = pause w /\ now w' = now w.

Lemma adds_core w w' : core w' = core w -> adds w [] w'.
Proof. unfold core, adds. intros [= -> -> -> ->]. by rewrite app_nil_r. Qed.

Lemma adds_trans w s1 w1 s2 w2 : adds w s1 w1 -> adds w1 s2 w2 -> adds w (s1 ++ s2) w2.
Proof.
  unfold adds. intros (-> & -> & -> & ->) (-> & -> & -> & ->). by rewrite app_assoc.
Qed.

Lemma adds_quiet {A} (m : ST World A) w : quiet m -> adds w [] (run_state m w).
Proof. intros H. by apply adds_core. Qed.

Lemma probe_adds conn sql w :
  exists s, adds w s (run_state (probe conn sql) w) /\ forallb is_probe s = true.
Proof.
  exists [Probe conn sql]. split; [|done]. unfold adds, run_state, probe.
  by destruct (QueryContext conn sql _).
Qed.

(** A handler that only probes. *)
Definition probing {A} (m : ST World A) : Prop :=
  forall w, exists s, adds w s (run_state m w) /\ forallb is_probe s = true.

Lemma probing_ret {A} (a : A) : probing (mret a).
Proof. intros w. exists []. by split; [apply adds_core|]. Qed.

Lemma probing_bind {A B} (m : ST World A) (f : A -> ST World B) :
  probing m -> (forall a, probing (f a)) -> probing (m ≫= f).
Proof.
  intros Hm Hf w. unfold run_state. rewrite run_bind.
  destruct (Hm w) as (s1 & H1 & P1).
  destruct (Hf (run_value m w) (run_state m w)) as (s2 & H2 & P2).
  exists (s1 ++ s2). split; [by eapply adds_trans|]. by rewrite forallb_app, P1, P2.
Qed.

Lemma probing_analyzeImpact query url analysis : probing (analyzeImpact cfg query url analysis).
Proof.
  unfold analyzeImpact, estimateAffectedRowsWithExplain.
  repeat first
    [ apply probing_ret
    | exact (probe_adds _ _)
    | apply probing_bind; [|intros ?]
    | match goal with
      | |- probing (match ?x with _ => _ end) => destruct x
      | |- probing (if ?x then _ else _) => destruct x
      end
    | intros w; apply probe_adds ].
Qed.

Lemma probing_risk_analysis args : probing (risk_analysis Parse cfg args).
Proof.
  unfold risk_analysis. apply probing_bind; [apply probing_analyzeImpact|].
  intros i. apply probing_ret.
Qed.

Lemma probing_toolAnalyzeQuery id raw : probing (toolAnalyzeQuery Parse cfg id raw).
Proof.
  unfold toolAnalyzeQuery. destruct (Unmarshal _ _ _); [|apply probing_ret].
  destruct (String.eqb _ _); [apply probing_ret|].
  apply probing_bind; [apply probing_risk_analysis|]. intros an. apply probing_ret.
Qed.

(** The statements an execution adds: none, or the agent's query. *)
Definition runs (query : string) (s : list statement) : Prop :=
  s = [] \/ exists conn, s = [Executed conn query].

Lemma executeSQL_adds args analysis w :
  exists s, adds w s (run_state (executeSQL cfg args analysis) w) /\ runs (args_Query args) s.
Proof.
  unfold run_state, executeSQL.
  destruct (execution_conn cfg args) as [conn|e].
  - exists [Executed conn (args_Query args)]. split; [|right; eauto].
    destruct (returnsRows analysis); [destruct (QueryContext _ _ _)|destruct (ExecContext _ _ _)];
      by split_and!.
  - exists []. split; [by apply adds_core|by left].
Qed.

Lemma adds_bind_quiet {A B} (m : ST World A) (f : A -> ST World B) w
    (P : list statement -> Prop) :
  quiet m ->
  (forall a w1, exists s, adds w1 s (run_state (f a) w1) /\ P s) ->
  exists s, adds w s (run_state (m ≫= f) w) /\ P s.
Proof.
  intros Hm Hf. destruct (Hf (run_value m w) (run_state m w)) as (s & Ha & HP).
  exists s. split; [|done]. unfold run_state at 1. rewrite run_bind.
  apply (adds_trans w [] (run_state m w)); [by apply adds_quiet|exact Ha].
Qed.

Lemma execution_response_adds id args an d sn ai rp w :
  exists s, adds w s (run_state (execution_response cfg id args an d sn ai rp) w)
    /\ runs (args_Query args) s.
Proof.
  unfold execution_response, run_state. rewrite run_bind.
  destruct (executeSQL_adds args an w) as (s & Ha & Hr). exists s. split; [|done].
  rewrite <- (app_nil_r s). eapply adds_trans; [exact Ha|].
  apply adds_core. destruct (run_value (executeSQL cfg args an) w); apply (leaves_bind core);
    try apply (leaves_metrics core); intros; apply leaves_ret.
Qed.

Lemma execute_now_adds id args an d h w :
  exists s, adds w s (run_state (execute_now cfg id args an d h) w) /\ runs (args_Query args) s.
Proof.
  unfold execute_now. apply adds_bind_quiet; [unfold RecordQuery; quieten|].
  intros _ w1. apply execution_response_adds.
Qed.

Lemma resume_approved_adds fl r w :
  exists s, adds w s (run_state (resume_approved cfg fl r) w)
    /\ runs (args_Query (fl_args fl)) s /\ (res_Approved r = false -> s = []).
Proof.
  unfold resume_approved. apply adds_bind_quiet; [unfold RecordQuery; quieten|].
  intros _ w1. destruct (res_Approved r); cbn [negb].
  - apply adds_bind_quiet; [apply (leaves_with_metadata core)|]. intros _ w2.
    apply adds_bind_quiet; [apply (leaves_metrics core)|]. intros _ w3.
    destruct (execution_response_adds (fl_id fl) (fl_args fl) (fl_analysis fl) (fl_decision fl)
      (nullableString (args_SnapshotID (fl_args fl)))
      [("approval_id", AnyString (fl_approvalID fl))] (recovery_member (fl_recovery fl)) w3)
      as (s & Ha & Hr). by exists s.
  - exists []. split; [apply adds_quiet; unfold registry_RecordApprovalResolved; quieten|].
    split; [by left|done].
Qed.

(** What resuming a request adds: its query only when it was approved, the
    approval still binds it, and no pause blocks it. *)
Lemma resumeExecuteQuery_adds fl r err w :
  exists s, adds w s (run_state (resumeExecuteQuery cfg fl r err) w)
    /\ runs (args_Query (fl_args fl)) s
    /\ (s <> [] -> err = None /\ res_Approved r = true /\ binding_matches cfg fl = true
                  /\ BlocksRisk (pause w) (RiskLevel (fl_analysis fl)) = false).
Proof.
  unfold resumeExecuteQuery.
  assert (forall (m : ST World MCPResponse), quiet m ->
    exists s, adds w s (run_state m w) /\ runs (args_Query (fl_args fl)) s
    /\ (s <> [] -> err = None /\ res_Approved r = true /\ binding_matches cfg fl = true
                  /\ BlocksRisk (pause w) (RiskLevel (fl_analysis fl)) = false)) as Hq.
  { intros m Hm. exists []. split; [by apply adds_quiet|]. split; [by left|done]. }
  destruct err as [e|]; [destruct e; apply Hq, quiet_resume_denied|].
  destruct (binding_matches cfg fl) eqn:Hb; cbn [negb];
    [|apply Hq, quiet_resume_blocked; quieten].
  unfold run_state. rewrite run_bind. unfold run_value, run_state, gets. cbn [fst snd].
  destruct (BlocksRisk (pause w) (RiskLevel (fl_analysis fl))) eqn:Hp.
  - apply Hq, quiet_resume_blocked. unfold alert_for, emitAlert. quieten.
  - destruct (resume_approved_adds fl r w) as (s & Ha & Hr & Hn). exists s.
    split; [exact Ha|]. split; [done|]. intros Hs. split; [done|].
    destruct (res_Approved r); [done|]. by rewrite Hn in Hs.
Qed.

(** ** execute_query up to its answer or its wait *)

(** The facts a waiting request carries. *)
Record fl_ok (id : string) (fl : inflight) : Prop := {
  ok_details_id : details_ID (fl_details fl) = id;
  ok_approval_id : fl_approvalID fl = id;
  ok_query : details_Query (fl_details fl) = args_Query (fl_args fl);
  ok_sha : details_QuerySHA256 (fl_details fl) = querySHA256 (args_Query (fl_args fl));
  ok_querySHA : fl_querySHA fl = querySHA256 (args_Query (fl_args fl));
  ok_binding : binding_matches cfg fl = true;
  ok_analysis : exists impact,
    fl_analysis fl = applyImpactAnalysis (analyzeSQL Parse (args_Query (fl_args fl))) impact;
  ok_action : Action (Decide (policy cfg) (fl_analysis fl)) = PolicyActionApprove;
}.

(** The policy lets [query] run at once, in a state where no pause blocks it. *)
Definition allowed_now (w : World) (query : string) : Prop :=
  exists impact,
    let a := applyImpactAnalysis (analyzeSQL Parse query) impact in
    Action (Decide (policy cfg) a) = PolicyActionExecute
    /\ BlocksRisk (pause w) (RiskLevel a) = false.

(** What one run of a handler did, given its answer. *)
Definition handler_effect (id : string) (w : World) (r : MCPResponse + inflight) (w' : World)
    : Prop :=
  pause w' = pause w /\ now w' = now w /\
  exists ps s, statements w' = statements w ++ ps ++ s /\ forallb is_probe ps = true /\
  match r with
  | inl _ =>
      approval w' = approval w
      /\ (s = [] \/ exists conn query, s = [Executed conn query] /\ allowed_now w query)
  | inr fl =>
      s = [] /\ request_begin (now w) (fl_details fl) (approval w) = inl (approval w')
      /\ fl_ok id fl
  end.

Lemma effect_after_probes id w ps w1 r w' :
  adds w ps w1 -> forallb is_probe ps = true ->
  handler_effect id w1 r w' -> handler_effect id w r w'.
Proof.
  intros (Hs & Ha & Hp & Hn) Hps (Hp' & Hn' & qs & s & Hs' & Hqs & Hr).
  split; [congruence|]. split; [congruence|].
  exists (ps ++ qs), s. split; [by rewrite Hs', Hs, !app_assoc|].
  split; [by rewrite forallb_app, Hps, Hqs|]. unfold allowed_now in *.
  rewrite Hp, Ha, Hn in Hr. exact Hr.
Qed.

Lemma effect_after_quiet {A} id (m : ST World A) (f : A -> ST World (MCPResponse + inflight)) w :
  quiet m ->
  (forall a w1, core w1 = core w -> handler_effect id w1 (run_value (f a) w1) (run_state (f a) w1)) ->
  handler_effect id w (run_value (m ≫= f) w) (run_state (m ≫= f) w).
Proof.
  intros Hm Hf. unfold run_value at 1, run_state at 1. rewrite run_bind.
  apply (effect_after_probes _ _ [] (run_state m w)); [by apply (adds_quiet m)|done|].
  apply Hf, Hm.
Qed.

Lemma effect_step {A} id (m : ST World A) (f : A -> ST World (MCPResponse + inflight)) w a w1 :
  m w = (a, w1) ->
  handler_effect id w (run_value (f a) w1) (run_state (f a) w1) ->
  handler_effect id w (run_value (m ≫= f) w) (run_state (m ≫= f) w).
Proof.
  intros Hm H. unfold run_value, run_state in *. unfold mbind, st_bind. by rewrite Hm.
Qed.

Lemma effect_none id w resp : handler_effect id w (inl resp) w.
Proof.
  split; [done|]. split; [done|]. exists [], []. split; [by rewrite !app_nil_r|].
  split; [done|]. split; [done|by left].
Qed.

Lemma effect_answer_quiet id m w :
  quiet m -> handler_effect id w (run_value (answer m) w) (run_state (answer m) w).
Proof.
  intros Hm. unfold answer. apply effect_after_quiet; [done|]. intros resp w1 _.
  apply effect_none.
Qed.

Lemma effect_execute_now id rid args an h w :
  (exists impact, an = applyImpactAnalysis (analyzeSQL Parse (args_Query args)) impact) ->
  Action (Decide (policy cfg) an) = PolicyActionExecute ->
  BlocksRisk (pause w) (RiskLevel an) = false ->
  let m := answer (execute_now cfg rid args an (Decide (policy cfg) an) h) in
  handler_effect id w (run_value m w) (run_state m w).
Proof.
  intros (impact & Han) Hact Hpause m.
  destruct (execute_now_adds rid args an (Decide (policy cfg) an) h w)
    as (s & (Hs & Ha & Hp & Hn) & Hruns).
  unfold m, answer, run_value, run_state. rewrite run_bind.
  unfold handler_effect. split; [exact Hp|]. split; [exact Hn|].
  exists [], s. split; [exact Hs|]. split; [done|]. split; [exact Ha|].
  destruct Hruns as [->|(conn & ->)]; [by left|right]. eexists _, _. split; [done|].
  exists impact. by rewrite <- Han.
Qed.

Lemma binding_new fl args an h id :
  fl_args fl = args -> fl_analysis fl = an -> h = querySHA256 (args_Query args) ->
  fl_details fl = new_details cfg args an h id -> binding_matches cfg fl = true.
Proof.
  intros Ha Han -> Hd. unfold binding_matches. rewrite Ha, Han, Hd. simpl.
  by rewrite !String.eqb_refl.
Qed.

Lemma effect_approval_path rid args an id w :
  (exists impact, an = applyImpactAnalysis (analyzeSQL Parse (args_Query args)) impact) ->
  Action (Decide (policy cfg) an) = PolicyActionApprove ->
  let m := request_approval_path cfg rid args an (Decide (policy cfg) an)
             (querySHA256 (args_Query args)) id in
  handler_effect id w (run_value m w) (run_state m w).
Proof.
  intros Han Hact m. unfold m, request_approval_path. clear m.
  apply effect_after_quiet.
  { destruct (_ && _); [apply (leaves_verifyCriticalRecoveryPoint core)|apply leaves_ret]. }
  intros [table [recovery|e]] w1 _; [|by apply effect_answer_quiet, quiet_block_recovery].
  apply effect_after_quiet; [apply leaves_when, (leaves_metrics core)|intros _ w2 _].
  apply effect_after_quiet; [apply (leaves_with_metadata core)|intros [[]|e] w3 _];
    [|by apply effect_answer_quiet, quiet_block_metadata].
  apply effect_after_quiet; [apply (leaves_Emit core)|intros _ w4 _].
  destruct (request_begin (now w4) (new_details cfg args an (querySHA256 (args_Query args)) id)
    (approval w4)) as [e|err] eqn:Hb.
  - eapply (effect_step _ _ _ _ None (set_approval e w4));
      [unfold begin_approval; cbn [fl_details]; by rewrite Hb|].
    split; [done|]. split; [done|]. exists [], [].
    split; [by rewrite !app_nil_r|]. split; [done|]. split; [done|]. split; [exact Hb|].
    split; try done. by eapply binding_new.
  - eapply (effect_step _ _ _ _ (Some err) w4);
      [unfold begin_approval; cbn [fl_details]; by rewrite Hb|].
    by apply effect_answer_quiet; destruct err; apply quiet_resume_denied.
Qed.

Lemma toolExecuteQuery_effect entropy rid raw w :
  let m := toolExecuteQuery Parse cfg entropy rid raw in
  handler_effect (generateID "appr" entropy (now w)) w (run_value m w) (run_state m w).
Proof.
  intros m. unfold m, toolExecuteQuery. clear m.
  assert (forall r w1, handler_effect (generateID "appr" entropy (now w)) w1
    (run_value (mret (inl r) : ST World (MCPResponse + inflight)) w1)
    (run_state (mret (inl r) : ST World (MCPResponse + inflight)) w1)) as Hret.
  { intros r w1. apply effect_none. }
  destruct (Unmarshal _ _ _) as [args|e]; [|apply Hret].
  destruct (String.eqb _ _); [apply Hret|].
  destruct (String.eqb (args_AgentID args) ""); [apply Hret|].
  destruct (probing_risk_analysis args w) as (ps & Hps & Hprobes).
  assert (exists impact, run_value (risk_analysis Parse cfg args) w
    = applyImpactAnalysis (analyzeSQL Parse (args_Query args)) impact) as Han.
  { unfold risk_analysis, run_value. rewrite run_bind. by eexists. }
  destruct (risk_analysis Parse cfg args w) as [an w1] eqn:Hrun.
  eapply effect_step; [exact Hrun|].
  unfold run_value in Han. unfold run_state in Hps. rewrite Hrun in Han, Hps.
  cbn [fst snd] in Han, Hps.
  assert (now w1 = now w) as Hnow by apply Hps.
  eapply effect_after_probes; [exact Hps|done|].
  eapply effect_step; [apply run_gets|].
  destruct (BlocksRisk (pause w1) (RiskLevel an)) eqn:Hpause.
  { apply effect_answer_quiet, quiet_block_paused. }
  eapply effect_step; [apply run_gets|].
  destruct (agentQuarantined cfg (args_AgentID args) an w1).
  { apply effect_answer_quiet, quiet_block_quarantined. }
  destruct (String.eqb_spec (Action (Decide (policy cfg) an)) PolicyActionBlock).
  { apply effect_answer_quiet, quiet_block_by_policy. }
  destruct (String.eqb_spec (Action (Decide (policy cfg) an)) PolicyActionExecute).
  { by apply effect_execute_now. }
  destruct (String.eqb_spec (Action (Decide (policy cfg) an)) PolicyActionApprove).
  - eapply effect_step; [apply run_gets|]. rewrite Hnow. by apply effect_approval_path.
  - apply effect_answer_quiet, quiet_block_unknown_action.
Qed.

(** ** The JSON-RPC dispatch *)
Lemma effect_answer_probing id m w :
  probing m -> handler_effect id w (run_value (answer m) w) (run_state (answer m) w).
Proof.
  intros Hm. destruct (Hm w) as (ps & Hps & Hprobes).
  unfold answer. destruct (m w) as [resp w1] eqn:Hrun. unfold run_state in Hps.
  rewrite Hrun in Hps.
  eapply effect_step; [exact Hrun|]. eapply effect_after_probes; [exact Hps|done|].
  apply effect_none.
Qed.

Lemma Handle_effect entropy principal body w :
  let m := Handle Parse cfg entropy principal body in
  handler_effect (generateID "appr" entropy (now w)) w (run_value m w) (run_state m w).
Proof.
  intros m. unfold m, Handle, handleToolsCall. clear m.
  repeat match goal with
  | |- handler_effect _ _ (run_value (mret _) _) _ => apply effect_none
  | |- handler_effect _ _ (run_value (answer (toolAnalyzeQuery _ _ _ _)) _) _ =>
      apply effect_answer_probing, probing_toolAnalyzeQuery
  | |- handler_effect _ _ (run_value (answer (toolRestoreSnapshot _ _ _)) _) _ =>
      apply effect_answer_quiet, quiet_toolRestoreSnapshot
  | |- handler_effect _ _ (run_value (toolExecuteQuery _ _ _ _ _) _) _ =>
      apply toolExecuteQuery_effect
  | |- context [match ?x with _ => _ end] => destruct x
  end.
Qed.

(** Without the scope query:execute no request executes or waits. *)
Lemma Handle_unscoped entropy principal body w :
  contextHasScope principal "query:execute" = false ->
  let m := Handle Parse cfg entropy principal body in
  (exists resp, run_value m w = inl resp)
  /\ exists ps, adds w ps (run_state m w) /\ forallb is_probe ps = true.
Proof.
  intros Hscope m.
  assert (forall (a : ST World MCPResponse), probing a ->
    (exists resp, run_value (answer a) w = inl resp)
    /\ exists ps, adds w ps (run_state (answer a) w) /\ forallb is_probe ps = true) as Hans.
  { intros a Ha. unfold answer. split.
    - unfold run_value. rewrite run_bind. by eexists.
    - apply probing_bind; [done|]. intros resp. apply probing_ret. }
  assert (forall r, (exists resp, run_value (mret (inl r) : ST World (MCPResponse + inflight)) w
      = inl resp)
    /\ exists ps, adds w ps (run_state (mret (inl r) : ST World (MCPResponse + inflight)) w)
         /\ forallb is_probe ps = true) as Hret.
  { intros r. split; [by eexists|]. apply probing_ret. }
  unfold m, Handle, handleToolsCall. rewrite Hscope. cbn [negb].
  repeat match goal with
  | |- (exists _, run_value (mret _) _ = _) /\ _ => apply Hret
  | |- (exists _, run_value (answer (toolAnalyzeQuery _ _ _ _)) _ = _) /\ _ =>
      apply Hans, probing_toolAnalyzeQuery
  | |- (exists _, run_value (answer (toolRestoreSnapshot _ _ _)) _ = _) /\ _ =>
      apply Hans; intros w1; exists []; split;
        [apply (adds_quiet (toolRestoreSnapshot cfg _ _)), quiet_toolRestoreSnapshot|done]
  | |- context [match ?x with _ => _ end] => destruct x
  end.
Qed.

(** ** The HTTP endpoints *)

(** The principal a request runs under, when its authentication lets it pass. *)
Definition admitted (s : ServerConfig) (r : request) (scope : string)
    : option (option AuthPrincipal) :=
  if Enabled (auth s) then
    match Authenticate (auth s) (http r) with
    | Some p => if hasScope p scope then Some (Some p) else None
    | None => None
    end
  else Some None.

Lemma requireScopedAuth_admitted s r scope next w :
  match admitted s r scope with
  | Some principal => requireScopedAuth (auth s) scope r next w = next principal w
  | None =>
      exists resp w', requireScopedAuth (auth s) scope r next w = (inl resp, w')
        /\ core w' = core w
        /\ (http_status resp = StatusUnauthorized \/ http_status resp = StatusForbidden)
  end.
Proof.
  unfold admitted, requireScopedAuth. destruct (Enabled (auth s)); [|done]. cbn [negb].
  assert (forall status who body code, code = StatusUnauthorized \/ code = StatusForbidden ->
    exists resp w', (recordAuthDenied status scope who;; respond (writeJSON code body)) w = (inl resp, w')
      /\ core w' = core w
      /\ (http_status resp = StatusUnauthorized \/ http_status resp = StatusForbidden)) as Hdeny.
  { intros status who body code Hcode. unfold mbind, st_bind.
    pose proof (quiet_recordAuthDenied status scope who w) as Hq. unfold run_state in Hq.
    destruct (recordAuthDenied status scope who w) as [[] w1]. eexists _, _. split; [done|]. by split. }
  destruct (Authenticate (auth s) (http r)) as [p|]; [|by apply Hdeny; left].
  destruct (hasScope p scope); [done|]. by apply Hdeny; right.
Qed.

(** The decision an endpoint signals, with the principal's name as its actor. *)
Definition signal_of (s : ServerConfig) (r : request) : option (string * ApprovalResolution) :=
  let decide (approve : bool) (id : string) :=
    match admitted s r "approval:write" with
    | Some principal =>
        if String.eqb id "" then None
        else Some (id, {| res_Approved := approve;
                          res_Actor := match principal with Some p => Name p
                                       | None => "unknown" end |})
    | None => None
    end in
  match route r with
  | Some (EApprove id) => decide true id
  | Some (EDeny id) => decide false id
  | _ => None
  end.

Definition is_pause_endpoint (r : request) : bool :=
  match route r with Some EPause | Some EResume => true | _ => false end.

(** A request was admitted to run queries. *)
Definition may_execute (s : ServerConfig) (r : request) : Prop :=
  exists principal, admitted s r "" = Some principal
    /\ contextHasScope principal "query:execute" = true.

Definition serve_effect (s : ServerConfig) (r : request) (id : string) (w : World)
    (rep : reply) (w' : World) : Prop :=
  now w' = now w
  /\ (is_pause_endpoint r = false -> pause w' = pause w)
  /\ exists ps q, statements w' = statements w ++ ps ++ q /\ forallb is_probe ps = true
  /\ match rep with
     | inl _ =>
         approval w' = match signal_of s r with
                       | Some (sid, res) => snd (signal sid res (approval w))
                       | None => approval w
                       end
         /\ (q = [] \/ exists conn query, q = [Executed conn query] /\ allowed_now w query
                         /\ may_execute s r)
     | inr fl =>
         q = [] /\ signal_of s r = None
         /\ request_begin (now w) (fl_details fl) (approval w) = inl (approval w')
         /\ fl_ok id fl /\ may_execute s r
     end.

Lemma serve_quiet s r id w resp w' :
  core w' = core w -> signal_of s r = None -> serve_effect s r id w (inl resp) w'.
Proof.
  unfold core. intros [= Hs Ha Hp Hn] Hsig. split; [done|]. split; [done|].
  exists [], []. rewrite Hsig, !app_nil_r. split; [done|]. split; [done|].
  split; [done|by left].
Qed.

(** A handler without effects on the core, behind its authentication. *)
Lemma serve_auth_quiet s r id scope next w :
  signal_of s r = None ->
  (forall principal, exists resp w', next principal w = (inl resp, w') /\ core w' = core w) ->
  let m := requireScopedAuth (auth s) scope r next in
  serve_effect s r id w (run_value m w) (run_state m w).
Proof.
  intros Hsig Hnext m. pose proof (requireScopedAuth_admitted s r scope next w) as H.
  unfold m, run_value, run_state. destruct (admitted s r scope) as [principal|].
  - rewrite H. destruct (Hnext principal) as (resp & w' & -> & Hc). by apply serve_quiet.
  - destruct H as (resp & w' & -> & Hc & _). by apply serve_quiet.
Qed.

Lemma respond_after {A} (m : ST World A) (f : A -> httpResponse) w :
  quiet m -> exists resp w', (x ← m; respond (f x)) w = (inl resp, w') /\ core w' = core w.
Proof.
  intros Hm. specialize (Hm w). unfold run_state in Hm. unfold mbind, st_bind.
  destruct (m w) as [a w1]. by eexists _, _.
Qed.

Lemma respond_quiet resp w :
  exists resp' w', respond resp w = (inl resp', w') /\ core w' = core w.
Proof. by eexists _, _. Qed.

(** The MCP handler of an admitted request. *)
Lemma mcp_handler_effect s r entropy principal w :
  signal_of s r = None -> is_pause_endpoint r = false ->
  admitted s r "" = Some principal ->
  let m := makeMCPHandler Parse cfg entropy r principal in
  serve_effect s r (generateID "appr" entropy (now w)) w (run_value m w) (run_state m w).
Proof.
  intros Hsig Hpause Hadm m. unfold m, makeMCPHandler.
  destruct (negb _); [by apply serve_quiet|].
  destruct (read_limited _ (req_body r)) as [body|]; [|by apply serve_quiet].
  pose proof (Handle_effect entropy principal body w) as He.
  pose proof (Handle_unscoped entropy principal body w) as Hu.
  cbv zeta in He, Hu. unfold run_value, run_state in *. unfold mbind, st_bind.
  destruct (Handle Parse cfg entropy principal body w) as [resp w1]. cbn [fst snd] in *.
  destruct He as (Hp & Hn & ps & q & Hs & Hps & Hr).
  destruct (contextHasScope principal "query:execute") eqn:Hscope.
  - assert (may_execute s r) as Hmay by (by exists principal).
    destruct resp as [resp|fl]; cbn [respond fst snd mret st_ret].
    + destruct Hr as [Ha Hq]. split; [done|]. split; [done|]. exists ps, q.
      rewrite Hsig. split; [done|]. split; [done|]. split; [done|].
      destruct Hq as [?|(conn & query & ? & ?)]; [by left|right; eauto 6].
    + destruct Hr as (Hq & Hb & Hok). split; [done|]. split; [done|]. by exists ps, q.
  - destruct (Hu eq_refl) as ((resp' & ->) & ps' & (Hs' & Ha' & _) & Hps').
    split; [done|]. split; [done|]. exists ps', []. rewrite Hsig, app_nil_r.
    split; [done|]. split; [done|]. split; [done|by left].
Qed.

Lemma approve_effect s r entropy w (approve : bool) id :
  route r = Some (if approve then EApprove id else EDeny id) ->
  let m := requireScopedAuth (auth s) "approval:write" r (makeApproveHandler approve id) in
  serve_effect s r entropy w (run_value m w) (run_state m w).
Proof.
  intros Hroute m.
  assert (signal_of s r = match admitted s r "approval:write" with
    | Some principal => if String.eqb id "" then None
        else Some (id, {| res_Approved := approve;
               res_Actor := match principal with Some p => Name p | None => "unknown" end |})
    | None => None end) as Hsig by (unfold signal_of; rewrite Hroute; by destruct approve).
  pose proof (requireScopedAuth_admitted s r "approval:write" (makeApproveHandler approve id) w) as H.
  unfold m, run_value, run_state.
  destruct (admitted s r "approval:write") as [principal|].
  - rewrite H. unfold makeApproveHandler. destruct (String.eqb id ""); [by apply serve_quiet|].
    unfold mbind, st_bind, approval_signal.
    assert ((if approve then Approve id (match principal with Some p => Name p | None => "unknown" end)
             else Deny id (match principal with Some p => Name p | None => "unknown" end)) (approval w)
      = signal id {| res_Approved := approve;
           res_Actor := match principal with Some p => Name p | None => "unknown" end |}
          (approval w)) as -> by (by destruct approve).
    destruct (signal id _ (approval w)) as [found e] eqn:He.
    destruct found; (split; [done|]; split; [done|]; exists [], []; rewrite Hsig, !app_nil_r;
      split; [done|]; split; [done|]; split; [by rewrite He|by left]).
  - destruct H as (resp & w' & -> & Hc & _). by apply serve_quiet.
Qed.

Lemma set_paused_core pausing why w :
  exists ok w', set_paused pausing why w = (ok, w') /\ statements w' = statements w
    /\ approval w' = approval w /\ now w' = now w.
Proof.
  unfold set_paused. destruct (pause w) as [p|]; [|by eexists _, _].
  destruct (SetPaused _ _ _ _ _) as [[ok' p'] d']. by eexists _, _.
Qed.

Lemma makePauseHandler_core pausing r principal w :
  exists resp w', makePauseHandler cfg pausing r principal w = (inl resp, w')
    /\ statements w' = statements w /\ approval w' = approval w /\ now w' = now w.
Proof.
  unfold makePauseHandler.
  destruct (set_paused_core pausing (pause_reason pausing (req_body r)) w)
    as (ok & w1 & Hset & H1 & H2 & H3).
  unfold mbind at 1, st_bind at 1. rewrite Hset.
  destruct ok; cbn [negb]; [|by eexists _, w1].
  match goal with |- context [upd_metrics _;; ?rest] =>
    assert (exists resp w2, (upd_metrics (SetPauseState pausing);; rest) w1
      = (inl resp, w2) /\ core w2 = core w1) as (resp & w2 & -> & Hc) end.
  - unfold mbind at 1, st_bind at 1, upd_metrics, modify.
    match goal with |- context [Emit ?k ?p] =>
      pose proof (leaves_Emit core k p (set_metrics (SetPauseState pausing (metrics w1)) w1)) as Hq;
      unfold run_state in Hq; unfold mbind at 1, st_bind at 1;
      destruct (Emit k p (set_metrics (SetPauseState pausing (metrics w1)) w1)) as [[] w2] end.
    eexists _, _. split; [reflexivity|exact Hq].
  - unfold core in Hc. injection Hc as ? ? ? ?. eexists _, _. split; [done|].
    split_and!; congruence.
Qed.

Lemma pause_effect s r id w pausing :
  is_pause_endpoint r = true -> signal_of s r = None ->
  let m := requireScopedAuth (auth s) "admin:*" r (makePauseHandler cfg pausing r) in
  serve_effect s r id w (run_value m w) (run_state m w).
Proof.
  intros Hroute Hsig m.
  assert (forall resp w', statements w' = statements w -> approval w' = approval w ->
    now w' = now w -> serve_effect s r id w (inl resp) w') as Hk.
  { intros resp w' H1 H2 H3. split; [done|]. split; [congruence|]. exists [], [].
    rewrite Hsig, !app_nil_r. split; [done|]. split; [done|]. split; [done|by left]. }
  pose proof (requireScopedAuth_admitted s r "admin:*" (makePauseHandler cfg pausing r) w) as H.
  unfold m, run_value, run_state.
  destruct (admitted s r "admin:*") as [principal|].
  - rewrite H. destruct (makePauseHandler_core pausing r principal w)
      as (resp & w' & -> & H1 & H2 & H3). by apply Hk.
  - destruct H as (resp & w' & -> & Hc & _). by apply serve_quiet.
Qed.

(** Every request. *)
Lemma serve_serve_effect s entropy active r w :
  let m := serve Parse cfg s entropy active r in
  serve_effect s r (generateID "appr" entropy (now w)) w (run_value m w) (run_state m w).
Proof.
  intros m. unfold m, serve. destruct (route r) as [e|] eqn:Hr; [|].
  2: { apply serve_quiet; [done|]. unfold signal_of. by rewrite Hr. }
  assert (match e with EApprove _ | EDeny _ => True | _ => signal_of s r = None end) as Hsig.
  { unfold signal_of. rewrite Hr. by destruct e. }
  assert (match e with EPause | EResume => True | _ => is_pause_endpoint r = false end) as Hpe.
  { unfold is_pause_endpoint. rewrite Hr. by destruct e. }
  destruct e; simpl endpoint_scope; simpl endpoint_handler.
  - by apply serve_quiet.
  - unfold limitConcurrent.
    assert (serve_effect s r (generateID "appr" entropy (now w)) w
      (run_value (requireScopedAuth (auth s) "" r (makeMCPHandler Parse cfg entropy r)) w)
      (run_state (requireScopedAuth (auth s) "" r (makeMCPHandler Parse cfg entropy r)) w)) as Hm.
    { pose proof (requireScopedAuth_admitted s r "" (makeMCPHandler Parse cfg entropy r) w) as H.
      unfold run_value, run_state. destruct (admitted s r "") as [principal|] eqn:Hadm.
      - rewrite H. by apply mcp_handler_effect.
      - destruct H as (resp & w' & -> & Hc & _). by apply serve_quiet. }
    destruct (_ <=? 0); [exact Hm|]. destruct (_ <? _); [exact Hm|]. by apply serve_quiet.
  - by apply (approve_effect s r _ w true id).
  - by apply (approve_effect s r _ w false id).
  - apply serve_auth_quiet; [done|]. intros p. apply respond_after, leaves_gets.
  - apply serve_auth_quiet; [done|]. intros p. apply respond_after, leaves_gets.
  - apply serve_auth_quiet; [done|]. intros p. apply respond_after, leaves_gets.
  - apply serve_auth_quiet; [done|]. intros p. apply respond_after, leaves_gets.
  - apply serve_auth_quiet; [done|]. intros p. apply respond_after, leaves_gets.
  - apply serve_auth_quiet; [done|]. intros p. apply respond_after, leaves_gets.
  - apply pause_effect; [|done]. unfold is_pause_endpoint. by rewrite Hr.
  - apply pause_effect; [|done]. unfold is_pause_endpoint. by rewrite Hr.
  - apply serve_auth_quiet; [done|]. intros p. apply respond_after, leaves_gets.
  - destruct (metricsPublic s).
    + by apply serve_quiet.
    + apply serve_auth_quiet; [done|]. intros p. apply respond_after, leaves_gets.
Qed.
End handlers.

(** ** The gateway as a transition system *)
Section system.
Context `{pg : Postgres, env : GatewayEnv}.
Variable Parse : string -> result (list (option Node)).
Variable cfg : Config.
Variable s : ServerConfig.

(** The process's state, and the requests that wait for an operator. *)
Record GState := { gw : World; waiting : gmap string inflight }.

(** The label is what the step means to the approval engine. *)
Inductive gstep : GState -> list (time * event) -> GState -> Prop :=
  | g_answer g r entropy resp w' :
      serve Parse cfg s entropy (Z.of_nat (size (waiting g))) r (gw g) = (inl resp, w') ->
      gstep g
        (match signal_of s r with
         | Some (id, res) => [(now (gw g), Signal id res)]
         | None => []
         end)
        {| gw := w'; waiting := waiting g |}
  | g_wait g r entropy fl w' :
      pending (approval (gw g)) !! generateID "appr" entropy (now (gw g)) = None ->
      serve Parse cfg s entropy (Z.of_nat (size (waiting g))) r (gw g) = (inr fl, w') ->
      gstep g [(now (gw g), Request (fl_details fl))]
        {| gw := w'; waiting := <[fl_approvalID fl := fl]> (waiting g) |}
  | g_return g id outcome fl e resp w' :
      waiting g !! id = Some fl ->
      step (now (gw g)) (approval (gw g)) (Return id outcome) e ->
      resumeExecuteQuery cfg fl outcome.1 outcome.2 (set_approval e (gw g)) = (resp, w') ->
      gstep g [(now (gw g), Return id outcome)]
        {| gw := w'; waiting := delete id (waiting g) |}
  | g_tick g t :
      now (gw g) <= t -> gstep g [] {| gw := set_now t (gw g); waiting := waiting g |}
  | g_outside g w' :
      core w' = core (gw g) -> gstep g [] {| gw := w'; waiting := waiting g |}.

(** Reachable states, with what happened to the approval engine. *)
Inductive reachable : GState -> list (time * event) -> Prop :=
  | reach_init w t :
      statements w = [] -> approval w = NewApprovalEngine t ->
      reachable {| gw := w; waiting := ∅ |} []
  | reach_step g tr evs g' :
      reachable g tr -> gstep g evs g' -> reachable g' (tr ++ evs).

(** The policy lets a query run at once. *)
Definition policy_allows (query : string) : Prop :=
  exists impact,
    Action (Decide (policy cfg) (applyImpactAnalysis (analyzeSQL Parse query) impact))
      = PolicyActionExecute.

(** A request for exactly this query was made, and the first decision signalled
    for it since was an approval. *)
Definition approved_in (tr : list (time * event)) (query : string) : Prop :=
  exists tr1 t id r tr2 t0 d,
    tr = tr1 ++ (t, Return id (r, None)) :: tr2
    /\ first_signal id tr1 = Some r /\ res_Approved r = true
    /\ (t0, Request d) ∈ tr1 /\ details_ID d = id /\ details_Query d = query
    /\ details_QuerySHA256 d = querySHA256 query.

Lemma approved_in_app tr tr' query : approved_in tr query -> approved_in (tr ++ tr') query.
Proof.
  intros (tr1 & t & id & r & tr2 & t0 & d & -> & H).
  exists tr1, t, id, r, (tr2 ++ tr'), t0, d. split; [|done]. by rewrite <- app_assoc.
Qed.

Hypothesis verifier_ok : forall v, snapshotVerifier cfg = Some v -> QuietVerifier v.

Record ginv (g : GState) (tr : list (time * event)) : Prop := {
  inv_engine : exists t, run_of (NewApprovalEngine t) tr (approval (gw g));
  inv_waiting : forall id fl, waiting g !! id = Some fl ->
    fl_ok Parse cfg id fl /\ exists t, (t, Request (fl_details fl)) ∈ tr;
  inv_executed : forall conn query, Executed conn query ∈ statements (gw g) ->
    policy_allows query \/ approved_in tr query;
}.

Lemma probes_not_executed ps conn query :
  forallb is_probe ps = true -> Executed conn query ∉ ps.
Proof. rewrite forallb_forall_iff. intros H Hin. by specialize (H _ Hin). Qed.

Lemma serve_inv g r entropy rep w' :
  serve Parse cfg s entropy (Z.of_nat (size (waiting g))) r (gw g) = (rep, w') ->
  serve_effect Parse cfg s r (generateID "appr" entropy (now (gw g))) (gw g) rep w'.
Proof.
  intros H.
  pose proof (serve_serve_effect Parse cfg verifier_ok s entropy
    (Z.of_nat (size (waiting g))) r (gw g)) as He.
  unfold run_value, run_state in He. by rewrite H in He.
Qed.

(** The statements a step adds, and why. *)
Lemma gstep_statements g evs g' :
  (forall id fl, waiting g !! id = Some fl -> fl_ok Parse cfg id fl) ->
  gstep g evs g' ->
  exists ps q, statements (gw g') = statements (gw g) ++ ps ++ q
    /\ forallb is_probe ps = true
    /\ (q = []
        \/ (exists conn query, q = [Executed conn query] /\ allowed_now Parse cfg (gw g) query)
        \/ exists id r fl conn, evs = [(now (gw g), Return id (r, None))]
             /\ waiting g !! id = Some fl /\ res_Approved r = true
             /\ q = [Executed conn (args_Query (fl_args fl))]
             /\ BlocksRisk (pause (gw g)) (RiskLevel (fl_analysis fl)) = false).
Proof.
  intros Hok [g0 r entropy resp w' Hs|g0 r entropy fl w' Hfresh Hs|g0 id [r err] fl e resp w' Hw Hst Hres
             |g0 t Ht|g0 w' Hc].
  - apply serve_inv in Hs as (_ & _ & ps & q & Hq & Hps & _ & Hr). exists ps, q.
    split; [done|]. split; [done|]. destruct Hr as [?|(conn & query & ? & ? & _)]; [by left|].
    right; left; eauto.
  - apply serve_inv in Hs as (_ & _ & ps & q & Hq & Hps & Hr). exists ps, q.
    split; [done|]. split; [done|]. left. apply Hr.
  - destruct (resumeExecuteQuery_adds cfg fl r err (set_approval e (gw g0)))
      as (q & (Hq & _) & Hruns & Hwhy).
    unfold run_state in Hq. cbn [fst snd] in Hres. rewrite Hres in Hq. cbn [snd] in Hq.
    exists [], q. split; [exact Hq|]. split; [done|].
    destruct Hruns as [->|(conn & ->)]; [by left|]. right; right.
    destruct (Hwhy ltac:(done)) as (-> & Ha & _ & Hp). by exists id, r, fl, conn.
  - exists [], []. rewrite !app_nil_r. split; [done|]. split; [done|by left].
  - unfold core in Hc. injection Hc as Hc _ _ _. exists [], [].
    rewrite !app_nil_r. split; [done|]. split; [done|by left].
Qed.

(** The approval engine inside the gateway makes the steps of [Approval.step]. *)
Lemma gstep_engine g evs g' t tr :
  (forall id fl, waiting g !! id = Some fl -> fl_ok Parse cfg id fl) ->
  run_of (NewApprovalEngine t) tr (approval (gw g)) ->
  gstep g evs g' -> run_of (NewApprovalEngine t) (tr ++ evs) (approval (gw g')).
Proof.
  intros Hok Hrun Hstep; revert Hok Hrun; destruct Hstep as
    [g0 r entropy resp w' Hs|g0 r entropy fl w' Hfresh Hs|g0 id [r err] fl e resp w' Hw Hst Hres
             |g0 t0 Ht|g0 w' Hc];
    intros Hok Hrun; cbn [gw].
  - apply serve_inv in Hs as (_ & _ & ps & q & _ & _ & Ha & _).
    destruct (signal_of s r) as [[sid res]|]; rewrite Ha; [|by rewrite app_nil_r].
    eapply run_snoc; [exact Hrun|]. apply step_signal.
  - apply serve_inv in Hs as (_ & _ & ps & q & _ & _ & _ & _ & Hb & Hfl & _).
    eapply run_snoc; [exact Hrun|]. apply step_request; [|exact Hb].
    by rewrite (ok_details_id _ _ _ _ Hfl).
  - destruct (resumeExecuteQuery_adds cfg fl r err (set_approval e (gw g0)))
      as (q & (_ & Ha & _) & _).
    unfold run_state in Ha. cbn [fst snd] in Hres. rewrite Hres in Ha. cbn [snd] in Ha.
    rewrite Ha. eapply run_snoc; [exact Hrun|exact Hst].
  - by rewrite app_nil_r.
  - rewrite app_nil_r. unfold core in Hc. injection Hc as _ -> _ _. done.
Qed.

Lemma gstep_waiting g evs g' :
  gstep g evs g' ->
  forall id fl, waiting g' !! id = Some fl ->
    waiting g !! id = Some fl
    \/ (fl_ok Parse cfg id fl /\ exists t, (t, Request (fl_details fl)) ∈ evs).
Proof.
  intros [g0 r entropy resp w' Hs|g0 r entropy fl w' Hfresh Hs|g0 id [r err] fl e resp w' Hw Hst Hres
         |g0 t Ht|g0 w' Hc] id' fl'; cbn [waiting]; try by left.
  - apply serve_inv in Hs as (_ & _ & ps & q & _ & _ & _ & _ & _ & Hfl & _).
    rewrite (ok_approval_id _ _ _ _ Hfl), lookup_insert_Some.
    intros [[<- <-]|[_ ?]]; [right|by left]. split; [done|]. eexists. by left.
  - intros [_ ?]%lookup_delete_Some. by left.
Qed.

Lemma reachable_inv g tr : reachable g tr -> ginv g tr.
Proof.
  induction 1 as [w t Hst Ha|g tr evs g' Hreach IH Hstep].
  { split; cbn [gw waiting].
    - exists t. rewrite Ha. constructor.
    - intros id fl. by rewrite lookup_empty.
    - intros conn query. rewrite Hst. by intros ?%elem_of_nil. }
  destruct IH as [[t Hrun] Hwait Hexec].
  assert (forall id fl, waiting g !! id = Some fl -> fl_ok Parse cfg id fl) as Hok
    by (intros id fl H; by apply Hwait in H as [? _]).
  split.
  - exists t. by apply (gstep_engine g).
  - intros id fl [H|[H (t0 & Ht0)]]%(gstep_waiting _ _ _ Hstep); [|set_solver].
    apply Hwait in H as (? & t0 & ?). set_solver.
  - destruct (gstep_statements _ _ _ Hok Hstep) as (ps & q & Heq & Hps & Hwhy).
    intros conn query. rewrite Heq, !elem_of_app.
    intros [Hin|[Hin|Hin]].
    + destruct (Hexec _ _ Hin) as [?|?]; [by left|right; by apply approved_in_app].
    + by apply probes_not_executed in Hin.
    + destruct Hwhy as [->|[(conn' & query' & -> & impact & Hact & _)
                           |(id & r & fl & conn' & -> & Hfl & Hr & -> & _)]].
      * by apply elem_of_nil in Hin.
      * apply list_elem_of_singleton in Hin as [= _ ->]. left. by exists impact.
      * apply list_elem_of_singleton in Hin as [= _ ->]. right.
        destruct (Hwait _ _ Hfl) as ([Hid _ Hq Hsha _ _ _ _] & t0 & Ht0).
        assert (first_signal id tr = Some r) as Hfirst.
        { inversion Hstep as [g0 r0 ent resp w' Hs Heq1 Heq2| | g0 id' o fl' e resp w' _ Hst
            | |]; subst.
          - destruct (signal_of s r0) as [[? ?]|]; discriminate.
          - by eapply return_first_signal. }
        exists tr, (now (gw g)), id, r, [], t0, (fl_details fl).
        rewrite Hq. by split_and!.
Qed.
End system.
