(* ===== verification/GatewayProperties.v ===== *)
(** * Properties of the gateway as a whole

    The theorems about what the gateway executes, proved from the lemmas of
    [GatewaySafety], with runs of a concrete gateway they apply to. *)
From S2P Require Import Prelude GoString GoTime Json JsonText Sha256 Postgres PgAst SqlAnalyzer Policy.
From S2P Require Import GatewayMetrics Manifest AgentIdentity Approval Pause Auth GatewayMetadata.
From S2P Require Import GatewayWorld Behavior Impact SnapshotVerifier McpServer Gateway.
From S2P Require Import GatewaySafety.

Open Scope Z_scope.

(** ** The verifier of the repository keeps the interface's promise *)
Section s3_verifier.
Context `{pg : Postgres, env : GatewayEnv}.

Section frame.
Context {X : Type} (obs : World -> X) `{!Incidental obs}.

Lemma leaves_quarantineManifest v key table sid reason :
  leaves obs (quarantineManifest v key table sid reason).
Proof.
  intros w. unfold run_state, quarantineManifest. destruct (has_metadata v); [|done].
  simpl negb. cbv iota. destruct (metadata w); [|done].
  match goal with |- obs (?m w).2 = _ => change (obs (run_state m w) = obs w) end.
  set (sid' := if String.eqb sid "" then snapshotIDFromManifestKey key else sid).
  revert w. change (leaves obs (
    r ← with_metadata (fun now => QuarantineManifest now sid' table key reason);
    if is_ok r then mret tt
    else with_metadata (fun now =>
           RecordAlert now "critical" "manifest_quarantine_failed" table "failed"
             (json_map [("manifest_key", JString key); ("snapshot_id", JString sid');
                        ("reason", JString reason); ("error", JString (err_text r))]));;
         mret tt)).
  quieten.
Qed.
#[local] Hint Resolve leaves_quarantineManifest : quiet.

Lemma leaves_latest_key v table key acc : leaves obs (latest_key v table key acc).
Proof. unfold latest_key. quieten. Qed.
#[local] Hint Resolve leaves_latest_key : quiet.

Lemma leaves_latest_keys v table keys acc : leaves obs (latest_keys v table keys acc).
Proof.
  revert acc. induction keys as [|key keys IH]; intros acc; simpl; [apply leaves_ret|].
  apply leaves_bind; [apply leaves_latest_key|]. intros [acc'|e]; [apply IH|apply leaves_ret].
Qed.

Lemma leaves_latest_pages v table pages acc : leaves obs (latest_pages v table pages acc).
Proof.
  revert acc. induction pages as [|[keys|e] pages IH]; intros acc; simpl; try apply leaves_ret.
  apply leaves_bind; [apply leaves_latest_keys|]. intros [acc'|e]; [apply IH|apply leaves_ret].
Qed.
#[local] Hint Resolve leaves_latest_pages : quiet.

Lemma leaves_latestSidecarManifest v table : leaves obs (latestSidecarManifest v table).
Proof. unfold latestSidecarManifest. quieten. Qed.
#[local] Hint Resolve leaves_latestSidecarManifest : quiet.
End frame.
#[local] Hint Resolve leaves_latestSidecarManifest : quiet.

#[export] Instance S3_verifier_quiet v : QuietVerifier (S3_verifier v).
Proof.
  split.
  - intros X obs Hobs table sid. unfold S3_verifier, VerifyLatestSidecarSnapshot,
      S3_VerifyLatestSidecarSnapshot. quieten.
  - intros X obs Hobs f table [= <-]. unfold S3_LatestSidecarSnapshot. quieten.
Qed.
End s3_verifier.

(** ** The restore command, as a POSIX shell reads it

    [shell_words] splits a command line into words: blanks separate, quotes and
    backslashes keep.  An unquoted character with a meaning of its own makes it
    give up. *)
Inductive quoting := Plain | Single | Double.

Definition shell_special (c : ascii) : bool :=
  existsb (Ascii.eqb c)
    [";"; "&"; "|"; "<"; ">"; "("; ")"; "$"; "`"; "*"; "?"; "["; "]"; "#"; "~"; "!"; "{"; "}";
     "010"]%char.

Definition grow (word : option string) (c : ascii) : option string :=
  Some (default "" word +:+ str1 c).

Fixpoint shell_words (q : quoting) (word : option string) (s : string) : option (list string) :=
  match s with
  | EmptyString =>
      match q with Plain => Some (option_list word) | _ => None end
  | String c s =>
      match q with
      | Plain =>
          if Ascii.eqb c " " then
            rest ← shell_words Plain None s; Some (option_list word ++ rest)
          else if Ascii.eqb c squote then shell_words Single (Some (default "" word)) s
          else if Ascii.eqb c dquote then shell_words Double (Some (default "" word)) s
          else if Ascii.eqb c backslash then
            match s with
            | EmptyString => None
            | String c' s => shell_words Plain (grow word c') s
            end
          else if shell_special c then None
          else shell_words Plain (grow word c) s
      | Single =>
          if Ascii.eqb c squote then shell_words Plain word s
          else shell_words Single (grow word c) s
      | Double =>
          if Ascii.eqb c dquote then shell_words Plain word s
          else if Ascii.eqb c backslash || Ascii.eqb c "`" then None
          else shell_words Double (grow word c) s
      end
  end.

Lemma app_str1 (w : string) c v : (w +:+ str1 c) +:+ v = w +:+ String c v.
Proof. by rewrite append_assoc. Qed.

Lemma shell_single v word rest :
  shell_words Single (Some word)
    (ReplaceAll v squote (String squote (String backslash (String squote (str1 squote))))
     +:+ String squote rest)
  = shell_words Plain (Some (word +:+ v)) rest.
Proof.
  revert word. induction v as [|c v IH]; intros word; cbn [ReplaceAll].
  - by rewrite append_nil_r.
  - rewrite <- (app_str1 word c v). destruct (Ascii.eqb c squote) eqn:Hc.
    + apply Ascii.eqb_eq in Hc as ->. rewrite <- IH. reflexivity.
    + rewrite <- IH, append_cons. cbn [shell_words]. by rewrite Hc.
Qed.

(** A quoted value is one word, whatever it holds. *)
Lemma shell_quoted v rest :
  shell_words Plain None (shellQuote v +:+ rest) = shell_words Plain (Some v) rest.
Proof.
  unfold shellQuote. destruct (String.eqb_spec v "") as [->|_]; [reflexivity|].
  transitivity (shell_words Single (Some "")
    (ReplaceAll v squote (String squote (String backslash (String squote (str1 squote))))
     +:+ String squote rest)); [|apply shell_single].
  unfold str1. rewrite !append_assoc. reflexivity.
Qed.

(** The blank after a word, and the text of a flag. *)
Lemma shell_blank v rest ws :
  shell_words Plain None rest = Some ws ->
  shell_words Plain (Some v) (String " " rest) = Some (v :: ws).
Proof. intros H. cbn [shell_words]. change (Ascii.eqb " " " ") with true. cbv iota. by rewrite H. Qed.

(** C35. The restore command injects nothing: a shell reads the command the gateway
    prints as the words of one backstop restore call, with the storage, the
    snapshot id, the table and the target as single arguments exactly as they
    were given, whatever bytes they hold. *)
Theorem restore_command_words `{pg : Postgres} (cfg : Config) args target :
  shell_words Plain None (restore_command cfg args target) =
    Some ["backstop"; "restore"; "--db"; "$BACKSTOP_RESTORE_DB"; "--storage"; storage cfg;
          "--snapshot-id"; restore_SnapshotID args; "--table"; restore_Table args;
          "--target-table"; target].
Proof.
  unfold restore_command.
  assert (forall v flag rest ws, shell_words Plain None rest = Some ws ->
    In flag ["--db"; "--storage"; "--snapshot-id"; "--table"; "--target-table"] ->
    shell_words Plain (Some v) (String " " (flag +:+ " " +:+ rest)) = Some (v :: flag :: ws)) as Hflag.
  { intros v flag rest ws H Hin. apply shell_blank.
    repeat destruct Hin as [<-|Hin]; try done; by apply (shell_blank _ rest). }
  set (rest := shellQuote (storage cfg) +:+ _).
  match goal with |- _ = ?r =>
    change (shell_words Plain (Some "backstop") (String " " ("restore" +:+ " " +:+ "--db" +:+ " "
      +:+ str1 dquote +:+ "$BACKSTOP_RESTORE_DB" +:+ str1 dquote +:+ " "
      +:+ "--storage" +:+ " " +:+ rest)) = r) end.
  apply shell_blank.
  match goal with |- _ = ?r =>
    change (shell_words Plain (Some "restore") (String " " ("--db" +:+ " "
      +:+ str1 dquote +:+ "$BACKSTOP_RESTORE_DB" +:+ str1 dquote +:+ " "
      +:+ "--storage" +:+ " " +:+ rest)) = r) end.
  apply shell_blank.
  match goal with |- _ = ?r =>
    change (shell_words Plain (Some "--db") (String " " (str1 dquote +:+ "$BACKSTOP_RESTORE_DB"
      +:+ str1 dquote +:+ " " +:+ "--storage" +:+ " " +:+ rest)) = r) end.
  apply shell_blank.
  match goal with |- _ = ?r =>
    change (shell_words Plain (Some "$BACKSTOP_RESTORE_DB")
      (String " " ("--storage" +:+ " " +:+ rest)) = r) end.
  apply Hflag; [|set_solver]. unfold rest. rewrite shell_quoted.
  apply (Hflag _ "--snapshot-id"); [|set_solver]. rewrite shell_quoted.
  apply (Hflag _ "--table"); [|set_solver]. rewrite shell_quoted.
  apply (Hflag _ "--target-table"); [|set_solver].
  rewrite <- (append_nil_r (shellQuote target)), shell_quoted. done.
Qed.

(** ** What the gateway executes *)
Section executes.
Context `{pg : Postgres, env : GatewayEnv}.
Variable Parse : string -> result (list (option Node)).
Variable cfg : Config.
Variable s : ServerConfig.
Hypothesis verifier_ok : forall v, snapshotVerifier cfg = Some v -> QuietVerifier v.

(** C1. Nothing runs without permission.  In every state the gateway can reach by
    requests, operators' decisions, timeouts, cancellations, pauses and changes
    of the outside world, each agent's statement sent to PostgreSQL was either
    one the policy executes at once, or one for which an approval with exactly
    this text and hash was requested and the first decision signalled for it was
    an approval. *)
Theorem executed_only_if_allowed g tr conn query :
  reachable Parse cfg s g tr -> Executed conn query ∈ statements (gw g) ->
  policy_allows Parse cfg query \/ approved_in tr query.
Proof. intros Hreach. apply (inv_executed _ _ _ _ (reachable_inv _ _ _ verifier_ok g tr Hreach)). Qed.

(** C6. The gateway implements the approval engine's specification: the events of
    every run of the gateway are a run of [Approval.step] that ends in the
    gateway's engine, every waiting request has its details among them, and is
    bound to them: its query, environment, cluster, table and risk are those
    the operator was shown. *)
Theorem gateway_refines_approval_engine g tr :
  reachable Parse cfg s g tr ->
  (exists t, run_of (NewApprovalEngine t) tr (approval (gw g)))
  /\ forall id fl, waiting g !! id = Some fl ->
       details_ID (fl_details fl) = id /\ (exists t, (t, Request (fl_details fl)) ∈ tr)
       /\ details_Query (fl_details fl) = args_Query (fl_args fl)
       /\ binding_matches cfg fl = true.
Proof.
  intros [Hrun Hwait _]%reachable_inv; [|done]. split; [done|].
  intros id fl Hfl. by destruct (Hwait id fl Hfl) as [[] ?].
Qed.

(** C7. A pause stops everything in its tracks: from a reachable state in which the
    gateway is paused, no step executes a statement, the resumption of an
    approved request included, unless safe reads are let through and the
    statement's risk is SAFE. *)
Theorem paused_executes_nothing g tr evs g' p :
  reachable Parse cfg s g tr -> gstep Parse cfg s g evs g' ->
  pause (gw g) = Some p -> paused p = true ->
  exists ps q, statements (gw g') = statements (gw g) ++ ps ++ q
    /\ forallb is_probe ps = true
    /\ (q = [] \/ exists conn query impact, q = [Executed conn query]
          /\ pauseBlocksSafe p = false
          /\ RiskLevel (applyImpactAnalysis (analyzeSQL Parse query) impact) = RiskSafe).
Proof.
  intros [_ Hwait _]%reachable_inv Hstep Hp Hpaused; [|done].
  destruct (gstep_statements Parse cfg s verifier_ok g evs g') as (ps & q & Heq & Hps & Hq);
    [by intros id fl []%Hwait|done|].
  exists ps, q. split; [done|]. split; [done|].
  assert (forall risk, BlocksRisk (pause (gw g)) risk = false ->
    pauseBlocksSafe p = false /\ risk = RiskSafe) as Hblock.
  { intros risk. unfold BlocksRisk. rewrite Hp, Hpaused. cbn [negb].
    by intros [? ?%negb_false_iff%String.eqb_eq]%orb_false_iff. }
  destruct Hq as [->|[(conn & query & -> & impact & _ & Hb)
                     |(id & r & fl & conn & _ & Hfl & _ & -> & Hb)]]; [by left|right|right].
  - apply Hblock in Hb as [? ?]. by exists conn, query, impact.
  - apply Hblock in Hb as [? Hsafe]. destruct (Hwait id fl Hfl) as [[] _].
    destruct ok_analysis as (impact & Han). rewrite Han in Hsafe. by exists conn, (args_Query (fl_args fl)), impact.
Qed.

(** C11. Scopes guard every effect.  A request that is not admitted with the scope
    query:execute neither executes a statement nor waits for an operator; one not
    admitted with approval:write decides nothing: it leaves the approval engine as it
    is, or it is admitted with query:execute and only registers its own query, so that
    every request pending before, under another id than the one it draws, is pending
    with the same decision or none; one not admitted with admin:* leaves the pause as
    it is. *)
Theorem scopes_guard_effects entropy active r w rep w' :
  serve Parse cfg s entropy active r w = (rep, w') ->
  ((forall principal, admitted s r "" = Some principal ->
      contextHasScope principal "query:execute" = false) ->
     (exists resp, rep = inl resp)
     /\ exists ps, statements w' = statements w ++ ps /\ forallb is_probe ps = true)
  /\ (admitted s r "approval:write" = None ->
        approval w' = approval w
        \/ exists fl principal, rep = inr fl
             /\ admitted s r "" = Some principal
             /\ contextHasScope principal "query:execute" = true
             /\ request_begin (now w) (fl_details fl) (approval w) = inl (approval w')
             /\ forall id, id <> details_ID (fl_details fl) ->
                  pending (approval w') !! id = pending (approval w) !! id)
  /\ (admitted s r "admin:*" = None -> pause w' = pause w).
Proof.
  intros Hserve.
  pose proof (serve_serve_effect Parse cfg verifier_ok s entropy active r w) as He.
  unfold run_value, run_state in He. rewrite Hserve in He. cbv zeta in He. cbn [fst snd] in He.
  destruct He as (_ & Hpause & ps & q & Hs & Hps & Hrep).
  split; [|split].
  - intros Hno. assert (~ may_execute s r) as Hmay.
    { intros (principal & Ha & Hc). by rewrite (Hno _ Ha) in Hc. }
    destruct rep as [resp|fl]; [|by destruct Hrep as (_ & _ & _ & _ & ?)].
    split; [by exists resp|]. exists ps. destruct Hrep as [_ [->|(? & ? & _ & _ & ?)]]; [|done].
    by rewrite app_nil_r in Hs.
  - intros Hno. destruct rep as [resp|fl].
    + left. destruct Hrep as [-> _]. unfold signal_of. rewrite Hno. by destruct (route r) as [[]|].
    + right. destruct Hrep as (_ & _ & Hb & _ & principal & Ha & Hc).
      exists fl, principal. split_and!; try done. intros id Hne. revert Hb. unfold request_begin.
      destruct (String.eqb _ ""); [done|]. intros [= <-]. cbn. by rewrite lookup_insert_ne.
  - intros Hno. destruct (is_pause_endpoint r) eqn:Hpe; [|by apply Hpause].
    unfold is_pause_endpoint in Hpe. unfold serve in Hserve.
    assert (forall next, requireScopedAuth (auth s) "admin:*" r next w = (rep, w') ->
      pause w' = pause w) as Hauth.
    { intros next Hr. pose proof (requireScopedAuth_admitted s r "admin:*" next w) as H.
      rewrite Hno, Hr in H. destruct H as (resp & w1 & [= -> ->] & Hc & _).
      unfold core in Hc. by injection Hc. }
    destruct (route r) as [[]|]; try done; by apply Hauth in Hserve.
Qed.
End executes.

(** ** Recovery points *)
Section recovery.
Context `{pg : Postgres, env : GatewayEnv}.
Variable Parse : string -> result (list (option Node)).
Variable cfg : Config.

(** A state transformer's answer comes from its last step. *)
Lemma bind_answer {S A B} (m : ST S A) (f : A -> ST S B) w b w' :
  (m ≫= f) w = (b, w') -> exists a w1, m w = (a, w1) /\ f a w1 = (b, w').
Proof. unfold mbind, st_bind. destruct (m w) as [a w1]. eauto. Qed.

Lemma answer_not_waiting m w fl w' : answer m w <> (inr fl, w').
Proof. intros (a & w1 & _ & [=])%bind_answer. Qed.

(** The recovery point [r] was verified for the analysis in a state of the
    request's run, with the bucket as it is in [w]. *)
Definition recovery_verified (w : World) (args : executeQueryParams) (an : sqlAnalysis)
    (r : SnapshotManifest) : Prop :=
  exists table v w1 w2, criticalRecoveryTableFromAnalysis an = Ok table
    /\ snapshotVerifier cfg = Some v /\ s3 w1 = s3 w
    /\ VerifyLatestSidecarSnapshot v table (args_SnapshotID args) w1 = (Ok r, w2)
    /\ checkRecoveryReadiness cfg r w2 = Ok tt.

Lemma verifyCritical_ok args an w table r w' :
  verifyCriticalRecoveryPointWithAnalysis cfg args an w = ((table, Ok r), w') ->
  recovery_verified w args an r.
Proof.
  unfold verifyCriticalRecoveryPointWithAnalysis, recovery_verified.
  destruct (criticalRecoveryTableFromAnalysis an) as [t|]; [|done].
  destruct (String.eqb _ _); [done|]. destruct (snapshotVerifier cfg) as [v|]; [|done].
  intros (rv & w1 & Hv & H)%bind_answer.
  destruct rv as [m|e]; [|by apply bind_answer in H as (? & ? & _ & [=])].
  apply bind_answer in H as (ready & w2 & [= <- <-] & H).
  destruct (checkRecoveryReadiness cfg m w1) as [[]|e] eqn:Hready;
    [|by apply bind_answer in H as (? & ? & _ & [=])].
  apply bind_answer in H as (grp & w3 & _ & H).
  destruct grp; apply bind_answer in H as (? & ? & _ & [= _ -> _]).
  by exists t, v, w, w1.
Qed.

(** The analysis of a request only reads the bucket. *)
Lemma leaves_s3_risk_analysis args : leaves s3 (risk_analysis Parse cfg args).
Proof.
  assert (forall conn sql, leaves s3 (probe conn sql)) as Hprobe.
  { intros conn sql w. unfold run_state, probe. by destruct (QueryContext _ _ _). }
  unfold risk_analysis, analyzeImpact, estimateAffectedRowsWithExplain.
  apply leaves_bind; [|intros; apply leaves_ret].
  repeat first [apply leaves_ret | apply Hprobe | apply leaves_bind; [|intros ?] | case_match].
Qed.

Lemma approval_path_recovery id args an d sha aid w fl w' :
  request_approval_path cfg id args an d sha aid w = (inr fl, w') ->
  fl_args fl = args /\ fl_analysis fl = an
  /\ (RequiresRecovery d = true -> snapshotBeforeCritical cfg = true ->
      recovery_verified w args an (fl_recovery fl)).
Proof.
  intros H. unfold request_approval_path in H.
  apply bind_answer in H as ([table [r|e]] & w1 & Hv & H).
  2: { by apply answer_not_waiting in H. }
  apply bind_answer in H as ([] & w2 & _ & H).
  apply bind_answer in H as ([[]|e] & w3 & _ & H); [|by apply answer_not_waiting in H].
  apply bind_answer in H as ([] & w4 & _ & H).
  apply bind_answer in H as ([err|] & w5 & _ & H); [by apply answer_not_waiting in H|].
  injection H as <- _. cbn. split; [done|]. split; [done|]. intros Hd Hs.
  rewrite Hd, Hs in Hv. by apply verifyCritical_ok in Hv.
Qed.

Lemma waiting_query_verified entropy id raw w fl w' :
  toolExecuteQuery Parse cfg entropy id raw w = (inr fl, w') ->
  RequiresRecovery (Decide (policy cfg) (fl_analysis fl)) = true ->
  snapshotBeforeCritical cfg = true ->
  recovery_verified w (fl_args fl) (fl_analysis fl) (fl_recovery fl).
Proof.
  intros H Hd Hs. unfold toolExecuteQuery in H.
  destruct (Unmarshal _ _ _) as [args|]; [|done].
  destruct (String.eqb _ _); [done|]. destruct (String.eqb (args_AgentID args) ""); [done|].
  apply bind_answer in H as (an & w1 & Ha & H). pose proof (leaves_s3_risk_analysis args w) as Hb.
  unfold run_state in Hb. rewrite Ha in Hb. cbn [snd] in Hb.
  apply bind_answer in H as (p & w2 & [= _ <-] & H).
  destruct p; [by apply answer_not_waiting in H|]. apply bind_answer in H as (q & w3 & [= _ <-] & H).
  destruct q; [by apply answer_not_waiting in H|].
  destruct (String.eqb (Action _) PolicyActionBlock); [by apply answer_not_waiting in H|].
  destruct (String.eqb (Action _) PolicyActionExecute); [by apply answer_not_waiting in H|].
  destruct (String.eqb (Action _) PolicyActionApprove); [|by apply answer_not_waiting in H].
  apply bind_answer in H as (t & w4 & [= _ <-] & H).
  apply approval_path_recovery in H as (-> & Han & Hrec). rewrite Han in *.
  destruct (Hrec Hd Hs) as (t' & v & w2 & w3 & ? & ? & Hs3 & ? & ?).
  exists t', v, w2, w3. split_and!; try done. congruence.
Qed.

(** C15. A destructive query waits for its approval only behind a recovery point:
    when the policy requires recovery and snapshots are required before CRITICAL
    execution, a query that reaches the operator has one recoverable table, and
    the snapshot id it names was accepted for that table by the verifier, and
    was ready. *)
Theorem waiting_query_has_recovery_point entropy id raw w fl w' :
  toolExecuteQuery Parse cfg entropy id raw w = (inr fl, w') ->
  RequiresRecovery (Decide (policy cfg) (fl_analysis fl)) = true ->
  snapshotBeforeCritical cfg = true ->
  recovery_verified w (fl_args fl) (fl_analysis fl) (fl_recovery fl).
Proof. apply waiting_query_verified. Qed.

Lemma bind_unit_ok (a b : result unit) : (a;; b) = Ok tt <-> a = Ok tt /\ b = Ok tt.
Proof. destruct a as [[]|]; cbn; naive_solver. Qed.

Lemma if_ltb_ok (x y : Z) (e : error) :
  (if x <? y then Err e else Ok tt) = Ok tt <-> y <= x.
Proof. destruct (Z.ltb_spec x y); split; (done || lia). Qed.

(** What readiness means, exactly: a manifest is ready when its age does not
    exceed the policy's limit (a timestamp in the future always passes, and a
    limit of 0 or less asks nothing), the metadata database has a valid record
    of it, and, when a heartbeat is required, the sidecar reported itself
    healthy within the limit. *)
Theorem recovery_readiness_iff m w :
  checkRecoveryReadiness cfg m w = Ok tt <->
  (MaxSnapshotAgeSeconds (policy cfg) <= 0
   \/ exists ts, parseManifestTime (Timestamp m) = Ok ts
        /\ Sub (now w) ts <= seconds (MaxSnapshotAgeSeconds (policy cfg)))
  /\ (metadata w <> None -> ValidateSnapshotRecord m (metadata w) = Ok tt)
  /\ (RequireSidecarHeartbeat (policy cfg) = true ->
        metadata w <> None
        /\ exists checked, GetHealth "sync" (metadata w) = Some ("healthy", checked)
             /\ Sub (now w) checked <= seconds (MaxSidecarHeartbeatSeconds (policy cfg))).
Proof.
  unfold checkRecoveryReadiness. rewrite !bind_unit_ok. f_equiv.
  - destruct (Z.ltb_spec 0 (MaxSnapshotAgeSeconds (policy cfg))); [|naive_solver].
    destruct (parseManifestTime (Timestamp m)) as [ts|e]; [rewrite if_ltb_ok|].
    + split; [eauto|]. intros [?|(? & [= <-] & ?)]; [lia|done].
    + split; [done|]. intros [?|(? & ? & ?)]; [lia|done].
  - assert (forall h : option (string * Z),
      match h with
      | None => Err "recovery readiness failed: sync sidecar heartbeat is missing"
      | Some (status, checkedAt) =>
          if negb (String.eqb status "healthy") then
            Err ("recovery readiness failed: sync sidecar status is " +:+ status)
          else if seconds (MaxSidecarHeartbeatSeconds (policy cfg)) <? Sub (now w) checkedAt then
            Err "recovery readiness failed: sync sidecar heartbeat is stale"
          else Ok tt
      end = Ok tt
      <-> exists checked, h = Some ("healthy", checked)
            /\ Sub (now w) checked <= seconds (MaxSidecarHeartbeatSeconds (policy cfg))) as Hbeat.
    { intros [[st c]|]; [|split; [done|by intros (? & ? & _)]].
      destruct (String.eqb_spec st "healthy") as [->|Hne]; cbn [negb].
      - rewrite if_ltb_ok. split; [eauto|]. by intros (? & [= <-] & ?).
      - split; [done|]. by intros (? & [= ? _] & _). }
    destruct (metadata w) as [d|], (RequireSidecarHeartbeat (policy cfg));
      rewrite ?Hbeat.
    + destruct (ValidateSnapshotRecord m (Some d)) as [[]|]; cbn; naive_solver.
    + destruct (ValidateSnapshotRecord m (Some d)) as [[]|]; cbn; naive_solver.
    + split; [naive_solver|]. intros [_ H]. by destruct (H eq_refl).
    + naive_solver.
Qed.
End recovery.

(** ** The impact analysis *)
Section analysis.
Context `{pg : Postgres, env : GatewayEnv}.

(** An UPDATE or a DELETE. *)
Definition is_write (st : option Node) : bool :=
  match st with
  | Some (Node_UpdateStmt _ _) | Some (Node_DeleteStmt _ _) => true
  | _ => false
  end.

Lemma is_write_operation st :
  Operation (analyzeStatement st) = "DELETE" \/ Operation (analyzeStatement st) = "UPDATE" ->
  is_write st = true.
Proof.
  destruct st as [[]|]; cbn [is_write analyzeStatement analyzeNode];
    unfold highRelationAnalysis, analyzeTransaction, analyzeDrop, analyzeTruncate, analyzeExplain;
    try done; repeat case_match; try done; by intros [|].
Qed.

Lemma single_write Parse query :
  StatementCount (analyzeSQL Parse query) = 1 ->
  Operation (analyzeSQL Parse query) = "DELETE" \/ Operation (analyzeSQL Parse query) = "UPDATE" ->
  exists st, Parse query = Ok [st] /\ is_write st = true.
Proof.
  unfold analyzeSQL. destruct (String.eqb _ _); [done|].
  destruct (Parse query) as [stmts|]; [|done]. intros Hcount Hop.
  assert (length stmts = 1%nat) as Hlen.
  { unfold analyzeStatements in Hcount. destruct (acc_result _); [|done].
    cbn [with_count StatementCount] in Hcount. lia. }
  destruct stmts as [|st []]; try done. exists st. split; [done|]. apply is_write_operation.
  unfold analyzeStatements in Hop.
  assert (acc_result (fold_left analyze_step [st] analyzeAcc0) = Some (analyzeStatement st)) as Hr.
  { cbn [fold_left]. unfold analyze_step. cbn [acc_result analyzeAcc0]. by repeat case_match. }
  rewrite Hr in Hop. cbn [with_count Operation] in Hop.
  destruct (String.eqb _ RiskCritical); [|done]. revert Hop. unfold critical_target.
  by repeat case_match.
Qed.

(** The statements of an analysis of a single write. *)
Definition analysis_probes (Parse : string -> result (list (option Node))) (query : string)
    (conn : option string) : list statement :=
  [Probe conn ("EXPLAIN (FORMAT JSON) " +:+ TrimSpace query);
   Probe conn ("SELECT count(*) FROM "
     +:+ quoteQualified (Schema (analyzeSQL Parse query))
           (TrimSpace (Table (analyzeSQL Parse query))))].

Lemma probe_statements conn sql w :
  statements (run_state (probe conn sql) w) = statements w ++ [Probe conn sql].
Proof. unfold run_state, probe. by destruct (QueryContext _ _ _). Qed.

Lemma estimate_statements conn query w :
  statements (run_state (estimateAffectedRowsWithExplain conn query) w)
  = statements w ++ [Probe conn ("EXPLAIN (FORMAT JSON) " +:+ TrimSpace query)].
Proof.
  unfold estimateAffectedRowsWithExplain, run_state, probe. rewrite run_bind.
  unfold run_value, run_state. by destruct (QueryContext _ _ _).
Qed.

(** C34. Analysing never runs the query.  Whatever the outcome, the statements the
    impact analysis sends to PostgreSQL are at most two: EXPLAIN of the query,
    without ANALYZE, and a count of the rows of the table, whose name is quoted;
    and it sends them only when the query is a single UPDATE or DELETE, so that
    nothing after a semicolon escapes the EXPLAIN. *)
Theorem analysis_never_runs_query Parse cfg query url w :
  exists ps,
    statements (run_state (analyzeImpact cfg query url (analyzeSQL Parse query)) w)
      = statements w ++ ps
    /\ (ps = []
        \/ exists conn st, Parse query = Ok [st] /\ is_write st = true
             /\ ps `prefix_of` analysis_probes Parse query conn).
Proof.
  set (good := fun ps => ps = [] \/ exists conn st, Parse query = Ok [st]
    /\ is_write st = true /\ ps `prefix_of` analysis_probes Parse query conn).
  change (exists ps, statements (run_state (analyzeImpact cfg query url (analyzeSQL Parse query)) w)
    = statements w ++ ps /\ good ps). unfold analyzeImpact.
  assert (forall r : option ImpactAnalysis, exists ps,
    statements (run_state (mret r : ST World _) w) = statements w ++ ps /\ good ps) as Hret.
  { intros r. exists []. split; [symmetry; apply app_nil_r|by left]. }
  destruct (_ || _) eqn:Hop; [apply Hret|]. destruct (String.eqb _ "" || _); [apply Hret|].
  destruct (containsFold _ _ || _); [apply Hret|].
  destruct (Z.eqb_spec (StatementCount (analyzeSQL Parse query)) 1) as [Hcount|];
    cbn [negb]; [|apply Hret].
  apply orb_false_iff in Hop as [_ Hop].
  rewrite <- negb_orb, negb_false_iff, orb_true_iff, !String.eqb_eq in Hop.
  destruct (single_write Parse query Hcount Hop) as (st & Hparse & Hwrite).
  destruct (openQueryDB cfg url) as [conn|e]; [|apply Hret].
  assert (forall ps, ps `prefix_of` analysis_probes Parse query conn -> good ps) as Hgood
    by (right; by exists conn, st).
  pose proof (estimate_statements conn query w) as Hexplain.
  unfold run_state at 1. rewrite run_bind.
  destruct (run_value (estimateAffectedRowsWithExplain conn query) w) as [n|e].
  - eexists. split; [|apply Hgood; reflexivity].
    rewrite run_bind. destruct (row_scan _ _); cbn [mret st_ret snd];
      by rewrite probe_statements, Hexplain, <- app_assoc.
  - eexists. split; [exact Hexplain|]. apply Hgood. by eexists [_].
Qed.
End analysis.

(** ** Runs of a concrete gateway *)
Section witnesses.
#[local] Existing Instances null_postgres offline_env.

Definition users_table : RangeVar := {| Schemaname := ""; Relname := "users" |}.

(** A parser of three queries. *)
Definition demo_parse (q : string) : result (list (option Node)) :=
  if String.eqb q "SELECT 1" then Ok [Some (Node_SelectStmt [] None)]
  else if String.eqb q "TRUNCATE users" then
    Ok [Some (Node_TruncateStmt [Node_RangeVar users_table])]
  else Ok [Some (Node_InsertStmt (Some users_table))].

Definition demo_config : Config := {|
  policy := DefaultGatewayPolicy; environment := "local"; clusterID := "local";
  has_db := true; storage := ""; snapshotBeforeCritical := true;
  snapshotVerifier := Some (S3_verifier test_verifier); alert_webhook := None |}.

Lemma demo_verifier v : snapshotVerifier demo_config = Some v -> QuietVerifier v.
Proof. intros [= <-]. apply S3_verifier_quiet. Qed.

Definition demo_server : ServerConfig :=
  {| auth := None; metricsPublic := false; maxConcurrentRequests := 0 |}.

Definition demo_args (q sid : string) : json :=
  JObject [("query", JString q); ("agent_id", JString "a1"); ("snapshot_id", JString sid)].
Definition demo_query (q : string) : request := {|
  method := "POST"; path := "/";
  http := {| headers := {["Content-Type" := "application/json"]} |}; query_params := ∅;
  req_body := Ok (json_text (JObject [("method", JString "tools/call");
    ("params", JObject [("name", JString "execute_query");
       ("arguments", demo_args q "")])])) |}.
Definition demo_approve : request := {|
  method := "POST"; path := "/approve/appr_0102";
  http := {| headers := ∅ |}; query_params := ∅; req_body := Ok EmptyString |}.

Definition demo_world : World := set_pause_disk {| disk := Absent; writable := true; write_fault := None |}
  (fresh_world 0).
Definition demo_wait : reply * World :=
  serve demo_parse demo_config demo_server (Some [1; 2]) 0 (demo_query "INSERT 1") demo_world.
Definition demo_fl : option inflight :=
  match demo_wait.1 with inr fl => Some fl | inl _ => None end.
Definition demo_g1 : GState :=
  {| gw := demo_wait.2;
     waiting := match demo_fl with Some fl => {[fl_approvalID fl := fl]} | None => ∅ end |}.
Definition demo_g2 : GState :=
  {| gw := (serve demo_parse demo_config demo_server None 1 demo_approve (gw demo_g1)).2;
     waiting := waiting demo_g1 |}.
Definition demo_yes : ApprovalResolution := {| res_Approved := true; res_Actor := "unknown" |}.
Definition demo_returned : ApprovalEngine := request_end "appr_0102" (approval (gw demo_g2)).
Definition demo_g3 : GState :=
  {| gw := match demo_fl with
           | Some fl => (resumeExecuteQuery demo_config fl demo_yes None
                           (set_approval demo_returned (gw demo_g2))).2
           | None => gw demo_g2
           end;
     waiting := delete "appr_0102" (waiting demo_g2) |}.
Definition demo_trace1 : list (time * event) :=
  match demo_fl with Some fl => [(0, Request (fl_details fl))] | None => [] end.
Definition demo_trace : list (time * event) :=
  (demo_trace1 ++ [(0, Signal "appr_0102" demo_yes)])
  ++ [(0, Return "appr_0102" (demo_yes, None))].

Lemma demo_reach1 : reachable demo_parse demo_config demo_server demo_g1 demo_trace1.
Proof.
  change demo_trace1 with ([] ++ demo_trace1).
  eapply reach_step; [apply (reach_init _ _ _ demo_world (seconds 300)); reflexivity|].
  unfold demo_g1, demo_trace1.
  destruct demo_fl as [fl|] eqn:Hfl; [|by vm_compute in Hfl].
  apply (g_wait _ _ _ {| gw := demo_world; waiting := ∅ |} (demo_query "INSERT 1") (Some [1; 2])).
  - vm_compute. reflexivity.
  - change (demo_wait = (inr fl, demo_wait.2)). unfold demo_fl in Hfl.
    destruct demo_wait as [[|] w]; [done|]. by injection Hfl as ->.
Qed.

Lemma demo_reach2 : reachable demo_parse demo_config demo_server demo_g2
  (demo_trace1 ++ [(0, Signal "appr_0102" demo_yes)]).
Proof.
  eapply reach_step; [apply demo_reach1|].
  pose proof (g_answer demo_parse demo_config demo_server demo_g1 demo_approve None) as H.
  assert (exists resp, serve demo_parse demo_config demo_server None
    (Z.of_nat (size (waiting demo_g1))) demo_approve (gw demo_g1) = (inl resp, gw demo_g2))
    as [resp Hr].
  { eexists. vm_compute. reflexivity. }
  specialize (H _ _ Hr).
  assert (now (gw demo_g1) = 0) as Hnow by (vm_compute; reflexivity).
  rewrite Hnow in H. exact H.
Qed.

Lemma demo_step3 : gstep demo_parse demo_config demo_server demo_g2
  [(0, Return "appr_0102" (demo_yes, None))] demo_g3.
Proof.
  destruct demo_fl as [fl|] eqn:Hfl; [|by vm_compute in Hfl].
  assert (waiting demo_g2 !! "appr_0102" = Some fl) as Hw.
  { rewrite <- Hfl. vm_compute. reflexivity. }
  pose proof (g_return demo_parse demo_config demo_server demo_g2 "appr_0102" (demo_yes, None) fl
    demo_returned) as H.
  assert (now (gw demo_g2) = 0) as Hnow by (vm_compute; reflexivity).
  rewrite Hnow in H.
  destruct (resumeExecuteQuery demo_config fl demo_yes None
    (set_approval demo_returned (gw demo_g2))) as [resp w'] eqn:Hres.
  assert (gw demo_g3 = w') as Hg3.
  { unfold demo_g3. rewrite Hfl. cbn [gw]. by rewrite Hres. }
  assert (demo_g3 = {| gw := w'; waiting := delete "appr_0102" (waiting demo_g2) |}) as ->
    by (rewrite <- Hg3; reflexivity).
  apply (H resp w' Hw); [|exact Hres].
  assert (exists pa, pending (approval (gw demo_g2)) !! "appr_0102" = Some pa
    /\ decision pa = Some demo_yes) as (pa & Hpa & Hd).
  { eexists. split; [vm_compute; reflexivity|reflexivity]. }
  exact (step_decided 0 "appr_0102" pa demo_yes _ Hpa Hd).
Qed.

Lemma demo_reach3 : reachable demo_parse demo_config demo_server demo_g3 demo_trace.
Proof. eapply reach_step; [apply demo_reach2|apply demo_step3]. Qed.

(** [query] was executed over the gateway's own connection. *)
Definition executes (query : string) (sts : list statement) : bool :=
  existsb (fun st => match st with
                     | Executed None q => String.eqb q query
                     | _ => false
                     end) sts.
Lemma executes_spec query sts : executes query sts = true -> Executed None query ∈ sts.
Proof.
  intros ([|[|] q] & Hst & Hq)%existsb_exists; try done.
  apply String.eqb_eq in Hq as ->. by apply list_elem_of_In.
Qed.

Lemma executed_only_if_allowed_witness :
  Executed None "INSERT 1" ∈ statements (gw demo_g3)
  /\ (policy_allows demo_parse demo_config "INSERT 1" \/ approved_in demo_trace "INSERT 1").
Proof.
  assert (Executed None "INSERT 1" ∈ statements (gw demo_g3)) as Hin.
  { assert (statements (gw demo_g3) = [Executed None "INSERT 1"]) as ->
      by (vm_compute; reflexivity). left. }
  split; [exact Hin|].
  exact (executed_only_if_allowed demo_parse demo_config demo_server demo_verifier demo_g3
    demo_trace None "INSERT 1" demo_reach3 Hin).
Defined.

Lemma gateway_refines_approval_engine_witness :
  size (waiting demo_g1) = 1%nat
  /\ (exists t, run_of (NewApprovalEngine t) demo_trace1 (approval (gw demo_g1)))
  /\ forall id fl, waiting demo_g1 !! id = Some fl ->
       details_ID (fl_details fl) = id /\ (exists t, (t, Request (fl_details fl)) ∈ demo_trace1)
       /\ details_Query (fl_details fl) = args_Query (fl_args fl)
       /\ binding_matches demo_config fl = true.
Proof.
  split; [vm_compute; reflexivity|].
  exact (gateway_refines_approval_engine demo_parse demo_config demo_server demo_verifier
    demo_g1 demo_trace1 demo_reach1).
Defined.

(** The gateway paused before its first request. *)
Definition demo_controller : PauseController := {|
  file := ""; pauseBlocksSafe := true; paused := true; reason := "incident";
  updatedAt := 0 |}.
Definition demo_paused : GState :=
  {| gw := set_pause (Some demo_controller) demo_world; waiting := ∅ |}.
Definition demo_blocked : GState :=
  {| gw := (serve demo_parse demo_config demo_server None 0 (demo_query "SELECT 1")
              (gw demo_paused)).2;
     waiting := ∅ |}.

Lemma paused_executes_nothing_witness :
  exists ps q, statements (gw demo_blocked) = statements (gw demo_paused) ++ ps ++ q
    /\ forallb is_probe ps = true
    /\ (q = [] \/ exists conn query impact, q = [Executed conn query]
          /\ pauseBlocksSafe demo_controller = false
          /\ RiskLevel (applyImpactAnalysis (analyzeSQL demo_parse query) impact) = RiskSafe).
Proof.
  apply (paused_executes_nothing demo_parse demo_config demo_server demo_verifier
    demo_paused [] [] demo_blocked demo_controller).
  - apply (reach_init _ _ _ _ (seconds 300)); reflexivity.
  - assert (exists resp, serve demo_parse demo_config demo_server None 0 (demo_query "SELECT 1")
      (gw demo_paused) = (inl resp, gw demo_blocked)) as [resp Hr].
    { eexists. vm_compute. reflexivity. }
    exact (g_answer demo_parse demo_config demo_server demo_paused (demo_query "SELECT 1")
      None resp _ Hr).
  - reflexivity.
  - reflexivity.
Defined.

(** Authentication with one token, and a request without it. *)
Definition locked_server : ServerConfig := {|
  auth := Some {| disabled := false; tokens := [{| entry_Name := "ops";
    entry_Token := "t0ken"; entry_Scopes := ["query:execute"] |}] |}; metricsPublic := false;
  maxConcurrentRequests := 0 |}.

Lemma scopes_guard_effects_witness :
  exists rep w', serve demo_parse demo_config locked_server None 0 (demo_query "SELECT 1")
    demo_world = (rep, w')
  /\ ((forall principal, admitted locked_server (demo_query "SELECT 1") "" = Some principal ->
        contextHasScope principal "query:execute" = false) ->
     (exists resp, rep = inl resp)
     /\ exists ps, statements w' = statements demo_world ++ ps /\ forallb is_probe ps = true)
  /\ (admitted locked_server (demo_query "SELECT 1") "approval:write" = None ->
        approval w' = approval demo_world
        \/ exists fl principal, rep = inr fl
             /\ admitted locked_server (demo_query "SELECT 1") "" = Some principal
             /\ contextHasScope principal "query:execute" = true
             /\ request_begin (now demo_world) (fl_details fl) (approval demo_world) = inl (approval w')
             /\ forall id, id <> details_ID (fl_details fl) ->
                  pending (approval w') !! id = pending (approval demo_world) !! id)
  /\ (admitted locked_server (demo_query "SELECT 1") "admin:*" = None ->
      pause w' = pause demo_world).
Proof.
  eexists _, _. split; [vm_compute; reflexivity|].
  eapply (scopes_guard_effects demo_parse demo_config locked_server demo_verifier None 0).
  vm_compute. reflexivity.
Defined.

(** Half a minute after the snapshot, with its record and a fresh heartbeat. *)
Definition truncate_store : MetadataStore :=
  let manifest := snapshot_manifest "snap_1" "valid" "2024-01-01T00:00:00Z" in
  let s := (RecordSnapshot manifest empty_store).2 in
  {| available := true; audit_events := audit_events s; approval_rows := approval_rows s;
     snapshots := snapshots s; alert_rows := alert_rows s;
     health_checks := {["sync" := {| health_status := "healthy";
                                     health_checked_at := "2024-01-01T00:00:20Z"; health_detail_json := "{}" |}]};
     agent_state := agent_state s |}.
Definition truncate_world : World :=
  set_now (1704067230 * Second) (set_metadata (Some truncate_store) one_snapshot).
Definition truncate_wait : (MCPResponse + inflight) * World :=
  toolExecuteQuery demo_parse demo_config (Some [1; 2]) AnyNil
    (Some (demo_args "TRUNCATE users" "snap_1")) truncate_world.

Lemma waiting_query_has_recovery_point_witness :
  exists fl, truncate_wait.1 = inr fl
    /\ recovery_verified demo_config truncate_world (fl_args fl) (fl_analysis fl) (fl_recovery fl).
Proof.
  destruct truncate_wait as [[resp|fl] w'] eqn:Hw; [by vm_compute in Hw|].
  exists fl. split; [done|].
  apply (waiting_query_has_recovery_point demo_parse demo_config (Some [1; 2]) AnyNil
    (Some (demo_args "TRUNCATE users" "snap_1")) truncate_world fl w'); [exact Hw| |reflexivity].
  vm_compute in Hw. injection Hw as <- _. reflexivity.
Defined.
End witnesses.
