(* ===== verification/GatewayBucket.v ===== *)
(** * The gateway and the bucket

    No handler writes to the bucket: a step of the gateway leaves it as it is,
    unless it is a step of the world outside.  A request that waits got there
    through [toolExecuteQuery]; what was verified for it was verified in the bucket
    that the request found. *)
From S2P Require Import Prelude GoString GoTime Json Sha256 Postgres PgAst SqlAnalyzer Policy.
From S2P Require Import GatewayMetrics Manifest AgentIdentity Approval Pause Auth GatewayMetadata.
From S2P Require Import GatewayWorld Behavior Impact SnapshotVerifier McpServer Gateway.
From S2P Require Import GatewaySafety GatewayProperties.

Open Scope Z_scope.

#[export] Instance endpoint_eq_dec : EqDecision endpoint.
Proof. solve_decision. Defined.

Section bucket.
Context `{pg : Postgres, env : GatewayEnv}.
Variable Parse : string -> result (list (option Node)).
Variable cfg : Config.
Variable s : ServerConfig.
Hypothesis verifier_ok : forall v, snapshotVerifier cfg = Some v -> QuietVerifier v.

#[local] Instance s3_incidental : Incidental s3.
Proof. by split. Qed.
#[local] Instance s3_unlogged : Unlogged s3.
Proof. done. Qed.

Notation reads m := (leaves s3 m).

Lemma reads_execute_sql args an : reads (executeSQL cfg args an).
Proof.
  intros w. unfold run_state, executeSQL. destruct (execution_conn cfg args); [|done].
  destruct (returnsRows an); [by destruct (QueryContext _ _ _)|by destruct (ExecContext _ _ _)].
Qed.

Lemma reads_begin fl : reads (begin_approval fl).
Proof. intros w. unfold run_state, begin_approval. by destruct (request_begin _ _ _). Qed.

Lemma reads_approval_signal approve id actor : reads (approval_signal approve id actor).
Proof.
  intros w. unfold run_state, approval_signal. by destruct approve; destruct (_ id actor _).
Qed.

Lemma reads_set_paused pausing why : reads (set_paused pausing why).
Proof.
  intros w. unfold run_state, set_paused. destruct (pause w); [|done].
  by destruct (SetPaused _ _ _ _ _) as [[]].
Qed.

Lemma reads_critical args an : reads (verifyCriticalRecoveryPointWithAnalysis cfg args an).
Proof. by apply leaves_verifyCriticalRecoveryPoint; [|typeclasses eauto]. Qed.

#[local] Hint Resolve reads_execute_sql reads_begin reads_approval_signal reads_set_paused
  reads_critical leaves_s3_risk_analysis : quiet.

Lemma reads_execution_response id args an d sn ai rp :
  reads (execution_response cfg id args an d sn ai rp).
Proof. unfold execution_response. quieten. Qed.

Lemma reads_resume fl r err : reads (resumeExecuteQuery cfg fl r err).
Proof.
  unfold resumeExecuteQuery, resume_denied, resume_blocked, resume_approved, RecordQuery, alert_for,
    emitAlert, registry_RecordApprovalResolved.
  pose proof reads_execution_response. quieten.
Qed.
#[local] Hint Resolve reads_execution_response reads_resume : quiet.

Lemma reads_execute_query entropy id raw : reads (toolExecuteQuery Parse cfg entropy id raw).
Proof.
  unfold toolExecuteQuery, answer, block_paused, block_quarantined, block_by_policy, execute_now,
    request_approval_path, block_recovery, block_metadata, block_unknown_action, RecordQuery,
    alert_for, emitAlert, registry_RecordApprovalRequested. quieten.
Qed.

Lemma reads_Handle entropy principal body : reads (Handle Parse cfg entropy principal body).
Proof.
  pose proof reads_execute_query.
  unfold Handle, handleToolsCall, toolAnalyzeQuery, toolRestoreSnapshot, answer. quieten.
Qed.
#[local] Hint Resolve reads_Handle : quiet.

Lemma reads_endpoint entropy r e principal : reads (endpoint_handler Parse cfg entropy r e principal).
Proof.
  unfold endpoint_handler, makeMCPHandler, makeApproveHandler, makePauseHandler, handleHealth,
    makePendingHandler, makeAuditHandler, makeMetadataSnapshotsHandler, makeMetadataAuditHandler,
    makeMetadataAlertsHandler, makeMetadataHealthHandler, makeAdminStatusHandler,
    makeGatewayMetricsHandler, respond. destruct e; quieten.
Qed.

Lemma reads_serve entropy active r : reads (serve Parse cfg s entropy active r).
Proof.
  pose proof reads_endpoint. unfold serve, limitConcurrent, requireScopedAuth, recordAuthDenied,
    respond. destruct (route r) as [e|]; [destruct e|]; quieten.
Qed.

(** Only the world outside changes the bucket. *)
Lemma gstep_bucket g evs g' :
  gstep Parse cfg s g evs g' ->
  s3 (gw g') = s3 (gw g) \/ (evs = [] /\ core (gw g') = core (gw g) /\ waiting g' = waiting g).
Proof.
  intros [g0 r entropy resp w' Hs|g0 r entropy fl w' Hfresh Hs|g0 id o fl e resp w' Hw Hst Hres
         |g0 t Ht|g0 w' Hc]; cbn [gw waiting]; [left|left|left|by left|by right].
  - pose proof (reads_serve entropy (Z.of_nat (size (waiting g0))) r (gw g0)) as H.
    unfold run_state in H. by rewrite Hs in H.
  - pose proof (reads_serve entropy (Z.of_nat (size (waiting g0))) r (gw g0)) as H.
    unfold run_state in H. by rewrite Hs in H.
  - pose proof (reads_resume fl o.1 o.2 (set_approval e (gw g0))) as H.
    unfold run_state in H. by rewrite Hres in H.
Qed.

(** ** How a request comes to wait *)
Lemma auth_waits scope r next w fl w' :
  requireScopedAuth (auth s) scope r next w = (inr fl, w') ->
  exists principal, next principal w = (inr fl, w').
Proof.
  intros H. pose proof (requireScopedAuth_admitted s r scope next w) as Ha.
  destruct (admitted s r scope) as [principal|]; [exists principal; congruence|].
  destruct Ha as (resp & w1 & Ha & _). congruence.
Qed.

(** A handler that ends in a response does not wait. *)
Definition responds (m : ST World reply) : Prop :=
  forall w fl w', m w <> (inr fl, w').

Lemma responds_respond resp : responds (respond resp).
Proof. done. Qed.

Lemma responds_bind {A} (m : ST World A) (f : A -> ST World reply) :
  (forall a, responds (f a)) -> responds (m ≫= f).
Proof. intros Hf w fl w' (a & w1 & _ & H)%bind_answer. by apply Hf in H. Qed.

Lemma responds_if (b : bool) (m1 m2 : ST World reply) :
  responds m1 -> responds m2 -> responds (if b then m1 else m2).
Proof. by destruct b. Qed.

Lemma endpoint_responds entropy r e principal :
  e <> EMCP -> responds (endpoint_handler Parse cfg entropy r e principal).
Proof.
  unfold endpoint_handler, makeApproveHandler, makePauseHandler, handleHealth, makePendingHandler,
    makeAuditHandler, makeMetadataSnapshotsHandler, makeMetadataAuditHandler,
    makeMetadataAlertsHandler, makeMetadataHealthHandler, makeAdminStatusHandler,
    makeGatewayMetricsHandler.
  destruct e; [..|]; try done; intros _;
    repeat first [apply responds_respond | apply responds_bind; intros ? | apply responds_if].
Qed.

Lemma handle_waits entropy principal body w fl w' :
  Handle Parse cfg entropy principal body w = (inr fl, w') ->
  exists id raw, toolExecuteQuery Parse cfg entropy id raw w = (inr fl, w').
Proof.
  unfold Handle, handleToolsCall. intros H.
  repeat first [discriminate H | by apply answer_not_waiting in H | by eauto
    | match type of H with context [match ?x with _ => _ end] => destruct x end].
Qed.

Lemma serve_waits entropy active r w fl w' :
  serve Parse cfg s entropy active r w = (inr fl, w') ->
  exists id raw, toolExecuteQuery Parse cfg entropy id raw w = (inr fl, w').
Proof.
  unfold serve. destruct (route r) as [e|]; [|done]. intros H.
  assert (exists principal, endpoint_handler Parse cfg entropy r e principal w = (inr fl, w'))
    as [principal Hp].
  { assert (match endpoint_scope s e with
      | None => endpoint_handler Parse cfg entropy r e None
      | Some scope => requireScopedAuth (auth s) scope r (endpoint_handler Parse cfg entropy r e)
      end w = (inr fl, w')) as Hrun.
    { destruct e; try exact H. unfold limitConcurrent in H. revert H.
      destruct (_ <=? 0); [done|]. by destruct (_ <? _). }
    destruct (endpoint_scope s e) as [scope|]; [by apply auth_waits in Hrun|by eexists]. }
  destruct (decide (e = EMCP)) as [->|Hne].
  - unfold endpoint_handler, makeMCPHandler in Hp.
    destruct (negb _); [done|]. destruct (read_limited _ _) as [body|]; [|done].
    apply bind_answer in Hp as ([resp|fl'] & w1 & Hh & Hr); [done|].
    injection Hr as -> ->. by apply handle_waits in Hh.
  - by apply endpoint_responds in Hp.
Qed.

Lemma serve_verified entropy active r w fl w' :
  serve Parse cfg s entropy active r w = (inr fl, w') ->
  RequiresRecovery (Decide (policy cfg) (fl_analysis fl)) = true ->
  snapshotBeforeCritical cfg = true ->
  recovery_verified cfg w (fl_args fl) (fl_analysis fl) (fl_recovery fl).
Proof. intros (id & raw & H)%serve_waits. by eapply waiting_query_verified. Qed.
End bucket.
