(* ===== verification/GatewayConcurrent.v ===== *)
(** * The gateway with requests that interleave action by action

    [GatewaySafety] lets a request run without interruption up to its wait and from
    its wait on.  Here the calls of GatewayCalls interleave at every action, with
    operators' decisions, pauses, the clock and the outside world between any two.
    The log of a run says which request did what to which state. *)
From S2P Require Import Prelude GoString GoTime Json Sha256 Postgres PgAst SqlAnalyzer Policy.
From S2P Require Import GatewayMetrics Manifest AgentIdentity Approval Pause GatewayMetadata.
From S2P Require Import GatewayWorld Behavior Impact McpServer GatewaySafety Interleave GatewayCalls.
From S2P Require Import SnapshotVerifier GatewayProperties.

Open Scope Z_scope.

(** ** The latest request under an id *)
Definition last_request (id : string) (tr : list (time * event)) : option ApprovalDetails :=
  fold_left (fun acc '(_, ev) =>
    match ev with
    | Request d => if String.eqb (details_ID d) id then Some d else acc
    | _ => acc
    end) tr None.

Lemma last_request_snoc id tr now ev :
  last_request id (tr ++ [(now, ev)]) =
    match ev with
    | Request d => if String.eqb (details_ID d) id then Some d else last_request id tr
    | _ => last_request id tr
    end.
Proof. unfold last_request. rewrite fold_left_app. by destruct ev. Qed.

(** What is pending is the latest request under its id. *)
Lemma pending_last_request t tr e :
  run_of (NewApprovalEngine t) tr e ->
  forall id pa, pending e !! id = Some pa -> last_request id tr = Some (details pa).
Proof.
  remember (NewApprovalEngine t) as e0 eqn:He0.
  induction 1 as [e|e e' e'' tr now ev Hrun IH Hstep]; subst.
  { intros id pa. cbn. by rewrite lookup_empty. }
  specialize (IH eq_refl). intros id pa. rewrite last_request_snoc.
  destruct Hstep as [d e1 e2 _ Hb|sid r e1|rid pa0 r e1 _ _|rid pa0 e1 _ _|rid pa0 cause e1 _].
  - unfold request_begin in Hb. destruct (String.eqb (details_ID d) ""); [done|].
    injection Hb as <-. cbn. destruct (String.eqb_spec (details_ID d) id) as [<-|Hne].
    + rewrite lookup_insert_eq. by intros [= <-].
    + rewrite lookup_insert_ne by done. apply IH.
  - unfold signal. destruct (pending e1 !! sid) as [pa0|] eqn:Hs; cbn; [|apply IH].
    destruct (decision pa0); cbn; [apply IH|].
    destruct (decide (sid = id)) as [->|Hne].
    + rewrite lookup_insert_eq. intros [= <-]. by apply (IH _ pa0).
    + rewrite lookup_insert_ne by done. apply IH.
  - cbn. intros [_ ?]%lookup_delete_Some. by apply IH.
  - cbn. intros [_ ?]%lookup_delete_Some. by apply IH.
  - cbn. intros [_ ?]%lookup_delete_Some. by apply IH.
Qed.

Section system.
Context `{pg : Postgres, env : GatewayEnv}.
Variable Parse : string -> result (list (option Node)).
Variable cfg : Config.

Abbreviation requests := (pool World (MCPResponse + inflight)).

(** What the requests did: who, and from which state to which; or that a request's
    wait was over. *)
Abbreviation log := (list (nat * option (World * World))).

(** The id a call waits with. *)
Definition waits (c : call World (MCPResponse + inflight)) : option inflight :=
  match c with Ret (inr fl) => Some fl | _ => None end.

(** The requests a move makes to the approval engine. *)
Definition new_requests (w w' : World) : list (time * event) :=
  map (fun '(_, pa) => (now w, Request (details pa)))
    (map_to_list (pending (approval w') ∖ pending (approval w))).

(** Ids are drawn at random: one that a move registers or starts to wait with is
    not pending. *)
Definition fresh_ids (i : nat) (p p' : requests) : Prop :=
  forall id, pending (approval (shared p')) !! id <> pending (approval (shared p)) !! id
      \/ (exists c fl, calls p' !! i = Some c /\ waits c = Some fl /\ fl_approvalID fl = id) ->
    pending (approval (shared p)) !! id = None.

Inductive cstep : requests -> list (time * event) -> log -> requests -> Prop :=
  | c_arrive p entropy id raw :
      cstep p [] []
        {| shared := shared p; calls := calls p ++ [toolExecuteQuery_call Parse cfg entropy id raw] |}
  | c_move i p p' :
      move i p = Some p' -> fresh_ids i p p' ->
      cstep p (new_requests (shared p) (shared p')) [(i, Some (shared p, shared p'))] p'
  | c_return i p fl outcome e :
      calls p !! i = Some (Ret (inr fl)) ->
      step (now (shared p)) (approval (shared p)) (Return (fl_approvalID fl) outcome) e ->
      cstep p [(now (shared p), Return (fl_approvalID fl) outcome)] [(i, None)]
        {| shared := set_approval e (shared p);
           calls := <[i := answer_call (resumeExecuteQuery_call cfg fl outcome.1 outcome.2)]> (calls p) |}
  | c_signal p id r :
      cstep p [(now (shared p), Signal id r)] []
        {| shared := set_approval (signal id r (approval (shared p))).2 (shared p);
           calls := calls p |}
  | c_tick p t :
      now (shared p) <= t ->
      cstep p [] [] {| shared := set_now t (shared p); calls := calls p |}
  | c_outside p w' :
      statements w' = statements (shared p) -> approval w' = approval (shared p) ->
      now w' = now (shared p) ->
      cstep p [] [] {| shared := w'; calls := calls p |}.

Inductive creachable : requests -> list (time * event) -> log -> Prop :=
  | creach_init w t :
      statements w = [] -> approval w = NewApprovalEngine t ->
      creachable {| shared := w; calls := [] |} [] []
  | creach_step p tr l evs l' p' :
      creachable p tr l -> cstep p evs l' p' -> creachable p' (tr ++ evs) (l ++ l').

(** The actions of one request, since it came in or since its wait. *)
Definition own (i : nat) (l : log) : list (World * World) :=
  fold_left (fun acc '(j, a) =>
    if Nat.eqb j i then match a with Some x => acc ++ [x] | None => [] end else acc) l [].

(** Its wait is over. *)
Definition waited (i : nat) (l : log) : bool :=
  existsb (fun '(j, a) => Nat.eqb j i && match a with Some _ => false | None => true end) l.

(** The action in which a request looks at the pause: the second one of a request that
    came in, behind the analysis, and the first one after a wait. *)
Definition look (after_wait : bool) (h : list (World * World)) : option (World * World) :=
  h !! (if after_wait then 0 else 1)%nat.

(** A statement an action sent. *)
Definition sent (w w' : World) (st : statement) : Prop :=
  exists ss, statements w' = statements w ++ ss /\ st ∈ ss.

(** The pause did not block [query] when the state was [w]. *)
Definition unblocked (w : World) (query : string) : Prop :=
  exists impact, BlocksRisk (pause w)
    (RiskLevel (applyImpactAnalysis (analyzeSQL Parse query) impact)) = false.

(** The latest request under an id was for exactly this query, and the first decision
    signalled for it was an approval, which was returned. *)
Definition approved_for (tr : list (time * event)) (query : string) : Prop :=
  exists tr1 t id r tr2 d,
    tr = tr1 ++ (t, Return id (r, None)) :: tr2
    /\ last_request id tr1 = Some d /\ first_signal id tr1 = Some r /\ res_Approved r = true
    /\ details_Query d = query /\ details_QuerySHA256 d = querySHA256 query.

(** Why a request may run [query], given its actions so far: what its analysis said is
    what the policy executes, and then it looked and the pause did not block that; or
    the query was approved, and after the wait it looked and the pause did not block
    it. *)
Definition may_run (tr : list (time * event)) (after_wait : bool) (h : list (World * World))
    (query : string) : Prop :=
  if after_wait then
    approved_for tr query /\ exists a, look true h = Some a /\ unblocked a.1 query
  else exists args a0 a1,
    args_Query args = query /\ h !! 0%nat = Some a0 /\ look false h = Some a1
    /\ let analysis := run_value (risk_analysis Parse cfg args) a0.1 in
       Action (Decide (policy cfg) analysis) = PolicyActionExecute
       /\ BlocksRisk (pause a1.1) (RiskLevel analysis) = false.

(** What an action of a request is, behind its actions [h]: statements it [may] send,
    and nothing else on which execution depends, but one request to the engine. *)
Definition lawful (may : list (World * World) -> string -> Prop) (h : list (World * World))
    (w w' : World) : Prop :=
  (exists ss, statements w' = statements w ++ ss
     /\ forall conn query, Executed conn query ∈ ss -> may h query)
  /\ (approval w' = approval w
      \/ exists d, request_begin (now w) d (approval w) = inl (approval w'))
  /\ now w' = now w.

(** The last action of a request that waits was to register it. *)
Definition waiting_ok (h : list (World * World)) (r : MCPResponse + inflight) : Prop :=
  match r with
  | inl _ => True
  | inr fl =>
      fl_ok Parse cfg (fl_approvalID fl) fl
      /\ exists h0 w w', h = h0 ++ [(w, w')]
           /\ request_begin (now w) (fl_details fl) (approval w) = inl (approval w')
  end.

Lemma approved_for_app tr tr' query : approved_for tr query -> approved_for (tr ++ tr') query.
Proof.
  intros (tr1 & t & id & r & tr2 & d & -> & H).
  exists tr1, t, id, r, (tr2 ++ tr'), d. split; [|done]. by rewrite <- app_assoc.
Qed.

(** What may be sent may be sent later. *)
Definition lasting (may : list (World * World) -> string -> Prop) : Prop :=
  forall h h' query, h `prefix_of` h' -> may h query -> may h' query.

Lemma lawful_app tr tr' b h w w' :
  lawful (may_run tr b) h w w' -> lawful (may_run (tr ++ tr') b) h w w'.
Proof.
  intros ((ss & Hs & Hr) & H). split; [|done]. exists ss. split; [done|].
  intros conn q Hin. specialize (Hr conn q Hin). destruct b; [|done].
  destruct Hr as [? ?]. split; [by apply approved_for_app|done].
Qed.

(** The analysis is that of the text, raised by an impact. *)
Lemma risk_analysis_impact args w : exists impact,
  run_value (risk_analysis Parse cfg args) w
    = applyImpactAnalysis (analyzeSQL Parse (args_Query args)) impact.
Proof. unfold risk_analysis, run_value. rewrite run_bind. by eexists. Qed.

(** ** What the calls do *)
Hypothesis verifier_ok : forall v, snapshotVerifier cfg = Some v -> QuietVerifier v.

(** A call with any result and lawful actions. *)
Abbreviation lawfully may h c := (acts (lawful may) (fun _ _ => True) h c).

Lemma lawful_quiet may h {A} (m : ST World A) w : quiet m -> lawful may h w (run_state m w).
Proof.
  intros Hm. specialize (Hm w). unfold core in Hm. injection Hm as Hs Ha Hp Hn.
  split; [|split; [by left|done]]. exists []. rewrite app_nil_r. split; [done|].
  by intros ? ? ?%elem_of_nil.
Qed.

Lemma acts_quiet may h {A} (m : ST World A) : quiet m -> lawfully may h (atomic m).
Proof. intros Hm. apply acts_atomic. intros w. split; [by apply lawful_quiet|done]. Qed.

Lemma acts_then {A B} may h Q (m : call World A) (f : A -> call World B) :
  lawfully may h m -> (forall h' a, h `prefix_of` h' -> acts (lawful may) Q h' (f a)) ->
  acts (lawful may) Q h (m ≫= f).
Proof. intros Hm Hf. eapply acts_bind; [exact Hm|]. intros h' a Hh _. by apply Hf. Qed.

(** A call whose actions are all quiet, taken apart. *)
Ltac acting :=
  repeat first
    [ simple apply acts_ret; exact I
    | simple apply acts_quiet; solve [quieten]
    | simple apply acts_then; [|intros ? ? ?]
    | simple apply acts_when
    | match goal with
      | |- acts _ _ _ (match ?x with _ => _ end) => destruct x
      | |- acts _ _ _ (if ?x then _ else _) => destruct x
      end ].

Lemma acts_recordRiskAttempt may h a an r : lawfully may h (recordRiskAttempt_call cfg a an r).
Proof. unfold recordRiskAttempt_call, emitAlert. acting. Qed.

(** The statement of an execution is the request's query. *)
Lemma acts_executeSQL may h args an :
  may h (args_Query args) -> lawfully may h (atomic (executeSQL cfg args an)).
Proof.
  intros Hrun. apply acts_atomic. intros w. split; [|done].
  destruct (executeSQL_adds cfg args an w) as (ss & (Hs & Ha & _ & Hn) & Hruns).
  split; [|split; [by left|done]]. exists ss. split; [done|].
  intros conn q Hin. destruct Hruns as [->|(conn' & ->)]; [by apply elem_of_nil in Hin|].
  by apply list_elem_of_singleton in Hin as [= _ ->].
Qed.

Lemma acts_execution_response may h id args an d sn ai rp :
  may h (args_Query args) ->
  lawfully may h (execution_response_call cfg id args an d sn ai rp).
Proof.
  intros Hrun. unfold execution_response_call. apply acts_then; [by apply acts_executeSQL|].
  intros h' r _. acting.
Qed.

Lemma may_run_lasting tr b : lasting (may_run tr b).
Proof.
  intros h h' query Hh. destruct b; cbn [may_run].
  - intros [H (a & Ha & Hu)]. split; [done|]. exists a. split; [|done].
    by eapply prefix_lookup_Some.
  - intros (args & a0 & a1 & Hq & H0 & H1 & H). exists args, a0, a1.
    split_and!; [done|by eapply prefix_lookup_Some..|apply H|apply H].
Qed.

Lemma acts_execute_now may h id args an d sha :
  lasting may -> may h (args_Query args) -> lawfully may h (execute_now_call cfg id args an d sha).
Proof.
  intros Hlast Hrun. unfold execute_now_call, RecordQuery. apply acts_then; [acting|].
  intros h' _ Hh. apply acts_execution_response. by eapply Hlast.
Qed.

Lemma acts_resume_denied may h fl s m ev ac msg a :
  lawfully may h (resume_denied_call cfg fl s m ev ac msg a).
Proof.
  unfold resume_denied_call, RecordQuery, alert_for, emitAlert, registry_RecordApprovalResolved.
  repeat first [apply acts_recordRiskAttempt | progress acting].
Qed.

Lemma acts_resume_blocked may h fl s ac msg c :
  (forall h', lawfully may h' c) -> lawfully may h (resume_blocked_call cfg fl s ac msg c).
Proof.
  intros Hc. unfold resume_blocked_call, RecordQuery, registry_RecordApprovalResolved.
  repeat first [apply Hc | progress acting].
Qed.

(** After the wait: the request looks at the pause before it runs its query, if it was
    approved. *)
Lemma acts_resume may fl r err :
  lasting may -> fl_ok Parse cfg (fl_approvalID fl) fl ->
  (err = None -> res_Approved r = true -> forall a, unblocked a.1 (args_Query (fl_args fl)) ->
     may [a] (args_Query (fl_args fl))) ->
  lawfully may [] (resumeExecuteQuery_call cfg fl r err).
Proof.
  intros Hlast Hfl Happ. unfold resumeExecuteQuery_call.
  destruct err as [[]|]; try apply acts_resume_denied. specialize (Happ eq_refl).
  rewrite (ok_binding _ _ _ _ Hfl). cbn [negb].
  eapply (acts_bind _ (fun h' (paused : bool) => paused = false ->
    exists a, h' = [a] /\ BlocksRisk (pause a.1) (RiskLevel (fl_analysis fl)) = false)).
  { apply acts_atomic. intros w. split; [by apply lawful_quiet|]. intros Hb. by exists (w, w). }
  intros h' [] _ Hp.
  { apply acts_resume_blocked. intros h2. unfold alert_for, emitAlert. acting. }
  destruct (Hp eq_refl) as (a & -> & Hb). unfold resume_approved_call, RecordQuery.
  apply acts_then; [acting|]. intros h2 _ H2.
  destruct (res_Approved r); cbn [negb];
    [|unfold registry_RecordApprovalResolved;
      repeat first [apply acts_recordRiskAttempt | progress acting]].
  unfold registry_RecordApprovalResolved.
  apply acts_then; [acting|]. intros h3 _ H3. apply acts_then; [acting|]. intros h4 _ H4.
  apply acts_execution_response. do 3 (eapply Hlast; [eassumption|]).
  apply Happ; [done|]. destruct (ok_analysis _ _ _ _ Hfl) as [impact Han].
  exists impact. by rewrite <- Han.
Qed.

(** Up to the wait. *)
Lemma acts_answer may h c :
  lawfully may h c -> acts (lawful may) waiting_ok h (answer_call c).
Proof. intros Hc. apply acts_then; [done|]. intros h' r _. exact I. Qed.

Lemma acts_begin may h fl :
  acts (lawful may) (fun h' begun => begun = None -> exists h0 w w', h' = h0 ++ [(w, w')]
         /\ request_begin (now w) (fl_details fl) (approval w) = inl (approval w'))
    h (atomic (begin_approval fl)).
Proof.
  apply acts_atomic. intros w. unfold run_state, run_value, begin_approval.
  destruct (request_begin _ _ _) as [e|err] eqn:Hb; cbn; (split; [|intros H]); try done.
  - split; [|split; [right; eauto|done]]. exists []. rewrite app_nil_r. split; [done|].
    by intros ? ? ?%elem_of_nil.
  - by exists h, w, (set_approval e w).
  - exact (lawful_quiet may h (mret tt) w (leaves_ret core tt)).
Qed.

Lemma acts_approval_path may h rid args an id :
  (exists impact, an = applyImpactAnalysis (analyzeSQL Parse (args_Query args)) impact) ->
  Action (Decide (policy cfg) an) = PolicyActionApprove ->
  acts (lawful may) waiting_ok h
    (request_approval_path_call cfg rid args an (Decide (policy cfg) an)
       (querySHA256 (args_Query args)) id).
Proof.
  intros Han Hact. unfold request_approval_path_call. apply acts_then.
  { destruct (_ && _); [|acting]. apply acts_quiet, (leaves_verifyCriticalRecoveryPoint cfg verifier_ok core). }
  intros h1 [table [recovery|e]] _;
    [|apply acts_answer; unfold block_recovery_call, RecordQuery, alert_for, emitAlert; acting].
  apply acts_then; [acting|]. intros h2 _ _.
  apply acts_then; [unfold registry_RecordApprovalRequested; acting|]. intros h3 [[]|e] _;
    [|apply acts_answer; unfold block_metadata_call, RecordQuery, alert_for, emitAlert; acting].
  apply acts_then; [unfold alert_for, emitAlert; acting|]. intros h4 _ _.
  eapply acts_bind; [apply acts_begin|]. intros h5 [err|] _ Hb.
  { apply acts_answer. by destruct err; apply acts_resume_denied. }
  split; [|by apply Hb]. split; try done. by eapply binding_new.
Qed.

Lemma acts_risk_analysis tr args :
  acts (lawful (may_run tr false)) (fun h an => exists a0, h = [a0]
      /\ an = run_value (risk_analysis Parse cfg args) a0.1)
    [] (atomic (risk_analysis Parse cfg args)).
Proof.
  apply acts_atomic. intros w. split; [|by eexists].
  destruct (probing_risk_analysis Parse cfg args w) as (ps & (Hs & Ha & _ & Hn) & Hps).
  split; [|split; [by left|done]]. exists ps. split; [done|].
  intros conn q Hin. by apply probes_not_executed in Hin.
Qed.

Lemma acts_toolExecuteQuery tr entropy id raw :
  acts (lawful (may_run tr false)) waiting_ok [] (toolExecuteQuery_call Parse cfg entropy id raw).
Proof.
  unfold toolExecuteQuery_call.
  destruct (Unmarshal _ _ _) as [args|e]; [|exact I].
  destruct (String.eqb _ _); [exact I|]. destruct (String.eqb (args_AgentID args) ""); [exact I|].
  eapply acts_bind; [apply acts_risk_analysis|]. intros h1 an _ (a0 & -> & Han).
  eapply (acts_bind _ (fun h' (paused : bool) => paused = false ->
    exists a, h' = [a0; a] /\ BlocksRisk (pause a.1) (RiskLevel an) = false)).
  { apply acts_atomic. intros w. split; [by apply lawful_quiet|]. intros Hb. by exists (w, w). }
  intros h2 [] _ Hp.
  { apply acts_answer. unfold block_paused_call, RecordQuery, alert_for, emitAlert. acting. }
  destruct (Hp eq_refl) as (a1 & -> & Hb). apply acts_then; [acting|]. intros h3 [] H3.
  { apply acts_answer. unfold block_quarantined_call, RecordQuery, alert_for, emitAlert. acting. }
  destruct (String.eqb_spec (Action (Decide (policy cfg) an)) PolicyActionBlock).
  { apply acts_answer. unfold block_by_policy_call, RecordQuery, alert_for, emitAlert.
    repeat first [apply acts_recordRiskAttempt | progress acting]. }
  destruct (String.eqb_spec (Action (Decide (policy cfg) an)) PolicyActionExecute).
  { apply acts_answer, acts_execute_now; [apply may_run_lasting|].
    eapply may_run_lasting; [exact H3|].
    exists args, a0, a1. cbv zeta. by rewrite <- Han. }
  destruct (String.eqb_spec (Action (Decide (policy cfg) an)) PolicyActionApprove).
  - apply acts_then; [acting|]. intros h4 t _. apply acts_approval_path; [|done].
    rewrite Han. apply risk_analysis_impact.
  - apply acts_answer. unfold block_unknown_action_call, RecordQuery. acting.
Qed.

(** ** The log *)
Lemma own_snoc i l j a :
  own i (l ++ [(j, a)]) =
    if Nat.eqb j i then match a with Some x => own i l ++ [x] | None => [] end else own i l.
Proof. unfold own. by rewrite fold_left_app. Qed.

Lemma waited_snoc i l j a :
  waited i (l ++ [(j, a)])
    = waited i l || (Nat.eqb j i && match a with Some _ => false | None => true end).
Proof. unfold waited. rewrite existsb_app. cbn. by rewrite orb_false_r. Qed.

(** A look at the pause is an old one or in what was added. *)
Lemma look_app i l l' a :
  look (waited i (l ++ l')) (own i (l ++ l')) = Some a ->
  look (waited i l) (own i l) = Some a \/ (i, Some a) ∈ l'.
Proof using Type.
  induction l' as [|[j x] l' IH] using rev_ind; [rewrite app_nil_r; by left|].
  rewrite app_assoc, own_snoc, waited_snoc, elem_of_app. destruct (Nat.eqb_spec j i) as [->|Hne].
  - destruct x as [x|]; cbn [andb]; [|by unfold look; rewrite lookup_nil].
    rewrite orb_false_r. unfold look at 1. intros [Ha|[_ Hx]]%lookup_app_Some.
    { apply IH in Ha as [?|?]; [by left|right; by left]. }
    apply list_lookup_singleton_Some in Hx as [_ ->]. right. right. by left.
  - rewrite orb_false_r. intros [?|?]%IH; [by left|right; by left].
Qed.

Lemma sent_lawful may h w w' conn query :
  lawful may h w w' -> sent w w' (Executed conn query) -> may h query.
Proof.
  intros ((ss & Hs & Hr) & _) (ss' & Hs' & Hin). rewrite Hs in Hs'. apply app_inv_head in Hs'.
  subst. by eapply Hr.
Qed.

Lemma may_run_looked tr b h query :
  may_run tr b h query -> exists a, look b h = Some a /\ unblocked a.1 query.
Proof using Type.
  destruct b; cbn [may_run]; [by intros [_ ?]|].
  intros (args & a0 & a1 & <- & _ & H1 & _ & Hb). exists a1. split; [done|].
  destruct (risk_analysis_impact args a0.1) as [impact Han]. exists impact. by rewrite <- Han.
Qed.

(** ** What a move asks of the engine *)
Lemma new_requests_same w w' : approval w' = approval w -> new_requests w w' = [].
Proof. intros H. unfold new_requests. by rewrite H, map_difference_diag, map_to_list_empty. Qed.

Lemma new_requests_begin w w' d :
  request_begin (now w) d (approval w) = inl (approval w') ->
  pending (approval w) !! details_ID d = None -> new_requests w w' = [(now w, Request d)].
Proof.
  unfold request_begin. destruct (String.eqb _ _); [done|]. intros [= Hw'] Hnone.
  unfold new_requests. rewrite <- Hw'. cbn.
  assert (<[details_ID d:={| details := d; createdAt := now w; decision := None |}]>
      (pending (approval w)) ∖ pending (approval w)
    = {[details_ID d := {| details := d; createdAt := now w; decision := None |}]}) as ->.
  { apply map_eq. intros id. rewrite lookup_difference.
    destruct (decide (details_ID d = id)) as [<-|Hne].
    - by rewrite Hnone, lookup_insert_eq, lookup_singleton_eq.
    - rewrite lookup_insert_ne, lookup_singleton_ne by done. by destruct (pending _ !! id). }
  by rewrite map_to_list_singleton.
Qed.

(** ** The invariant of a run *)
Record cinv (p : requests) (tr : list (time * event)) (l : log) : Prop := {
  ci_engine : exists t, run_of (NewApprovalEngine t) tr (approval (shared p));
  ci_calls : forall i c, calls p !! i = Some c ->
    acts (lawful (may_run tr (waited i l))) waiting_ok (own i l) c;
  ci_later : forall i, (length (calls p) <= i)%nat -> own i l = [] /\ waited i l = false;
  ci_waiting : forall i c fl, calls p !! i = Some c -> waits c = Some fl ->
    exists pa, pending (approval (shared p)) !! fl_approvalID fl = Some pa
      /\ details pa = fl_details fl;
  ci_distinct : forall i j c c' fl fl', calls p !! i = Some c -> calls p !! j = Some c' ->
    waits c = Some fl -> waits c' = Some fl' -> fl_approvalID fl = fl_approvalID fl' -> i = j;
  ci_log : forall l1 i w w' l2, l = l1 ++ (i, Some (w, w')) :: l2 ->
    lawful (may_run tr (waited i l1)) (own i l1) w w';
  ci_statements : forall conn query, Executed conn query ∈ statements (shared p) ->
    exists l1 i w w' l2, l = l1 ++ (i, Some (w, w')) :: l2 /\ sent w w' (Executed conn query);
}.

(** A move changes the engine by one request with an id that was not pending, or not
    at all. *)
Lemma move_engine may h i p p' :
  fresh_ids i p p' -> lawful may h (shared p) (shared p') ->
  (approval (shared p') = approval (shared p) /\ new_requests (shared p) (shared p') = [])
  \/ exists d, request_begin (now (shared p)) d (approval (shared p)) = inl (approval (shared p'))
       /\ pending (approval (shared p)) !! details_ID d = None
       /\ new_requests (shared p) (shared p') = [(now (shared p), Request d)].
Proof.
  intros Hfresh (_ & [Ha|(d & Hb)] & _); [left; by split; [|apply new_requests_same]|].
  destruct (pending (approval (shared p)) !! details_ID d) as [pa|] eqn:Hpa.
  - left. assert (approval (shared p') = approval (shared p)) as Ha; [|by split; [|apply new_requests_same]].
    specialize (Hfresh (details_ID d)). rewrite Hpa in Hfresh.
    unfold request_begin in Hb. destruct (String.eqb _ _); [done|]. injection Hb as Hb.
    rewrite <- Hb in Hfresh. cbn in Hfresh. rewrite lookup_insert_eq in Hfresh.
    destruct (decide (pa = {| details := d; createdAt := now (shared p); decision := None |})) as [->|Hne].
    + rewrite <- Hb. destruct (approval (shared p)) as [t m] eqn:He. cbn in Hpa |- *.
      f_equal. by apply insert_id.
    + exfalso. enough (Some pa = None) by done. apply Hfresh. left. congruence.
  - right. exists d. split; [done|]. split; [done|]. by apply new_requests_begin.
Qed.

(** Pending requests other than the one that returns, and what is pending after a
    decision. *)
Lemma signal_pending id r e id' pa :
  pending e !! id' = Some pa ->
  exists pa', pending (signal id r e).2 !! id' = Some pa' /\ details pa' = details pa.
Proof.
  intros Hpa. unfold signal. destruct (pending e !! id) as [pa0|] eqn:Hid; [|by exists pa].
  destruct (decision pa0); [by exists pa|]. cbn. destruct (decide (id = id')) as [<-|Hne].
  - rewrite lookup_insert_eq. eexists. split; [done|]. cbn. congruence.
  - rewrite lookup_insert_ne by done. by exists pa.
Qed.

Lemma waits_answer c : waits (answer_call c) = None.
Proof. by destruct c. Qed.

Lemma Return_ends now e id o e' : step now e (Return id o) e' -> pending e' = delete id (pending e).
Proof. intros H. by inversion H. Qed.

(** What an entry of the log and a new statement need when a step adds nothing to the
    log. *)
Lemma acts_app tr evs b h c :
  acts (lawful (may_run tr b)) waiting_ok h c ->
  acts (lawful (may_run (tr ++ evs) b)) waiting_ok h c.
Proof. apply acts_mono; [|done]. intros h' w w' _. apply lawful_app. Qed.

Lemma cinv_engine p tr l evs l' p' :
  cinv p tr l -> cstep p evs l' p' ->
  exists t, run_of (NewApprovalEngine t) (tr ++ evs) (approval (shared p')).
Proof.
  intros Hinv Hstep. destruct (ci_engine _ _ _ Hinv) as [t Hrun]. exists t.
  destruct Hstep as [p entropy id raw|i p p' Hm Hfresh|i p fl outcome e Hi Hst|p id r|p t0 Ht|p w' Hs Ha Hn];
    cbn [shared]; rewrite ?app_nil_r; try done.
  - pose proof Hm as (ea & f & k & Hi & _ & _)%move_inv.
    destruct (acts_move _ _ _ _ _ _ _ Hi (ci_calls _ _ _ Hinv i _ Hi) Hm) as [Hlaw _].
    destruct (move_engine _ _ _ _ _ Hfresh Hlaw) as [[Ha ->]|(d & Hb & Hnone & ->)].
    + by rewrite app_nil_r, Ha.
    + eapply run_snoc; [exact Hrun|]. by apply step_request.
  - eapply run_snoc; [exact Hrun|]. exact Hst.
  - eapply run_snoc; [exact Hrun|]. apply step_signal.
  - by rewrite Ha.
Qed.

Lemma cinv_calls p tr l evs l' p' :
  cinv p tr l -> cstep p evs l' p' ->
  forall i c, calls p' !! i = Some c ->
    acts (lawful (may_run (tr ++ evs) (waited i (l ++ l')))) waiting_ok (own i (l ++ l')) c.
Proof.
  intros Hinv Hstep j c.
  assert (forall c, calls p !! j = Some c ->
    acts (lawful (may_run (tr ++ evs) (waited j l))) waiting_ok (own j l) c) as Hold.
  { intros c0 H0. by apply acts_app, (ci_calls _ _ _ Hinv). }
  revert Hold. destruct Hstep as [p entropy id raw|i p p' Hm Hfresh|i p fl outcome e Hi Hst|p id r|p t0 Ht|p w' Hs Ha Hn];
    cbn [calls]; intros Hold; rewrite ?(app_nil_r l); try by apply Hold.
  - rewrite lookup_app_Some. intros [?|[Hle Hj]]; [by apply Hold|].
    apply list_lookup_singleton_Some in Hj as [_ <-].
    destruct (ci_later _ _ _ Hinv j) as [-> ->]; [done|]. apply acts_toolExecuteQuery.
  - pose proof Hm as (ea & f & k & Hi & _ & _)%move_inv.
    destruct (acts_move _ _ _ _ _ _ _ Hi (ci_calls _ _ _ Hinv i _ Hi) Hm)
      as (_ & c' & Hc' & Hacts). rewrite Hc', own_snoc, waited_snoc, andb_false_r, orb_false_r.
    destruct (Nat.eqb_spec i j) as [<-|Hne].
    + rewrite list_lookup_insert_eq by (by eapply lookup_lt_Some). intros [= <-].
      by apply acts_app.
    + rewrite list_lookup_insert_ne by done. apply Hold.
  - rewrite own_snoc, waited_snoc. destruct (Nat.eqb_spec i j) as [<-|Hne].
    + rewrite list_lookup_insert_eq by (by eapply lookup_lt_Some). intros [= <-].
      pose proof (ci_calls _ _ _ Hinv i _ Hi) as [Hfl _]. rewrite orb_true_r.
      apply acts_answer, acts_resume; [apply may_run_lasting|done|].
      destruct outcome as [r err]. cbn [fst snd]. intros -> Hr a Ha. split; [|by exists a].
      destruct (ci_engine _ _ _ Hinv) as [t Hrun].
      destruct (ci_waiting _ _ _ Hinv i _ fl Hi eq_refl) as (pa & Hpa & Hd).
      exists tr, (now (shared p)), (fl_approvalID fl), r, [], (details pa).
      split; [done|]. split; [by eapply pending_last_request|].
      split; [by eapply return_first_signal|]. split; [done|]. rewrite Hd.
      by rewrite (ok_query _ _ _ _ Hfl), (ok_sha _ _ _ _ Hfl).
    + rewrite list_lookup_insert_ne by done. cbn [andb]. rewrite orb_false_r. apply Hold.
Qed.

Lemma cinv_later p tr l evs l' p' :
  cinv p tr l -> cstep p evs l' p' ->
  forall i, (length (calls p') <= i)%nat -> own i (l ++ l') = [] /\ waited i (l ++ l') = false.
Proof.
  intros Hinv Hstep j. pose proof (ci_later _ _ _ Hinv j) as Hold. revert Hold.
  destruct Hstep as [p entropy id raw|i p p' Hm Hfresh|i p fl outcome e Hi Hst|p id r|p t0 Ht|p w' Hs Ha Hn];
    cbn [calls]; intros Hold; rewrite ?(app_nil_r l); try done.
  - rewrite length_app. intros Hle. apply Hold. lia.
  - apply move_inv in Hm as (ea & f & k & Hi & _ & ->). cbn [calls].
    rewrite length_insert, own_snoc, waited_snoc. intros Hle.
    apply lookup_lt_Some in Hi. destruct (Nat.eqb_spec i j); [lia|].
    cbn [andb]. rewrite orb_false_r. by apply Hold.
  - rewrite length_insert, own_snoc, waited_snoc. intros Hle. apply lookup_lt_Some in Hi.
    destruct (Nat.eqb_spec i j); [lia|]. cbn [andb]. rewrite orb_false_r. by apply Hold.
Qed.

(** A request that waits after a step waited before, or has just been registered under
    an id that was not pending; it is pending with its details. *)
Lemma waiting_step p tr l evs l' p' :
  cinv p tr l -> cstep p evs l' p' ->
  forall j c fl, calls p' !! j = Some c -> waits c = Some fl ->
  (calls p !! j = Some c
   \/ (exists a, l' = [(j, a)]) /\ pending (approval (shared p)) !! fl_approvalID fl = None)
  /\ exists pa, pending (approval (shared p')) !! fl_approvalID fl = Some pa
       /\ details pa = fl_details fl.
Proof.
  intros Hinv Hstep j c fl.
  assert (forall c, calls p !! j = Some c -> waits c = Some fl -> exists pa,
    pending (approval (shared p)) !! fl_approvalID fl = Some pa /\ details pa = fl_details fl) as Hold
    by (intros; by eapply (ci_waiting _ _ _ Hinv)).
  revert Hold. destruct Hstep as [p entropy id raw|i p p' Hm Hfresh|i p fl' outcome e Hi Hst|p id r|p t0 Ht|p w' Hs Ha Hn];
    cbn [calls shared]; intros Hold Hj Hw; try by (split; [by left|by eapply Hold]).
  - apply lookup_app_Some in Hj as [Hj|[_ Hj]]; [by split; [left|eapply Hold]|].
    apply list_lookup_singleton_Some in Hj as [_ <-]. exfalso.
    pose proof (acts_toolExecuteQuery tr entropy id raw) as Hacts.
    destruct (toolExecuteQuery_call Parse cfg entropy id raw) as [[|fl0]|]; try done.
    destruct Hacts as (_ & h0 & w & w' & Hnil & _). by destruct h0.
  - pose proof Hm as (ea & f & k & Hi & _ & _)%move_inv.
    destruct (acts_move _ _ _ _ _ _ _ Hi (ci_calls _ _ _ Hinv i _ Hi) Hm)
      as (Hlaw & c' & Hc' & Hacts).
    rewrite Hc' in Hj. destruct (decide (i = j)) as [->|Hne].
    + rewrite list_lookup_insert_eq in Hj by (by eapply lookup_lt_Some). injection Hj as ->.
      assert (pending (approval (shared p)) !! fl_approvalID fl = None) as Hnone.
      { apply Hfresh. right. exists c, fl. rewrite Hc', list_lookup_insert_eq; [done|].
        by eapply lookup_lt_Some. }
      split; [right; split; [by eexists|done]|].
      destruct c as [[|fl0]|]; try done. injection Hw as ->.
      destruct Hacts as (Hfl & h0 & w & w' & [_ [= <- <-]]%app_inj_tail & Hb).
      unfold request_begin in Hb. destruct (String.eqb _ _); [done|]. injection Hb as <-.
      cbn. rewrite (ok_details_id _ _ _ _ Hfl), lookup_insert_eq. by eexists.
    + rewrite list_lookup_insert_ne in Hj by done. split; [by left|].
      destruct (Hold _ Hj Hw) as (pa & Hpa & Hd).
      destruct (move_engine _ _ _ _ _ Hfresh Hlaw) as [[-> _]|(d & Hb & Hnone & _)]; [by exists pa|].
      unfold request_begin in Hb. destruct (String.eqb _ _); [done|]. injection Hb as <-.
      cbn. exists pa. rewrite lookup_insert_ne; [done|]. intros Heq. congruence.
  - destruct (decide (i = j)) as [->|Hne].
    { rewrite list_lookup_insert_eq in Hj by (by eapply lookup_lt_Some).
      injection Hj as <-. by rewrite waits_answer in Hw. }
    rewrite list_lookup_insert_ne in Hj by done. split; [by left|].
    destruct (Hold _ Hj Hw) as (pa & Hpa & Hd). exists pa.
    change (approval (set_approval e (shared p))) with e.
    rewrite (Return_ends _ _ _ _ _ Hst), lookup_delete_ne; [done|].
    intros Heq. apply Hne. by eapply (ci_distinct _ _ _ Hinv i j _ c fl' fl).
  - split; [by left|]. destruct (Hold _ Hj Hw) as (pa & Hpa & Hd).
    destruct (signal_pending id r _ _ _ Hpa) as (pa' & Hpa' & Hd'). exists pa'.
    split; [done|congruence].
  - split; [by left|]. rewrite Ha. by eapply Hold.
Qed.

Lemma cinv_distinct p tr l evs l' p' :
  cinv p tr l -> cstep p evs l' p' ->
  forall i j c c' fl fl', calls p' !! i = Some c -> calls p' !! j = Some c' ->
    waits c = Some fl -> waits c' = Some fl' -> fl_approvalID fl = fl_approvalID fl' -> i = j.
Proof.
  intros Hinv Hstep i j c c' fl fl' Hi Hj Hw Hw' Heq.
  assert (forall i c fl, calls p !! i = Some c -> waits c = Some fl ->
    pending (approval (shared p)) !! fl_approvalID fl <> None) as Hpend.
  { intros i0 c0 fl0 H1 H2. destruct (ci_waiting _ _ _ Hinv _ _ _ H1 H2) as (pa & -> & _). done. }
  destruct (waiting_step _ _ _ _ _ _ Hinv Hstep _ _ _ Hi Hw) as [[Hi0|[[a Ha] Hn]] _],
    (waiting_step _ _ _ _ _ _ Hinv Hstep _ _ _ Hj Hw') as [[Hj0|[[a' Ha'] Hn']] _].
  - by eapply (ci_distinct _ _ _ Hinv).
  - exfalso. apply (Hpend _ _ _ Hi0 Hw). by rewrite Heq.
  - exfalso. apply (Hpend _ _ _ Hj0 Hw'). by rewrite <- Heq.
  - congruence.
Qed.

Lemma snoc_split {X} (l l1 l2 : list X) a b :
  l ++ [a] = l1 ++ b :: l2 -> (l2 = [] /\ l = l1 /\ a = b) \/ exists l3, l2 = l3 ++ [a] /\ l = l1 ++ b :: l3.
Proof.
  destruct l2 as [|x l2 _] using rev_ind.
  - intros [-> [= ->]]%app_inj_tail. by left.
  - rewrite app_comm_cons, app_assoc. intros [-> ->]%app_inj_tail. right. by eexists.
Qed.

Lemma cinv_log p tr l evs l' p' :
  cinv p tr l -> cstep p evs l' p' ->
  forall l1 i w w' l2, l ++ l' = l1 ++ (i, Some (w, w')) :: l2 ->
    lawful (may_run (tr ++ evs) (waited i l1)) (own i l1) w w'.
Proof.
  intros Hinv Hstep l1 i w w' l2 Hl.
  assert (forall l2, l = l1 ++ (i, Some (w, w')) :: l2 -> lawful (may_run (tr ++ evs) (waited i l1)) (own i l1) w w') as Hold
    by (intros l3 H; by eapply lawful_app, (ci_log _ _ _ Hinv)).
  revert Hl Hold. destruct Hstep as [p entropy id raw|j p p' Hm Hfresh|j p fl' outcome e Hi Hst|p id r|p t0 Ht|p w0 Hs Ha Hn];
    intros Hl Hold; rewrite ?(app_nil_r l) in Hl; try by eapply Hold.
  - apply snoc_split in Hl as [(_ & <- & [= <- <- <-])|(l3 & _ & ->)]; [|by eapply Hold].
    pose proof Hm as (ea & f & k & Hi & _ & _)%move_inv.
    apply lawful_app.
    by destruct (acts_move _ _ _ _ _ _ _ Hi (ci_calls _ _ _ Hinv j _ Hi) Hm) as (Hlaw & _).
  - apply snoc_split in Hl as [(_ & _ & [=])|(l3 & _ & ->)]. by eapply Hold.
Qed.

Lemma cinv_statements p tr l evs l' p' :
  cinv p tr l -> cstep p evs l' p' ->
  forall conn query, Executed conn query ∈ statements (shared p') ->
  exists l1 i w w' l2, l ++ l' = l1 ++ (i, Some (w, w')) :: l2 /\ sent w w' (Executed conn query).
Proof.
  intros Hinv Hstep conn query.
  assert (Executed conn query ∈ statements (shared p) ->
    exists l1 i w w' l2, l ++ l' = l1 ++ (i, Some (w, w')) :: l2 /\ sent w w' (Executed conn query)) as Hold.
  { intros H. destruct (ci_statements _ _ _ Hinv _ _ H) as (l1 & i & w & w' & l2 & -> & Hsent).
    exists l1, i, w, w', (l2 ++ l'). by rewrite <- app_assoc. }
  revert Hold. destruct Hstep as [p entropy id raw|j p p' Hm Hfresh|j p fl' outcome e Hi Hst|p id r|p t0 Ht|p w0 Hs Ha Hn];
    cbn [shared]; intros Hold Hin; try by apply Hold.
  - pose proof Hm as (ea & f & k & Hi & _ & _)%move_inv.
    destruct (acts_move _ _ _ _ _ _ _ Hi (ci_calls _ _ _ Hinv j _ Hi) Hm)
      as (((ss & Hs & _) & _) & _).
    rewrite Hs in Hin. apply elem_of_app in Hin as [Hin|Hin]; [by apply Hold|].
    exists l, j, (shared p), (shared p'), []. split; [done|]. by exists ss.
  - apply Hold. by rewrite <- Hs.
Qed.

Lemma creachable_inv p tr l : creachable p tr l -> cinv p tr l.
Proof.
  induction 1 as [w t Hst Ha|p tr l evs l' p' Hreach IH Hstep].
  { split; cbn; try done.
    - exists t. rewrite Ha. constructor.
    - intros l1 *. by destruct l1.
    - rewrite Hst. by intros ? ? ?%elem_of_nil. }
  split.
  - by eapply cinv_engine.
  - by eapply cinv_calls.
  - by eapply cinv_later.
  - intros i c fl Hi Hw. by eapply (waiting_step _ _ _ _ _ _ IH Hstep).
  - by eapply cinv_distinct.
  - by eapply cinv_log.
  - by eapply cinv_statements.
Qed.
End system.

(** ** Properties *)
Section properties.
Context `{pg : Postgres, env : GatewayEnv}.
Variable Parse : string -> result (list (option Node)).
Variable cfg : Config.

(** C2. Requests that interleave at every action execute only what was allowed.  In
    every run of the gateway, whatever the other requests, the operators and the world
    do between two actions of a request: the request that sent an agent's statement
    had looked at the pause before, since it came in or since its wait, and found that
    it did not block the statement; and what the request's analysis had said is what
    the policy executes at once, or the latest request for approval under an id was
    for exactly this text and the first decision on it an approval. *)
Theorem interleaved_executed_only_if_allowed p tr l conn query :
  (forall v, snapshotVerifier cfg = Some v -> QuietVerifier v) ->
  creachable Parse cfg p tr l -> Executed conn query ∈ statements (shared p) ->
  (exists t, run_of (NewApprovalEngine t) tr (approval (shared p)))
  /\ exists l1 i w w' l2, l = l1 ++ (i, Some (w, w')) :: l2 /\ sent w w' (Executed conn query)
       /\ may_run Parse cfg tr (waited i l1) (own i l1) query.
Proof.
  intros Hv Hreach Hin. apply creachable_inv in Hreach as Hinv; [|done].
  split; [by apply (ci_engine _ _ _ _ _ Hinv)|].
  destruct (ci_statements _ _ _ _ _ Hinv _ _ Hin) as (l1 & i & w & w' & l2 & Hl & Hsent).
  exists l1, i, w, w', l2. split; [done|]. split; [done|].
  by eapply sent_lawful; [by eapply (ci_log _ _ _ _ _ Hinv)|].
Qed.

(** C8. What still runs after a pause.  Once every state of a run is one in which the
    pause blocks a statement, only a request that had done its look at the pause
    before, the second action of a request that came in or the first one after its
    wait, and had not been blocked by it, still executes the statement: no request
    that looks later, however long ago its analysis was, and no request whose wait
    ends later. *)
Theorem pause_stops_later_requests p tr l1 l2 i w w' conn query :
  (forall v, snapshotVerifier cfg = Some v -> QuietVerifier v) ->
  creachable Parse cfg p tr (l1 ++ l2) ->
  (forall j a, (j, Some a) ∈ l2 -> ~ unblocked Parse a.1 query) ->
  (i, Some (w, w')) ∈ l2 -> sent w w' (Executed conn query) ->
  exists a, look (waited i l1) (own i l1) = Some a /\ unblocked Parse a.1 query.
Proof.
  intros Hv Hreach Hpaused Hin Hsent. apply creachable_inv in Hreach as Hinv; [|done].
  apply list_elem_of_split in Hin as (la & lb & ->).
  assert (may_run Parse cfg tr (waited i (l1 ++ la)) (own i (l1 ++ la)) query) as Hrun.
  { eapply sent_lawful; [|done]. eapply (ci_log _ _ _ _ _ Hinv). by rewrite <- app_assoc. }
  apply may_run_looked in Hrun as (a & Ha & Hu).
  exists a. split; [|done]. apply look_app in Ha as [?|Ha]; [done|].
  exfalso. eapply Hpaused; [|exact Hu]. apply elem_of_app. by left.
Qed.

(** C13. No waiting request is lost.  In every state of a run a request that waits for
    an operator is pending under an id no other waiting request has, with its own
    details; what the engine holds for it is the first decision signalled since it
    asked, with which its wait can end at once; and with no decision it can end as
    soon as the clock has passed its time limit. *)
Theorem waiting_requests_are_answered p tr l i fl :
  (forall v, snapshotVerifier cfg = Some v -> QuietVerifier v) ->
  creachable Parse cfg p tr l -> calls p !! i = Some (Ret (inr fl)) ->
  (forall j fl', calls p !! j = Some (Ret (inr fl')) -> fl_approvalID fl' = fl_approvalID fl -> j = i)
  /\ exists pa, pending (approval (shared p)) !! fl_approvalID fl = Some pa
       /\ details pa = fl_details fl /\ decision pa = first_signal (fl_approvalID fl) tr
       /\ (forall r, decision pa = Some r -> exists p',
             cstep Parse cfg p [(now (shared p), Return (fl_approvalID fl) (request_decided r))]
               [(i, None)] p')
       /\ (forall t, now (shared p) <= t -> createdAt pa + timeout (approval (shared p)) <= t ->
             exists p1 p2, cstep Parse cfg p [] [] p1
               /\ cstep Parse cfg p1 [(t, Return (fl_approvalID fl) request_timeout)] [(i, None)] p2).
Proof.
  intros Hv Hreach Hi. apply creachable_inv in Hreach as Hinv; [|done].
  split; [intros j fl' Hj Heq; by eapply (ci_distinct _ _ _ _ _ Hinv)|].
  destruct (ci_waiting _ _ _ _ _ Hinv i _ fl Hi eq_refl) as (pa & Hpa & Hd).
  destruct (ci_engine _ _ _ _ _ Hinv) as [t0 Hrun].
  destruct (channel_holds_first_signal _ _ _ Hrun) as [_ Hsig].
  exists pa. split; [done|]. split; [done|]. split; [by apply Hsig|]. split.
  - intros r Hr. eexists. eapply c_return; [done|]. by eapply step_decided.
  - intros t Ht Hlate. do 2 eexists. split; [by apply (c_tick _ _ p t)|].
    apply (c_return _ _ i {| shared := set_now t (shared p); calls := calls p |} fl); [done|].
    by eapply step_timeout.
Qed.
End properties.

(** ** Runs of a concrete gateway

    A schedule of the requests, checked for fresh ids as it runs. *)
Section demo.
#[local] Existing Instances null_postgres offline_env.

Abbreviation demo_pool := (pool World (MCPResponse + inflight)).
Abbreviation demo_state := (demo_pool * list (time * event) * list (nat * option (World * World)))%type.

Definition fresh_check (i : nat) (p p' : demo_pool) : bool :=
  let now := pending (approval (shared p)) in
  let later := pending (approval (shared p')) in
  match calls p' !! i ≫= waits with
  | Some fl => bool_decide (now !! fl_approvalID fl = None)
               && bool_decide (delete (fl_approvalID fl) later = now)
  | None => bool_decide (later = now)
  end.

Lemma fresh_check_ok i p p' : fresh_check i p p' = true -> fresh_ids i p p'.
Proof.
  unfold fresh_check, fresh_ids. destruct (calls p' !! i) as [c|] eqn:Hc; cbn; [|].
  2: { intros H%bool_decide_eq_true id [Hne|(c & fl & ? & _)]; [by rewrite H in Hne|done]. }
  destruct (waits c) as [fl|] eqn:Hw.
  - rewrite andb_true_iff, !bool_decide_eq_true. intros [Hn Hd] id [Hne|(c' & fl' & [= <-] & Hw' & <-)].
    + destruct (decide (fl_approvalID fl = id)) as [<-|Hd']; [done|]. exfalso. apply Hne.
      by rewrite <- Hd, lookup_delete_ne.
    + rewrite Hw in Hw'. by injection Hw' as <-.
  - intros H%bool_decide_eq_true id [Hne|(c' & fl & [= <-] & Hw' & _)]; [by rewrite H in Hne|congruence].
Qed.

Fixpoint demo_run (js : list nat) (st : demo_state) : option demo_state :=
  match js with
  | [] => Some st
  | j :: js =>
      let '(p, tr, l) := st in
      p' ← move j p;
      if fresh_check j p p' then
        demo_run js (p', tr ++ new_requests (shared p) (shared p'), l ++ [(j, Some (shared p, shared p'))])
      else None
  end.

Lemma demo_run_reaches js p tr l p' tr' l' :
  creachable demo_parse demo_config p tr l -> demo_run js (p, tr, l) = Some (p', tr', l') ->
  creachable demo_parse demo_config p' tr' l'.
Proof.
  revert p tr l. induction js as [|j js IH]; intros p tr l Hp; cbn [demo_run]; [by intros [= <- <- <-]|].
  destruct (move j p) as [p1|] eqn:Hm; [|done]. cbn [mbind option_bind].
  destruct (fresh_check j p p1) eqn:Hf; [|done]. apply IH.
  eapply creach_step; [exact Hp|]. apply c_move; [done|by apply fresh_check_ok].
Qed.

Definition demo_start (q : string) : demo_state :=
  ({| shared := demo_world;
      calls := [toolExecuteQuery_call demo_parse demo_config (Some [1; 2]) (AnyInt 1) (Some (demo_args q ""))] |},
   [], []).

Lemma demo_start_reached q :
  creachable demo_parse demo_config (demo_start q).1.1 (demo_start q).1.2 (demo_start q).2.
Proof.
  eapply (creach_step _ _ {| shared := demo_world; calls := [] |} [] []).
  - by eapply creach_init.
  - apply (c_arrive _ _ {| shared := demo_world; calls := [] |}).
Qed.

(** A SELECT runs in six actions. *)
Lemma interleaved_executed_only_if_allowed_witness :
  exists p tr l, creachable demo_parse demo_config p tr l
  /\ Executed None "SELECT 1" ∈ statements (shared p)
  /\ (exists t, run_of (NewApprovalEngine t) tr (approval (shared p)))
  /\ exists l1 i w w' l2, l = l1 ++ (i, Some (w, w')) :: l2
       /\ sent w w' (Executed None "SELECT 1")
       /\ may_run demo_parse demo_config tr (waited i l1) (own i l1) "SELECT 1".
Proof.
  assert (match demo_run [0; 0; 0; 0; 0]%nat (demo_start "SELECT 1") with
    | Some (p, _, _) => statements (shared p) = [Executed None "SELECT 1"]
    | None => False
    end) as Hfacts by (vm_compute; reflexivity).
  destruct (demo_run _ _) as [[[p tr] l]|] eqn:Hrun; [|destruct Hfacts].
  assert (creachable demo_parse demo_config p tr l) as Hreach
    by (eapply demo_run_reaches; [apply (demo_start_reached "SELECT 1")|exact Hrun]).
  assert (Executed None "SELECT 1" ∈ statements (shared p)) as Hin by (rewrite Hfacts; by left).
  exists p, tr, l. split; [exact Hreach|]. split; [exact Hin|].
  exact (interleaved_executed_only_if_allowed demo_parse demo_config p tr l None "SELECT 1"
    demo_verifier Hreach Hin).
Defined.

(** An INSERT waits after seven. *)
Lemma waiting_requests_are_answered_witness :
  exists p tr l fl, creachable demo_parse demo_config p tr l
  /\ calls p !! 0%nat = Some (Ret (inr fl))
  /\ exists pa, pending (approval (shared p)) !! fl_approvalID fl = Some pa
       /\ details pa = fl_details fl /\ decision pa = first_signal (fl_approvalID fl) tr.
Proof.
  assert (match demo_run [0; 0; 0; 0; 0; 0; 0]%nat (demo_start "INSERT 1") with
    | Some (p, _, _) => match calls p with [Ret (inr _)] => True | _ => False end
    | None => False
    end) as Hfacts by (vm_compute; exact I).
  destruct (demo_run _ _) as [[[p tr] l]|] eqn:Hrun; [|destruct Hfacts].
  assert (creachable demo_parse demo_config p tr l) as Hreach
    by (eapply demo_run_reaches; [apply (demo_start_reached "INSERT 1")|exact Hrun]).
  destruct (calls p) as [|[[|fl]|] [|]] eqn:Hc; try destruct Hfacts.
  assert (calls p !! 0%nat = Some (Ret (inr fl))) as Hi by (rewrite Hc; reflexivity).
  exists p, tr, l, fl. split; [exact Hreach|]. split; [exact Hi|].
  destruct (waiting_requests_are_answered demo_parse demo_config p tr l 0 fl
    demo_verifier Hreach Hi) as (_ & pa & H1 & H2 & H3 & _).
  exists pa. split; [exact H1|]. split; [exact H2|exact H3].
Defined.

(** A SELECT that looked at the pause, before it stops everything, still runs. *)
Definition demo_pause (p : demo_pool) : demo_pool :=
  {| shared := set_pause (Some {| paused := true; reason := ""; updatedAt := 0; file := "";
       pauseBlocksSafe := true |}) (shared p); calls := calls p |}.

Lemma demo_run_log js p tr l p' tr' l' :
  demo_run js (p, tr, l) = Some (p', tr', l') -> exists l2, l' = l ++ l2.
Proof.
  revert p tr l. induction js as [|j js IH]; intros p tr l; cbn [demo_run].
  - intros [= _ _ <-]. exists []. by rewrite app_nil_r.
  - destruct (move j p) as [p1|]; [|done]. cbn [mbind option_bind].
    destruct (fresh_check j p p1); [|done]. intros [l2 ->]%IH. rewrite <- app_assoc. by eexists.
Qed.

Lemma paused_blocks w q : BlocksRisk (pause w) RiskSafe = true -> ~ unblocked demo_parse w q.
Proof.
  intros Hb [impact Hu]. revert Hb Hu. unfold BlocksRisk.
  destruct (pause w) as [c|]; [|done]. destruct (paused c); [|done]. cbn.
  rewrite orb_false_r. by intros ->.
Qed.

Definition paused_in (e : nat * option (World * World)) : bool :=
  match e.2 with Some (w, _) => BlocksRisk (pause w) RiskSafe | None => true end.

Lemma pause_stops_later_requests_witness :
  exists p tr l1 l2 w w', creachable demo_parse demo_config p tr (l1 ++ l2)
  /\ (0%nat, Some (w, w')) ∈ l2 /\ sent w w' (Executed None "SELECT 1")
  /\ exists a, look (waited 0 l1) (own 0 l1) = Some a /\ unblocked demo_parse a.1 "SELECT 1".
Proof.
  assert (match demo_run [0; 0]%nat (demo_start "SELECT 1") with
    | Some (p0, tr0, l1) =>
        match demo_run [0; 0; 0]%nat (demo_pause p0, tr0 ++ [], l1) with
        | Some (p, tr, l) =>
            match drop (length l1) l with
            | [a; b; (i, Some (w, w'))] =>
                forallb paused_in (drop (length l1) l) = true /\ i = 0%nat
                /\ statements w = [] /\ statements w' = [Executed None "SELECT 1"]
            | _ => False
            end
        | None => False
        end
    | None => False
    end) as Hfacts by (vm_compute; repeat split).
  destruct (demo_run [0; 0]%nat (demo_start "SELECT 1")) as [[[p0 tr0] l1]|] eqn:H0;
    [|destruct Hfacts].
  assert (creachable demo_parse demo_config (demo_pause p0) (tr0 ++ []) (l1 ++ [])) as Hreach0.
  { eapply creach_step; [eapply demo_run_reaches; [apply (demo_start_reached "SELECT 1")|exact H0]|].
    apply c_outside; reflexivity. }
  rewrite (app_nil_r l1) in Hreach0.
  destruct (demo_run [0; 0; 0]%nat _) as [[[p tr] l]|] eqn:H1; [|destruct Hfacts].
  assert (creachable demo_parse demo_config p tr l) as Hreach
    by (eapply demo_run_reaches; [exact Hreach0|exact H1]).
  destruct (demo_run_log _ _ _ _ _ _ _ H1) as [l2 ->]. rewrite drop_app_length in Hfacts.
  destruct l2 as [|a [|b [|[i [[w w']|]] [|]]]]; try (destruct Hfacts; fail).
  destruct Hfacts as (Hpaused & -> & Hs & Hs').
  assert ((0%nat, Some (w, w')) ∈ [a; b; (0%nat, Some (w, w'))]) as Hin by (do 2 right; left).
  assert (sent w w' (Executed None "SELECT 1")) as Hsent.
  { exists [Executed None "SELECT 1"]. rewrite Hs, Hs'. split; [reflexivity|by left]. }
  exists p, tr, l1, [a; b; (0%nat, Some (w, w'))], w, w'.
  split; [exact Hreach|]. split; [exact Hin|]. split; [exact Hsent|].
  refine (pause_stops_later_requests demo_parse demo_config p tr l1 _ 0 w w' None "SELECT 1"
    demo_verifier Hreach _ Hin Hsent).
  intros j [v v'] Hj. apply paused_blocks. rewrite forallb_forall_iff in Hpaused.
  exact (Hpaused _ Hj).
Defined.

(** The operator hears of a request before the engine holds it: who answers the alert
    at once is told that there is no such request, and the request waits on. *)
Definition alerting_config : Config := {|
  policy := policy demo_config; environment := "local"; clusterID := "local";
  has_db := true; storage := ""; snapshotBeforeCritical := true;
  snapshotVerifier := snapshotVerifier demo_config; alert_webhook := Some "http://operator" |}.

Definition alerting_start : demo_pool :=
  {| shared := demo_world;
     calls := [toolExecuteQuery_call demo_parse alerting_config (Some [1; 2]) (AnyInt 1)
                 (Some (demo_args "INSERT 1" ""))] |}.

Example alert_before_registration :
  match schedule [0; 0; 0; 0; 0; 0]%nat alerting_start with
  | Some p =>
      map (fun a => (EventType a, ApprovalID a)) (posted (shared p)) = [("approval_requested", "appr_0102")]
      /\ (Approve "appr_0102" "operator" (approval (shared p))).1 = false
      /\ match move 0 p with
         | Some p' => (Approve "appr_0102" "operator" (approval (shared p'))).1 = true
         | None => False
         end
  | None => False
  end.
Proof. vm_compute. repeat split. Qed.
End demo.
