(* ===== verification/GatewayAudit.v ===== *)
(** * What the gateway audits

    Every statement the gateway executes for an agent is in the audit trail: the
    handler that sends it has written an approved entry with the statement's text,
    without its secrets, and its hash before it sends it. *)
From S2P Require Import Prelude GoString GoTime Json JsonText Sha256 Postgres PgAst SqlAnalyzer Policy.
From S2P Require Import GatewayMetrics Manifest AgentIdentity Approval Pause Auth GatewayMetadata.
From S2P Require Import GatewayWorld Behavior Impact SnapshotVerifier McpServer Gateway.
From S2P Require Import GatewaySafety GatewayProperties.

Open Scope Z_scope.

#[local] Instance endpoint_eq_dec : EqDecision endpoint.
Proof. solve_decision. Defined.

Section audit.
Context `{pg : Postgres, env : GatewayEnv}.
Variable Parse : string -> result (list (option Node)).
Variable cfg : Config.
Hypothesis verifier_ok : forall v, snapshotVerifier cfg = Some v -> QuietVerifier v.

(** Between [w] and [w'] the one entry recorded is that of the approved query [q]. *)
Definition audited (w : World) (q : string) (w' : World) : Prop :=
  exists agent risk,
    registry w' = record_entry (new_entry (now w) agent q risk true (querySHA256 q)
                                  (environment cfg) (clusterID cfg)) (registry w).

(** A handler sends no agent's statement, or one that it audits. *)
Definition logged (w w' : World) : Prop :=
  (exists ps, statements w' = statements w ++ ps /\ forallb is_probe ps = true)
  \/ exists ps conn q, statements w' = statements w ++ ps ++ [Executed conn q]
       /\ forallb is_probe ps = true /\ audited w q w'.

Lemma logged_statements w w' : statements w' = statements w -> logged w w'.
Proof. intros H. left. exists []. by rewrite app_nil_r. Qed.

Lemma logged_keeps {A} (m : ST World A) w : leaves statements m -> logged w (run_state m w).
Proof. intros H. apply logged_statements, H. Qed.

Lemma logged_probing {A} (m : ST World A) w : probing m -> logged w (run_state m w).
Proof. intros Hm. destruct (Hm w) as (ps & (Hs & _) & Hps). left. by exists ps. Qed.

(** After something that only probes and audits nothing. *)
Lemma logged_after w ps w1 w' :
  adds w ps w1 -> forallb is_probe ps = true -> registry w1 = registry w ->
  logged w1 w' -> logged w w'.
Proof.
  intros (Hs & _ & _ & Hn) Hps Hreg [(qs & Hq & Hqs)|(qs & conn & q & Hq & Hqs & agent & risk & Ha)].
  - left. exists (ps ++ qs). rewrite Hq, Hs, app_assoc. split; [done|]. by rewrite forallb_app, Hps.
  - right. exists (ps ++ qs), conn, q. split; [by rewrite Hq, Hs, !app_assoc|].
    split; [by rewrite forallb_app, Hps|]. exists agent, risk. by rewrite Ha, Hreg, Hn.
Qed.

Lemma logged_bind_keeps {A B} (m : ST World A) (f : A -> ST World B) w :
  leaves core m -> leaves registry m ->
  (forall a w1, logged w1 (run_state (f a) w1)) ->
  logged w (run_state (m ≫= f) w).
Proof.
  intros Hc Hr Hf. unfold run_state at 1. rewrite run_bind.
  apply (logged_after w [] (run_state m w)); [by apply (adds_quiet m)|done|apply Hr|apply Hf].
Qed.

Lemma logged_answer m w : logged w (run_state m w) -> logged w (run_state (answer m) w).
Proof. intros H. unfold answer, run_state. by rewrite run_bind. Qed.

(** ** What the parts record *)
Lemma leaves_probe_registry conn sql : leaves registry (probe conn sql).
Proof. intros w. unfold run_state, probe. by destruct (QueryContext conn sql _). Qed.

Lemma leaves_risk_analysis_registry args : leaves registry (risk_analysis Parse cfg args).
Proof.
  unfold risk_analysis, analyzeImpact, estimateAffectedRowsWithExplain.
  repeat first [apply leaves_probe_registry | progress quieten].
Qed.

Lemma leaves_executeSQL_registry args analysis : leaves registry (executeSQL cfg args analysis).
Proof.
  intros w. unfold run_state, executeSQL. destruct (execution_conn cfg args); [|done].
  destruct (returnsRows analysis); [by destruct (QueryContext _ _ _)|by destruct (ExecContext _ _ _)].
Qed.

Lemma leaves_execution_response id args an d sn ai rp :
  leaves registry (execution_response cfg id args an d sn ai rp).
Proof.
  unfold execution_response. apply leaves_bind; [apply leaves_executeSQL_registry|].
  intros [members|e]; quieten.
Qed.

Lemma RecordDetailed_registry agent q risk approved sha e c w :
  registry (run_state (RecordDetailed agent q risk approved sha e c) w)
  = record_entry (new_entry (now w) agent q risk approved sha e c) (registry w).
Proof.
  unfold RecordDetailed, run_state. set (f := fun _ : time => RecordAudit _).
  set (w0 := set_registry _ w). pose proof (leaves_with_metadata registry f w0) as H.
  unfold run_state in H. destruct (with_metadata f w0) as [r w1]. exact H.
Qed.

(** An approved entry, then things that audit nothing and send at most this query. *)
Lemma logged_record {A} args risk sha (m : ST World A) w :
  sha = querySHA256 (args_Query args) -> leaves registry m ->
  (forall w1, exists s, adds w1 s (run_state m w1) /\ runs (args_Query args) s) ->
  logged w (run_state (RecordQuery cfg args risk sha true;; m) w).
Proof.
  intros -> Hr Hm. unfold run_state at 1. rewrite run_bind.
  set (w1 := run_state (RecordQuery cfg args risk _ true) w).
  assert (registry w1 = record_entry (new_entry (now w) (args_AgentID args) (args_Query args) risk
    true (querySHA256 (args_Query args)) (environment cfg) (clusterID cfg)) (registry w)) as Hreg
    by apply RecordDetailed_registry.
  assert (statements w1 = statements w) as Hst by apply (leaves_RecordDetailed statements).
  destruct (Hm w1) as (s & (Hs & _) & Hruns).
  destruct Hruns as [->|[conn ->]].
  - apply logged_statements. change (statements (run_state m w1) = statements w).
    by rewrite Hs, Hst, app_nil_r.
  - right. exists [], conn, (args_Query args).
    change ((m w1).2) with (run_state m w1). rewrite Hs, Hst. split; [done|]. split; [done|].
    exists (args_AgentID args), risk. by rewrite (Hr w1).
Qed.

(** ** execute_query and its resumption *)
Lemma logged_execute_now id args an d w :
  logged w (run_state (execute_now cfg id args an d (querySHA256 (args_Query args))) w).
Proof.
  unfold execute_now. apply logged_record; [done|apply leaves_execution_response|].
  intros w1. apply execution_response_adds.
Qed.

Lemma logged_resumeExecuteQuery fl r err w :
  fl_querySHA fl = querySHA256 (args_Query (fl_args fl)) ->
  logged w (run_state (resumeExecuteQuery cfg fl r err) w).
Proof.
  intros Hsha. unfold resumeExecuteQuery.
  assert (forall status metric ev ac msg a,
    leaves statements (resume_denied cfg fl status metric ev ac msg a)) as Hden.
  { intros. unfold resume_denied, RecordQuery, alert_for, emitAlert,
      registry_RecordApprovalResolved. quieten. }
  assert (forall status ac msg m, leaves statements m ->
    leaves statements (resume_blocked cfg fl status ac msg m)) as Hblo.
  { intros ???? Hm. unfold resume_blocked, RecordQuery, registry_RecordApprovalResolved.
    repeat first [exact Hm | progress quieten]. }
  destruct err as [[]|]; [by apply logged_keeps, Hden..|].
  destruct (negb _); [apply logged_keeps, Hblo; quieten|].
  apply logged_bind_keeps; [apply leaves_gets..|]. intros paused w1.
  destruct paused; [apply logged_keeps, Hblo; unfold alert_for, emitAlert; quieten|].
  unfold resume_approved. destruct (res_Approved r) eqn:Hr; cbn [negb].
  - apply logged_record; [done| |].
    + apply leaves_bind; [apply (leaves_with_metadata registry)|]. intros _.
      apply leaves_bind; [apply (leaves_metrics registry)|]. intros _.
      apply leaves_execution_response.
    + intros w2. apply adds_bind_quiet; [apply (leaves_with_metadata core)|]. intros _ w3.
      apply adds_bind_quiet; [apply (leaves_metrics core)|]. intros _ w4.
      apply execution_response_adds.
  - apply logged_keeps. unfold RecordQuery, registry_RecordApprovalResolved. quieten.
Qed.

Lemma leaves_request_approval_path id args an d sha aid :
  leaves statements (request_approval_path cfg id args an d sha aid).
Proof.
  unfold request_approval_path. apply leaves_bind.
  { destruct (_ && _); [|apply leaves_ret]. by apply (leaves_verifyCriticalRecoveryPoint cfg _ statements). }
  intros [table [recovery|e]].
  - apply leaves_bind; [apply leaves_when, (leaves_metrics statements)|]. intros _.
    apply leaves_bind; [apply (leaves_with_metadata statements)|]. intros [[]|e].
    + apply leaves_bind; [apply (leaves_Emit statements)|]. intros _. apply leaves_bind.
      { intros w. unfold run_state, begin_approval. by destruct (request_begin _ _ _). }
      intros [err|]; [|apply leaves_ret]. unfold resumeExecuteQuery, resume_denied, RecordQuery,
        alert_for, emitAlert, registry_RecordApprovalResolved.
      destruct err; quieten.
    + unfold block_metadata, RecordQuery, alert_for, emitAlert. quieten.
  - unfold block_recovery, RecordQuery, alert_for, emitAlert. quieten.
Qed.

Lemma logged_toolExecuteQuery entropy id raw w :
  logged w (run_state (toolExecuteQuery Parse cfg entropy id raw) w).
Proof.
  unfold toolExecuteQuery.
  assert (forall r w1, logged w1 (run_state (mret (inl r) : ST World (MCPResponse + inflight)) w1))
    as Hret by (intros; by apply logged_statements).
  destruct (Unmarshal _ _ _) as [args|e]; [|apply Hret].
  destruct (String.eqb _ _); [apply Hret|]. destruct (String.eqb (args_AgentID args) ""); [apply Hret|].
  unfold run_state at 1. rewrite run_bind.
  destruct (probing_risk_analysis Parse cfg args w) as (ps & Hps & Hprobes).
  apply (logged_after w ps (run_state (risk_analysis Parse cfg args) w)); [done..| |].
  { apply leaves_risk_analysis_registry. }
  generalize (run_state (risk_analysis Parse cfg args) w).
  generalize (run_value (risk_analysis Parse cfg args) w). clear ps Hps Hprobes w. intros an w.
  cbv beta. match goal with |- logged w (?m w).2 => change (logged w (run_state m w)) end.
  apply logged_bind_keeps; [apply leaves_gets..|]. intros paused w1.
  destruct paused; [apply logged_answer, logged_keeps; unfold block_paused, RecordQuery, alert_for,
    emitAlert; quieten|].
  apply logged_bind_keeps; [apply leaves_gets..|]. intros quarantined w2.
  destruct quarantined; [apply logged_answer, logged_keeps; unfold block_quarantined, RecordQuery,
    alert_for, emitAlert; quieten|].
  destruct (String.eqb _ _); [apply logged_answer, logged_keeps; unfold block_by_policy, RecordQuery,
    alert_for, emitAlert; quieten|].
  destruct (String.eqb _ _); [apply logged_answer, logged_execute_now|].
  destruct (String.eqb _ _).
  - apply logged_bind_keeps; [apply leaves_gets..|]. intros t w3.
    apply logged_keeps, leaves_request_approval_path.
  - apply logged_answer, logged_keeps. unfold block_unknown_action, RecordQuery. quieten.
Qed.

(** ** The endpoints *)
Lemma logged_Handle entropy principal body w :
  logged w (run_state (Handle Parse cfg entropy principal body) w).
Proof.
  unfold Handle, handleToolsCall.
  repeat match goal with
  | |- logged _ (run_state (mret _) _) => by apply logged_statements
  | |- logged _ (run_state (answer (toolAnalyzeQuery _ _ _ _)) _) =>
      apply logged_answer, logged_probing, probing_toolAnalyzeQuery
  | |- logged _ (run_state (answer (toolRestoreSnapshot _ _ _)) _) =>
      apply logged_answer, logged_keeps; unfold toolRestoreSnapshot; quieten
  | |- logged _ (run_state (toolExecuteQuery _ _ _ _ _) _) => apply logged_toolExecuteQuery
  | |- context [match ?x with _ => _ end] => destruct x
  end.
Qed.

Lemma leaves_pause_handler pausing r p : leaves statements (makePauseHandler cfg pausing r p).
Proof.
  intros w. destruct (makePauseHandler_core cfg pausing r p w) as (resp & w' & Hw & Hs & _).
  unfold run_state. by rewrite Hw.
Qed.

Lemma leaves_approve_handler approve id p : leaves statements (makeApproveHandler approve id p).
Proof.
  unfold makeApproveHandler. destruct (String.eqb id ""); [apply leaves_ret|].
  apply leaves_bind; [|intros []; apply leaves_ret].
  intros w. unfold run_state, approval_signal. by destruct ((if approve then _ else _) _).
Qed.

Lemma leaves_endpoint_handler entropy r e p :
  e <> EMCP -> leaves statements (endpoint_handler Parse cfg entropy r e p).
Proof.
  intros He. destruct e; cbn [endpoint_handler]; try done;
    try apply leaves_approve_handler; try apply leaves_pause_handler;
    unfold handleHealth, makePendingHandler, makeAuditHandler, makeMetadataSnapshotsHandler,
      makeMetadataAuditHandler, makeMetadataAlertsHandler, makeMetadataHealthHandler,
      makeAdminStatusHandler, makeGatewayMetricsHandler;
    apply leaves_bind; intros; (apply leaves_gets || apply leaves_ret).
Qed.

Lemma logged_scoped s scope r next w :
  (forall p, logged w (run_state (next p) w)) ->
  logged w (run_state (requireScopedAuth s scope r next) w).
Proof.
  intros Hnext. unfold requireScopedAuth. destruct (negb _); [apply Hnext|].
  assert (forall status who resp, leaves statements (recordAuthDenied status scope who;; respond resp))
    as Hden by (intros; unfold recordAuthDenied, respond; quieten).
  destruct (Authenticate _ _); [|by apply logged_keeps].
  destruct (negb _); [by apply logged_keeps|apply Hnext].
Qed.

Lemma logged_serve s entropy active r w :
  logged w (run_state (serve Parse cfg s entropy active r) w).
Proof.
  unfold serve. destruct (route r) as [e|]; [|by apply logged_statements].
  assert (forall p, logged w (run_state (endpoint_handler Parse cfg entropy r e p) w)) as Hh.
  { intros p. destruct (decide (e = EMCP)) as [->|He];
      [|by apply logged_keeps, leaves_endpoint_handler].
    cbn [endpoint_handler]. unfold makeMCPHandler.
    destruct (negb _); [by apply logged_statements|].
    destruct (read_limited _ _) as [body|]; [|by apply logged_statements].
    pose proof (logged_Handle entropy p body w) as H. unfold run_state in *.
    rewrite run_bind. unfold run_state, run_value. by destruct (Handle _ _ _ _ _ _) as [[] ?]. }
  assert (logged w (run_state (match endpoint_scope s e with
    | None => endpoint_handler Parse cfg entropy r e None
    | Some scope => requireScopedAuth (auth s) scope r (endpoint_handler Parse cfg entropy r e)
    end) w)) as Hrun by (destruct (endpoint_scope s e); [by apply logged_scoped|apply Hh]).
  destruct e; try exact Hrun. unfold limitConcurrent.
  destruct (_ <=? 0); [exact Hrun|]. destruct (_ <? _); [exact Hrun|]. by apply logged_statements.
Qed.
End audit.

Lemma recorded_entry e r : e ∈ entries (record_entry e r).
Proof.
  cbn [record_entry entries]. unfold trim. pose proof maxInMemoryAuditEntries_val as Hm.
  destruct (Nat.leb_spec (length (entries r ++ [e])) maxInMemoryAuditEntries); [set_solver|].
  rewrite length_app in *. cbn [length] in *. rewrite drop_app_le by lia. set_solver.
Qed.

Section system.
Context `{pg : Postgres, env : GatewayEnv}.
Variable Parse : string -> result (list (option Node)).
Variable cfg : Config.
Variable s : ServerConfig.
Hypothesis verifier_ok : forall v, snapshotVerifier cfg = Some v -> QuietVerifier v.

Lemma gstep_logged g tr evs g' :
  reachable Parse cfg s g tr -> gstep Parse cfg s g evs g' -> logged cfg (gw g) (gw g').
Proof.
  intros Hreach Hstep. apply (reachable_inv Parse cfg s verifier_ok) in Hreach as [_ Hwait _].
  destruct Hstep as [g r entropy resp w' Hs|g r entropy fl w' Hfresh Hs
    |g id [r err] fl e resp w' Hw Hst Hres|g t Ht|g w' Hc]; cbn [gw].
  - pose proof (logged_serve Parse cfg verifier_ok s entropy (Z.of_nat (size (waiting g))) r (gw g)) as H.
    unfold run_state in H. by rewrite Hs in H.
  - pose proof (logged_serve Parse cfg verifier_ok s entropy (Z.of_nat (size (waiting g))) r (gw g)) as H.
    unfold run_state in H. by rewrite Hs in H.
  - destruct (Hwait _ _ Hw) as [Hok _].
    pose proof (logged_resumeExecuteQuery cfg fl r err (set_approval e (gw g))
      (ok_querySHA _ _ _ _ Hok)) as H.
    unfold run_state in H. cbn [fst snd] in Hres. by rewrite Hres in H.
  - by apply logged_statements.
  - apply logged_statements. by injection Hc.
Qed.

(** C12. Every statement executed for an agent is in the audit trail.  The step of the
    gateway that sends it has recorded an entry: approved, of the time of the step,
    with the statement scrubbed of its secrets and the hash of its exact text.  The
    entry is among those the registry shows, and the line of the entry ends the audit
    file when there is one. *)
Theorem executed_is_audited g tr evs g' conn q :
  reachable Parse cfg s g tr -> gstep Parse cfg s g evs g' ->
  Executed conn q ∈ drop (length (statements (gw g))) (statements (gw g')) ->
  exists e, Approved e = true /\ Query e = scrubSecrets q /\ QuerySHA256 e = querySHA256 q
    /\ entry_Timestamp e = now (gw g)
    /\ Environment e = environment cfg /\ ClusterID e = clusterID cfg
    /\ e ∈ entries (registry (gw g'))
    /\ (auditPath (registry (gw g)) <> "" ->
        audit_file (registry (gw g')) = appendAuditLog e (audit_file (registry (gw g)))).
Proof.
  intros Hreach Hstep Hin.
  destruct (gstep_logged g tr evs g' Hreach Hstep)
    as [(ps & Hs & Hps)|(ps & conn' & q' & Hs & Hps & agent & risk & Hreg)];
    rewrite Hs, drop_app_length in Hin.
  - by apply probes_not_executed in Hin.
  - apply elem_of_app in Hin as [Hin|Hin]; [by apply probes_not_executed in Hin|].
    apply list_elem_of_singleton in Hin as [= _ <-]. rewrite Hreg. eexists.
    split; [|split; [|split; [|split; [|split; [|split; [|split; [apply recorded_entry|]]]]]]];
      try reflexivity.
    intros Hpath. cbn [record_entry audit_file]. apply String.eqb_neq in Hpath. by rewrite Hpath.
Qed.
End system.

(** The approved INSERT of the run of [GatewayProperties]. *)
#[local] Existing Instances null_postgres offline_env.

Lemma executed_is_audited_witness :
  exists e, Approved e = true /\ Query e = scrubSecrets "INSERT 1"
    /\ QuerySHA256 e = querySHA256 "INSERT 1"
    /\ entry_Timestamp e = now (gw demo_g2)
    /\ Environment e = environment demo_config /\ ClusterID e = clusterID demo_config
    /\ e ∈ entries (registry (gw demo_g3))
    /\ (auditPath (registry (gw demo_g2)) <> "" ->
        audit_file (registry (gw demo_g3)) = appendAuditLog e (audit_file (registry (gw demo_g2)))).
Proof.
  apply (executed_is_audited demo_parse demo_config demo_server demo_verifier demo_g2
    (demo_trace1 ++ [(0, Signal "appr_0102" demo_yes)])
    [(0, Return "appr_0102" (demo_yes, None))] demo_g3 None "INSERT 1" demo_reach2 demo_step3).
  assert (drop (length (statements (gw demo_g2))) (statements (gw demo_g3))
    = [Executed None "INSERT 1"]) as -> by (vm_compute; reflexivity).
  left.
Defined.
