(* ===== verification/SyncDelta.v ===== *)
(** * sync/delta.go: which tables appeared and disappeared

    The tracker keeps the set of tables of the last poll.  Go visits a map in an
    unspecified order: the lists reported are the elements of a set. *)
From S2P Require Import Prelude.
From stdpp Require Import options.

Record DeltaTracker := { known : gset string; seeded : bool }.

Definition NewDeltaTracker : DeltaTracker := {| known := ∅; seeded := false |}.

(** The tables dropped and added since the last call, and the tracker after it. *)
Definition Update (tables : list string) (d : DeltaTracker)
    : list string * list string * DeltaTracker :=
  let current : gset string := list_to_set tables in
  let d' := {| known := current; seeded := true |} in
  if seeded d then (elements (known d ∖ current), elements (current ∖ known d), d')
  else ([], [], d').

Definition KnownTables (d : DeltaTracker) : list string := elements (known d).

(** The tracker after a sequence of polls. *)
Definition polled (polls : list (list string)) : DeltaTracker :=
  fold_left (fun d tables => (Update tables d).2) polls NewDeltaTracker.

Lemma Update_tracker tables d :
  (Update tables d).2 = {| known := list_to_set tables; seeded := true |}.
Proof. unfold Update. by destruct (seeded d). Qed.

Lemma polled_snoc polls tables :
  polled (polls ++ [tables]) = {| known := list_to_set tables; seeded := true |}.
Proof. unfold polled. rewrite fold_left_app. apply Update_tracker. Qed.

(** The tracker reports exactly the changes between two polls: whatever
    happened before, the tables it reports dropped are those of the last poll
    that the new one lacks, those it reports added are the new ones, each once;
    and the first poll of all reports nothing. *)
Theorem tracker_reports_changes polls prev cur :
  let '(dropped, added, d) := Update cur (polled (polls ++ [prev])) in
  (forall t, t ∈ dropped <-> t ∈ prev /\ t ∉ cur)
  /\ (forall t, t ∈ added <-> t ∈ cur /\ t ∉ prev)
  /\ NoDup dropped /\ NoDup added
  /\ (forall t, t ∈ KnownTables d <-> t ∈ cur)
  /\ (Update cur NewDeltaTracker).1 = ([], []).
Proof.
  rewrite polled_snoc. unfold Update, KnownTables. cbn [seeded known].
  split_and!; try apply NoDup_elements; try done; intros t; set_solver.
Qed.
