(* ===== verification/SyncBypass.v ===== *)
(** * sync/bypass.go: agents that connect around the gateway

    [Evaluate] judges the sessions of pg_stat_activity.  The address checks are
    net.ParseIP, net.ParseCIDR and IPNet.Contains of Go's standard library, on
    addresses held as numbers. *)
From S2P Require Import Prelude GoString GoTime Impact.
From stdpp Require Import options.

Open Scope Z_scope.

Definition PreventionHealthy : string := "healthy".
Definition PreventionDegraded : string := "degraded".
Definition PreventionRecoveryOnly : string := "recovery_only".

Record BypassConfig := {
  AllowedApplicationNames : list string;
  AllowedRoles : list string;
  AllowedClientAddresses : list string;
  AgentRoles : list string;
  GatewayApplicationName : string;
}.

Record DBActivity := {
  PID : Z;
  Role : string;
  ApplicationName : string;
  ClientAddress : string;
  QueryStart : time;
  activity_Query : string;
}.

Record BypassFinding := { Posture : string; finding_Reason : string; Activity : DBActivity }.

(** ** Addresses *)

(** An IPv4 address, and an IPv6 address that is no IPv4 one in IPv6 form. *)
Inductive IP := V4 (z : Z) | V6 (z : Z).

(** [IP.To4] of a 16-byte address. *)
Definition of_16 (z : Z) : IP :=
  if z / 2 ^ 32 =? 65535 then V4 (z mod 2 ^ 32) else V6 z.

Definition hex_val (c : ascii) : option Z :=
  if is_digit c then Some (byte_of c - 48)
  else if in_range 97 102 c then Some (byte_of c - 87)
  else if in_range 65 70 c then Some (byte_of c - 55)
  else None.

(** A decimal octet without leading zeros. *)
Definition octet (s : string) : option Z :=
  match s with
  | String a EmptyString => if is_digit a then Some (byte_of a - 48) else None
  | String a (String b EmptyString) =>
      if is_digit a && is_digit b && negb (Ascii.eqb a "0")
      then Some (10 * (byte_of a - 48) + (byte_of b - 48)) else None
  | String a (String b (String c EmptyString)) =>
      let z := 100 * (byte_of a - 48) + 10 * (byte_of b - 48) + (byte_of c - 48) in
      if is_digit a && is_digit b && is_digit c && negb (Ascii.eqb a "0") && (z <=? 255)
      then Some z else None
  | _ => None
  end.

Definition parseIPv4 (s : string) : option Z :=
  match Split s "." with
  | [a; b; c; d] =>
      a ← octet a; b ← octet b; c ← octet c; d ← octet d;
      Some (((a * 256 + b) * 256 + c) * 256 + d)
  | _ => None
  end.

(** A group of one to four hexadecimal digits. *)
Fixpoint hex_group (acc : Z) (fuel : nat) (s : string) : option Z :=
  match s with
  | EmptyString => Some acc
  | String c s =>
      match fuel with
      | O => None
      | S fuel => v ← hex_val c; hex_group (acc * 16 + v) fuel s
      end
  end.
Definition group (s : string) : option Z :=
  if String.eqb s "" then None else hex_group 0 4 s.

(** The 16-bit groups of a part without an ellipsis; the last one may be an IPv4
    address, when [last] allows it. *)
Fixpoint groups (last : bool) (parts : list string) : option (list Z) :=
  match parts with
  | [] => Some []
  | [p] =>
      match group p with
      | Some g => Some [g]
      | None => if last then (z ← parseIPv4 p; Some [z / 65536; z mod 65536]) else None
      end
  | p :: parts => g ← group p; rest ← groups last parts; Some (g :: rest)
  end.

Definition number_of (gs : list Z) : Z := fold_left (fun acc g => acc * 65536 + g) gs 0.

(** Cuts a list of parts at its first empty one. *)
Fixpoint cut_empty (parts : list string) : option (list string * list string) :=
  match parts with
  | [] => None
  | p :: parts =>
      if String.eqb p "" then Some ([], parts)
      else '(l, r) ← cut_empty parts; Some (p :: l, r)
  end.

(** Both sides of the ellipsis, which stands for at least one group. *)
Definition around_ellipsis (l r : list string) : option Z :=
  a ← groups false l; b ← groups true r;
  let n := (length a + length b)%nat in
  if (n <? 8)%nat then Some (number_of (a ++ repeat 0 (8 - n) ++ b)) else None.

(** The parts between colons: an ellipsis leaves an empty one, one more when it
    is at an end. *)
Definition parseIPv6 (s : string) : option Z :=
  match cut_empty (Split s ":") with
  | None =>
      gs ← groups true (Split s ":");
      if (length gs =? 8)%nat then Some (number_of gs) else None
  | Some ([], "" :: [""]) => Some 0
  | Some ([], "" :: r) => around_ellipsis [] r
  | Some ([], _) => None
  | Some (l, [""]) => around_ellipsis l []
  | Some (_, []) => None
  | Some (l, r) => around_ellipsis l r
  end.

(** Zones make [net.ParseIP] and [net.ParseCIDR] fail: a percent sign is in none
    of the forms.  The first of [.] and [:] decides the form. *)
Definition parseAddr (s : string) : option (bool * Z) :=
  if has_byte ":" s then z ← parseIPv6 s; Some (false, z)
  else z ← parseIPv4 s; Some (true, z).

(** The second component tells whether the address was written as an IPv4 one. *)
Definition ParseIP (s : string) : option IP :=
  '(v4, z) ← parseAddr s; Some (if (v4 : bool) then V4 z else of_16 z).

(** Digits only, below 0xFFFFFF. *)
Fixpoint dtoi (acc : Z) (s : string) : option Z :=
  match s with
  | EmptyString => Some acc
  | String c s =>
      if is_digit c then
        let acc := acc * 10 + (byte_of c - 48) in
        if 16777215 <=? acc then None else dtoi acc s
      else None
  end.

(** A network: its address and how many leading bits it fixes. *)
Definition ParseCIDR (s : string) : option (IP * Z) :=
  match SplitN2 s "/" with
  | (_, None) => None
  | (addr, Some mask) =>
      '(v4, z) ← parseAddr addr;
      n ← (if String.eqb mask "" then None else dtoi 0 mask);
      if (v4 : bool) then
        if n <=? 32 then Some (V4 (z / 2 ^ (32 - n) * 2 ^ (32 - n)), n) else None
      else if n <=? 128 then
        match of_16 (z / 2 ^ (128 - n) * 2 ^ (128 - n)) with
        | V4 z => Some (V4 z, n - 96)
        | V6 z => Some (V6 z, n)
        end
      else None
  end.

Definition IPNet_Contains (network : IP * Z) (ip : IP) : bool :=
  match network, ip with
  | (V4 net, n), V4 z => net / 2 ^ (32 - n) =? z / 2 ^ (32 - n)
  | (V6 net, n), V6 z => net / 2 ^ (128 - n) =? z / 2 ^ (128 - n)
  | _, _ => false
  end.

Definition addressAllowed (allowed : list string) (candidate : string) : bool :=
  existsb (fun value =>
    String.eqb value candidate
    || match ParseCIDR value, ParseIP candidate with
       | Some network, Some ip => IPNet_Contains network ip
       | _, _ => false
       end) allowed.

(** ** The detector *)
Definition allowed (config : BypassConfig) (activity : DBActivity) : bool :=
  if negb (String.eqb (GatewayApplicationName config) "")
     && EqualFold (ApplicationName activity) (GatewayApplicationName config) then true
  else if negb (Nat.eqb (length (AllowedApplicationNames config)) 0)
     && negb (containsFold (AllowedApplicationNames config) (ApplicationName activity)) then false
  else if negb (Nat.eqb (length (AllowedRoles config)) 0)
     && negb (containsFold (AllowedRoles config) (Role activity)) then false
  else if negb (Nat.eqb (length (AllowedClientAddresses config)) 0)
     && negb (addressAllowed (AllowedClientAddresses config) (ClientAddress activity)) then false
  else true.

Definition agent_role (config : BypassConfig) (activity : DBActivity) : bool :=
  match AgentRoles config with
  | [] => true
  | roles => containsFold roles (Role activity)
  end.

Definition finding (activity : DBActivity) : BypassFinding := {|
  Posture := PreventionDegraded;
  finding_Reason :=
    "agent-like role " +:+ Role activity +:+ " connected outside allowed gateway posture";
  Activity := activity |}.

Fixpoint Evaluate (config : BypassConfig) (activities : list DBActivity) : list BypassFinding :=
  match activities with
  | [] => []
  | activity :: activities =>
      if negb (agent_role config activity) then Evaluate config activities
      else if allowed config activity then Evaluate config activities
      else finding activity :: Evaluate config activities
  end.

Definition parseCSV (value : string) : list string :=
  filter (fun part => part <> "") (map TrimSpace (Split value ",")).

(** ** Properties *)
Definition listed_or_open (check : list string -> bool) (values : list string) : Prop :=
  values = [] \/ check values = true.

Lemma open_list_iff (check : list string -> bool) values :
  negb (Nat.eqb (length values) 0) && negb (check values) = false
  <-> listed_or_open check values.
Proof.
  unfold listed_or_open. destruct values as [|v values]; [naive_solver|].
  cbn [length Nat.eqb negb andb]. rewrite negb_false_iff. naive_solver.
Qed.

Lemma allowed_iff config a :
  allowed config a = true <->
  (GatewayApplicationName config <> ""
     /\ EqualFold (ApplicationName a) (GatewayApplicationName config) = true)
  \/ (listed_or_open (fun l => containsFold l (ApplicationName a)) (AllowedApplicationNames config)
      /\ listed_or_open (fun l => containsFold l (Role a)) (AllowedRoles config)
      /\ listed_or_open (fun l => addressAllowed l (ClientAddress a))
           (AllowedClientAddresses config)).
Proof.
  unfold allowed. rewrite <- !open_list_iff.
  destruct (String.eqb_spec (GatewayApplicationName config) ""); cbn [negb andb];
    destruct (EqualFold _ _); repeat destruct (negb _ && negb _); naive_solver.
Qed.

(** The detector reports exactly the sessions that bypass the gateway: a
    session is reported, once and in its place, when its role is an agent's (any
    role, when none is named), it does not carry the gateway's application name,
    and some list of allowed names, roles or addresses that is not empty lacks
    it.  In particular a session that takes the gateway's application name for
    itself is never reported. *)
Theorem Evaluate_reports config activities :
  Evaluate config activities
    = map finding (filter (fun a => agent_role config a = true /\ allowed config a = false)
                     activities)
  /\ forall a, allowed config a = true <->
       (GatewayApplicationName config <> ""
          /\ EqualFold (ApplicationName a) (GatewayApplicationName config) = true)
       \/ (listed_or_open (fun l => containsFold l (ApplicationName a))
             (AllowedApplicationNames config)
           /\ listed_or_open (fun l => containsFold l (Role a)) (AllowedRoles config)
           /\ listed_or_open (fun l => addressAllowed l (ClientAddress a))
                (AllowedClientAddresses config)).
Proof.
  split; [|apply allowed_iff].
  induction activities as [|a activities IH]; [done|]. cbn [Evaluate].
  rewrite filter_cons. destruct (agent_role config a) eqn:Hr, (allowed config a) eqn:Ha;
    cbn [negb]; destruct (decide _) as [[]|Hn]; try done; try (by destruct Hn).
  cbn [map]. by rewrite IH.
Qed.

Lemma dtoi_nonneg s : forall acc n, 0 <= acc -> dtoi acc s = Some n -> 0 <= n.
Proof.
  induction s as [|c s IH]; intros acc n Hacc; cbn [dtoi]; [by intros [= <-]|].
  destruct (is_digit c) eqn:Hc; [|done]. unfold is_digit, in_range in Hc.
  apply andb_true_iff in Hc as [H%Z.leb_le _].
  destruct (16777215 <=? _); [done|]. apply IH. lia.
Qed.

Lemma same_block p net z : 0 < p ->
  (net / p * p) / p = z / p <-> net / p * p <= z < net / p * p + p.
Proof.
  intros Hp. rewrite Z.div_mul by lia. pose proof (Z.div_mod z p ltac:(lia)).
  pose proof (Z.mod_pos_bound z p Hp). split; intros H1; nia.
Qed.

Lemma SplitN2_first s sep c : has_byte c s = false -> has_byte c (SplitN2 s sep).1 = false.
Proof.
  induction s as [|a s IH]; [done|]. cbn [has_byte SplitN2]. intros [Ha Hs]%orb_false_iff.
  destruct (Ascii.eqb a sep); [done|]. specialize (IH Hs).
  destruct (SplitN2 s sep) as [x y]. cbn [fst has_byte] in *. by rewrite Ha, IH.
Qed.

Lemma cidr_interval s net n :
  has_byte ":" s = false -> ParseCIDR s = Some (V4 net, n) ->
  0 <= n <= 32 /\ (2 ^ (32 - n) | net)
  /\ (forall z, IPNet_Contains (V4 net, n) (V4 z) = true <-> net <= z < net + 2 ^ (32 - n))
  /\ forall z, IPNet_Contains (V4 net, n) (V6 z) = false.
Proof.
  intros Hcolon H. unfold ParseCIDR in H. pose proof (SplitN2_first s "/" ":" Hcolon) as Haddr.
  destruct (SplitN2 s "/") as [addr [mask|]]; [|done]. cbn [fst] in Haddr.
  unfold parseAddr in H. rewrite Haddr in H. destruct (parseIPv4 addr) as [a|]; [|done].
  cbn in H. destruct (String.eqb mask ""); [done|].
  destruct (dtoi 0 mask) as [m|] eqn:Hm; [|done]. cbn in H.
  destruct (Z.leb_spec m 32); [|done]. injection H as <- <-.
  apply dtoi_nonneg in Hm; [|lia].
  assert (0 < 2 ^ (32 - m)) by (apply Z.pow_pos_nonneg; lia).
  split; [lia|]. split; [by apply Z.divide_factor_r|]. split; [|done].
  intros z. cbn [IPNet_Contains]. rewrite Z.eqb_eq. by apply same_block.
Qed.

(** An IPv4 network of the allow-list admits an interval of addresses: an entry
    that is a CIDR text written with an IPv4 address adds to what the other entries
    allow, besides its own text, exactly the clients whose address is one of the
    2^(32-n) from the network's base on, where the base has its last 32-n bits
    clear; an IPv6 address is none of them. *)
Theorem addressAllowed_network s net n others candidate :
  has_byte ":" s = false -> ParseCIDR s = Some (V4 net, n) ->
  0 <= n <= 32 /\ (2 ^ (32 - n) | net)
  /\ (addressAllowed (s :: others) candidate = true <->
        s = candidate \/ addressAllowed others candidate = true
        \/ exists z, ParseIP candidate = Some (V4 z) /\ net <= z < net + 2 ^ (32 - n)).
Proof.
  intros Hcolon Hcidr. destruct (cidr_interval s net n Hcolon Hcidr) as (Hn & Hdiv & H4 & H6).
  split; [done|]. split; [done|]. unfold addressAllowed. cbn [existsb]. rewrite Hcidr.
  rewrite !orb_true_iff, String.eqb_eq. destruct (ParseIP candidate) as [[z|z]|].
  - rewrite H4. naive_solver.
  - rewrite H6. naive_solver.
  - naive_solver.
Qed.

Lemma addressAllowed_network_witness :
  has_byte ":" "10.1.2.3/8" = false /\ ParseCIDR "10.1.2.3/8" = Some (V4 167772160, 8)
  /\ 0 <= 8 <= 32 /\ (2 ^ (32 - 8) | 167772160)
  /\ (addressAllowed ["10.1.2.3/8"] "10.200.0.1" = true <->
        "10.1.2.3/8" = "10.200.0.1" \/ addressAllowed [] "10.200.0.1" = true
        \/ exists z, ParseIP "10.200.0.1" = Some (V4 z)
             /\ 167772160 <= z < 167772160 + 2 ^ (32 - 8)).
Proof.
  split; [reflexivity|]. split; [reflexivity|].
  apply (addressAllowed_network "10.1.2.3/8"); reflexivity.
Defined.

Example addresses_read :
  ParseIP "192.168.0.1" = Some (V4 3232235521)
  /\ ParseIP "::ffff:192.168.0.1" = Some (V4 3232235521)
  /\ ParseIP "2001:db8::1" = Some (V6 42540766411282592856903984951653826561)
  /\ ParseIP "::" = Some (V6 0) /\ ParseIP "1::2::3" = None /\ ParseIP "01.2.3.4" = None
  /\ ParseIP "1:2:3:4:5:6:7::" = Some (V6 5192455318486707404433266433261568)
  /\ ParseIP "1:2:3:4:5:6:7:8::" = None /\ ParseIP ":1" = None /\ ParseIP "1:" = None
  /\ addressAllowed ["10.0.0.0/8"; "2001:db8::/32"] "10.2.3.4" = true
  /\ addressAllowed ["10.0.0.0/8"; "2001:db8::/32"] "2001:db8:1::5" = true
  /\ addressAllowed ["::ffff:10.0.0.0/104"] "10.9.9.9" = true
  /\ addressAllowed ["10.0.0.0/8"] "11.0.0.1" = false.
Proof. vm_compute. repeat split. Qed.
