(* ===== verification/SyncMetrics.v ===== *)
(** * sync/metrics.go: the sidecar's counters and its health

    The poller and main.go always hold a store of metrics: the nil receiver of
    the methods does not occur. *)
From S2P Require Import Prelude GoString GoTime GoFloat Json JsonText GatewayMetrics SyncBypass.
From stdpp Require Import options.

Open Scope Z_scope.

Record HealthSnapshot := {
  health_Status : string;
  Checked : time;
  Detail : list (string * json);
}.

Record SyncMetrics := {
  snapshot_counts : gmap string Z;
  snapshotRows : Z;
  dropped_total : Z;
  latest_times : gmap string time;
  bypass_counts : gmap string Z;
  posture : string;
  health : HealthSnapshot;
}.

Definition NewSyncMetrics (now : time) : SyncMetrics := {|
  snapshot_counts := ∅; snapshotRows := 0; dropped_total := 0; latest_times := ∅;
  bypass_counts := ∅; posture := PreventionHealthy;
  health := {| health_Status := "starting"; Checked := now;
               Detail := [("reason", JString "process_starting")] |} |}.

Definition SetHealth (now : time) (status : string) (detail : list (string * json))
    (m : SyncMetrics) : SyncMetrics := {|
  snapshot_counts := snapshot_counts m; snapshotRows := snapshotRows m;
  dropped_total := dropped_total m; latest_times := latest_times m;
  bypass_counts := bypass_counts m; posture := posture m;
  health := {| health_Status := status; Checked := now; Detail := detail |} |}.

Definition Health (m : SyncMetrics) : HealthSnapshot := health m.

Definition IncSnapshot (status : string) (m : SyncMetrics) : SyncMetrics := {|
  snapshot_counts := inc (snapshot_counts m) status; snapshotRows := snapshotRows m;
  dropped_total := dropped_total m; latest_times := latest_times m;
  bypass_counts := bypass_counts m; posture := posture m; health := health m |}.

Definition AddRows (rows : Z) (m : SyncMetrics) : SyncMetrics := {|
  snapshot_counts := snapshot_counts m; snapshotRows := wrap64 (snapshotRows m + rows);
  dropped_total := dropped_total m; latest_times := latest_times m;
  bypass_counts := bypass_counts m; posture := posture m; health := health m |}.

Definition MarkLatest (table : string) (ts : time) (m : SyncMetrics) : SyncMetrics := {|
  snapshot_counts := snapshot_counts m; snapshotRows := snapshotRows m;
  dropped_total := dropped_total m; latest_times := <[table := ts]> (latest_times m);
  bypass_counts := bypass_counts m; posture := posture m; health := health m |}.

Definition IncDropped (m : SyncMetrics) : SyncMetrics := {|
  snapshot_counts := snapshot_counts m; snapshotRows := snapshotRows m;
  dropped_total := wrap64 (dropped_total m + 1); latest_times := latest_times m;
  bypass_counts := bypass_counts m; posture := posture m; health := health m |}.

Definition IncBypass (role application : string) (m : SyncMetrics) : SyncMetrics := {|
  snapshot_counts := snapshot_counts m; snapshotRows := snapshotRows m;
  dropped_total := dropped_total m; latest_times := latest_times m;
  bypass_counts := inc (bypass_counts m) (role +:+ "|" +:+ application);
  posture := posture m; health := health m |}.

Definition SetPosture (p : string) (m : SyncMetrics) : SyncMetrics := {|
  snapshot_counts := snapshot_counts m; snapshotRows := snapshotRows m;
  dropped_total := dropped_total m; latest_times := latest_times m;
  bypass_counts := bypass_counts m; posture := p; health := health m |}.

(** ** The text format *)
Definition sortedCounterKeys (values : gmap string Z) : list string :=
  merge_sort String.le (map fst (map_to_list values)).
Definition sortedTimeKeys (values : gmap string time) : list string :=
  merge_sort String.le (map fst (map_to_list values)).

(** [Duration.Seconds]: whole seconds and nanoseconds, each as a float64. *)
Definition Duration_Seconds (d : duration) : float64 :=
  fadd (f64 (Z.quot d Second)) (fdiv (f64 (Z.rem d Second)) (f64 Second)).

(** A label pair, and the lines of a metric. *)
Definition label (name value : string) : string := name +:+ "=" +:+ quote value.
Definition sample (metric labels value : string) : string :=
  metric +:+ "{" +:+ labels +:+ "} " +:+ value +:+ nl.
Definition one_hot (metric value : string) (statuses : list string) : string :=
  String.concat "" (map (fun st =>
    sample metric (label "status" st) (if String.eqb value st then "1" else "0")) statuses).

Definition age_text (now ts : time) : string :=
  let age := Duration_Seconds (Sub now ts) in
  if fgtb (f64 0) age then "0" else itoa (default 0 (round_to_even age)).

Definition Sync_Prometheus (now : time) (m : SyncMetrics) : string :=
  type_line "backstop_sync_snapshots_total" "counter"
  +:+ String.concat "" (map (fun st =>
        sample "backstop_sync_snapshots_total" (label "status" st)
          (itoa (default 0 (snapshot_counts m !! st)))) (sortedCounterKeys (snapshot_counts m)))
  +:+ type_line "backstop_sync_snapshot_rows_total" "counter"
  +:+ "backstop_sync_snapshot_rows_total " +:+ itoa (snapshotRows m) +:+ nl
  +:+ type_line "backstop_sync_latest_snapshot_age_seconds" "gauge"
  +:+ String.concat "" (map (fun table =>
        sample "backstop_sync_latest_snapshot_age_seconds" (label "table" table)
          (age_text now (default zero_time (latest_times m !! table))))
        (sortedTimeKeys (latest_times m)))
  +:+ type_line "backstop_sync_dropped_tables_total" "counter"
  +:+ "backstop_sync_dropped_tables_total " +:+ itoa (dropped_total m) +:+ nl
  +:+ type_line "backstop_bypass_connections_total" "counter"
  +:+ String.concat "" (map (fun key =>
        let (role, application) := SplitN2 key "|" in
        sample "backstop_bypass_connections_total"
          (label "role" role +:+ "," +:+ label "application" (default "" application))
          (itoa (default 0 (bypass_counts m !! key)))) (sortedCounterKeys (bypass_counts m)))
  +:+ type_line "backstop_prevention_posture" "gauge"
  +:+ one_hot "backstop_prevention_posture" (posture m)
        [PreventionHealthy; PreventionDegraded; PreventionRecoveryOnly]
  +:+ type_line "backstop_sync_health" "gauge"
  +:+ one_hot "backstop_sync_health" (health_Status (health m))
        ["starting"; "healthy"; "degraded"; "paused"; "unhealthy"].

(** [healthJSON] and the status of main.go's health endpoint. *)
Definition healthJSON (s : HealthSnapshot) : string :=
  json_text (json_map [("service", JString "backstop-sync");
    ("status", JString (health_Status s));
    ("checked_at", JString (Format_RFC3339Nano (Checked s))); ("detail", json_map (Detail s))]).
Definition health_endpoint (m : SyncMetrics) : Z * string :=
  (if String.eqb (health_Status (Health m)) "healthy" then 200 else 503, healthJSON (Health m)).

Example age_half : age_text (2 * Second + 500000000) 0 = "2".
Proof. reflexivity. Qed.
Example age_future : age_text 0 Second = "0".
Proof. reflexivity. Qed.
