(* ===== verification/SyncWorld.v ===== *)
(** * The state of the sidecar process; sync/metadata_store.go and sync/alert.go

    [SWorld] holds what the sidecar's components own and the outside world they
    act on.  A poll is short against its interval: the clock does not move while
    one runs. *)
From S2P Require Import Prelude GoString Storage GoTime Json JsonText Postgres GatewayMetadata GatewayWorld.
From S2P Require Import SyncDelta SyncBypass SyncMetrics.
From S2P Require Manifest.
From stdpp Require Import options.

Open Scope Z_scope.

(** ** The manifest of sync/snapshot.go; a nil pointer is [None] *)
Record SnapshotManifest := {
  ManifestVersion : Z;
  Writer : string;
  DBName : string;
  SchemaName : string;
  SnapshotID : string;
  Timestamp : string;
  TableName : string;
  Query : string;
  manifest_Operation : string;
  Actor : option string;
  RowCount : Z;
  SchemaDDL : string;
  FKConstraints : list string;
  Indexes : list string;
  CheckConstraints : list string;
  S3Bucket : string;
  S3DataKey : string;
  S3ManifestKey : string;
  DataSHA256 : string;
  SnapshotScope : string;
  manifest_Status : string;
  ValidationError : string;
  VerifiedAt : string;
  SourceSelectSQL : option string;
}.

Definition json_ptr (s : option string) : json :=
  match s with Some s => JString s | None => JNull end.

(** [json.Marshal(manifest)]. *)
Definition enc_manifest (m : SnapshotManifest) : json :=
  JObject (
    [("manifest_version", JInt (ManifestVersion m)); ("writer", JString (Writer m));
     ("db_name", JString (DBName m)); ("schema_name", JString (SchemaName m));
     ("snapshot_id", JString (SnapshotID m)); ("timestamp", JString (Timestamp m));
     ("table_name", JString (TableName m)); ("query", JString (Query m));
     ("operation", JString (manifest_Operation m)); ("actor", json_ptr (Actor m));
     ("row_count", JInt (RowCount m)); ("schema_ddl", JString (SchemaDDL m));
     ("fk_constraints", JArray (map JString (FKConstraints m)));
     ("indexes", JArray (map JString (Indexes m)));
     ("check_constraints", JArray (map JString (CheckConstraints m)));
     ("s3_bucket", JString (S3Bucket m)); ("s3_data_key", JString (S3DataKey m));
     ("s3_manifest_key", JString (S3ManifestKey m)); ("data_sha256", JString (DataSHA256 m));
     ("snapshot_scope", JString (SnapshotScope m)); ("status", JString (manifest_Status m))]
    ++ omitempty "validation_error" (ValidationError m)
    ++ omitempty "verified_at" (VerifiedAt m)
    ++ [("source_select_sql", json_ptr (SourceSelectSQL m))]).

(** ** The webhook *)
Record webhookPayload := {
  wh_Text : string;
  wh_Severity : string;
  wh_EventType : string;
  wh_Table : string;
  RecoveryPointAvailable : bool;
  SnapshotAgeSeconds : Z;
  wh_RecommendedAction : string;
  wh_SnapshotID : string;
  wh_ManifestKey : string;
  wh_Rows : Z;
}.

Definition omit_zero (key : string) (value : Z) : list (string * json) :=
  if value =? 0 then [] else [(key, JInt value)].

Definition enc_webhook (p : webhookPayload) : json :=
  JObject (
    [("text", JString (wh_Text p)); ("severity", JString (wh_Severity p));
     ("event_type", JString (wh_EventType p)); ("table", JString (wh_Table p));
     ("recovery_point_available", JBool (RecoveryPointAvailable p))]
    ++ omit_zero "snapshot_age_seconds" (SnapshotAgeSeconds p)
    ++ [("recommended_action", JString (wh_RecommendedAction p))]
    ++ omitempty "snapshot_id" (wh_SnapshotID p)
    ++ omitempty "manifest_key" (wh_ManifestKey p)
    ++ omit_zero "rows" (wh_Rows p)).

(** ** The sidecar's metadata store

    The two processes share the SQLite file: the tables are those of
    [GatewayMetadata]. *)
Definition RecordSnapshot (manifest : SnapshotManifest) (s : MetadataStore)
    : result unit * MetadataStore :=
  let status :=
    if String.eqb (manifest_Status manifest) "" then "valid" else manifest_Status manifest in
  withTx (fun s => Ok (set_snapshots (<[SnapshotID manifest := {|
    snap_table_name := TableName manifest; snap_writer := Some (Writer manifest);
    snap_scope := Some (SnapshotScope manifest); snap_row_count := Some (RowCount manifest);
    snap_manifest_key := Some (S3ManifestKey manifest); snap_timestamp := Timestamp manifest;
    snap_payload_json := Some (json_text (enc_manifest manifest)); snap_status := status;
    snap_validation_error := Some (ValidationError manifest) |}]> (snapshots s)) s)) s.

Definition with_status (status validationErr timestamp : string) (m : SnapshotManifest)
    : SnapshotManifest := {|
  ManifestVersion := ManifestVersion m; Writer := Writer m; DBName := DBName m;
  SchemaName := SchemaName m; SnapshotID := SnapshotID m; Timestamp := timestamp;
  TableName := TableName m; Query := Query m; manifest_Operation := manifest_Operation m;
  Actor := Actor m; RowCount := RowCount m; SchemaDDL := SchemaDDL m;
  FKConstraints := FKConstraints m; Indexes := Indexes m;
  CheckConstraints := CheckConstraints m; S3Bucket := S3Bucket m; S3DataKey := S3DataKey m;
  S3ManifestKey := S3ManifestKey m; DataSHA256 := DataSHA256 m;
  SnapshotScope := SnapshotScope m; manifest_Status := status;
  ValidationError := validationErr; VerifiedAt := VerifiedAt m;
  SourceSelectSQL := SourceSelectSQL m |}.

Definition RecordInvalidSnapshot (now : time) (manifest : SnapshotManifest)
    (validationErr : string) (s : MetadataStore) : result unit * MetadataStore :=
  RecordSnapshot
    (with_status "invalid" validationErr
       (if String.eqb (Timestamp manifest) "" then Format_RFC3339 now else Timestamp manifest)
       manifest) s.

Definition QuarantineManifest (now : time) (snapshotID table manifestKey reason : string)
    (s : MetadataStore) : result unit * MetadataStore :=
  RecordSnapshot {|
    ManifestVersion := 0; Writer := Manifest.sidecarWriter; DBName := ""; SchemaName := "";
    SnapshotID := if String.eqb snapshotID "" then unknown_id now else snapshotID;
    Timestamp := Format_RFC3339 now; TableName := table; Query := "";
    manifest_Operation := ""; Actor := None; RowCount := 0; SchemaDDL := "";
    FKConstraints := []; Indexes := []; CheckConstraints := []; S3Bucket := "";
    S3DataKey := ""; S3ManifestKey := manifestKey; DataSHA256 := "";
    SnapshotScope := "table"; manifest_Status := "quarantined"; ValidationError := reason;
    VerifiedAt := ""; SourceSelectSQL := None |} s.

Definition RecordAlert (now : time) (severity eventType table status : string)
    (payload : json) (s : MetadataStore) : result unit * MetadataStore :=
  withTx (fun s => Ok (set_alerts (alert_rows s ++ [{|
    alert_timestamp := Format_RFC3339Nano now; alert_severity := severity;
    alert_event_type := eventType; alert_table_name := table; alert_status := status;
    alert_payload_json := json_text payload |}]) s)) s.

Definition RecordHealth (now : time) (component status : string) (detail : json)
    (s : MetadataStore) : result unit * MetadataStore :=
  withTx (fun s => Ok (set_health (<[component := {|
    health_status := status; health_checked_at := Format_RFC3339Nano now;
    health_detail_json := json_text detail |}]>
    (health_checks s)) s)) s.

(** ** Outside the repository

    The database with its driver (a query has parameters), the object store, the
    parquet library (whether its writer for a schema can be made, and takes the
    last of the rows given as JSON texts; and the file it leaves), the random
    source, opening a temporary file (to hash it, 0, and to upload it, 1), and the
    webhook, given the text it is posted. *)
Class SyncEnv := {
  SDB : Type;
  sql_query : string -> list string -> SDB -> result sqlRows * SDB;
  Store : Type;
  PutObject : string -> string -> Store -> result unit * Store;
  GetObject : string -> Store -> result (result string);
  DeleteObject : string -> Store -> result unit * Store;
  parquet_write : string -> list string -> result unit;
  parquet_file : string -> list string -> string;
  random_bytes : nat -> option (list Z);
  open_temp : string -> Z -> result unit;
  webhook_post : string -> string -> time -> httpOutcome;
}.

(** What S3 documents of an object put: it is read back at once, and the other
    keys keep theirs. *)
Class BucketLaws (env : SyncEnv) : Prop := {
  put_get key body s s' :
    PutObject key body s = (Ok tt, s') -> GetObject key s' = Ok (Ok body);
  put_other key key' body s r s' :
    key' <> key -> PutObject key body s = (r, s') -> GetObject key' s' = GetObject key' s;
}.

(** What S3 documents of the two writes that may go wrong: a put that fails has
    either stored the object or left what was there, and a delete concerns its key
    only. *)
Class BucketAtomic (env : SyncEnv) : Prop := {
  put_atomic key body s r s' body' :
    PutObject key body s = (r, s') -> GetObject key s' = Ok (Ok body') ->
    body' = body \/ GetObject key s = Ok (Ok body');
  delete_other key key' s :
    key' <> key -> GetObject key' (DeleteObject key s).2 = GetObject key' s;
}.

(** What main.go fixes at start-up.  [engine] is whether a snapshot engine was
    given; the alert engine is always there. *)
Record SConfig := {
  schema : string;
  dbName : string;
  storage : StorageConfig;
  maxTableRows : Z;
  engine : bool;
  snapshotOnStart : bool;
  snapshotEveryPoll : bool;
  tableAllowlist : option (gset string);
  minStablePolls : Z;
  maxSnapshotAge : duration;
  maxFailures : Z;
  pauseFile : string;
  bypassDetector : option BypassConfig;
  webhookURL : string;
}.

Section world.
Context `{env : SyncEnv}.

Record SWorld := {
  now : time;
  metrics : SyncMetrics;
  metadata : option MetadataStore;
  tracker : DeltaTracker;
  failures : gmap string Z;
  staleAlerted : gset string;
  fingerprints : gmap string string;
  stablePolls : gmap string Z;
  latest : gmap string SnapshotManifest;
  sdb : SDB;
  store : Store;
  draws : nat;
  files : gset string;
  posted : list webhookPayload;
}.

Definition set_now (x : time) (w : SWorld) : SWorld := {|
  now := x; metrics := metrics w; metadata := metadata w; tracker := tracker w;
  failures := failures w; staleAlerted := staleAlerted w; fingerprints := fingerprints w;
  stablePolls := stablePolls w; latest := latest w; sdb := sdb w; store := store w;
  draws := draws w; files := files w; posted := posted w |}.
Definition set_metrics (x : SyncMetrics) (w : SWorld) : SWorld := {|
  now := now w; metrics := x; metadata := metadata w; tracker := tracker w;
  failures := failures w; staleAlerted := staleAlerted w; fingerprints := fingerprints w;
  stablePolls := stablePolls w; latest := latest w; sdb := sdb w; store := store w;
  draws := draws w; files := files w; posted := posted w |}.
Definition set_metadata (x : option MetadataStore) (w : SWorld) : SWorld := {|
  now := now w; metrics := metrics w; metadata := x; tracker := tracker w;
  failures := failures w; staleAlerted := staleAlerted w; fingerprints := fingerprints w;
  stablePolls := stablePolls w; latest := latest w; sdb := sdb w; store := store w;
  draws := draws w; files := files w; posted := posted w |}.
Definition set_tracker (x : DeltaTracker) (w : SWorld) : SWorld := {|
  now := now w; metrics := metrics w; metadata := metadata w; tracker := x;
  failures := failures w; staleAlerted := staleAlerted w; fingerprints := fingerprints w;
  stablePolls := stablePolls w; latest := latest w; sdb := sdb w; store := store w;
  draws := draws w; files := files w; posted := posted w |}.
Definition set_failures (x : gmap string Z) (w : SWorld) : SWorld := {|
  now := now w; metrics := metrics w; metadata := metadata w; tracker := tracker w;
  failures := x; staleAlerted := staleAlerted w; fingerprints := fingerprints w;
  stablePolls := stablePolls w; latest := latest w; sdb := sdb w; store := store w;
  draws := draws w; files := files w; posted := posted w |}.
Definition set_staleAlerted (x : gset string) (w : SWorld) : SWorld := {|
  now := now w; metrics := metrics w; metadata := metadata w; tracker := tracker w;
  failures := failures w; staleAlerted := x; fingerprints := fingerprints w;
  stablePolls := stablePolls w; latest := latest w; sdb := sdb w; store := store w;
  draws := draws w; files := files w; posted := posted w |}.
Definition set_fingerprints (x : gmap string string) (w : SWorld) : SWorld := {|
  now := now w; metrics := metrics w; metadata := metadata w; tracker := tracker w;
  failures := failures w; staleAlerted := staleAlerted w; fingerprints := x;
  stablePolls := stablePolls w; latest := latest w; sdb := sdb w; store := store w;
  draws := draws w; files := files w; posted := posted w |}.
Definition set_stablePolls (x : gmap string Z) (w : SWorld) : SWorld := {|
  now := now w; metrics := metrics w; metadata := metadata w; tracker := tracker w;
  failures := failures w; staleAlerted := staleAlerted w; fingerprints := fingerprints w;
  stablePolls := x; latest := latest w; sdb := sdb w; store := store w;
  draws := draws w; files := files w; posted := posted w |}.
Definition set_latest (x : gmap string SnapshotManifest) (w : SWorld) : SWorld := {|
  now := now w; metrics := metrics w; metadata := metadata w; tracker := tracker w;
  failures := failures w; staleAlerted := staleAlerted w; fingerprints := fingerprints w;
  stablePolls := stablePolls w; latest := x; sdb := sdb w; store := store w;
  draws := draws w; files := files w; posted := posted w |}.
Definition set_sdb (x : SDB) (w : SWorld) : SWorld := {|
  now := now w; metrics := metrics w; metadata := metadata w; tracker := tracker w;
  failures := failures w; staleAlerted := staleAlerted w; fingerprints := fingerprints w;
  stablePolls := stablePolls w; latest := latest w; sdb := x; store := store w;
  draws := draws w; files := files w; posted := posted w |}.
Definition set_store (x : Store) (w : SWorld) : SWorld := {|
  now := now w; metrics := metrics w; metadata := metadata w; tracker := tracker w;
  failures := failures w; staleAlerted := staleAlerted w; fingerprints := fingerprints w;
  stablePolls := stablePolls w; latest := latest w; sdb := sdb w; store := x;
  draws := draws w; files := files w; posted := posted w |}.
Definition set_draws (x : nat) (w : SWorld) : SWorld := {|
  now := now w; metrics := metrics w; metadata := metadata w; tracker := tracker w;
  failures := failures w; staleAlerted := staleAlerted w; fingerprints := fingerprints w;
  stablePolls := stablePolls w; latest := latest w; sdb := sdb w; store := store w;
  draws := x; files := files w; posted := posted w |}.
Definition set_posted (x : list webhookPayload) (w : SWorld) : SWorld := {|
  now := now w; metrics := metrics w; metadata := metadata w; tracker := tracker w;
  failures := failures w; staleAlerted := staleAlerted w; fingerprints := fingerprints w;
  stablePolls := stablePolls w; latest := latest w; sdb := sdb w; store := store w;
  draws := draws w; files := files w; posted := x |}.

Definition upd_metrics (f : SyncMetrics -> SyncMetrics) : ST SWorld unit :=
  modify (fun w => set_metrics (f (metrics w)) w).
Definition set_health_metric (status : string) (detail : list (string * json)) : ST SWorld unit :=
  modify (fun w => set_metrics (SetHealth (now w) status detail (metrics w)) w).

(** A write to the metadata database; a nil store does nothing. *)
Definition with_metadata (f : time -> MetadataStore -> result unit * MetadataStore)
    : ST SWorld (result unit) := fun w =>
  match metadata w with
  | None => (Ok tt, w)
  | Some s => let (r, s') := f (now w) s in (r, set_metadata (Some s') w)
  end.

Definition query (sql : string) (args : list string) : ST SWorld (result sqlRows) := fun w =>
  let (r, db) := sql_query sql args (sdb w) in (r, set_sdb db w).

(** ** Alerts *)
Variable cfg : SConfig.

(** [sendPayload]: its status is recorded whatever it returns. *)
Definition sendPayload (payload : webhookPayload) : ST SWorld (result unit) := fun w =>
  let record (status : string) (r : result unit) (w : SWorld) :=
    let (_, w) := with_metadata (fun now =>
      RecordAlert now (wh_Severity payload) (wh_EventType payload) (wh_Table payload) status
        (enc_webhook payload)) w in
    (r, w) in
  if String.eqb (webhookURL cfg) "" then record "logged" (Ok tt) w
  else
    match webhook_post (webhookURL cfg) (json_text (enc_webhook payload)) (now w) with
    | InvalidURL => record "failed" (Err "alert: failed to build request") w
    | NetworkError =>
        record "failed" (Err "alert: HTTP request failed") (set_posted (posted w ++ [payload]) w)
    | StatusCode code =>
        let w := set_posted (posted w ++ [payload]) w in
        if (code <? 200) || (300 <=? code) then
          record "failed" (Err ("alert: webhook returned non-2xx status " +:+ itoa code)) w
        else record "sent" (Ok tt) w
    end.

(** [int64(d.Seconds())]. *)
Definition whole_seconds (d : duration) : Z := Impact.int64_of_float (Duration_Seconds d).

Definition SendDropAlert (table : string) (manifest : option SnapshotManifest)
    : ST SWorld (result unit) :=
  t ← gets now;
  let message := "[backstop] DROP TABLE detected: " +:+ table +:+ " at " +:+ Format_RFC3339 t in
  sendPayload
    match manifest with
    | Some m => {|
        wh_Text := message +:+ ". Latest recovery point: " +:+ SnapshotID m +:+ " ("
          +:+ itoa (RowCount m) +:+ " rows)";
        wh_Severity := "critical"; wh_EventType := "table_drop_detected"; wh_Table := table;
        RecoveryPointAvailable := true;
        SnapshotAgeSeconds :=
          match Parse_RFC3339 (Timestamp m) with
          | Some ts => whole_seconds (Sub t ts)
          | None => 0
          end;
        wh_RecommendedAction := "Restore from a validated sidecar snapshot before allowing further writes to the affected table.";
        wh_SnapshotID := SnapshotID m; wh_ManifestKey := S3ManifestKey m;
        wh_Rows := RowCount m |}
    | None => {|
        wh_Text := message +:+ ". No recovery point is available yet.";
        wh_Severity := "critical"; wh_EventType := "table_drop_detected"; wh_Table := table;
        RecoveryPointAvailable := false; SnapshotAgeSeconds := 0;
        wh_RecommendedAction := "Stop writes, take a database-level backup if possible, and use PITR/native restore paths.";
        wh_SnapshotID := ""; wh_ManifestKey := ""; wh_Rows := 0 |}
    end.

Definition SendStaleSnapshotAlert (table : string) (age maxAge : duration)
    (manifest : option SnapshotManifest) : ST SWorld (result unit) :=
  sendPayload {|
    wh_Text := "[backstop] Snapshot for " +:+ table +:+ " is stale: age="
      +:+ fmt_duration (Round age Second) +:+ " max=" +:+ fmt_duration (Round maxAge Second);
    wh_Severity := "warning"; wh_EventType := "snapshot_stale"; wh_Table := table;
    RecoveryPointAvailable := match manifest with Some _ => true | None => false end;
    SnapshotAgeSeconds := whole_seconds age;
    wh_RecommendedAction := "Check sidecar health, S3 reachability, and database permissions; refresh the table snapshot before destructive operations.";
    wh_SnapshotID := default "" (SnapshotID <$> manifest);
    wh_ManifestKey := default "" (S3ManifestKey <$> manifest);
    wh_Rows := default 0 (RowCount <$> manifest) |}.

Definition failure_payload (eventType table text action : string) : webhookPayload := {|
  wh_Text := text; wh_Severity := "critical"; wh_EventType := eventType; wh_Table := table;
  RecoveryPointAvailable := false; SnapshotAgeSeconds := 0; wh_RecommendedAction := action;
  wh_SnapshotID := ""; wh_ManifestKey := ""; wh_Rows := 0 |}.

Definition SendSnapshotFailureAlert (table : string) (count : Z) (err : error)
    : ST SWorld (result unit) :=
  sendPayload (failure_payload "snapshot_capture_failed" table
    ("[backstop] Snapshot capture failed " +:+ itoa count +:+ " consecutive times for "
     +:+ table +:+ ": " +:+ err)
    "Investigate database access, table size limits, and S3 write permissions before allowing destructive SQL.").

Definition SendStorageFailureAlert (table : string) (err : error) : ST SWorld (result unit) :=
  sendPayload (failure_payload "storage_unreachable" table
    ("[backstop] Snapshot storage is unreachable for " +:+ table +:+ ": " +:+ err)
    "Restore storage connectivity and verify snapshot capture before approving destructive SQL.").
End world.

(** ** A concrete environment

    One table users with one row and so many insertions, a bucket that is a map,
    a parquet library that concatenates its rows: what the examples of the
    development run on. *)
Definition memory_env : SyncEnv := {|
  SDB := Z;
  sql_query := fun sql _ inserted =>
    (Ok {| Columns := ["id"];
           Rows :=
             if HasPrefix sql "SELECT * FROM" then [[SqlInt 7]]
             else if Contains sql "SELECT tablename" then [[SqlString "users"]]
             else if Contains sql "n_tup_ins" then
               [[SqlString "users"; SqlInt inserted; SqlInt 0; SqlInt 0; SqlInt 1; SqlInt 0]]
             else [];
           Rows_Err := None |}, inserted);
  Store := gmap string string;
  PutObject := fun key body s => (Ok tt, <[key := body]> s);
  GetObject := fun key s => match s !! key with Some b => Ok (Ok b) | None => Err "NoSuchKey" end;
  DeleteObject := fun key s => (Ok tt, delete key s);
  parquet_write := fun _ _ => Ok tt;
  parquet_file := fun _ rows => String.concat "" rows;
  random_bytes := fun _ => Some [171; 205];
  open_temp := fun _ _ => Ok tt;
  webhook_post := fun _ _ _ => NetworkError |}.

#[export] Instance memory_laws : BucketLaws memory_env.
Proof.
  split; intros *; cbn.
  - intros [= <-]. by rewrite lookup_insert_eq.
  - intros Hne [= _ <-]. by rewrite lookup_insert_ne.
Qed.

#[export] Instance memory_atomic : BucketAtomic memory_env.
Proof.
  split; intros *; cbn.
  - intros [= _ <-]. rewrite lookup_insert_eq. intros [= <-]. by left.
  - intros Hne. by rewrite lookup_delete_ne.
Qed.

Definition memory_config : SConfig := {|
  schema := "public"; dbName := "app";
  storage := {| Bucket := "b"; Endpoint := ""; storage_Prefix := "backstop" |};
  maxTableRows := 1000000; engine := true; snapshotOnStart := true;
  snapshotEveryPoll := false; tableAllowlist := None; minStablePolls := 2;
  maxSnapshotAge := 0; maxFailures := 3; pauseFile := ""; bypassDetector := None;
  webhookURL := "" |}.

Definition memory_world (t : time) : @SWorld memory_env := {|
  now := t; metrics := NewSyncMetrics t; metadata := Some empty_store;
  tracker := NewDeltaTracker; failures := ∅; staleAlerted := ∅; fingerprints := ∅;
  stablePolls := ∅; latest := ∅; sdb := 1 : @SDB memory_env;
  store := ∅ : gmap string string; draws := 0; files := ∅; posted := [] |}.
