(* ===== verification/SyncSnapshot.v ===== *)
(** * sync/snapshot.go: capturing a table

    A capture reads the schema, writes the rows to a temporary parquet file,
    uploads it, reads it back, and only then writes the manifest that makes the
    snapshot visible.  [safeTableKey] and [quoteIdent] are the same text as the
    gateway's ([SnapshotVerifier.safeTableKey], [Impact.quoteIdent]). *)
From S2P Require Import Prelude GoString GoTime GoFloat Json JsonText Storage Sha256 Postgres Impact.
From S2P Require Import SnapshotVerifier SyncWorld.
From stdpp Require Import options.

Open Scope Z_scope.

Definition sidecarWriter : string := "sync-sidecar".

(** ** Reading rows *)
Definition NullInt64 (v : sqlValue) : result (option Z) :=
  match v with SqlNull => Ok None | _ => Some <$> scan_int64 v end.
Definition NullString (v : sqlValue) : result (option string) :=
  match v with SqlNull => Ok None | _ => Some <$> scan_string v end.

Definition scan_arity {A} (expected got : nat) : result A :=
  Err ("sql: expected " +:+ itoa (Z.of_nat expected) +:+ " destination arguments in Scan, not "
       +:+ itoa (Z.of_nat got)).

(** [for rows.Next()] with a scan of each row: the first error ends it. *)
Fixpoint scan_rows {A} (scan : list sqlValue -> result A) (rows : list (list sqlValue))
    : result (list A) :=
  match rows with
  | [] => Ok []
  | row :: rows => a ← scan row; rest ← scan_rows scan rows; mret (a :: rest)
  end.

(** [rows.Err()] after the loop. *)
Definition rows_err {A} (r : sqlRows) (a : A) : result A :=
  match Rows_Err r with Some e => Err e | None => Ok a end.

Definition pgColType (dataType : string) (charLen precision scale : option Z) : string :=
  if String.eqb dataType "character varying" then
    match charLen with Some n => "VARCHAR(" +:+ itoa n +:+ ")" | None => "VARCHAR" end
  else if String.eqb dataType "character" then
    match charLen with Some n => "CHAR(" +:+ itoa n +:+ ")" | None => "CHAR" end
  else if String.eqb dataType "numeric" then
    match precision, scale with
    | Some p, Some s => "NUMERIC(" +:+ itoa p +:+ "," +:+ itoa s +:+ ")"
    | _, _ => "NUMERIC"
    end
  else if String.eqb dataType "timestamp with time zone" then "TIMESTAMPTZ"
  else if String.eqb dataType "timestamp without time zone" then "TIMESTAMP"
  else ToUpper dataType.

Definition columns_sql : string := "
		SELECT column_name, data_type, character_maximum_length, numeric_precision, numeric_scale, is_nullable, column_default
		FROM information_schema.columns
		WHERE table_schema = $1 AND table_name = $2
		ORDER BY ordinal_position".
Definition primaryKeys_sql : string := "
		SELECT kcu.column_name
		FROM information_schema.table_constraints tc
		JOIN information_schema.key_column_usage kcu
		  ON tc.constraint_name = kcu.constraint_name AND tc.table_schema = kcu.table_schema
		WHERE tc.constraint_type = 'PRIMARY KEY'
		  AND tc.table_schema = $1
		  AND tc.table_name = $2
		ORDER BY kcu.ordinal_position".
Definition fkConstraints_sql : string := "
		SELECT tc.constraint_name, kcu.column_name, ccu.table_name AS foreign_table_name,
		       ccu.column_name AS foreign_column_name, rc.update_rule, rc.delete_rule
		FROM information_schema.table_constraints tc
		JOIN information_schema.key_column_usage kcu ON tc.constraint_name = kcu.constraint_name AND tc.table_schema = kcu.table_schema
		JOIN information_schema.referential_constraints rc ON tc.constraint_name = rc.constraint_name AND tc.table_schema = rc.constraint_schema
		JOIN information_schema.constraint_column_usage ccu ON rc.unique_constraint_name = ccu.constraint_name AND rc.unique_constraint_schema = ccu.table_schema
		WHERE tc.constraint_type = 'FOREIGN KEY' AND tc.table_schema = $1 AND tc.table_name = $2
		ORDER BY tc.constraint_name, kcu.ordinal_position".
Definition checkConstraints_sql : string := "
		SELECT con.conname, pg_get_constraintdef(con.oid)
		FROM pg_constraint con
		JOIN pg_class rel ON rel.oid = con.conrelid
		JOIN pg_namespace nsp ON nsp.oid = rel.relnamespace
		WHERE nsp.nspname = $1 AND rel.relname = $2 AND con.contype = 'c'
		ORDER BY con.conname".
Definition indexes_sql : string := "
		SELECT indexdef
		FROM pg_indexes
		WHERE schemaname = $1 AND tablename = $2
		ORDER BY indexname".

(** One line of the column list. *)
Definition scan_column (row : list sqlValue) : result string :=
  match row with
  | [v1; v2; v3; v4; v5; v6; v7] =>
      name ← scan_string v1; dataType ← scan_string v2; charLen ← NullInt64 v3;
      precision ← NullInt64 v4; scale ← NullInt64 v5; nullable ← scan_string v6;
      def ← NullString v7;
      mret ("    " +:+ quoteIdent name +:+ " " +:+ pgColType dataType charLen precision scale
            +:+ (if String.eqb nullable "NO" then " NOT NULL" else "")
            +:+ match def with Some d => " DEFAULT " +:+ d | None => "" end)
  | _ => scan_arity 7 (length row)
  end.

Definition create_table (table : string) (defs : list string) : string :=
  match defs with
  | [] => "CREATE TABLE " +:+ quoteIdent table +:+ " ()"
  | _ =>
      "CREATE TABLE " +:+ quoteIdent table +:+ " (" +:+ str1 newline
      +:+ Join defs ("," +:+ str1 newline) +:+ str1 newline +:+ ")"
  end.

Definition scan_fk (table : string) (row : list sqlValue) : result string :=
  match row with
  | [v1; v2; v3; v4; v5; v6] =>
      name ← scan_string v1; col ← scan_string v2; foreignTable ← scan_string v3;
      foreignCol ← scan_string v4; updateRule ← scan_string v5; deleteRule ← scan_string v6;
      mret ("ALTER TABLE " +:+ quoteIdent table +:+ " ADD CONSTRAINT " +:+ quoteIdent name
            +:+ " FOREIGN KEY (" +:+ quoteIdent col +:+ ") REFERENCES "
            +:+ quoteIdent foreignTable +:+ " (" +:+ quoteIdent foreignCol +:+ ")"
            +:+ (if String.eqb updateRule "NO ACTION" then "" else " ON UPDATE " +:+ updateRule)
            +:+ (if String.eqb deleteRule "NO ACTION" then "" else " ON DELETE " +:+ deleteRule)
            +:+ ";")
  | _ => scan_arity 6 (length row)
  end.

Definition scan_check (table : string) (row : list sqlValue) : result string :=
  match row with
  | [v1; v2] =>
      name ← scan_string v1; def ← scan_string v2;
      mret ("ALTER TABLE " +:+ quoteIdent table +:+ " ADD CONSTRAINT " +:+ quoteIdent name
            +:+ " " +:+ def +:+ ";")
  | _ => scan_arity 2 (length row)
  end.

Definition is_primary_index (indexdef : string) : bool :=
  Contains (ToUpper indexdef) " PRIMARY KEY ".

(** ** The data file *)
Definition parquetSchema (columns : list string) : json :=
  JObject [
    ("Fields", JArray (map (fun col => JObject [("Tag", JString ("name=" +:+ col
       +:+ ", type=BYTE_ARRAY, convertedtype=UTF8, repetitiontype=OPTIONAL"))]) columns));
    ("Tag", JString "name=parquet_go_root")].

Definition normalizeDBValue (value : sqlValue) : json :=
  match value with
  | SqlNull => JNull
  | SqlInt z => JString (itoa z)
  | SqlFloat x => JString (FormatFloat x)
  | SqlBool b => JString (fmt_bool b)
  | SqlBytes s | SqlString s => JString s
  | SqlTime t => JString (Format_RFC3339Nano t)
  end.

(** A row is marshalled as a map; of two columns with the same name the later one
    counts. *)
Definition row_json (columns : list string) (row : list sqlValue) : json :=
  json_map (zip columns (map normalizeDBValue row)).

Definition nonNilStrings (values : list string) : list string := values.

(** ** The engine *)
Section engine.
Context `{env : SyncEnv}.
Variable cfg : SConfig.

(** A query whose rows are all scanned, and whose error is looked at last. *)
Definition query_all {A} (sql table : string) (scan : list sqlValue -> result A)
    : ST SWorld (result (list A)) :=
  r ← query sql [schema cfg; table];
  mret (rows ← r; out ← scan_rows scan (Rows rows); rows_err rows out).

Definition primaryKeys (table : string) : ST SWorld (result (list string)) :=
  query_all primaryKeys_sql table (scan_one scan_string).

Definition fkConstraints (table : string) : ST SWorld (result (list string)) :=
  query_all fkConstraints_sql table (scan_fk table).

Definition checkConstraints (table : string) : ST SWorld (result (list string)) :=
  query_all checkConstraints_sql table (scan_check table).

Definition indexes (table : string) : ST SWorld (result (list string)) :=
  defs ←? query_all indexes_sql table (scan_one scan_string);
  mret (Ok (List.filter (fun d => negb (is_primary_index d)) defs)).

(** The rows' error is not looked at here. *)
Definition tableDDL (table : string) : ST SWorld (result string) :=
  rows ←? query columns_sql [schema cfg; table];
  match scan_rows scan_column (Rows rows) with
  | Err e => mret (Err e)
  | Ok defs =>
      pks ←? primaryKeys table;
      mret (Ok (create_table table (defs ++
        match pks with
        | [] => []
        | _ => ["    PRIMARY KEY (" +:+ Join (map quoteIdent pks) ", " +:+ ")"]
        end)))
  end.

(** The loop of [writeTableParquet]: the row count and the file after it. *)
Fixpoint write_rows (table : string) (columns : list string) (written : list string)
    (rows : list (list sqlValue)) : result (list string) :=
  match rows with
  | [] => Ok written
  | row :: rows =>
      let written := written ++ [json_text (row_json columns row)] in
      parquet_write (json_text (parquetSchema columns)) written;;
      (if (0 <? maxTableRows cfg) && (maxTableRows cfg <? Z.of_nat (length written)) then
         Err ("table " +:+ table +:+ " exceeds max table rows (" +:+ itoa (maxTableRows cfg)
              +:+ ")")
       else write_rows table columns written rows)
  end.

Definition select_all (table : string) : string :=
  "SELECT * FROM " +:+ quoteIdent (schema cfg) +:+ "." +:+ quoteIdent table.

(** The error of the deferred [WriteStop], which ends the file, is dropped. *)
Definition writeTableParquet (table : string) : ST SWorld (result (Z * string)) :=
  r ←? query (select_all table) [];
  mret (
    parquet_write (json_text (parquetSchema (Columns r))) [];;
    written ← write_rows table (Columns r) [] (Rows r);
    rows_err r (Z.of_nat (length written),
                parquet_file (json_text (parquetSchema (Columns r))) written)).

Definition generateSnapshotID : ST SWorld string := fun w =>
  (match random_bytes (draws w) with
   | Some b => "snap_" +:+ hex_encode b
   | None => "snap_" +:+ itoa_hex (wrap64 (now w))
   end, set_draws (S (draws w)) w).

Definition put (key body : string) : ST SWorld (result unit) := fun w =>
  let (r, s) := PutObject key body (store w) in (r, set_store s w).

Definition cleanupOrphanedData (dataKey : string) : ST SWorld unit := fun w =>
  (tt, set_store (DeleteObject dataKey (store w)).2 w).

Definition verifyUploadedDataObject (key wantSHA256 : string) (w : SWorld) : result unit :=
  if String.eqb (TrimSpace wantSHA256) "" then
    Err ("snapshot data object " +:+ key +:+ " has no expected sha256")
  else
    body ← wrap_err ("verify uploaded snapshot object " +:+ key +:+ ": ") (GetObject key (store w));
    bytes ← wrap_err ("hash uploaded snapshot object " +:+ key +:+ ": ") body;
    let got := sha256_hex bytes in
    if EqualFold got wantSHA256 then Ok tt
    else Err ("uploaded snapshot object " +:+ key +:+ " sha256 mismatch: got " +:+ got
              +:+ " want " +:+ wantSHA256).

Definition Latest (table : string) (w : SWorld) : option SnapshotManifest := latest w !! table.

Definition with_VerifiedAt (t : string) (m : SnapshotManifest) : SnapshotManifest := {|
  ManifestVersion := ManifestVersion m; Writer := Writer m; DBName := DBName m;
  SchemaName := SchemaName m; SnapshotID := SnapshotID m; Timestamp := Timestamp m;
  TableName := TableName m; Query := Query m; manifest_Operation := manifest_Operation m;
  Actor := Actor m; RowCount := RowCount m; SchemaDDL := SchemaDDL m;
  FKConstraints := FKConstraints m; Indexes := Indexes m;
  CheckConstraints := CheckConstraints m; S3Bucket := S3Bucket m; S3DataKey := S3DataKey m;
  S3ManifestKey := S3ManifestKey m; DataSHA256 := DataSHA256 m;
  SnapshotScope := SnapshotScope m; manifest_Status := manifest_Status m;
  ValidationError := ValidationError m; VerifiedAt := t; SourceSelectSQL := SourceSelectSQL m |}.

Definition VerifyLatest (table : string) : ST SWorld (result SnapshotManifest) := fun w =>
  match Latest table w with
  | None => (Err ("no latest snapshot for table " +:+ table), w)
  | Some manifest =>
      if negb (String.eqb (manifest_Status manifest) "valid")
         || String.eqb (DataSHA256 manifest) "" then
        (Err ("latest snapshot for table " +:+ table +:+ " is not verifiable: status="
              +:+ GatewayMetrics.quote (manifest_Status manifest) +:+ " sha256_present="
              +:+ fmt_bool (negb (String.eqb (DataSHA256 manifest) ""))), w)
      else
        match verifyUploadedDataObject (S3DataKey manifest) (DataSHA256 manifest) w with
        | Err e => (Err e, w)
        | Ok _ =>
            let manifest := with_VerifiedAt (Format_RFC3339 (now w)) manifest in
            (Ok manifest, set_latest (<[table := manifest]> (latest w)) w)
        end
  end.

(** The hash of a file with these bytes, if it can be opened. *)
Definition fileSHA256 (path bytes : string) : result string :=
  open_temp path 0;; mret (sha256_hex bytes).

(** What a capture knows before its manifest. *)
Definition base_key (table snapshotID : string) : string :=
  storage_Prefix (storage cfg) +:+ "/snapshots/" +:+ safeTableKey table +:+ "/" +:+ snapshotID.
Definition dataKey (table snapshotID : string) : string :=
  base_key table snapshotID +:+ "/data.parquet".
Definition manifestKey (table snapshotID : string) : string :=
  base_key table snapshotID +:+ "/manifest.json".

Definition new_manifest (now : time) (table snapshotID ddl : string)
    (fks checks idxs : list string) (rowCount : Z) (hash : string) : SnapshotManifest := {|
  ManifestVersion := 1; Writer := sidecarWriter; DBName := dbName cfg;
  SchemaName := schema cfg; SnapshotID := snapshotID; Timestamp := Format_RFC3339 now;
  TableName := table; Query := "SYNC SNAPSHOT " +:+ schema cfg +:+ "." +:+ table;
  manifest_Operation := "SYNC_SNAPSHOT"; Actor := None; RowCount := rowCount;
  SchemaDDL := ddl; FKConstraints := nonNilStrings fks; Indexes := nonNilStrings idxs;
  CheckConstraints := nonNilStrings checks; S3Bucket := Bucket (storage cfg);
  S3DataKey := dataKey table snapshotID; S3ManifestKey := manifestKey table snapshotID;
  DataSHA256 := hash; SnapshotScope := "table"; manifest_Status := "valid";
  ValidationError := ""; VerifiedAt := Format_RFC3339 now; SourceSelectSQL := None |}.

(** Phases 4 to 6: what follows the upload of the data. *)
Definition commit_capture (manifest : SnapshotManifest) : ST SWorld (result SnapshotManifest) :=
  let table := TableName manifest in
  verified ← gets (verifyUploadedDataObject (S3DataKey manifest) (DataSHA256 manifest));
  match verified with
  | Err e =>
      cleanupOrphanedData (S3DataKey manifest);;
      mret (Err ("verify uploaded data for " +:+ table +:+ ": " +:+ e))
  | Ok _ =>
      written ← put (S3ManifestKey manifest) (json_indent (enc_manifest manifest));
      match written with
      | Err e =>
          cleanupOrphanedData (S3DataKey manifest);;
          mret (Err ("upload manifest to S3 for " +:+ table +:+ ": " +:+ e))
      | Ok _ =>
          modify (fun w => set_latest (<[table := manifest]> (latest w)) w);;
          mret (Ok manifest)
      end
  end.

Definition CaptureTable (table : string) : ST SWorld (result SnapshotManifest) :=
  snapshotID ← generateSnapshotID;
  schemaDDL ←? wrap_call ("capture schema DDL for " +:+ table +:+ ": ") (tableDDL table);
  fks ←? wrap_call ("capture FK constraints for " +:+ table +:+ ": ") (fkConstraints table);
  checks ←? wrap_call ("capture CHECK constraints for " +:+ table +:+ ": ")
              (checkConstraints table);
  idxs ←? wrap_call ("capture indexes for " +:+ table +:+ ": ") (indexes table);
  file ←? wrap_call ("write parquet for " +:+ table +:+ ": ") (writeTableParquet table);
  let tmpPath := "backstop-" +:+ snapshotID +:+ ".parquet" in
  dataHash ←? mret (wrap_err ("hash parquet for " +:+ table +:+ ": ")
                      (fileSHA256 tmpPath file.2));
  if String.eqb (TrimSpace dataHash) "" then
    mret (Err ("computed empty SHA256 for snapshot data of " +:+ table))
  else
    _ ←? mret (wrap_err "open parquet for upload: " (open_temp tmpPath 1));
    _ ←? wrap_call ("upload parquet to S3 for " +:+ table +:+ ": ")
           (put (dataKey table snapshotID) file.2);
    t ← gets now;
    commit_capture (new_manifest t table snapshotID schemaDDL fks checks idxs file.1 dataHash).
End engine.

(** ** What a capture promises *)
Section capture.
Context `{env : SyncEnv}.
Variable cfg : SConfig.

(** What no step of a capture touches before the upload. *)
Definition reads_only {A} (m : ST SWorld A) : Prop :=
  forall w, store (run_state m w) = store w /\ latest (run_state m w) = latest w
    /\ now (run_state m w) = now w.

Lemma reads_only_ret {A} (a : A) : reads_only (mret a).
Proof. done. Qed.

Lemma reads_only_bind {A B} (m : ST SWorld A) (f : A -> ST SWorld B) :
  reads_only m -> (forall a, reads_only (f a)) -> reads_only (m ≫= f).
Proof.
  intros Hm Hf w.
  destruct (Hf (run_value m w) (run_state m w)) as (H1 & H2 & H3), (Hm w) as (? & ? & ?).
  unfold run_state, run_value, mbind, st_bind in *.
  destruct (m w) as [a w1]. cbn [fst snd] in *. split_and!; etransitivity; done.
Qed.

Lemma reads_only_try {A B} (m : ST SWorld (result A)) (f : A -> ST SWorld (result B)) :
  reads_only m -> (forall a, reads_only (f a)) -> reads_only (try m f).
Proof.
  intros Hm Hf w. specialize (Hm w). unfold run_state, try in *.
  destruct (m w) as [[a|e] w1]; [|exact Hm].
  destruct (Hf a w1) as (H1 & H2 & H3), Hm as (? & ? & ?). unfold run_state in *.
  split_and!; etransitivity; done.
Qed.

Lemma reads_only_wrap {A} prefix (m : ST SWorld (result A)) :
  reads_only m -> reads_only (wrap_call prefix m).
Proof. intros H w. specialize (H w). unfold run_state, wrap_call in *. by destruct (m w). Qed.

Lemma reads_only_query sql args : reads_only (query sql args).
Proof. intros w. unfold run_state, query. by destruct (sql_query _ _ _). Qed.

Lemma reads_only_query_all {A} sql table (scan : list sqlValue -> result A) :
  reads_only (query_all cfg sql table scan).
Proof. apply reads_only_bind; [apply reads_only_query|]. intros r. apply reads_only_ret. Qed.

Lemma reads_only_tableDDL table : reads_only (tableDDL cfg table).
Proof.
  apply reads_only_try; [apply reads_only_query|]. intros rows.
  destruct (scan_rows _ _); [|apply reads_only_ret].
  apply reads_only_try; [apply reads_only_query_all|]. intros pks. apply reads_only_ret.
Qed.

Lemma reads_only_indexes table : reads_only (indexes cfg table).
Proof. apply reads_only_try; [apply reads_only_query_all|]. intros d. apply reads_only_ret. Qed.

Lemma reads_only_parquet table : reads_only (writeTableParquet cfg table).
Proof. apply reads_only_try; [apply reads_only_query|]. intros r. apply reads_only_ret. Qed.

(** The outcomes of a capture under the id [sid] that uploads [bytes], in the order of its phases.
    [s1] is the store after the upload. *)
Inductive captured (table sid : string) (w : SWorld) : result SnapshotManifest -> SWorld -> Prop :=
  | not_uploaded e w' :
      store w' = store w -> latest w' = latest w -> captured table sid w (Err e) w'
  | upload_failed e e' bytes w' :
      PutObject (dataKey cfg table sid) bytes (store w) = (Err e', store w') ->
      latest w' = latest w -> captured table sid w (Err e) w'
  | upload_corrupt e bytes s1 w' :
      PutObject (dataKey cfg table sid) bytes (store w) = (Ok tt, s1) ->
      (forall b, GetObject (dataKey cfg table sid) s1 = Ok (Ok b) ->
         EqualFold (sha256_hex b) (sha256_hex bytes) = false
         \/ TrimSpace (sha256_hex bytes) = "") ->
      store w' = (DeleteObject (dataKey cfg table sid) s1).2 -> latest w' = latest w ->
      captured table sid w (Err e) w'
  | manifest_failed e e' bytes b ddl fks checks idxs n s1 s2 w' :
      let m := new_manifest cfg (now w) table sid ddl fks checks idxs n (sha256_hex bytes) in
      PutObject (dataKey cfg table sid) bytes (store w) = (Ok tt, s1) ->
      GetObject (dataKey cfg table sid) s1 = Ok (Ok b) ->
      EqualFold (sha256_hex b) (sha256_hex bytes) = true -> TrimSpace (sha256_hex bytes) <> "" ->
      PutObject (manifestKey cfg table sid) (json_indent (enc_manifest m)) s1 = (Err e', s2) ->
      store w' = (DeleteObject (dataKey cfg table sid) s2).2 -> latest w' = latest w ->
      captured table sid w (Err e) w'
  | committed bytes b ddl fks checks idxs n s1 w' :
      let m := new_manifest cfg (now w) table sid ddl fks checks idxs n (sha256_hex bytes) in
      PutObject (dataKey cfg table sid) bytes (store w) = (Ok tt, s1) ->
      GetObject (dataKey cfg table sid) s1 = Ok (Ok b) ->
      EqualFold (sha256_hex b) (sha256_hex bytes) = true -> TrimSpace (sha256_hex bytes) <> "" ->
      PutObject (manifestKey cfg table sid) (json_indent (enc_manifest m)) s1 = (Ok tt, store w') ->
      latest w' = <[table := m]> (latest w) ->
      captured table sid w (Ok m) w'.

(** The states a capture of [table] passes through before it uploads. *)
Definition before_upload (w w1 : SWorld) : Prop :=
  store w1 = store w /\ latest w1 = latest w /\ now w1 = now w.

(** The rest of a capture, from a state before its upload. *)
Definition captures (table sid : string) (w : SWorld) (c : ST SWorld (result SnapshotManifest))
    (w1 : SWorld) : Prop :=
  captured table sid w (c w1).1 (c w1).2.

Lemma captures_try {A} table sid w (c : ST SWorld (result A)) f w1 :
  before_upload w w1 -> reads_only c ->
  (forall a w2, before_upload w w2 -> captures table sid w (f a) w2) ->
  captures table sid w (try c f) w1.
Proof.
  unfold before_upload, captures. intros (H1 & H2 & H3) Hc Hf. specialize (Hc w1).
  unfold run_state, try in *. destruct (c w1) as [[a|e] w2]; cbn [fst snd] in *;
    destruct Hc as (? & ? & ?); [apply Hf|apply not_uploaded]; split_and?; congruence.
Qed.

Lemma captures_wrap {A} table sid w prefix (c : ST SWorld (result A)) f w1 :
  before_upload w w1 -> reads_only c ->
  (forall a w2, before_upload w w2 -> captures table sid w (f a) w2) ->
  captures table sid w (try (wrap_call prefix c) f) w1.
Proof. intros Hb Hc. apply captures_try; [done|by apply reads_only_wrap]. Qed.

Lemma captures_error table sid w e w1 : before_upload w w1 -> captures table sid w (mret (Err e)) w1.
Proof. intros (? & ? & _). by apply not_uploaded. Qed.

Lemma captures_hash table sid w prefix path bytes f w1 :
  before_upload w w1 -> captures table sid w (f (sha256_hex bytes)) w1 ->
  captures table sid w (try (mret (wrap_err prefix (fileSHA256 path bytes))) f) w1.
Proof.
  intros Hb Hf. unfold fileSHA256. destruct (open_temp path 0) as [[]|e]; [exact Hf|].
  by apply captures_error.
Qed.

Lemma verify_ok key want w :
  verifyUploadedDataObject key want w = Ok tt <->
  TrimSpace want <> "" /\ exists b, GetObject key (store w) = Ok (Ok b)
    /\ EqualFold (sha256_hex b) want = true.
Proof.
  unfold verifyUploadedDataObject. destruct (String.eqb_spec (TrimSpace want) "") as [|Hw].
  { split; [done|]. by intros [? _]. }
  destruct (GetObject key (store w)) as [[b|e]|e]; cbn [wrap_err mbind result_bind].
  - destruct (EqualFold (sha256_hex b) want) eqn:He; split; try done.
    + intros _. split; [done|]. by exists b.
    + intros (_ & b' & [= <-] & ?). congruence.
  - split; [done|]. by intros (_ & b' & [=] & _).
  - split; [done|]. by intros (_ & b' & [=] & _).
Qed.
End capture.

Section capture_theorem.
Context `{env : SyncEnv}.
Variable cfg : SConfig.

Lemma commit_captured table sid bytes ddl fks checks idxs n s1 w w1 :
  PutObject (dataKey cfg table sid) bytes (store w) = (Ok tt, s1) ->
  store w1 = s1 -> latest w1 = latest w -> now w1 = now w ->
  captures cfg table sid w (commit_capture (new_manifest cfg (now w1) table sid ddl fks checks idxs n
             (sha256_hex bytes))) w1.
Proof.
  intros Hput <- Hlatest Hnow. rewrite Hnow.
  set (m := new_manifest _ _ _ _ _ _ _ _ _ _).
  unfold captures, commit_capture, mbind, st_bind, gets.
  change (S3DataKey m) with (dataKey cfg table sid).
  change (S3ManifestKey m) with (manifestKey cfg table sid).
  change (DataSHA256 m) with (sha256_hex bytes). change (TableName m) with table.
  destruct (verifyUploadedDataObject _ _ w1) as [[]|e] eqn:Hv.
  - apply verify_ok in Hv as (Hne & b & Hget & Heq). unfold put.
    destruct (PutObject (manifestKey cfg table sid) _ (store w1)) as [[[]|e] s2] eqn:Hm;
      cbn [fst snd].
    + eapply (committed _ _ _ _ bytes b); try done. by rewrite <- Hlatest.
    + by eapply (manifest_failed _ _ _ _ _ _ bytes b).
  - cbn [fst snd]. eapply (upload_corrupt _ _ _ _ _ bytes); try done.
    intros b Hget. destruct (EqualFold (sha256_hex b) (sha256_hex bytes)) eqn:He; [right|by left].
    destruct (decide (TrimSpace (sha256_hex bytes) = "")) as [?|Hne]; [done|].
    assert (verifyUploadedDataObject (dataKey cfg table sid) (sha256_hex bytes) w1 = Ok tt)
      by (apply verify_ok; eauto). congruence.
Qed.

Lemma CaptureTable_captured table w :
  captured cfg table (generateSnapshotID w).1 w (run_value (CaptureTable cfg table) w)
    (run_state (CaptureTable cfg table) w).
Proof.
  set (sid := (generateSnapshotID w).1).
  change (captures cfg table sid w (CaptureTable cfg table) w).
  assert (forall f, captures cfg table sid w (f sid) (set_draws (S (draws w)) w) ->
    captures cfg table sid w (generateSnapshotID ≫= f) w) as Hid by done.
  apply Hid. clear Hid.
  apply captures_wrap; [done|apply reads_only_tableDDL|intros ddl w1 H1].
  apply captures_wrap; [done|apply reads_only_query_all|intros fks w2 H2].
  apply captures_wrap; [done|apply reads_only_query_all|intros checks w3 H3].
  apply captures_wrap; [done|apply reads_only_indexes|intros idxs w4 H4].
  apply captures_wrap; [done|apply reads_only_parquet|intros [n bytes] w5 H5]. cbn [fst snd].
  apply captures_hash; [done|].
  destruct (String.eqb _ ""); [by apply captures_error|].
  apply captures_try; [done|apply reads_only_ret|intros [] w6 (Hs & Hl & Hn)].
  unfold captures, try, wrap_call, put. rewrite Hs.
  destruct (PutObject (dataKey cfg table sid) bytes (store w)) as [[[]|e] s1] eqn:Hput;
    cbn [wrap_err fst snd].
  - by eapply commit_captured.
  - by eapply upload_failed.
Qed.

End capture_theorem.
