(* ===== verification/EndToEnd.v ===== *)
(** * The contract between the sidecar and the gateway

    The two processes share the bucket and the metadata database.  What the
    sidecar commits, the gateway accepts as a recovery point. *)
From S2P Require Import Prelude GoString GoTime Json JsonText Storage Sha256 Postgres GatewayWorld.
From S2P Require Import SnapshotVerifier SyncSnapshot.
From S2P Require Manifest SyncWorld SqlAnalyzer Policy GatewayMetadata McpServer.
From stdpp Require Import options.

Open Scope Z_scope.

(** ** Texts that are not blank *)
Definition graphic (c : ascii) : bool := in_range 33 126 c.

Lemma graphic_ascii_space c : graphic c = true -> ascii_space c = false.
Proof.
  unfold graphic, ascii_space, in_range. rewrite andb_true_iff, !Z.leb_le. intros [? ?].
  apply orb_false_iff. rewrite andb_false_iff, !Z.leb_gt, Z.eqb_neq. lia.
Qed.

Lemma graphic_space2 c b : graphic c = true -> space2 c b = false.
Proof.
  unfold graphic, space2, in_range. rewrite andb_true_iff, !Z.leb_le. intros [? ?].
  apply andb_false_iff. left. apply Z.eqb_neq. lia.
Qed.

Lemma graphic_space3 c a b : graphic c = true -> space3 c a b = false.
Proof.
  unfold graphic, space3, in_range. rewrite andb_true_iff, !Z.leb_le. intros [? ?].
  assert (forall n, 126 < n -> (byte_of c =? n) = false) as Hn
    by (intros n ?; apply Z.eqb_neq; lia).
  by rewrite !Hn by lia.
Qed.

Lemma trim_left_graphic c s : graphic c = true -> trim_left (String c s) = String c s.
Proof.
  intros Hc. cbn [trim_left]. rewrite (graphic_ascii_space _ Hc).
  destruct s as [|b [|d s]]; [done|by rewrite graphic_space2|].
  by rewrite graphic_space2, graphic_space3.
Qed.

Lemma trim_left_rev_graphic c : graphic c = true ->
  forall n u, (String.length u <= n)%nat -> trim_left_rev (u +:+ str1 c) <> "".
Proof.
  intros Hc. assert (trim_left_rev ("" +:+ str1 c) <> "") as Hone.
  { rewrite append_nil_l. unfold str1. cbn [trim_left_rev].
    by rewrite (graphic_ascii_space _ Hc). }
  intros n. induction n as [|n IH]; intros u Hn.
  - destruct u; [exact Hone|cbn in Hn; lia].
  - destruct u as [|a u]; [exact Hone|]. cbn in Hn.
    rewrite append_cons. cbn [trim_left_rev].
    destruct (ascii_space a); [apply IH; lia|].
    destruct u as [|b u].
    { rewrite append_nil_l. unfold str1. by rewrite (graphic_space2 _ _ Hc). }
    rewrite append_cons. destruct (space2 b a); [apply IH; cbn in Hn; lia|].
    destruct u as [|d u].
    { rewrite append_nil_l. unfold str1. by rewrite (graphic_space3 _ _ _ Hc). }
    rewrite append_cons. destruct (space3 d b a); [apply IH; cbn in Hn; lia|done].
Qed.

Lemma TrimSpace_not_empty c s : graphic c = true -> TrimSpace (String c s) <> "".
Proof.
  intros Hc H. unfold TrimSpace in H. rewrite trim_left_graphic, rev_string_cons in H by done.
  apply (f_equal rev_string) in H. rewrite rev_string_involutive in H.
  by eapply (trim_left_rev_graphic c Hc).
Qed.

(** ** The manifest, as the gateway reads it *)
Definition gateway_manifest (m : SyncWorld.SnapshotManifest) : Manifest.SnapshotManifest := {|
  Manifest.ManifestVersion := SyncWorld.ManifestVersion m;
  Manifest.Writer := SyncWorld.Writer m; Manifest.DBName := SyncWorld.DBName m;
  Manifest.SchemaName := SyncWorld.SchemaName m;
  Manifest.SnapshotID := SyncWorld.SnapshotID m;
  Manifest.Timestamp := SyncWorld.Timestamp m; Manifest.TableName := SyncWorld.TableName m;
  Manifest.manifest_Operation := SyncWorld.manifest_Operation m;
  Manifest.RowCount := SyncWorld.RowCount m; Manifest.S3DataKey := SyncWorld.S3DataKey m;
  Manifest.S3ManifestKey := SyncWorld.S3ManifestKey m;
  Manifest.SnapshotScope := SyncWorld.SnapshotScope m;
  Manifest.DataSHA256 := SyncWorld.DataSHA256 m;
  Manifest.manifest_Status := SyncWorld.manifest_Status m;
  Manifest.ValidationError := SyncWorld.ValidationError m |}.

Lemma gateway_reads_manifest m :
  int64_range (SyncWorld.ManifestVersion m) -> int64_range (SyncWorld.RowCount m) ->
  Unmarshal Manifest.dec_manifest (Some (SyncWorld.enc_manifest m)) Manifest.zero_manifest
    = Ok (gateway_manifest m).
Proof.
  unfold int64_range. intros [H1%Z.leb_le H2%Z.leb_le] [H3%Z.leb_le H4%Z.leb_le].
  destruct m as [mv wr db sn sid ts tn q op ac rc ddl fk ix ck bk dk mk sha sc st ve va src].
  cbn [SyncWorld.ManifestVersion SyncWorld.RowCount] in *.
  unfold SyncWorld.enc_manifest, omitempty.
  cbn [SyncWorld.ValidationError SyncWorld.VerifiedAt].
  destruct (String.eqb_spec ve "") as [->|Hve], (String.eqb_spec va "") as [->|Hva]; simpl;
    by rewrite ?H1, ?H2, ?H3, ?H4.
Qed.

Section contract.
Context `{senv : SyncWorld.SyncEnv} `{pg : Postgres, env : GatewayEnv}.

(** What a capture that succeeds returns. *)
Lemma capture_ok cfg table w m w' :
  CaptureTable cfg table w = (Ok m, w') ->
  exists bytes ddl fks checks idxs n,
    m = new_manifest cfg (SyncWorld.now w) table (generateSnapshotID w).1 ddl fks checks idxs n
          (sha256_hex bytes)
    /\ TrimSpace (sha256_hex bytes) <> "".
Proof.
  intros H. pose proof (CaptureTable_captured cfg table w) as Hc.
  unfold run_value, run_state in Hc. rewrite H in Hc. cbn [fst snd] in Hc.
  inversion Hc; subst. by repeat eexists.
Qed.

Lemma snapshotID_not_blank w : TrimSpace (generateSnapshotID w).1 <> "".
Proof.
  unfold generateSnapshotID. cbn [fst].
  destruct (SyncWorld.random_bytes _); by apply (TrimSpace_not_empty "s").
Qed.

(** The search among manifests that are all valid, the others older: it ends with
    the newest. *)
Lemma latest_newest v table keys key m ts w :
  listed (ListObjectsV2 (s3 w) (snapshot_prefix v table)) = Ok keys -> key ∈ keys ->
  usable table (getManifest w) key m ts -> Manifest.manifest_valid m table = true ->
  (forall key' m', key' ∈ keys -> key' <> key -> HasSuffix key' manifest_suffix = true ->
     getManifest w key' = Ok m' -> own_manifest table m' = true ->
     Manifest.manifest_valid m' table = true
     /\ forall ts', Manifest.parseManifestTime (Manifest.Timestamp m') = Ok ts' -> ts' < ts) ->
  exists w', latestSidecarManifest v table w = (Ok m, w') /\ s3 w' = s3 w.
Proof.
  intros Hl Hin Hu Hv Hothers. pose proof Hu as (Hs & Hr & Ho & Ht).
  unfold latestSidecarManifest. rewrite run_bind. unfold run_value, run_state, gets.
  cbn [fst snd]. unfold mbind, st_bind.
  destruct (latest_pages_listed v table _ keys None w Hl) as (w1 & -> & Hw1).
  destruct (keys_result_ok table (getManifest w) keys None) as [r Hres].
  { intros k m' Hk Hks Hkr Hko. destruct (decide (k = key)) as [->|Hne]; [congruence|].
    by eapply Hothers. }
  rewrite Hres. exists w1. split; [|done].
  destruct (keys_result_inv _ _ _ _ _ Hres) as (_ & Hsome & Hnone).
  destruct r as [[m1 ts1]|]; [|by destruct (Hnone eq_refl) as [_ Hno]; destruct (Hno key m ts Hin Hu)].
  destruct (Hsome m1 ts1 eq_refl) as ([?|(k & Hk & Hku)] & _ & Hmax); [done|].
  unfold mret, st_ret. destruct (decide (k = key)) as [->|Hne].
  - destruct Hku as (_ & Hr' & _). congruence.
  - destruct Hku as (Hks & Hkr & Hko & Hkt).
    destruct (Hothers k m1 Hk Hne Hks Hkr Hko) as [_ Hlt].
    specialize (Hlt _ Hkt). specialize (Hmax key m ts Hin Hu). lia.
Qed.

(** The manifest of a capture is valid for its table. *)
Lemma captured_manifest_valid cfg t table w ddl fks checks idxs n hash :
  TrimSpace hash <> "" ->
  Manifest.manifest_valid
    (gateway_manifest (new_manifest cfg t table (generateSnapshotID w).1 ddl fks checks idxs n hash))
    table = true.
Proof.
  intros Hhash. set (sid := (generateSnapshotID w).1). unfold Manifest.manifest_valid.
  cbn -[TrimSpace sid]. rewrite String.eqb_refl. destruct (String.eqb_spec sid "") as [H0|_].
  { exfalso. apply (snapshotID_not_blank w). fold sid. by rewrite H0. }
  destruct (String.eqb_spec (TrimSpace hash) ""); done.
Qed.

Lemma manifestKey_suffix cfg table sid :
  HasSuffix (manifestKey cfg table sid) manifest_suffix = true.
Proof. apply HasSuffix_true. by exists (base_key cfg table sid). Qed.

Lemma dataKey_not_empty cfg table sid : dataKey cfg table sid <> "".
Proof.
  unfold dataKey, base_key. rewrite !append_assoc.
  by destruct (storage_Prefix _).
Qed.

Lemma manifestKey_listed cfg table sid v :
  v_Prefix v = storage_Prefix (SyncWorld.storage cfg) ->
  HasPrefix (manifestKey cfg table sid) (snapshot_prefix v table) = true.
Proof.
  intros Hp. apply HasPrefix_true. unfold manifestKey, base_key, snapshot_prefix.
  rewrite Hp. exists (sid +:+ "/manifest.json"). by rewrite !append_assoc.
Qed.

Lemma dataKey_manifestKey cfg table sid : dataKey cfg table sid <> manifestKey cfg table sid.
Proof. unfold dataKey, manifestKey. intros H%append_inj_l. discriminate H. Qed.

(** What a capture that succeeds leaves in the bucket. *)
Lemma capture_stored `{!SyncWorld.BucketLaws senv} cfg table w m w' :
  CaptureTable cfg table w = (Ok m, w') ->
  SyncWorld.GetObject (SyncWorld.S3ManifestKey m) (SyncWorld.store w')
    = Ok (Ok (json_indent (SyncWorld.enc_manifest m)))
  /\ exists b, SyncWorld.GetObject (SyncWorld.S3DataKey m) (SyncWorld.store w') = Ok (Ok b)
       /\ EqualFold (sha256_hex b) (SyncWorld.DataSHA256 m) = true.
Proof.
  intros Hcap. pose proof (CaptureTable_captured cfg table w) as Hc.
  unfold run_value, run_state in Hc. rewrite Hcap in Hc. cbn [fst snd] in Hc.
  inversion Hc as [| | | |bytes b ddl fks checks idxs n s1 w1 m0 Hput Hget Hsha Hne Hputm Hlat];
    subst. unfold m0 in *. clear m0. split.
  - by eapply SyncWorld.put_get.
  - exists b. split; [|done]. rewrite <- Hget. eapply SyncWorld.put_other; [|exact Hputm].
    apply dataKey_manifestKey.
Qed.

Lemma manifest_depth m : nesting (SyncWorld.enc_manifest m) <= maxNestingDepth.
Proof.
  assert (forall l, foldr (fun v n => Z.max (nesting v) n) 0 (map JString l) = 0) as Hl.
  { induction l as [|x l IH]; [done|]. cbn [map foldr]. by rewrite IH. }
  unfold SyncWorld.enc_manifest, omitempty, maxNestingDepth.
  destruct (String.eqb (SyncWorld.ValidationError m) ""),
    (String.eqb (SyncWorld.VerifiedAt m) ""), (SyncWorld.Actor m), (SyncWorld.SourceSelectSQL m);
    cbn [app nesting foldr SyncWorld.json_ptr]; rewrite !Hl; lia.
Qed.

(** ** The handover

    A capture that succeeded, and a gateway with the same prefix that reads the
    sidecar's bucket, which reads back what was put, under the other keys what was
    there before. *)
Section handover.
Context `{!SyncWorld.BucketLaws senv}.
Variable cfg : SyncWorld.SConfig.
Variable table : string.
Variable w : SyncWorld.SWorld.
Variable m : SyncWorld.SnapshotManifest.
Variable w' : SyncWorld.SWorld.
Variable v : S3SnapshotVerifier.
Variable g : World.
Hypothesis captured : CaptureTable cfg table w = (Ok m, w').
Hypothesis in_era : 0 <= SyncWorld.now w < year_9999_end.
Hypothesis row_count : int64_range (SyncWorld.RowCount m).
Hypothesis key_trimmed : TrimSpace (SyncWorld.S3DataKey m) = SyncWorld.S3DataKey m.
Hypothesis utf8 : utf8_json (SyncWorld.enc_manifest m) = true.
Hypothesis same_prefix : v_Prefix v = storage_Prefix (SyncWorld.storage cfg).
Hypothesis shared : forall key,
  GetObject (s3 g) key = SyncWorld.GetObject key (SyncWorld.store w').

(** The capture's time, in the whole seconds of the manifest. *)
Definition capture_time : time := SyncWorld.now w / Second * Second.

(** What the gateway reads under the manifest's key. *)
Lemma capture_read :
  usable table (getManifest g) (SyncWorld.S3ManifestKey m) (gateway_manifest m) capture_time
  /\ Manifest.manifest_valid (gateway_manifest m) table = true
  /\ Manifest.TableName (gateway_manifest m) = table
  /\ HasPrefix (SyncWorld.S3ManifestKey m) (snapshot_prefix v table) = true
  /\ TrimSpace (SyncWorld.SnapshotID m) <> "" /\ SyncWorld.manifest_Status m = "valid".
Proof using All.
  destruct (capture_stored cfg table w m w' captured) as (Hdoc & _).
  apply capture_ok in captured as (bytes & ddl & fks & checks & idxs & n & Hm & Hhash).
  set (sid := (generateSnapshotID w).1) in Hm.
  assert (SyncWorld.S3ManifestKey m = manifestKey cfg table sid) as Hmk by (by rewrite Hm).
  assert (getManifest g (SyncWorld.S3ManifestKey m) = Ok (gateway_manifest m)) as Hget.
  { unfold getManifest. rewrite shared, Hdoc. cbn [mbind result_bind].
    rewrite json_indent_first, utf8_valid_json by (done || apply manifest_depth).
    apply gateway_reads_manifest; [by rewrite Hm|done]. }
  assert (Manifest.TableName (gateway_manifest m) = table) as Htable by (by rewrite Hm).
  unfold usable. split_and!; [rewrite Hmk; apply manifestKey_suffix|done| | | |done| | |by rewrite Hm].
  - unfold own_manifest. rewrite Htable, String.eqb_refl, andb_true_r. by rewrite Hm.
  - rewrite Hm. unfold Manifest.parseManifestTime. cbn [gateway_manifest Manifest.Timestamp
      new_manifest SyncWorld.Timestamp]. by rewrite Parse_Format_RFC3339.
  - rewrite Hm. by apply captured_manifest_valid.
  - rewrite Hmk. by apply manifestKey_listed.
  - rewrite Hm. apply snapshotID_not_blank.
Qed.

(** Its data object is verified, wherever the search ended. *)
Lemma capture_verified g' :
  latestSidecarManifest v table g = (Ok (gateway_manifest m), g') -> s3 g' = s3 g ->
  S3_VerifyLatestSidecarSnapshot v table (SyncWorld.SnapshotID m) g = (Ok (gateway_manifest m), g').
Proof using All.
  intros Hlatest Hs3. pose proof capture_read as (_ & Hvalid & Htable & _ & Hsid & _).
  destruct (capture_stored cfg table w m w' captured) as (_ & b & Hobj & Hsha).
  apply capture_ok in captured as (bytes & ddl & fks & checks & idxs & n & Hm & _).
  unfold S3_VerifyLatestSidecarSnapshot. apply String.eqb_neq in Hsid. rewrite Hsid.
  unfold mbind at 1, st_bind at 1. rewrite Hlatest.
  change (Manifest.SnapshotID (gateway_manifest m)) with (SyncWorld.SnapshotID m).
  rewrite String.eqb_refl. cbn [negb]. unfold mbind at 1, st_bind at 1, gets.
  replace (verifyDataObject (gateway_manifest m) g') with (Ok tt : result unit); [done|].
  unfold verifyDataObject. rewrite Htable.
  apply Manifest.validateSidecarManifest_ok in Hvalid. rewrite Hvalid.
  cbn [mbind result_bind]. unfold data_key.
  change (Manifest.S3DataKey (gateway_manifest m)) with (SyncWorld.S3DataKey m).
  change (Manifest.DataSHA256 (gateway_manifest m)) with (SyncWorld.DataSHA256 m).
  change (Manifest.S3ManifestKey (gateway_manifest m)) with (SyncWorld.S3ManifestKey m).
  rewrite key_trimmed. destruct (String.eqb_spec (SyncWorld.S3DataKey m) "") as [H0|Hne].
  { exfalso. rewrite Hm in H0. exact (dataKey_not_empty cfg table _ H0). }
  cbn [andb]. destruct (String.eqb_spec (SyncWorld.S3DataKey m) "") as [|_]; [done|].
  by rewrite Hs3, shared, Hobj, Hsha.
Qed.

(** C21. What the sidecar commits, the gateway accepts.  After a successful capture
    of a table the gateway parses the manifest's bytes back and accepts the
    snapshot's id as the table's latest recovery point, when the bucket's listing
    for the table has the manifest's key and the sidecar's other manifests under
    it are valid and older. *)
Theorem gateway_accepts_capture keys :
  listed (ListObjectsV2 (s3 g) (snapshot_prefix v table)) = Ok keys ->
  SyncWorld.S3ManifestKey m ∈ keys ->
  (forall key m', key ∈ keys -> key <> SyncWorld.S3ManifestKey m ->
     HasSuffix key manifest_suffix = true -> getManifest g key = Ok m' ->
     own_manifest table m' = true ->
     Manifest.manifest_valid m' table = true
     /\ forall ts, Manifest.parseManifestTime (Manifest.Timestamp m') = Ok ts ->
          ts < capture_time) ->
  HasPrefix (SyncWorld.S3ManifestKey m) (snapshot_prefix v table) = true
  /\ run_value (S3_VerifyLatestSidecarSnapshot v table (SyncWorld.SnapshotID m)) g
      = Ok (gateway_manifest m).
Proof using All.
  intros Hlist Hin Hothers. pose proof capture_read as (Hu & Hvalid & _ & Hpre & _).
  split; [done|].
  destruct (latest_newest v table keys (SyncWorld.S3ManifestKey m) (gateway_manifest m)
    capture_time g Hlist Hin Hu Hvalid Hothers) as (g' & Hlatest & Hs3).
  unfold run_value. by rewrite (capture_verified g').
Qed.

(** ** The metadata database *)

(** A record the sidecar wrote validates the manifest, also one it wrote again
    after verifying the snapshot. *)
Lemma sidecar_record_validates m' s0 s1 store :
  gateway_manifest m' = gateway_manifest m -> utf8_json (SyncWorld.enc_manifest m') = true ->
  SyncWorld.RecordSnapshot m' s0 = (Ok tt, s1) ->
  GatewayMetadata.available store = true ->
  GatewayMetadata.snapshots store !! SyncWorld.SnapshotID m
    = GatewayMetadata.snapshots s1 !! SyncWorld.SnapshotID m ->
  GatewayMetadata.ValidateSnapshotRecord (gateway_manifest m) (Some store) = Ok tt.
Proof using All.
  intros Hm' Hutf Hrec Hav Hrow.
  pose proof capture_read as (_ & _ & _ & _ & _ & Hstatus).
  assert (SyncWorld.SnapshotID m' = SyncWorld.SnapshotID m
    /\ SyncWorld.TableName m' = SyncWorld.TableName m
    /\ SyncWorld.S3ManifestKey m' = SyncWorld.S3ManifestKey m
    /\ SyncWorld.manifest_Status m' = "valid"
    /\ SyncWorld.ManifestVersion m' = SyncWorld.ManifestVersion m
    /\ SyncWorld.RowCount m' = SyncWorld.RowCount m) as (Hid & Ht & Hk & Hst & Hv & Hr).
  { rewrite <- Hstatus. unfold gateway_manifest in Hm'. injection Hm'. intros. by split_and!. }
  assert (int64_range (SyncWorld.ManifestVersion m)) as Hver.
  { apply capture_ok in captured as (bytes & ddl & fks & checks & idxs & n & -> & _). done. }
  revert Hrec. unfold SyncWorld.RecordSnapshot, GatewayMetadata.withTx.
  destruct (GatewayMetadata.available s0); [|done]. intros [= <-].
  cbn [GatewayMetadata.snapshots GatewayMetadata.set_snapshots] in Hrow.
  rewrite Hid, lookup_insert_eq, Hst in Hrow.
  unfold GatewayMetadata.ValidateSnapshotRecord. rewrite Hav. cbn [negb].
  change (Manifest.SnapshotID (gateway_manifest m)) with (SyncWorld.SnapshotID m).
  rewrite Hrow. cbn [GatewayMetadata.snap_manifest_key GatewayMetadata.snap_payload_json
    GatewayMetadata.snap_status GatewayMetadata.snap_table_name].
  rewrite Ht, Hk. cbn [String.eqb negb].
  change (Manifest.TableName (gateway_manifest m)) with (SyncWorld.TableName m).
  change (Manifest.S3ManifestKey (gateway_manifest m)) with (SyncWorld.S3ManifestKey m).
  rewrite !String.eqb_refl. cbn [negb].
  rewrite json_text_document, utf8_valid_json by (done || apply manifest_depth).
  rewrite gateway_reads_manifest, Hm' by (by rewrite ?Hv, ?Hr).
  change (Manifest.manifest_Status (gateway_manifest m)) with (SyncWorld.manifest_Status m).
  by rewrite !String.eqb_refl, Hstatus.
Qed.

(** The heartbeat of a sidecar whose tables are all recoverable. *)
Lemma sidecar_heartbeat t detail s0 s1 store :
  0 <= t < year_9999_end -> SyncWorld.RecordHealth t "sync" "healthy" detail s0 = (Ok tt, s1) ->
  GatewayMetadata.available store = true ->
  GatewayMetadata.health_checks store !! "sync" = GatewayMetadata.health_checks s1 !! "sync" ->
  GatewayMetadata.GetHealth "sync" (Some store) = Some ("healthy", t).
Proof using Type.
  intros Ht Hrec Hav Hrow. revert Hrec. unfold SyncWorld.RecordHealth, GatewayMetadata.withTx.
  destruct (GatewayMetadata.available s0); [|done]. intros [= <-].
  cbn [GatewayMetadata.health_checks GatewayMetadata.set_health] in Hrow.
  rewrite lookup_insert_eq in Hrow. unfold GatewayMetadata.GetHealth. cbn.
  rewrite Hav, Hrow. cbn. by rewrite Parse_Format_RFC3339Nano.
Qed.

(** What the sidecar has in the metadata database the gateway reads: the snapshot's
    record, and a healthy heartbeat that is not too old. *)
Record reported (gcfg : Config) (store : GatewayMetadata.MetadataStore) : Prop := {
  rep_open : GatewayMetadata.available store = true;
  rep_row : exists m' s0 s1,
    SyncWorld.RecordSnapshot m' s0 = (Ok tt, s1)
    /\ gateway_manifest m' = gateway_manifest m /\ utf8_json (SyncWorld.enc_manifest m') = true
    /\ GatewayMetadata.snapshots store !! SyncWorld.SnapshotID m
         = GatewayMetadata.snapshots s1 !! SyncWorld.SnapshotID m;
  rep_heartbeat : exists t detail s0 s1,
    SyncWorld.RecordHealth t "sync" "healthy" detail s0 = (Ok tt, s1)
    /\ 0 <= t < year_9999_end
    /\ GatewayMetadata.health_checks store !! "sync" = GatewayMetadata.health_checks s1 !! "sync"
    /\ Sub (now g) t <= seconds (Policy.MaxSidecarHeartbeatSeconds (policy gcfg));
}.

Lemma reported_ready gcfg store :
  metadata g = Some store -> reported gcfg store ->
  Sub (now g) capture_time <= seconds (Policy.MaxSnapshotAgeSeconds (policy gcfg)) ->
  McpServer.checkRecoveryReadiness gcfg (gateway_manifest m) g = Ok tt.
Proof using All.
  intros Hmeta [Hav (m' & s0 & s1 & Hrec & Hm' & Hutf & Hrow)
    (t & detail & h0 & h1 & Hbeat & Ht & Hhealth & Hfresh)] Hage.
  pose proof capture_read as ((_ & _ & _ & Htime) & _).
  unfold McpServer.checkRecoveryReadiness.
  rewrite Htime, Hmeta, (sidecar_record_validates m' s0 s1) by done.
  rewrite (sidecar_heartbeat t detail h0 h1) by done.
  apply Z.ltb_ge in Hage, Hfresh. rewrite Hage, Hfresh. cbn [wrap_err].
  by destruct (0 <? _), (Policy.RequireSidecarHeartbeat _).
Qed.

(** C22. A table the sidecar captured and reported can be written to.  When a gateway with
    the sidecar's metadata database gets a destructive query on the table that
    names the snapshot, no recovery group holds the table, the snapshot is not older
    than the policy allows, and the bucket lists the manifest among valid older ones of
    the sidecar, then the gateway finds the recovery point verified and ready. *)
Theorem captured_table_unblocks gcfg args analysis keys store :
  listed (ListObjectsV2 (s3 g) (snapshot_prefix v table)) = Ok keys ->
  SyncWorld.S3ManifestKey m ∈ keys ->
  (forall key, key ∈ keys -> key <> SyncWorld.S3ManifestKey m ->
     HasSuffix key manifest_suffix = true ->
     exists m', getManifest g key = Ok m'
       /\ (own_manifest table m' = true -> Manifest.manifest_valid m' table = true
             /\ exists ts, Manifest.parseManifestTime (Manifest.Timestamp m') = Ok ts
                  /\ ts < capture_time)) ->
  SqlAnalyzer.criticalRecoveryTableFromAnalysis analysis = Ok table ->
  McpServer.args_SnapshotID args = SyncWorld.SnapshotID m ->
  snapshotVerifier gcfg = Some (S3_verifier v) ->
  (forall t, McpServer.recoveryGroupForTable gcfg t table = None) ->
  metadata g = Some store -> reported gcfg store ->
  Sub (now g) capture_time <= seconds (Policy.MaxSnapshotAgeSeconds (policy gcfg)) ->
  run_value (McpServer.verifyCriticalRecoveryPointWithAnalysis gcfg args analysis) g
    = (table, Ok (gateway_manifest m)).
Proof using All.
  intros Hlist Hin Hothers Htable Hsid Hverifier Hgroup Hmeta Hrep Hage.
  pose proof capture_read as (Hu & Hvalid & _ & _ & Hid & _).
  destruct (latest_newest v table keys (SyncWorld.S3ManifestKey m) (gateway_manifest m)
    capture_time g Hlist Hin Hu Hvalid) as (g' & Hlatest & _).
  { intros key m' Hk Hne Hs Hr Hown. destruct (Hothers key Hk Hne Hs) as (m2 & Hr2 & H2).
    rewrite Hr in Hr2. injection Hr2 as <-. destruct (H2 Hown) as (? & ts & Hts & ?).
    split; [done|]. intros ts'. rewrite Hts. by intros [= <-]. }
  assert (Forall (clean table (getManifest g)) keys) as Hall.
  { apply Forall_forall. intros key Hk Hs.
    destruct (decide (key = SyncWorld.S3ManifestKey m)) as [->|Hne].
    - destruct Hu as (_ & Hr & _ & Ht). exists (gateway_manifest m). eauto.
    - destruct (Hothers key Hk Hne Hs) as (m2 & Hr2 & H2). exists m2. naive_solver. }
  pose proof (latestSidecarManifest_clean v table keys g Hlist Hall) as Hclean.
  rewrite Hlatest in Hclean. cbn [snd] in Hclean. subst g'.
  unfold McpServer.verifyCriticalRecoveryPointWithAnalysis. rewrite Htable, Hsid.
  apply String.eqb_neq in Hid. rewrite Hid, Hverifier. cbn [VerifyLatestSidecarSnapshot S3_verifier].
  unfold run_value, mbind, st_bind. rewrite (capture_verified g Hlatest eq_refl).
  unfold gets. rewrite (reported_ready gcfg store Hmeta Hrep Hage).
  unfold McpServer.verifyRecoveryGroup, mbind, st_bind, gets. by rewrite Hgroup.
Qed.
End handover.
End contract.

Section witness.
#[local] Existing Instances SyncWorld.memory_env SyncWorld.memory_laws null_postgres offline_env.

Definition demo_now : time := 1704067200 * Second.
Definition demo_capture :=
  CaptureTable SyncWorld.memory_config "users" (SyncWorld.memory_world demo_now).
Definition demo_key (name : string) : string := "backstop/snapshots/users/snap_abcd/" +:+ name.
Definition demo_keys : list string := [demo_key "data.parquet"; demo_key "manifest.json"].

(** The bucket after the capture, as the gateway sees it. *)
Definition demo_gateway : World :=
  set_s3 {|
    ListObjectsV2 := fun _ => [Ok demo_keys];
    GetObject := fun key => SyncWorld.GetObject key (SyncWorld.store demo_capture.2) |}
    (fresh_world demo_now).

Lemma demo_captured : exists m w', demo_capture = (Ok m, w')
  /\ SyncWorld.RowCount m = 1 /\ SyncWorld.S3DataKey m = demo_key "data.parquet"
  /\ SyncWorld.S3ManifestKey m = demo_key "manifest.json"
  /\ SyncWorld.SnapshotID m = "snap_abcd" /\ utf8_json (SyncWorld.enc_manifest m) = true.
Proof.
  assert (match demo_capture.1 with
    | Ok m => SyncWorld.RowCount m = 1 /\ SyncWorld.S3DataKey m = demo_key "data.parquet"
        /\ SyncWorld.S3ManifestKey m = demo_key "manifest.json"
        /\ SyncWorld.SnapshotID m = "snap_abcd" /\ utf8_json (SyncWorld.enc_manifest m) = true
    | Err _ => False
    end) as Hfacts by (vm_compute; done).
  destruct demo_capture as [[m|e] w']; [|destruct Hfacts]. by exists m, w'.
Qed.

Lemma demo_keys_manifest key : key ∈ demo_keys -> key <> demo_key "manifest.json" ->
  HasSuffix key manifest_suffix = true -> False.
Proof.
  intros Hin Hne Hs. apply elem_of_cons in Hin as [->|Hin]; [discriminate Hs|].
  by apply list_elem_of_singleton in Hin.
Qed.

Lemma gateway_accepts_capture_witness :
  exists m, demo_capture.1 = Ok m
  /\ HasPrefix (SyncWorld.S3ManifestKey m) (snapshot_prefix test_verifier "users") = true
  /\ run_value (S3_VerifyLatestSidecarSnapshot test_verifier "users" (SyncWorld.SnapshotID m))
       demo_gateway = Ok (gateway_manifest m).
Proof.
  destruct demo_captured as (m & w' & Hc & Hn & Hd & Hk & _ & Hu).
  exists m. rewrite Hc. split; [reflexivity|].
  apply (gateway_accepts_capture SyncWorld.memory_config "users"
    (SyncWorld.memory_world demo_now) m w' test_verifier demo_gateway Hc) with (keys := demo_keys).
  - split; vm_compute; [discriminate|reflexivity].
  - rewrite Hn. split; vm_compute; discriminate.
  - rewrite Hd. reflexivity.
  - exact Hu.
  - reflexivity.
  - intros key. unfold demo_gateway. rewrite Hc. reflexivity.
  - reflexivity.
  - rewrite Hk. right. by left.
  - rewrite Hk. intros key m' Hin Hne Hs. by destruct (demo_keys_manifest key).
Defined.

(** The sidecar's writes to the metadata database, and the gateway a minute later. *)
Definition demo_store (m : SyncWorld.SnapshotManifest) : GatewayMetadata.MetadataStore :=
  (SyncWorld.RecordHealth demo_now "sync" "healthy" (JObject [])
     (SyncWorld.RecordSnapshot m GatewayMetadata.empty_store).2).2.
Definition demo_minute (m : SyncWorld.SnapshotManifest) : World :=
  set_metadata (Some (demo_store m)) (set_now (demo_now + 60 * Second) demo_gateway).
Definition demo_gateway_config : Config := {|
  policy := Policy.DefaultGatewayPolicy; environment := "local"; clusterID := "local";
  has_db := true; storage := ""; snapshotBeforeCritical := true;
  snapshotVerifier := Some (S3_verifier test_verifier); alert_webhook := None |}.
Definition demo_truncate : SqlAnalyzer.sqlAnalysis :=
  SqlAnalyzer.analyzeStatements [Some (PgAst.Node_TruncateStmt
    [PgAst.Node_RangeVar {| PgAst.Schemaname := ""; PgAst.Relname := "users" |}])].
Definition demo_args : McpServer.executeQueryParams := {|
  McpServer.args_Query := "TRUNCATE users"; McpServer.args_AgentID := "a1";
  McpServer.DBURL := ""; McpServer.args_SnapshotID := "snap_abcd" |}.

Lemma captured_table_unblocks_witness :
  exists m, demo_capture.1 = Ok m
  /\ run_value (McpServer.verifyCriticalRecoveryPointWithAnalysis demo_gateway_config
       demo_args demo_truncate) (demo_minute m) = ("users", Ok (gateway_manifest m)).
Proof.
  destruct demo_captured as (m & w' & Hc & Hn & Hd & Hk & Hid & Hu).
  exists m. rewrite Hc. split; [reflexivity|].
  apply (captured_table_unblocks SyncWorld.memory_config "users"
    (SyncWorld.memory_world demo_now) m w' test_verifier (demo_minute m) Hc)
    with (keys := demo_keys) (store := demo_store m).
  - split; vm_compute; [discriminate|reflexivity].
  - rewrite Hn. split; vm_compute; discriminate.
  - rewrite Hd. reflexivity.
  - exact Hu.
  - reflexivity.
  - intros key. unfold demo_minute, demo_gateway. rewrite Hc. reflexivity.
  - reflexivity.
  - rewrite Hk. right. by left.
  - rewrite Hk. intros key Hin Hne Hs. by destruct (demo_keys_manifest key).
  - reflexivity.
  - by rewrite Hid.
  - reflexivity.
  - reflexivity.
  - reflexivity.
  - split; [reflexivity| |].
    + exists m, GatewayMetadata.empty_store, (SyncWorld.RecordSnapshot m GatewayMetadata.empty_store).2.
      by split_and!.
    + exists demo_now, (JObject []), (SyncWorld.RecordSnapshot m GatewayMetadata.empty_store).2,
        (demo_store m).
      split_and!; [reflexivity|by vm_compute|reflexivity|reflexivity|by vm_compute].
  - vm_compute. discriminate.
Defined.
End witness.
