(* ===== verification/SyncPoller.v ===== *)
(** * sync/poller.go: the poll, and sync/main.go's configuration of it

    [poll] is one poll from its start to its end.  [Run] polls once at start-up
    and then at every tick; between polls time passes and the outside world
    changes. *)
From S2P Require Import Prelude GoString GoTime Json JsonText Storage Postgres GatewayMetadata SyncDelta.
From S2P Require Import SyncBypass SyncMetrics SyncWorld SyncSnapshot.

Open Scope Z_scope.

Definition fetchTables_sql : string := "
		SELECT tablename
		FROM pg_catalog.pg_tables
		WHERE schemaname = $1
		ORDER BY tablename".
Definition fingerprints_sql : string := "
		SELECT
			c.relname,
			COALESCE(s.n_tup_ins, 0),
			COALESCE(s.n_tup_upd, 0),
			COALESCE(s.n_tup_del, 0),
			COALESCE(s.n_live_tup, 0),
			COALESCE(s.n_dead_tup, 0)
		FROM pg_catalog.pg_class c
		JOIN pg_catalog.pg_namespace n ON n.oid = c.relnamespace
		LEFT JOIN pg_catalog.pg_stat_all_tables s ON s.relid = c.oid
		WHERE n.nspname = $1
		  AND c.relkind IN ('r', 'p')
		ORDER BY c.relname".
Definition activity_sql : string := "
		SELECT pid, usename, application_name, COALESCE(client_addr::text, ''), COALESCE(query_start, now()), COALESCE(query, '')
		FROM pg_stat_activity
		WHERE pid <> pg_backend_pid()
		  AND state <> 'idle'".

Definition scan_time (v : sqlValue) : result time :=
  match v with
  | SqlTime t => Ok t
  | _ => Err "unsupported Scan, storing driver.Value type into type *time.Time"
  end.

Definition scan_activity (row : list sqlValue) : result DBActivity :=
  match row with
  | [v1; v2; v3; v4; v5; v6] =>
      pid ← scan_int64 v1; role ← scan_string v2; app ← scan_string v3;
      addr ← scan_string v4; start ← scan_time v5; q ← scan_string v6;
      mret {| PID := pid; Role := role; ApplicationName := app; ClientAddress := addr;
              QueryStart := start; activity_Query := q |}
  | _ => scan_arity 6 (length row)
  end.

Definition scan_fingerprint (row : list sqlValue) : result (string * string) :=
  match row with
  | [v1; v2; v3; v4; v5; v6] =>
      table ← scan_string v1; inserted ← scan_int64 v2; updated ← scan_int64 v3;
      deleted ← scan_int64 v4; live ← scan_int64 v5; dead ← scan_int64 v6;
      mret (table, Join [table; itoa inserted; itoa updated; itoa deleted; itoa live; itoa dead] ":")
  | _ => scan_arity 6 (length row)
  end.

Definition contains (values : list string) (target : string) : bool :=
  existsb (fun value => String.eqb value target) values.

Definition looksLikeStorageFailure (err : error) : bool :=
  existsb (Contains (ToLower err))
    ["s3"; "putobject"; "bucket"; "storage"; "upload"; "access denied"; "connection refused"].

(** ** Configuration *)
Definition NewPoller (schema dbName : string) (storage : StorageConfig) (maxTableRows : Z)
    (engine snapshotOnStart : bool) (webhookURL : string) : SConfig := {|
  schema := schema; dbName := dbName; storage := storage; maxTableRows := maxTableRows;
  engine := engine; snapshotOnStart := snapshotOnStart; snapshotEveryPoll := false;
  tableAllowlist := None; minStablePolls := 2; maxSnapshotAge := 0; maxFailures := 3;
  pauseFile := ""; bypassDetector := None; webhookURL := webhookURL |}.

(** [ConfigureLaunchReadiness], less the stores it passes on. *)
Definition ConfigureLaunchReadiness (maxAge : duration) (failures : Z) (c : SConfig) : SConfig := {|
  schema := schema c; dbName := dbName c; storage := storage c;
  maxTableRows := maxTableRows c; engine := engine c; snapshotOnStart := snapshotOnStart c;
  snapshotEveryPoll := snapshotEveryPoll c; tableAllowlist := tableAllowlist c;
  minStablePolls := minStablePolls c; maxSnapshotAge := maxAge;
  maxFailures := if 0 <? failures then failures else maxFailures c;
  pauseFile := pauseFile c; bypassDetector := bypassDetector c; webhookURL := webhookURL c |}.

Definition ConfigureBypassDetector (d : option BypassConfig) (c : SConfig) : SConfig := {|
  schema := schema c; dbName := dbName c; storage := storage c;
  maxTableRows := maxTableRows c; engine := engine c; snapshotOnStart := snapshotOnStart c;
  snapshotEveryPoll := snapshotEveryPoll c; tableAllowlist := tableAllowlist c;
  minStablePolls := minStablePolls c; maxSnapshotAge := maxSnapshotAge c;
  maxFailures := maxFailures c; pauseFile := pauseFile c; bypassDetector := d;
  webhookURL := webhookURL c |}.

Definition ConfigureSnapshotStrategy (every : bool) (c : SConfig) : SConfig := {|
  schema := schema c; dbName := dbName c; storage := storage c;
  maxTableRows := maxTableRows c; engine := engine c; snapshotOnStart := snapshotOnStart c;
  snapshotEveryPoll := every; tableAllowlist := tableAllowlist c;
  minStablePolls := minStablePolls c; maxSnapshotAge := maxSnapshotAge c;
  maxFailures := maxFailures c; pauseFile := pauseFile c; bypassDetector := bypassDetector c;
  webhookURL := webhookURL c |}.

Definition ConfigureTableAllowlist (tables : list string) (c : SConfig) : SConfig := {|
  schema := schema c; dbName := dbName c; storage := storage c;
  maxTableRows := maxTableRows c; engine := engine c; snapshotOnStart := snapshotOnStart c;
  snapshotEveryPoll := snapshotEveryPoll c;
  tableAllowlist :=
    match tables with
    | [] => None
    | _ => Some (list_to_set (filter (fun t => t <> "") (map TrimSpace tables)))
    end;
  minStablePolls := minStablePolls c; maxSnapshotAge := maxSnapshotAge c;
  maxFailures := maxFailures c; pauseFile := pauseFile c; bypassDetector := bypassDetector c;
  webhookURL := webhookURL c |}.

(** The start-up grace is a delay before the first poll. *)
Definition ConfigureStability (polls : Z) (file : string) (c : SConfig) : SConfig := {|
  schema := schema c; dbName := dbName c; storage := storage c;
  maxTableRows := maxTableRows c; engine := engine c; snapshotOnStart := snapshotOnStart c;
  snapshotEveryPoll := snapshotEveryPoll c; tableAllowlist := tableAllowlist c;
  minStablePolls := if 0 <? polls then polls else minStablePolls c;
  maxSnapshotAge := maxSnapshotAge c; maxFailures := maxFailures c;
  pauseFile := TrimSpace file; bypassDetector := bypassDetector c; webhookURL := webhookURL c |}.

Section poller.
Context `{env : SyncEnv}.
Variable cfg : SConfig.

(** ** Queries *)
Definition tables_of (r : result sqlRows) : result (list string) :=
  rows ← r; out ← scan_rows (scan_one scan_string) (Rows rows); rows_err rows out.
Definition fetchTables : ST SWorld (result (list string)) :=
  r ← query fetchTables_sql [schema cfg]; mret (tables_of r).

(** A later row of the same table wins. *)
Definition fingerprints_of (r : result sqlRows) : result (gmap string string) :=
  rows ← r; out ← scan_rows scan_fingerprint (Rows rows);
  rows_err rows (list_to_map (reverse out)).
Definition fetchTableFingerprints : ST SWorld (result (gmap string string)) :=
  r ← query fingerprints_sql [schema cfg]; mret (fingerprints_of r).

(** [BypassDetector.Poll]. *)
Definition Bypass_Poll (detector : BypassConfig) : ST SWorld (result (list BypassFinding)) :=
  r ← query activity_sql [];
  mret (rows ← r; activities ← scan_rows scan_activity (Rows rows);
        rows_err rows (Evaluate detector activities)).

Definition filterTables (tables : list string) : list string :=
  match tableAllowlist cfg with
  | None => tables
  | Some allow =>
      if decide (allow = ∅) then tables else filter (fun t => t ∈ allow) tables
  end.

Definition snapshotPaused (w : SWorld) : bool :=
  negb (String.eqb (pauseFile cfg) "") && bool_decide (pauseFile cfg ∈ files w).

(** ** The bypass posture *)

(** The finding has no JSON names: its fields' names are used. *)
Definition enc_finding (f : BypassFinding) : json :=
  let a := Activity f in
  JObject [("Posture", JString (Posture f)); ("Reason", JString (finding_Reason f));
    ("Activity", JObject [("PID", JInt (PID a)); ("Role", JString (Role a));
      ("ApplicationName", JString (ApplicationName a));
      ("ClientAddress", JString (ClientAddress a));
      ("QueryStart", JString (Format_RFC3339Nano (QueryStart a)));
      ("Query", JString (activity_Query a))])].

Definition record_finding (f : BypassFinding) : ST SWorld unit :=
  upd_metrics (IncBypass (Role (Activity f)) (ApplicationName (Activity f)));;
  with_metadata (fun now => RecordAlert now "critical" "gateway_bypass_detected" "" "logged"
    (enc_finding f));;
  mret tt.

Definition pollBypass : ST SWorld unit :=
  match bypassDetector cfg with
  | None => upd_metrics (SetPosture PreventionRecoveryOnly)
  | Some detector =>
      found ← Bypass_Poll detector;
      match found with
      | Err e =>
          with_metadata (fun now => RecordHealth now "prevention" PreventionRecoveryOnly
            (json_map [("error", JString e)]));;
          upd_metrics (SetPosture PreventionRecoveryOnly)
      | Ok findings =>
          let posture :=
            if (0 <? length findings)%nat then PreventionDegraded else PreventionHealthy in
          for_range findings record_finding;;
          upd_metrics (SetPosture posture);;
          with_metadata (fun now => RecordHealth now "prevention" posture
            (json_map [("findings", JInt (Z.of_nat (length findings)))]));;
          mret tt
      end
  end.

(** ** Counters per table *)
Definition failures_of (table : string) (w : SWorld) : Z := default 0 (failures w !! table).
Definition set_failure (table : string) (n : Z) : ST SWorld unit :=
  modify (fun w => set_failures (<[table := n]> (failures w)) w).
Definition count_failure (table : string) : ST SWorld unit :=
  modify (fun w => set_failures (<[table := wrap64 (failures_of table w + 1)]> (failures w)) w).
Definition set_stale (table : string) (stale : bool) : ST SWorld unit :=
  modify (fun w => set_staleAlerted
    (if stale then {[ table ]} ∪ staleAlerted w else staleAlerted w ∖ {[ table ]}) w).

(** [fingerprints] is nil, and every entry of it empty, when fetching failed. *)
Definition fingerprint_in (fps : result (gmap string string)) (table : string) : string :=
  match fps with Ok m => default "" (m !! table) | Err _ => "" end.

Definition tableStableForSnapshot (table : string) (fps : result (gmap string string))
    : ST SWorld bool := fun w =>
  if snapshotEveryPoll cfg || negb (is_ok fps) then (true, w)
  else
    let current := fingerprint_in fps table in
    let set (n : Z) (w : SWorld) := set_stablePolls (<[table := n]> (stablePolls w)) w in
    if String.eqb current "" then (false, set 0 w)
    else
      let previous := default "" (fingerprints w !! table) in
      let polls :=
        if negb (String.eqb previous "") && String.eqb previous current
        then wrap64 (default 0 (stablePolls w !! table) + 1) else 0 in
      (minStablePolls cfg <=? polls, set polls w).

(** ** Capturing *)
Definition metadata_failed (table snapshotID reason : string) (e : error) : ST SWorld unit :=
  count_failure table;;
  upd_metrics (IncSnapshot "metadata_failed");;
  set_health_metric "unhealthy" [("reason", JString reason); ("table", JString table);
    ("snapshot_id", JString snapshotID); ("error", JString e)].

Definition snapshotTable (table : string) : ST SWorld unit :=
  if negb (engine cfg) then mret tt
  else
    captured ← CaptureTable cfg table;
    match captured with
    | Err e =>
        upd_metrics (IncSnapshot "failed");;
        count_failure table;;
        when (looksLikeStorageFailure e) (SendStorageFailureAlert cfg table e;; mret tt);;
        n ← gets (failures_of table);
        when (maxFailures cfg <=? n) (SendSnapshotFailureAlert cfg table n e;; mret tt)
    | Ok manifest =>
        set_failure table 0;;
        set_stale table false;;
        recorded ← with_metadata (fun _ => RecordSnapshot manifest);
        match recorded with
        | Err e => metadata_failed table (SnapshotID manifest) "snapshot_metadata_write_failed" e
        | Ok _ =>
            upd_metrics (IncSnapshot "success");;
            upd_metrics (AddRows (RowCount manifest));;
            t ← gets now;
            upd_metrics (MarkLatest table (default t (Parse_RFC3339 (Timestamp manifest))))
        end
    end.

Definition refreshSnapshotVerification (table : string) : ST SWorld unit :=
  if negb (engine cfg) then mret tt
  else
    verified ← VerifyLatest table;
    match verified with
    | Err e =>
        count_failure table;;
        upd_metrics (IncSnapshot "verification_failed")
    | Ok manifest =>
        set_failure table 0;;
        set_stale table false;;
        recorded ← with_metadata (fun _ => RecordSnapshot manifest);
        match recorded with
        | Err e =>
            metadata_failed table (SnapshotID manifest)
              "snapshot_verification_metadata_write_failed" e
        | Ok _ =>
            match Parse_RFC3339 (VerifiedAt manifest) with
            | Some ts => upd_metrics (MarkLatest table ts)
            | None => mret tt
            end
        end
    end.

(** [p.snapshotEngine.Latest(table)], when there is an engine. *)
Definition recovery_point (table : string) (w : SWorld) : option SnapshotManifest :=
  if engine cfg then Latest table w else None.

(** ** Readiness and staleness *)
Definition usable_point (p : option SnapshotManifest) : bool :=
  match p with
  | Some m => String.eqb (manifest_Status m) "valid" && negb (String.eqb (DataSHA256 m) "")
  | None => false
  end.

Definition too_old (now : time) (m : SnapshotManifest) : bool :=
  (0 <? maxSnapshotAge cfg)
  && match Parse_RFC3339 (if String.eqb (VerifiedAt m) "" then Timestamp m else VerifiedAt m) with
     | None => true
     | Some ts => maxSnapshotAge cfg <? Sub now ts
     end.

Definition failing_tables (tables : list string) (w : SWorld) : list string :=
  List.filter (fun t => 0 <? failures_of t w) tables.
Definition missing_tables (tables : list string) (w : SWorld) : list string :=
  List.filter (fun t => negb (usable_point (recovery_point t w))) tables.
Definition stale_tables (tables : list string) (w : SWorld) : list string :=
  List.filter (fun t =>
    match recovery_point t w with
    | Some m => usable_point (Some m) && too_old (now w) m
    | None => false
    end) tables.

Definition is_empty {A} (l : list A) : bool := match l with [] => true | _ => false end.

Definition readiness_status (tables : list string) (w : SWorld) : string :=
  if is_empty (missing_tables tables w) && is_empty (failing_tables tables w)
     && is_empty (stale_tables tables w) then "healthy" else "degraded".

Definition updateRecoveryReadiness (tables : list string) : ST SWorld unit :=
  status ← gets (readiness_status tables);
  detail ← gets (fun w => [
    ("schema", JString (schema cfg)); ("table_count", JInt (Z.of_nat (length tables)));
    ("missing", json_strings (missing_tables tables w));
    ("failing", json_strings (failing_tables tables w));
    ("stale", json_strings (stale_tables tables w));
    ("max_age", JString (fmt_duration (maxSnapshotAge cfg)));
    ("validity_rule",
      JString "all discovered tables require a valid checksummed sidecar snapshot")]);
  set_health_metric status detail;;
  recorded ← with_metadata (fun now => RecordHealth now "sync" status (json_map detail));
  match recorded with
  | Err e =>
      set_health_metric "unhealthy"
        [("reason", JString "metadata_write_failed"); ("error", JString e)]
  | Ok _ => mret tt
  end.

Definition check_stale_table (table : string) : ST SWorld unit :=
  point ← gets (Latest table);
  match point with
  | None => mret tt
  | Some m =>
      if String.eqb (Timestamp m) "" then mret tt
      else
        match Parse_RFC3339 (Timestamp m) with
        | None => mret tt
        | Some ts =>
            t ← gets now;
            alerted ← gets (fun w => bool_decide (table ∈ staleAlerted w));
            let age := Sub t ts in
            if age <=? maxSnapshotAge cfg then set_stale table false
            else if (alerted : bool) then mret tt
            else
              SendStaleSnapshotAlert cfg table age (maxSnapshotAge cfg) (Some m);;
              set_stale table true
        end
  end.

Definition checkSnapshotStaleness (tables : list string) : ST SWorld unit :=
  if (maxSnapshotAge cfg <=? 0) || negb (engine cfg) then mret tt
  else for_range tables check_stale_table.

(** ** One poll *)
Definition capture_if_stable (fps : result (gmap string string)) (table : string)
    : ST SWorld unit :=
  stable ← tableStableForSnapshot table fps;
  when (stable : bool) (snapshotTable table).

(** A table that the last poll already saw. *)
Definition poll_known_table (fps : result (gmap string string)) (table : string)
    : ST SWorld unit :=
  let currentFingerprint := fingerprint_in fps table in
  previousFingerprint ← gets (fun w => default "" (fingerprints w !! table));
  point ← gets (recovery_point table);
  let hasRecoveryPoint := match point with Some _ => true | None => false end in
  stable ← tableStableForSnapshot table fps;
  let changed :=
    negb (is_ok fps) || String.eqb previousFingerprint ""
    || negb (String.eqb currentFingerprint previousFingerprint) in
  needsRetry ← gets (fun w => 0 <? failures_of table w);
  if snapshotEveryPoll cfg
     || ((stable : bool) && (negb hasRecoveryPoint || changed || (needsRetry : bool))) then
    snapshotTable table
  else
    when ((stable : bool) && hasRecoveryPoint && negb changed && negb needsRetry)
      (refreshSnapshotVerification table).

Definition report_drop (table : string) : ST SWorld unit :=
  point ← gets (recovery_point table);
  SendDropAlert cfg table point;;
  upd_metrics IncDropped.

Definition track (tables : list string) : ST SWorld (list string * list string) := fun w =>
  let '(dropped, added, d) := Update tables (tracker w) in ((dropped, added), set_tracker d w).

Definition poll_tables (startup : bool) (tables : list string) : ST SWorld unit :=
  changes ← track tables;
  let dropped := changes.1 in let added := changes.2 in
  fps ← fetchTableFingerprints;
  (if startup then
     when (snapshotOnStart cfg) (for_range tables (capture_if_stable fps))
   else
     for_range added (capture_if_stable fps);;
     for_range tables (fun table =>
       if contains added table then mret tt else poll_known_table fps table));;
  match fps with
  | Ok m => modify (set_fingerprints m)
  | Err _ => mret tt
  end;;
  for_range dropped report_drop;;
  checkSnapshotStaleness tables;;
  updateRecoveryReadiness tables.

Definition poll (startup : bool) : ST SWorld unit :=
  fetched ← fetchTables;
  match fetched with
  | Err e =>
      with_metadata (fun now => RecordHealth now "sync" "unhealthy"
        (json_map [("error", JString e)]));;
      mret tt
  | Ok tables =>
      let tables := filterTables tables in
      recorded ← with_metadata (fun now => RecordHealth now "sync" "starting"
        (json_map [("phase", JString "catalog_scanned");
                   ("table_count", JInt (Z.of_nat (length tables)))]));
      match recorded with
      | Err e =>
          set_health_metric "unhealthy"
            [("reason", JString "metadata_write_failed"); ("error", JString e)]
      | Ok _ =>
          pollBypass;;
          paused ← gets snapshotPaused;
          if (paused : bool) then
            let detail := [("reason", JString "snapshot_pause_file");
              ("pause_file", JString (pauseFile cfg));
              ("table_count", JInt (Z.of_nat (length tables)))] in
            set_health_metric "paused" detail;;
            with_metadata (fun now => RecordHealth now "sync" "paused" (json_map detail));;
            mret tt
          else poll_tables startup tables
      end
  end.
End poller.

(** ** What the parts of a poll leave alone *)

(** [keeps R m]: [m] relates the states before and after it by [R]. *)
Definition keeps {S A} (R : S -> S -> Prop) (m : ST S A) : Prop :=
  forall s, R s (run_state m s).

Section keeps.
Context {S : Type} (R : S -> S -> Prop) `{!PreOrder R}.

Lemma keeps_ret {A} (a : A) : keeps R (mret a : ST S A).
Proof. intros s. reflexivity. Qed.

Lemma keeps_gets {A} (f : S -> A) : keeps R (gets f).
Proof. intros s. reflexivity. Qed.

Lemma keeps_bind {A B} (m : ST S A) (f : A -> ST S B) :
  keeps R m -> (forall a, keeps R (f a)) -> keeps R (m ≫= f).
Proof.
  intros Hm Hf s. transitivity (run_state m s); [apply Hm|].
  unfold run_state at 2. rewrite run_bind. apply Hf.
Qed.

Lemma keeps_try {A B} (m : ST S (result A)) (f : A -> ST S (result B)) :
  keeps R m -> (forall a, keeps R (f a)) -> keeps R (try m f).
Proof.
  intros Hm Hf s. specialize (Hm s). unfold run_state, try in *.
  destruct (m s) as [[a|e] s1]; [|exact Hm]. transitivity s1; [exact Hm|apply Hf].
Qed.

Lemma keeps_wrap {A} prefix (m : ST S (result A)) : keeps R m -> keeps R (wrap_call prefix m).
Proof. intros Hm s. specialize (Hm s). unfold run_state, wrap_call in *. by destruct (m s). Qed.

Lemma keeps_when b (m : ST S unit) : keeps R m -> keeps R (when b m).
Proof. destruct b; [done|]. intros _. apply keeps_ret. Qed.

Lemma keeps_for_range {A} (xs : list A) (body : A -> ST S unit) :
  (forall x, x ∈ xs -> keeps R (body x)) -> keeps R (for_range xs body).
Proof.
  induction xs as [|x xs IH]; intros Hbody; simpl; [apply keeps_ret|].
  apply keeps_bind; [apply Hbody; by left|]. intros _. apply IH. intros y Hy.
  apply Hbody. by right.
Qed.
End keeps.

Lemma keeps_weaken {S A} (R R' : S -> S -> Prop) (m : ST S A) :
  (forall s s', R s s' -> R' s s') -> keeps R m -> keeps R' m.
Proof. intros HR Hm s. apply HR, Hm. Qed.

Lemma for_range_app {S A} (xs ys : list A) (body : A -> ST S unit) s :
  run_state (for_range (xs ++ ys) body) s
  = run_state (for_range ys body) (run_state (for_range xs body) s).
Proof.
  revert s. induction xs as [|x xs IH]; intros s; [done|]. simpl.
  unfold run_state at 1 3. rewrite !run_bind. apply IH.
Qed.

Create HintDb keeps.

(** [keep] takes a handler apart. *)
Ltac keep :=
  repeat first
    [ solve [apply keeps_ret, _ | apply keeps_gets, _ | eauto with keeps]
    | match goal with
      | |- keeps _ (try _ _) => apply (keeps_try _); [|intros ?]
      | |- keeps _ (wrap_call _ _) => apply keeps_wrap
      end
    | apply (keeps_bind _); [|intros ?]
    | apply (keeps_when _)
    | match goal with
      | |- keeps _ (match ?x with _ => _ end) => destruct x
      | |- keeps _ (if ?x then _ else _) => destruct x
      end ].

Section frames.
Context `{env : SyncEnv}.
Variable cfg : SConfig.

(** Neither the recovery points, nor the bucket, nor the tables' fingerprints and
    failure counts, nor the tracker change, and no id is drawn. *)
Definition minor (w w' : SWorld) : Prop :=
  latest w' = latest w /\ store w' = store w /\ fingerprints w' = fingerprints w
  /\ failures w' = failures w /\ tracker w' = tracker w /\ draws w' = draws w.
#[local] Instance minor_preorder : PreOrder minor.
Proof. split; unfold minor; [done|]. intros w1 w2 w3 (?&?&?&?&?&?) (?&?&?&?&?&?). by split_and!; etransitivity. Qed.

Lemma minor_metrics f : keeps minor (upd_metrics f).
Proof. done. Qed.
Lemma minor_health st d : keeps minor (set_health_metric st d).
Proof. done. Qed.
Lemma minor_metadata f : keeps minor (with_metadata f).
Proof.
  intros w. unfold run_state, with_metadata. destruct (metadata w); [|done].
  by destruct (f (now w) m).
Qed.
Lemma minor_query sql args : keeps minor (query sql args).
Proof. intros w. unfold run_state, query. by destruct (sql_query _ _ _). Qed.
Lemma minor_sendPayload p : keeps minor (sendPayload cfg p).
Proof.
  intros w. unfold run_state, sendPayload.
  assert (forall f w1 (r : result unit), minor w w1 ->
    minor w (let (_, w2) := with_metadata f w1 in (r, w2)).2) as Hrec.
  { intros f w1 r Hw. pose proof (minor_metadata f w1) as Hm. unfold run_state in Hm.
    destruct (with_metadata f w1) as [? w2]. by transitivity w1. }
  destruct (String.eqb _ ""); [by apply Hrec|].
  destruct (webhook_post _ _ _); [by apply Hrec|by apply Hrec|].
  destruct (_ || _); by apply Hrec.
Qed.
Lemma minor_stale table b : keeps minor (set_stale table b).
Proof. done. Qed.
Lemma minor_stable table fps : keeps minor (tableStableForSnapshot cfg table fps).
Proof. intros w. unfold run_state, tableStableForSnapshot. by repeat case_match. Qed.
Lemma track_frame tables w :
  let w' := run_state (track tables) w in
  latest w' = latest w /\ store w' = store w /\ fingerprints w' = fingerprints w
  /\ failures w' = failures w.
Proof. unfold run_state, track. by destruct (Update tables (tracker w)) as [[] ?]. Qed.
#[local] Hint Resolve minor_metrics minor_health minor_metadata minor_query minor_sendPayload
  minor_stale minor_stable : keeps.

Lemma minor_fetchTables : keeps minor (fetchTables cfg).
Proof. unfold fetchTables. keep. Qed.
Lemma minor_fingerprints : keeps minor (fetchTableFingerprints cfg).
Proof. unfold fetchTableFingerprints. keep. Qed.
Lemma minor_pollBypass : keeps minor (pollBypass cfg).
Proof.
  unfold pollBypass, Bypass_Poll. keep. apply (keeps_for_range _).
  intros f _. unfold record_finding. keep.
Qed.
Lemma minor_report_drop table : keeps minor (report_drop cfg table).
Proof. unfold report_drop, SendDropAlert. keep. Qed.
Lemma minor_check_stale table : keeps minor (check_stale_table cfg table).
Proof. unfold check_stale_table, SendStaleSnapshotAlert. keep. Qed.
#[local] Hint Resolve minor_report_drop minor_check_stale : keeps.

Lemma minor_readiness tables : keeps minor (updateRecoveryReadiness cfg tables).
Proof. unfold updateRecoveryReadiness. keep. Qed.

(** What follows the captures of a poll. *)
Lemma minor_end_of_poll dropped tables :
  keeps minor (for_range dropped (report_drop cfg);; checkSnapshotStaleness cfg tables;;
    updateRecoveryReadiness cfg tables).
Proof.
  apply (keeps_bind _); [|intros _].
  { apply (keeps_for_range _). intros t _. apply minor_report_drop. }
  apply (keeps_bind _); [|intros _; apply minor_readiness].
  unfold checkSnapshotStaleness. destruct (_ || _); [by apply keeps_ret, _|].
  apply (keeps_for_range _). intros t _. apply minor_check_stale.
Qed.
End frames.

#[export] Existing Instance minor_preorder.
#[export] Hint Resolve minor_metrics minor_health minor_metadata minor_query minor_sendPayload
  minor_stale minor_stable minor_fetchTables minor_fingerprints minor_pollBypass
  minor_report_drop minor_check_stale minor_readiness minor_end_of_poll : keeps.

(** ** A capture touches one table *)
Section one_table.
Context `{env : SyncEnv}.
Variable cfg : SConfig.

Definition spares (t : string) (w w' : SWorld) : Prop :=
  latest w' !! t = latest w !! t /\ failures w' !! t = failures w !! t
  /\ fingerprints w' = fingerprints w.
#[local] Instance spares_preorder t : PreOrder (spares t).
Proof. split; unfold spares; [done|]. intros w1 w2 w3 (?&?&?) (?&?&?). by split_and!; etransitivity. Qed.

Lemma spares_minor {A} t (m : ST SWorld A) : keeps minor m -> keeps (spares t) m.
Proof. apply keeps_weaken. unfold minor, spares. intros w w' (-> & _ & -> & -> & _). done. Qed.

Lemma spares_sql {A} t sql table (scan : list sqlValue -> result A) :
  keeps (spares t) (query_all cfg sql table scan).
Proof. apply spares_minor. unfold query_all. keep. Qed.

Lemma spares_tableDDL t table : keeps (spares t) (tableDDL cfg table).
Proof.
  unfold tableDDL, primaryKeys. apply (keeps_try _); [apply spares_minor; keep|]. intros rows.
  destruct (scan_rows _ _); [|keep]. apply (keeps_try _); [apply spares_sql|]. intros; keep.
Qed.

Lemma spares_put t key body : keeps (spares t) (put key body).
Proof. intros w. unfold run_state, put. by destruct (PutObject _ _ _). Qed.

Lemma spares_latest t t' m :
  t <> t' -> keeps (spares t) (modify (fun w => set_latest (<[t' := m]> (latest w)) w)).
Proof. intros Hne w. split; [|done]. by apply lookup_insert_ne. Qed.

Lemma spares_CaptureTable t t' : t <> t' -> keeps (spares t) (CaptureTable cfg t').
Proof.
  intros Hne. unfold CaptureTable, fkConstraints, checkConstraints, indexes, writeTableParquet.
  apply (keeps_bind _); [done|intros sid].
  apply (keeps_try _); [apply keeps_wrap, spares_tableDDL|intros ddl].
  apply (keeps_try _); [apply keeps_wrap, spares_sql|intros fks].
  apply (keeps_try _); [apply keeps_wrap, spares_sql|intros checks].
  apply (keeps_try _); [apply keeps_wrap, (keeps_try _);
    [apply spares_sql|intros; keep]|intros idxs].
  apply (keeps_try _); [apply keeps_wrap, spares_minor; keep|intros file].
  apply (keeps_try _); [keep|intros hash]. destruct (String.eqb _ ""); [keep|].
  apply (keeps_try _); [keep|intros _].
  apply (keeps_try _); [apply keeps_wrap, spares_put|intros _].
  apply (keeps_bind _); [keep|intros now]. unfold commit_capture.
  apply (keeps_bind _); [keep|intros v]. destruct v.
  - apply (keeps_bind _); [apply spares_put|intros []].
    + apply (keeps_bind _); [by apply spares_latest|intros _; keep].
    + apply (keeps_bind _); [done|intros _; keep].
  - apply (keeps_bind _); [done|intros _; keep].
Qed.

Lemma spares_failure t t' n : t <> t' -> keeps (spares t) (set_failure t' n).
Proof. intros Hne w. split; [done|]. split; [|done]. by apply lookup_insert_ne. Qed.
Lemma spares_count t t' : t <> t' -> keeps (spares t) (count_failure t').
Proof. intros Hne w. split; [done|]. split; [|done]. by apply lookup_insert_ne. Qed.
#[local] Hint Resolve spares_CaptureTable spares_failure spares_count : keeps.

Lemma spares_metadata_failed t t' sid why e :
  t <> t' -> keeps (spares t) (metadata_failed t' sid why e).
Proof.
  intros Hne. unfold metadata_failed. apply (keeps_bind _); [by apply spares_count|intros _].
  apply spares_minor. keep.
Qed.

Lemma spares_snapshotTable t t' : t <> t' -> keeps (spares t) (snapshotTable cfg t').
Proof.
  intros Hne. unfold snapshotTable. destruct (negb (engine cfg)); [keep|].
  apply (keeps_bind _); [by apply spares_CaptureTable|intros [m|e]].
  - apply (keeps_bind _); [by apply spares_failure|intros _].
    apply (keeps_bind _); [done|intros _].
    apply (keeps_bind _); [apply spares_minor; keep|intros [[]|e]].
    + apply spares_minor. keep.
    + by apply spares_metadata_failed.
  - apply (keeps_bind _); [done|intros _].
    apply (keeps_bind _); [by apply spares_count|intros _].
    apply spares_minor. unfold SendStorageFailureAlert, SendSnapshotFailureAlert. keep.
Qed.

Lemma VerifyLatest_latest t w :
  let w' := run_state (VerifyLatest t) w in
  w' = w \/ exists m v, latest w !! t = Some m
    /\ w' = set_latest (<[t := with_VerifiedAt v m]> (latest w)) w.
Proof.
  unfold run_state, VerifyLatest, Latest. destruct (latest w !! t) as [m|] eqn:Hm; [|by left].
  destruct (_ || _); [by left|]. destruct (verifyUploadedDataObject _ _ _); [|by left].
  right. by exists m, (Format_RFC3339 (now w)).
Qed.

Lemma spares_refresh t t' : t <> t' -> keeps (spares t) (refreshSnapshotVerification cfg t').
Proof.
  intros Hne. unfold refreshSnapshotVerification. destruct (negb (engine cfg)); [keep|].
  apply (keeps_bind _).
  { intros w. destruct (VerifyLatest_latest t' w) as [->|(m & v & _ & ->)]; [reflexivity|].
    split; [|done]. by apply lookup_insert_ne. }
  intros [m|e].
  - apply (keeps_bind _); [by apply spares_failure|intros _].
    apply (keeps_bind _); [done|intros _].
    apply (keeps_bind _); [apply spares_minor; keep|intros [[]|e]].
    + apply spares_minor. keep.
    + by apply spares_metadata_failed.
  - apply (keeps_bind _); [by apply spares_count|intros _]. apply spares_minor. keep.
Qed.

Lemma spares_capture_if_stable t t' fps : t <> t' -> keeps (spares t) (capture_if_stable cfg fps t').
Proof.
  intros Hne. unfold capture_if_stable.
  apply (keeps_bind _); [apply spares_minor; keep|intros st].
  apply (keeps_when _). by apply spares_snapshotTable.
Qed.

Lemma spares_poll_known t t' fps : t <> t' -> keeps (spares t) (poll_known_table cfg fps t').
Proof.
  intros Hne. unfold poll_known_table.
  apply (keeps_bind _); [keep|intros prev]. apply (keeps_bind _); [keep|intros point].
  apply (keeps_bind _); [apply spares_minor; keep|intros st].
  apply (keeps_bind _); [keep|intros retry].
  destruct (_ || _); [by apply spares_snapshotTable|].
  apply (keeps_when _). by apply spares_refresh.
Qed.
End one_table.

(** ** A poll is made of minor changes, captures, verifications and counts

    What these keep, a poll keeps. *)
Section traverse.
Context `{env : SyncEnv}.
Variable cfg : SConfig.
Variable R : SWorld -> SWorld -> Prop.
Context `{!PreOrder R}.
Hypothesis R_minor : forall A (c : ST SWorld A), keeps minor c -> keeps R c.
Hypothesis R_capture : forall t, keeps R (CaptureTable cfg t).
Hypothesis R_verify : forall t, keeps R (VerifyLatest t).
Hypothesis R_failures : forall g, keeps R (modify (fun w => set_failures (g w) w)).
Hypothesis R_fingerprints : forall m, keeps R (modify (set_fingerprints m)).
Hypothesis R_tracker : forall tables, keeps R (track tables).

Lemma traverse_metadata_failed t sid why e : keeps R (metadata_failed t sid why e).
Proof.
  unfold metadata_failed. apply (keeps_bind _); [apply R_failures|intros _].
  apply R_minor. keep.
Qed.

Lemma traverse_snapshotTable t : keeps R (snapshotTable cfg t).
Proof.
  unfold snapshotTable. destruct (negb (engine cfg)); [by apply (keeps_ret _)|].
  apply (keeps_bind _); [apply R_capture|intros [m|e]].
  - apply (keeps_bind _); [apply R_failures|intros _].
    apply (keeps_bind _); [apply R_minor; keep|intros _].
    apply (keeps_bind _); [apply R_minor; keep|intros [[]|e]]; [apply R_minor; keep|].
    apply traverse_metadata_failed.
  - apply (keeps_bind _); [apply R_minor; keep|intros _].
    apply (keeps_bind _); [apply R_failures|intros _].
    apply R_minor. unfold SendStorageFailureAlert, SendSnapshotFailureAlert. keep.
Qed.

Lemma traverse_refresh t : keeps R (refreshSnapshotVerification cfg t).
Proof.
  unfold refreshSnapshotVerification. destruct (negb (engine cfg)); [by apply (keeps_ret _)|].
  apply (keeps_bind _); [apply R_verify|intros [m|e]].
  - apply (keeps_bind _); [apply R_failures|intros _].
    apply (keeps_bind _); [apply R_minor; keep|intros _].
    apply (keeps_bind _); [apply R_minor; keep|intros [[]|e]]; [apply R_minor; keep|].
    apply traverse_metadata_failed.
  - apply (keeps_bind _); [apply R_failures|intros _]. apply R_minor. keep.
Qed.

Lemma traverse_capture_if_stable fps t : keeps R (capture_if_stable cfg fps t).
Proof.
  unfold capture_if_stable. apply (keeps_bind _); [apply R_minor; keep|intros st].
  apply (keeps_when _), traverse_snapshotTable.
Qed.

Lemma traverse_poll_known fps t : keeps R (poll_known_table cfg fps t).
Proof.
  unfold poll_known_table. apply (keeps_bind _); [by apply (keeps_gets _)|intros prev].
  apply (keeps_bind _); [by apply (keeps_gets _)|intros point].
  apply (keeps_bind _); [apply R_minor; keep|intros st].
  apply (keeps_bind _); [by apply (keeps_gets _)|intros retry].
  destruct (_ || _); [apply traverse_snapshotTable|]. apply (keeps_when _), traverse_refresh.
Qed.

Lemma traverse_poll_tables startup tables : keeps R (poll_tables cfg startup tables).
Proof.
  unfold poll_tables. apply (keeps_bind _); [apply R_tracker|intros changes].
  apply (keeps_bind _); [apply R_minor; keep|intros fps]. apply (keeps_bind _).
  { destruct startup.
    - apply (keeps_when _), (keeps_for_range _). intros t _. apply traverse_capture_if_stable.
    - apply (keeps_bind _); [|intros _]; apply (keeps_for_range _); intros t _.
      + apply traverse_capture_if_stable.
      + destruct (contains _ t); [by apply (keeps_ret _)|apply traverse_poll_known]. }
  intros _. apply (keeps_bind _); [destruct fps; [apply R_fingerprints|by apply (keeps_ret _)]|].
  intros _. apply R_minor, minor_end_of_poll.
Qed.

Lemma traverse_poll startup : keeps R (poll cfg startup).
Proof.
  unfold poll.
  apply (keeps_bind _); [apply R_minor; keep|intros [tables|e]]; [|apply R_minor; keep].
  apply (keeps_bind _); [apply R_minor; keep|intros [u|e]]; [|apply R_minor; keep].
  apply (keeps_bind _); [apply R_minor; keep|intros _].
  apply (keeps_bind _); [by apply (keeps_gets _)|intros [|]]; [apply R_minor; keep|].
  apply traverse_poll_tables.
Qed.
End traverse.
