(* ===== verification/SyncPollerProperties.v ===== *)
(** * Properties of the sidecar's poll *)
From S2P Require Import Prelude GoString GoTime Json Storage Sha256 Postgres GatewayMetadata.
From S2P Require Import SyncDelta SyncBypass SyncMetrics SyncWorld SyncSnapshot SyncPoller.

Open Scope Z_scope.

Section default_strategy.
Context `{env : SyncEnv}.
Variable cfg : SConfig.

(** The default strategy, and a catalog and statistics that can be read; a table
    is listed once. *)
Hypothesis not_every_poll : snapshotEveryPoll cfg = false.
Hypothesis stable_polls : 1 <= minStablePolls cfg.
Hypothesis fingerprints_read :
  forall db, is_ok (fingerprints_of (sql_query fingerprints_sql [schema cfg] db).1) = true.
Hypothesis tables_unique :
  forall db l, tables_of (sql_query fetchTables_sql [schema cfg] db).1 = Ok l -> NoDup l.

#[local] Existing Instance spares_preorder.

Lemma fetch_fingerprints_ok w : exists m, run_value (fetchTableFingerprints cfg) w = Ok m.
Proof.
  unfold fetchTableFingerprints, run_value. rewrite run_bind. unfold query, run_value, run_state.
  specialize (fingerprints_read (sdb w)).
  destruct (sql_query fingerprints_sql [schema cfg] (sdb w)) as [r db]. cbn [fst snd] in *.
  change (exists m, fingerprints_of r = Ok m).
  destruct (fingerprints_of r) as [m|]; [by exists m|done].
Qed.

Lemma fetch_tables_nodup w l : run_value (fetchTables cfg) w = Ok l -> NoDup l.
Proof.
  unfold fetchTables, run_value. rewrite run_bind. unfold query, run_value, run_state.
  intros H. apply (tables_unique (sdb w)).
  by destruct (sql_query fetchTables_sql [schema cfg] (sdb w)) as [r db].
Qed.

Lemma filterTables_nodup l : NoDup l -> NoDup (filterTables cfg l).
Proof.
  intros Hl. unfold filterTables. destruct (tableAllowlist cfg); [|done].
  destruct (decide _); [done|]. by apply NoDup_filter.
Qed.

(** A table that is stable has not changed since the last poll. *)
Lemma stable_unchanged t m w :
  run_value (tableStableForSnapshot cfg t (Ok m)) w = true ->
  let previous := default "" (fingerprints w !! t) in
  previous <> "" /\ fingerprint_in (Ok m) t = previous.
Proof.
  unfold run_value, tableStableForSnapshot. rewrite not_every_poll. cbn [orb is_ok negb].
  destruct (String.eqb (fingerprint_in (Ok m) t) ""); [done|].
  destruct (String.eqb_spec (default "" (fingerprints w !! t)) "") as [He|Hne]; cbn [negb andb].
  - cbn [fst]. rewrite Z.leb_le. lia.
  - destruct (String.eqb_spec (default "" (fingerprints w !! t)) (fingerprint_in (Ok m) t));
      [done|]. cbn [fst]. rewrite Z.leb_le. lia.
Qed.

(** The point of a table, up to the time it was last verified. *)
Definition same_point (m : SnapshotManifest) (o : option SnapshotManifest) : Prop :=
  exists v, o = Some (with_VerifiedAt v m).

Lemma same_point_refl m : same_point m (Some m).
Proof. exists (VerifiedAt m). by destruct m. Qed.

Lemma same_point_again m v : same_point m (Some (with_VerifiedAt v m)).
Proof. by exists v. Qed.

Lemma refresh_keeps_point t m w :
  latest w !! t = Some m ->
  same_point m (latest (run_state (refreshSnapshotVerification cfg t) w) !! t).
Proof.
  intros Hm. unfold refreshSnapshotVerification.
  destruct (negb (engine cfg)); [unfold run_state; cbn; rewrite Hm; apply same_point_refl|].
  unfold run_state. rewrite run_bind.
  assert (same_point m (latest (run_state (VerifyLatest t) w) !! t)) as Hpoint.
  { destruct (VerifyLatest_latest t w) as [->|(m' & v & Hm' & ->)];
      [rewrite Hm; apply same_point_refl|]. rewrite Hm in Hm'. injection Hm' as <-.
    cbn. rewrite lookup_insert_eq. apply same_point_again. }
  revert Hpoint. generalize (run_state (VerifyLatest t) w) as w1.
  assert (forall A (c : ST SWorld A) w1, keeps (fun w w' => latest w' = latest w) c ->
    same_point m (latest w1 !! t) -> same_point m (latest (c w1).2 !! t)) as Hkeep.
  { intros A c w1 Hc H. specialize (Hc w1). unfold run_state in Hc. by rewrite Hc. }
  assert (PreOrder (fun w w' : SWorld => latest w' = latest w)) as Hpre.
  { split; [done|]. intros w1 w2 w3 ? ?. by etransitivity. }
  assert (forall A (c : ST SWorld A), keeps minor c ->
    keeps (fun w w' => latest w' = latest w) c) as Hminor.
  { intros A c. apply keeps_weaken. by intros ? ? [? _]. }
  intros w1. apply Hkeep. destruct (run_value (VerifyLatest t) w) as [m'|e].
  - apply (keeps_bind _); [done|intros _]. apply (keeps_bind _); [done|intros _].
    apply (keeps_bind _); [apply Hminor; keep|intros [[]|e]]; [apply Hminor; keep|].
    apply (keeps_bind _); [done|intros _]. apply Hminor. keep.
  - apply (keeps_bind _); [done|intros _]. apply Hminor. keep.
Qed.

Lemma snapshotTable_no_engine t w : engine cfg = false -> run_state (snapshotTable cfg t) w = w.
Proof. intros He. unfold snapshotTable. by rewrite He. Qed.

(** A table with a recovery point and no failures keeps it. *)
Lemma known_keeps_point t m fm w :
  latest w !! t = Some m -> failures_of t w <= 0 ->
  same_point m (latest (run_state (poll_known_table cfg (Ok fm) t) w) !! t).
Proof.
  intros Hm Hf. unfold poll_known_table. rewrite not_every_poll. cbn [orb is_ok negb].
  unfold mbind, st_bind, gets, run_state.
  pose proof (stable_unchanged t fm w) as Hstable.
  pose proof (minor_stable cfg t (Ok fm) w) as (Hlatest & _ & _ & Hfail & _).
  unfold run_value, run_state in *.
  destruct (tableStableForSnapshot cfg t (Ok fm) w) as [st w1]. cbn [fst snd] in *.
  assert (latest w1 !! t = Some m) as Hm1 by (by rewrite Hlatest).
  assert (failures_of t w1 <= 0) as Hf1 by (unfold failures_of in *; by rewrite Hfail).
  destruct (Z.ltb_spec 0 (failures_of t w1)); [lia|].
  destruct st; cbn [andb].
  - destruct Hstable as [Hne Heq]; [done|]. rewrite Heq, String.eqb_refl.
    destruct (String.eqb_spec (default "" (fingerprints w !! t)) ""); [done|].
    cbn [orb negb andb]. unfold recovery_point. destruct (engine cfg) eqn:He.
    + unfold Latest. rewrite Hm. cbn [orb negb andb when]. by apply refresh_keeps_point.
    + cbn [orb negb]. pose proof (snapshotTable_no_engine t w1 He) as Hs.
      unfold run_state in Hs. rewrite Hs, Hm1. apply same_point_refl.
  - cbn. rewrite Hm1. apply same_point_refl.
Qed.

Lemma spares_point t m w w' :
  spares t w w' -> latest w !! t = Some m -> failures_of t w <= 0 ->
  latest w' !! t = Some m /\ failures_of t w' <= 0.
Proof. unfold failures_of. by intros (-> & -> & _). Qed.

Lemma loop_keeps_point t m fm added tables w :
  NoDup tables -> latest w !! t = Some m -> failures_of t w <= 0 ->
  let body := fun table => if contains added table then mret tt
                           else poll_known_table cfg (Ok fm) table in
  same_point m (latest (run_state (for_range tables body) w) !! t).
Proof.
  intros Hnd Hm Hf body.
  assert (forall l w1, t ∉ l -> spares t w1 (run_state (for_range l body) w1)) as Hother.
  { intros l w1 Hl. apply (keeps_for_range _). intros x Hx. unfold body.
    destruct (contains added x); [apply (keeps_ret _)|]. apply spares_poll_known. by intros ->. }
  destruct (decide (t ∈ tables)) as [Hin|Hout].
  - apply list_elem_of_split in Hin as (l1 & l2 & ->).
    apply NoDup_app in Hnd as (_ & Hdisj & Hnd2). apply NoDup_cons in Hnd2 as [Hl2 _].
    assert (t ∉ l1) as Hl1 by (intros H; apply (Hdisj t H); by left).
    rewrite for_range_app.
    destruct (spares_point t m _ _ (Hother l1 w Hl1) Hm Hf) as [Hm1 Hf1].
    set (w1 := run_state (for_range l1 body) w) in *.
    assert (run_state (for_range (t :: l2) body) w1
      = run_state (for_range l2 body) (run_state (body t) w1)) as ->.
    { cbn [for_range]. unfold run_state at 1. rewrite run_bind. done. }
    destruct (Hother l2 (run_state (body t) w1) Hl2) as (-> & _).
    unfold body. destruct (contains added t); [cbn; rewrite Hm1; apply same_point_refl|].
    by apply known_keeps_point.
  - destruct (spares_point t m _ _ (Hother tables w Hout) Hm Hf) as [-> _].
    apply same_point_refl.
Qed.

Lemma minor_point t m w w' :
  minor w w' -> latest w !! t = Some m -> failures_of t w <= 0 ->
  latest w' !! t = Some m /\ failures_of t w' <= 0.
Proof. unfold failures_of. by intros (-> & _ & _ & -> & _). Qed.

Lemma run_state_bind {S A B} (c : ST S A) (f : A -> ST S B) s :
  run_state (c ≫= f) s = run_state (f (run_value c s)) (run_state c s).
Proof. unfold run_state at 1. by rewrite run_bind. Qed.

Lemma track_added t tables w :
  t ∈ known (tracker w) -> t ∉ (run_value (track tables) w).2.
Proof using Type.
  clear fingerprints_read tables_unique not_every_poll stable_polls.
  intros Hk. unfold run_value, track, Update. destruct (seeded (tracker w)); cbn; set_solver.
Qed.

Lemma poll_tables_keeps_point t m tables w :
  NoDup tables -> t ∈ known (tracker w) -> latest w !! t = Some m -> failures_of t w <= 0 ->
  same_point m (latest (run_state (poll_tables cfg false tables) w) !! t).
Proof.
  intros Hnd Hk Hm Hf. unfold poll_tables. rewrite run_state_bind.
  pose proof (track_added t tables w Hk) as Hadded.
  pose proof (track_frame tables w) as (Hl1 & _ & _ & Hfail1).
  set (w1 := run_state (track tables) w) in *.
  assert (latest w1 !! t = Some m /\ failures_of t w1 <= 0) as [Hm1 Hf1]
    by (unfold failures_of in *; by rewrite Hl1, Hfail1).
  rewrite run_state_bind. destruct (fetch_fingerprints_ok w1) as [fm Hfm]. rewrite Hfm.
  destruct (minor_point t m w1 _ (minor_fingerprints cfg w1) Hm1 Hf1) as [Hm2 Hf2].
  set (w2 := run_state (fetchTableFingerprints cfg) w1) in *.
  rewrite !run_state_bind. cbn zeta.
  set (w3 := run_state (for_range _ (capture_if_stable cfg (Ok fm))) w2).
  assert (spares t w2 w3) as Hs.
  { apply (keeps_for_range _). intros x Hx. apply spares_capture_if_stable. by intros ->. }
  destruct (spares_point t m _ _ Hs Hm2 Hf2) as [Hm3 Hf3].
  pose proof (loop_keeps_point t m fm (run_value (track tables) w).2 tables w3 Hnd Hm3 Hf3)
    as Hloop. cbv zeta in Hloop.
  set (w4 := run_state (for_range tables _) w3) in *. cbv zeta in Hloop. fold w4 in Hloop.
  destruct (minor_end_of_poll cfg (run_value (track tables) w).1 tables
    (run_state (modify (set_fingerprints fm)) w4)) as [Hend _].
  rewrite !run_state_bind in Hend. rewrite Hend. exact Hloop.
Qed.

(** C32. Under the default strategy a recovery point is never renewed.  However the
    table's contents change, a poll does not capture again a table that has a
    recovery point, was seen by the last poll, and has no failed capture: the
    fingerprint must have been the same for some polls before the table may be
    captured, and then it is no longer different from the last poll's.  The point
    stays the old snapshot; at most the time it was last verified moves. *)
Theorem recovery_point_never_renewed t m w :
  t ∈ known (tracker w) -> latest w !! t = Some m -> failures_of t w <= 0 ->
  same_point m (latest (run_state (poll cfg false) w) !! t).
Proof.
  intros Hk Hm Hf. unfold poll. rewrite run_state_bind.
  pose proof (fetch_tables_nodup w) as Hnd.
  assert (forall A (c : ST SWorld A) w1, keeps minor c ->
    t ∈ known (tracker w1) /\ latest w1 !! t = Some m /\ failures_of t w1 <= 0 ->
    let w2 := run_state c w1 in
    t ∈ known (tracker w2) /\ latest w2 !! t = Some m /\ failures_of t w2 <= 0) as Hkeep.
  { intros A c w1 Hc (H1 & H2 & H3). destruct (Hc w1) as (Hl & _ & _ & Hfl & Ht & _).
    cbv zeta. unfold failures_of in *. by rewrite Ht, Hl, Hfl. }
  assert (forall A (c : ST SWorld A) w1, keeps minor c ->
    t ∈ known (tracker w1) /\ latest w1 !! t = Some m /\ failures_of t w1 <= 0 ->
    same_point m (latest (run_state c w1) !! t)) as Hdone.
  { intros A c w1 Hc H. destruct (Hkeep A c w1 Hc H) as (_ & -> & _). apply same_point_refl. }
  pose proof (Hkeep _ _ w (minor_fetchTables cfg) ltac:(done)) as H1. cbv zeta in H1.
  set (w1 := run_state (fetchTables cfg) w) in *.
  destruct (run_value (fetchTables cfg) w) as [tables|e]; [|apply Hdone; [keep|done]].
  specialize (filterTables_nodup tables (Hnd tables eq_refl)) as Hnd'.
  rewrite run_state_bind.
  set (c := with_metadata _). assert (keeps minor c) as Hc by (unfold c; keep).
  pose proof (Hkeep _ c w1 Hc H1) as H2. cbv zeta in H2. set (w2 := run_state c w1) in *.
  destruct (run_value c w1) as [u|e]; [|apply Hdone; [keep|done]].
  rewrite run_state_bind. pose proof (Hkeep _ _ w2 (minor_pollBypass cfg) H2) as H3.
  cbv zeta in H3. set (w3 := run_state (pollBypass cfg) w2) in *.
  rewrite run_state_bind. change (run_state (gets (snapshotPaused cfg)) w3) with w3.
  change (run_value (gets (snapshotPaused cfg)) w3) with (snapshotPaused cfg w3).
  destruct (snapshotPaused cfg w3); [apply Hdone; [keep|done]|].
  destruct H3 as (? & ? & ?). by apply poll_tables_keeps_point.
Qed.
End default_strategy.

(** ** The first poll *)
Section first_poll.
Context `{env : SyncEnv}.
Variable cfg : SConfig.
Hypothesis not_every_poll : snapshotEveryPoll cfg = false.
Hypothesis stable_polls : 1 <= minStablePolls cfg.
Hypothesis fingerprints_read :
  forall db, is_ok (fingerprints_of (sql_query fingerprints_sql [schema cfg] db).1) = true.

(** Without fingerprints of an earlier poll nothing is captured. *)
Definition unshot (w w' : SWorld) : Prop :=
  fingerprints w = ∅ -> latest w' = latest w /\ store w' = store w /\ fingerprints w' = ∅.
#[local] Instance unshot_preorder : PreOrder unshot.
Proof.
  split; unfold unshot; [done|]. intros w1 w2 w3 H1 H2 H0.
  destruct (H1 H0) as (? & ? & H3), (H2 H3) as (? & ? & ?). split_and!; congruence.
Qed.

Lemma unshot_minor {A} (c : ST SWorld A) : keeps minor c -> keeps unshot c.
Proof. apply keeps_weaken. unfold minor, unshot. by intros w w' (-> & -> & -> & _ & _). Qed.

Lemma unshot_capture t fm : keeps unshot (capture_if_stable cfg (Ok fm) t).
Proof.
  intros w Hf. unfold capture_if_stable. rewrite run_state_bind.
  pose proof (stable_unchanged cfg not_every_poll stable_polls t fm w) as Hst.
  pose proof (minor_stable cfg t (Ok fm) w) as (Hl & Hs & Hfp & _).
  destruct (run_value (tableStableForSnapshot cfg t (Ok fm)) w).
  - destruct Hst as [Hne _]; [done|]. by rewrite Hf, lookup_empty in Hne.
  - cbn [when]. unfold run_state in *. cbn. by rewrite Hl, Hs, Hfp.
Qed.

(** Snapshots on start-up are never taken: under the default strategy the first
    poll of a process captures no table, whatever -snapshot-on-start says and
    whatever tables it finds, because no table has shown the same fingerprint
    before. *)
Theorem first_poll_captures_nothing w :
  fingerprints w = ∅ ->
  latest (run_state (poll cfg true) w) = latest w /\ store (run_state (poll cfg true) w) = store w.
Proof.
  assert (keeps (fun w w' => fingerprints w = ∅ -> latest w' = latest w /\ store w' = store w)
    (poll cfg true)) as H; [|exact (H w)].
  assert (forall A (c : ST SWorld A), keeps unshot c -> keeps (fun w w' =>
    fingerprints w = ∅ -> latest w' = latest w /\ store w' = store w) c) as Hweak.
  { intros A c. apply keeps_weaken. intros w1 w2 H1 H0. by destruct (H1 H0) as (? & ? & _). }
  clear w. intros w Hf. unfold poll.
  assert (forall A B (c : ST SWorld A) (f : A -> ST SWorld B) w1, keeps minor c ->
    fingerprints w1 = ∅ -> latest w1 = latest w /\ store w1 = store w ->
    (forall w2, fingerprints w2 = ∅ -> latest w2 = latest w /\ store w2 = store w ->
       let w3 := run_state (f (run_value c w1)) w2 in latest w3 = latest w /\ store w3 = store w) ->
    let w3 := run_state (c ≫= f) w1 in latest w3 = latest w /\ store w3 = store w) as Hstep.
  { intros A B c f w1 Hc H1 [H2 H3] Hrest. cbv zeta. rewrite run_state_bind.
    destruct (Hc w1) as (Hl & Hs & Hfp & _). apply Hrest; [by rewrite Hfp|split; congruence]. }
  assert (forall A (c : ST SWorld A) w1, keeps minor c -> latest w1 = latest w /\ store w1 = store w ->
    let w3 := run_state c w1 in latest w3 = latest w /\ store w3 = store w) as Hend.
  { intros A c w1 Hc [H2 H3]. destruct (Hc w1) as (Hl & Hs & _). split; congruence. }
  apply Hstep; [keep|done|done|]. intros w1 F1 L1.
  destruct (run_value _ w) as [tables|e]; [|apply Hend; [keep|done]].
  apply Hstep; [keep|done|done|]. intros w2 F2 L2. cbv zeta.
  destruct (run_value _ w1) as [u|e]; [|apply Hend; [keep|done]].
  apply Hstep; [keep|done|done|]. intros w3 F3 L3.
  apply Hstep; [keep|done|done|]. intros w4 F4 L4. cbv zeta.
  destruct (run_value _ w3); [apply Hend; [keep|done]|].
  unfold poll_tables. rewrite run_state_bind.
  pose proof (track_frame (filterTables cfg tables) w4) as (T1 & T2 & T3 & _).
  set (w5 := run_state (track _) w4) in *. rewrite run_state_bind.
  destruct (fetch_fingerprints_ok cfg fingerprints_read w5) as [fm ->].
  destruct (minor_fingerprints cfg w5) as (S1 & S2 & S3 & _).
  set (w6 := run_state (fetchTableFingerprints cfg) w5) in *.
  assert (fingerprints w6 = ∅) as F6 by congruence.
  rewrite run_state_bind.
  assert (keeps unshot (when (snapshotOnStart cfg)
    (for_range (filterTables cfg tables) (capture_if_stable cfg (Ok fm))))) as Hloop.
  { apply (keeps_when _), (keeps_for_range _). intros t _. apply unshot_capture. }
  destruct (Hloop w6 F6) as (U1 & U2 & _). set (w7 := run_state (when _ _) w6) in *.
  rewrite run_state_bind.
  apply (Hend _ _ _ (minor_end_of_poll cfg _ (filterTables cfg tables))).
  destruct L4. split; cbn; congruence.
Qed.
End first_poll.

(** ** The recovery points *)
Section points.
Context `{env : SyncEnv}.
Variable cfg : SConfig.

(** A point the gateway can use for the table. *)
Definition point_valid (t : string) (m : SnapshotManifest) : Prop :=
  SnapshotID m <> "" /\ TableName m = t /\ Writer m = sidecarWriter /\ SnapshotScope m = "table"
  /\ manifest_Status m = "valid" /\ TrimSpace (DataSHA256 m) <> ""
  /\ S3Bucket m = Bucket (storage cfg) /\ S3DataKey m = dataKey cfg t (SnapshotID m)
  /\ S3ManifestKey m = manifestKey cfg t (SnapshotID m).
Definition points_valid (w : SWorld) : Prop :=
  forall t m, latest w !! t = Some m -> point_valid t m.

Definition keeps_valid (w w' : SWorld) : Prop := points_valid w -> points_valid w'.
#[local] Instance keeps_valid_preorder : PreOrder keeps_valid.
Proof. split; unfold keeps_valid; auto. Qed.

Lemma valid_minor {A} (c : ST SWorld A) : keeps minor c -> keeps keeps_valid c.
Proof.
  apply keeps_weaken. unfold minor, keeps_valid, points_valid. by intros w w' (-> & _).
Qed.

Lemma valid_insert t m w : point_valid t m -> points_valid w ->
  forall w', latest w' = <[t := m]> (latest w) -> points_valid w'.
Proof.
  intros Hm Hw w' Hl t' m'. rewrite Hl, lookup_insert_Some.
  by intros [[<- <-]|[_ ?]]; [|apply Hw].
Qed.

Lemma snapshotID_not_empty w : (generateSnapshotID w).1 <> "".
Proof. unfold generateSnapshotID. by destruct (random_bytes _). Qed.

Lemma valid_CaptureTable t : keeps keeps_valid (CaptureTable cfg t).
Proof.
  intros w Hw. pose proof (CaptureTable_captured cfg t w) as H.
  assert (latest (run_state (CaptureTable cfg t) w) = latest w ->
    points_valid (run_state (CaptureTable cfg t) w)) as Hsame
    by (intros Hl; unfold points_valid; by rewrite Hl).
  inversion H; try (by apply Hsame). eapply (valid_insert t); [|exact Hw|done].
  unfold point_valid. split_and!; try done. apply snapshotID_not_empty.
Qed.

Lemma valid_VerifyLatest t : keeps keeps_valid (VerifyLatest t).
Proof.
  intros w Hw. destruct (VerifyLatest_latest t w) as [->|(m & v & Hm & ->)]; [done|].
  apply (valid_insert t (with_VerifiedAt v m) w); [|done|done]. by destruct (Hw t m Hm).
Qed.

Lemma points_valid_poll startup w :
  points_valid w -> points_valid (run_state (poll cfg startup) w).
Proof.
  revert w. change (keeps keeps_valid (poll cfg startup)).
  apply (traverse_poll cfg keeps_valid).
  - intros A c. apply valid_minor.
  - apply valid_CaptureTable.
  - apply valid_VerifyLatest.
  - by intros g w Hw.
  - by intros g w Hw.
  - intros tables w Hw. unfold points_valid. destruct (track_frame tables w) as [-> _]. done.
Qed.

(** ** The heartbeat the gateway relies on *)
Definition ready_table (w : SWorld) (t : string) : Prop :=
  failures_of t w <= 0
  /\ exists m, recovery_point cfg t w = Some m /\ manifest_Status m = "valid"
       /\ DataSHA256 m <> "" /\ too_old cfg (now w) m = false.

Lemma is_empty_filter {A} (f : A -> bool) l :
  is_empty (List.filter f l) = true <-> forall x, x ∈ l -> f x = false.
Proof.
  induction l as [|a l IH]; cbn [List.filter]; [set_solver|].
  destruct (f a) eqn:Ha; [|set_solver]. split; [done|]. intros H.
  by rewrite (H a (list_elem_of_here a l)) in Ha.
Qed.

Lemma readiness_healthy_iff tables w :
  readiness_status cfg tables w = "healthy" <-> forall t, t ∈ tables -> ready_table w t.
Proof.
  unfold readiness_status.
  transitivity (is_empty (missing_tables cfg tables w) && is_empty (failing_tables tables w)
    && is_empty (stale_tables cfg tables w) = true); [by destruct (_ && _)|].
  rewrite !andb_true_iff. unfold missing_tables, failing_tables, stale_tables.
  rewrite !is_empty_filter. unfold ready_table, usable_point. split.
  - intros [[H1 H2] H3] t Ht. specialize (H1 t Ht). specialize (H2 t Ht). specialize (H3 t Ht).
    cbn beta in *. apply Z.ltb_ge in H2. apply negb_false_iff in H1. split; [done|].
    destruct (recovery_point cfg t w) as [m|]; [|done].
    rewrite H1 in H3. apply andb_true_iff in H1 as [Hs%String.eqb_eq Hd%negb_true_iff].
    apply String.eqb_neq in Hd. by exists m.
  - intros H. split; [split|]; intros t Ht; destruct (H t Ht) as (Hf & m & Hm & Hs & Hd & Ho);
      cbn beta; rewrite ?Hm.
    + apply negb_false_iff, andb_true_iff. split; [by apply String.eqb_eq|].
      by apply negb_true_iff, String.eqb_neq.
    + by apply Z.ltb_ge.
    + by rewrite Ho, andb_false_r.
Qed.

(** C33. The heartbeat says healthy exactly when every table is recoverable: with a
    metadata database that can be written, the status the gateway will read is
    healthy if and only if every table of the poll has no failure since its last
    capture or verification and a valid point with a hash that is not too old. *)
Theorem heartbeat_healthy_iff tables w s :
  metadata w = Some s -> available s = true ->
  let w' := run_state (updateRecoveryReadiness cfg tables) w in
  (health_status <$> (metadata w' ≫= fun s' => health_checks s' !! "sync")) = Some "healthy"
  <-> forall t, t ∈ tables -> ready_table w t.
Proof.
  intros Hs Ha w'. rewrite <- readiness_healthy_iff.
  assert ((health_status <$> (metadata w' ≫= fun s' => health_checks s' !! "sync"))
    = Some (readiness_status cfg tables w)) as ->; [|by split; [intros [=]|intros ->]].
  unfold w', updateRecoveryReadiness. rewrite !run_state_bind.
  unfold run_value at 1, run_state at 2. unfold gets at 1, set_health_metric, modify.
  unfold run_state, run_value, with_metadata, gets. cbn. rewrite Hs. cbn.
  unfold RecordHealth, withTx. rewrite Ha. cbn. by rewrite lookup_insert_eq.
Qed.
End points.

(** ** Polls of a concrete sidecar *)
Section witnesses.
#[local] Existing Instance memory_env.

Lemma demo_fingerprints_read db :
  is_ok (fingerprints_of (sql_query fingerprints_sql [schema memory_config] db).1) = true.
Proof. reflexivity. Qed.

Lemma demo_tables_unique db l :
  tables_of (sql_query fetchTables_sql [schema memory_config] db).1 = Ok l -> NoDup l.
Proof. intros H. vm_compute in H. injection H as <-. apply NoDup_singleton. Qed.

(** The table was captured with one insertion; five have been made since. *)
Definition demo_point : SnapshotManifest :=
  new_manifest memory_config 0 "users" "snap_1" "" [] [] [] 1 (sha256_hex "7").
Definition demo_changed : SWorld :=
  set_sdb 5 (set_latest {["users" := demo_point]}
    (set_fingerprints {["users" := "users:1:0:0:1:0"]}
      (set_tracker {| known := {["users"]}; seeded := true |} (memory_world 0)))).

Lemma recovery_point_never_renewed_witness :
  fetchTableFingerprints memory_config demo_changed
    = (Ok {["users" := "users:5:0:0:1:0"]}, demo_changed)
  /\ same_point demo_point
       (latest (run_state (poll memory_config false) demo_changed) !! "users").
Proof.
  split; [vm_compute; reflexivity|].
  apply (recovery_point_never_renewed memory_config eq_refl ltac:(cbn; lia)
    demo_fingerprints_read demo_tables_unique "users" demo_point demo_changed).
  - cbn. set_solver.
  - reflexivity.
  - vm_compute. discriminate.
Defined.

Lemma first_poll_captures_nothing_witness :
  run_value (fetchTables memory_config) (memory_world 0) = Ok ["users"]
  /\ latest (run_state (poll memory_config true) (memory_world 0)) = latest (memory_world 0)
  /\ store (run_state (poll memory_config true) (memory_world 0)) = store (memory_world 0).
Proof.
  split; [vm_compute; reflexivity|].
  apply (first_poll_captures_nothing memory_config eq_refl ltac:(cbn; lia)
    demo_fingerprints_read (memory_world 0)).
  reflexivity.
Defined.

Lemma heartbeat_healthy_iff_witness :
  (health_status <$> (metadata (run_state (updateRecoveryReadiness memory_config ["users"])
    demo_changed) ≫= fun s' => health_checks s' !! "sync")) = Some "healthy"
  <-> forall t, t ∈ ["users"] -> ready_table memory_config demo_changed t.
Proof.
  apply (heartbeat_healthy_iff memory_config ["users"] demo_changed empty_store); reflexivity.
Defined.
End witnesses.
