(* ===== verification/SyncProvenance.v ===== *)
(** * Where the manifests in the bucket come from

    What a sidecar does to the bucket is a sequence of captures; everything else it
    does leaves the bucket alone.  [later] is that abstraction of its runs, and
    every poll refines it.  In a bucket that only the sidecar writes, each manifest
    was offered by a capture whose data had been uploaded and read back. *)
From S2P Require Import Prelude GoString GoTime Json JsonText Storage Sha256 Postgres.
From S2P Require Import SnapshotVerifier SyncDelta SyncWorld SyncSnapshot EndToEnd SyncPoller SyncPollerProperties.

Open Scope Z_scope.

Section moves.
Context `{env : SyncEnv}.
Variable cfg : SConfig.

(** What does not touch the bucket, nor draw an id it then forgets. *)
Definition still (w w' : SWorld) : Prop := store w' = store w /\ (draws w <= draws w')%nat.

(** A capture of [t] from [w] has uploaded rows, which left the store [s1], and has
    read them back with the hash that is in the manifest [m]. *)
Definition uploaded (t : string) (w : SWorld) (m : SnapshotManifest) (s1 : Store) : Prop :=
  let sid := (generateSnapshotID w).1 in
  exists bytes b ddl fks checks idxs n,
    m = new_manifest cfg (now w) t sid ddl fks checks idxs n (sha256_hex bytes)
    /\ PutObject (dataKey cfg t sid) bytes (store w) = (Ok tt, s1)
    /\ GetObject (dataKey cfg t sid) s1 = Ok (Ok b)
    /\ EqualFold (sha256_hex b) (sha256_hex bytes) = true /\ TrimSpace (sha256_hex bytes) <> "".

(** The stores between the operations of a capture, where it may be cut short. *)
Inductive capture_cut (t : string) (w : SWorld) : Store -> Prop :=
  | cut_data bytes :
      capture_cut t w (PutObject (dataKey cfg t (generateSnapshotID w).1) bytes (store w)).2
  | cut_manifest m s1 :
      uploaded t w m s1 ->
      capture_cut t w (PutObject (S3ManifestKey m) (json_indent (enc_manifest m)) s1).2.

(** A capture ends, or the process dies in it. *)
Inductive capture_move (t : string) (w : SWorld) : SWorld -> Prop :=
  | capture_ends : capture_move t w (run_state (CaptureTable cfg t) w)
  | capture_dies w' :
      capture_cut t w (store w') -> (draws w < draws w')%nat -> capture_move t w w'.

(** The two things that happen to the bucket. *)
Inductive move : SWorld -> SWorld -> Prop :=
  | move_still w w' : still w w' -> move w w'
  | move_capture t w w' : capture_move t w w' -> move w w'.

Definition later : SWorld -> SWorld -> Prop := rtc move.

#[local] Instance later_preorder : PreOrder later.
Proof. unfold later. typeclasses eauto. Qed.

Lemma later_still w w' : still w w' -> later w w'.
Proof. intros H. by apply rtc_once, move_still. Qed.

Lemma later_same w w' : store w' = store w -> draws w' = draws w -> later w w'.
Proof. intros Hs Hd. apply later_still. split; [done|lia]. Qed.

Lemma keeps_later_minor {A} (c : ST SWorld A) : keeps minor c -> keeps later c.
Proof. apply keeps_weaken. intros w w' (_ & ? & _ & _ & _ & ?). by apply later_same. Qed.

(** Every poll is a sequence of moves. *)
Lemma poll_moves startup w : later w (run_state (poll cfg startup) w).
Proof.
  revert w. change (keeps later (poll cfg startup)). apply (traverse_poll cfg later).
  - intros A c. apply keeps_later_minor.
  - intros t w. eapply rtc_once, move_capture, capture_ends.
  - intros t w. destruct (VerifyLatest_latest t w) as [->|(m & v & _ & ->)]; [done|].
    by apply later_same.
  - intros g w. by apply later_same.
  - intros m w. by apply later_same.
  - intros tables w. apply later_same; unfold run_state, track;
      by destruct (Update tables (tracker w)) as [[] ?].
Qed.

(** ** Manifests *)

(** A capture from [w] put [m] into the bucket: the put may have been reported as
    failed. *)
Definition offered (w : SWorld) (m : SnapshotManifest) : Prop :=
  exists s1, uploaded (TableName m) w m s1.

(** ... between the states [w0] and [w] of the sidecar. *)
Definition captured_during (w0 w : SWorld) (m : SnapshotManifest) : Prop :=
  exists w1 w2, later w0 w1 /\ offered w1 m /\ capture_move (TableName m) w1 w2 /\ later w2 w.

Lemma captured_during_later w0 w w' m :
  captured_during w0 w m -> later w w' -> captured_during w0 w' m.
Proof. intros (w1 & w2 & ? & ? & ? & ?) Hl. exists w1, w2. split_and!; [done..|]. by transitivity w. Qed.

(** Every manifest in the bucket was offered since [w0]. *)
Definition bucket_from (w0 w : SWorld) : Prop :=
  forall key body, HasSuffix key manifest_suffix = true ->
    GetObject key (store w) = Ok (Ok body) ->
    exists m, captured_during w0 w m /\ key = S3ManifestKey m
      /\ body = json_indent (enc_manifest m).

Lemma dataKey_not_manifest t sid : HasSuffix (dataKey cfg t sid) manifest_suffix = false.
Proof. unfold HasSuffix, dataKey. by rewrite rev_string_append. Qed.

Lemma not_dataKey key t sid : HasSuffix key manifest_suffix = true -> key <> dataKey cfg t sid.
Proof. intros H ->. by rewrite dataKey_not_manifest in H. Qed.

Section laws.
Context {laws : BucketLaws env} {atomic : BucketAtomic env}.

Lemma put_data_read key t sid bytes s r s1 :
  HasSuffix key manifest_suffix = true -> PutObject (dataKey cfg t sid) bytes s = (r, s1) ->
  GetObject key s1 = GetObject key s.
Proof. intros Hk Hput. eapply put_other; [|exact Hput]. by apply not_dataKey. Qed.

Lemma delete_data_read key t sid s :
  HasSuffix key manifest_suffix = true ->
  GetObject key (DeleteObject (dataKey cfg t sid) s).2 = GetObject key s.
Proof. intros Hk. by apply delete_other, not_dataKey. Qed.

(** What a body under a manifest's key is after a capture of [t] from [w]. *)
Definition old_or_offered (t : string) (w : SWorld) (key body : string) : Prop :=
  GetObject key (store w) = Ok (Ok body)
  \/ exists m, offered w m /\ TableName m = t /\ key = S3ManifestKey m
       /\ body = json_indent (enc_manifest m).

Lemma put_manifest_read t w m key body s1 r s2 :
  uploaded t w m s1 -> PutObject (S3ManifestKey m) (json_indent (enc_manifest m)) s1 = (r, s2) ->
  HasSuffix key manifest_suffix = true -> GetObject key s2 = Ok (Ok body) ->
  old_or_offered t w key body.
Proof.
  intros Hu Hput Hk. assert (TableName m = t) as Ht by (by destruct Hu as (? & ? & ? & ? & ? & ? & ? & -> & _)).
  assert (GetObject key s1 = GetObject key (store w)) as H1.
  { destruct Hu as (? & ? & ? & ? & ? & ? & ? & _ & Hd & _). by eapply put_data_read. }
  destruct (decide (key = S3ManifestKey m)) as [->|Hne].
  - intros [->|Hget]%(put_atomic _ _ _ _ _ _ Hput); [right|left; congruence].
    exists m. split; [exists s1; by rewrite Ht|done].
  - rewrite (put_other _ _ _ _ _ _ Hne Hput), H1. by left.
Qed.

(** A capture changes at most its own manifest among the manifests, also one that is
    cut short. *)
Lemma capture_manifests t w w' key body :
  capture_move t w w' -> HasSuffix key manifest_suffix = true ->
  GetObject key (store w') = Ok (Ok body) -> old_or_offered t w key body.
Proof.
  intros [|w1 Hcut _] Hk.
  - pose proof (CaptureTable_captured cfg t w) as Hc. set (sid := (generateSnapshotID w).1) in *.
    inversion Hc as [e w1 Hs Hl|e e' bytes w1 Hput Hl|e bytes s1 w1 Hput _ Hs Hl
      |e e' bytes b ddl fks checks idxs n s1 s2 w1 m Hput Hget Heq Hne Hputm Hs Hl
      |bytes b ddl fks checks idxs n s1 w1 m Hput Hget Heq Hne Hputm Hl]; subst.
    + rewrite Hs. by left.
    + rewrite (put_data_read _ _ _ _ _ _ _ Hk Hput). by left.
    + rewrite Hs, delete_data_read, (put_data_read _ _ _ _ _ _ _ Hk Hput) by done. by left.
    + rewrite Hs, delete_data_read by done. eapply (put_manifest_read t w m); [|done..].
      by repeat eexists.
    + eapply (put_manifest_read t w m); [|done..]. by repeat eexists.
  - inversion Hcut as [bytes Hs|m s1 Hu Hs].
    + destruct (PutObject _ bytes _) as [r s1] eqn:Hput. cbn [snd] in Hs |- *. subst s1.
      rewrite (put_data_read _ _ _ _ _ _ _ Hk Hput). by left.
    + destruct (PutObject _ _ s1) as [r s2] eqn:Hput. cbn [snd] in Hs |- *. subst s2.
      by eapply put_manifest_read.
Qed.

Lemma bucket_from_move w0 w w' :
  later w0 w -> move w w' -> bucket_from w0 w -> bucket_from w0 w'.
Proof.
  intros Hw Hm Hb key body Hk Hget. pose proof (rtc_once _ _ Hm) as Hl. fold later in Hl.
  assert (GetObject key (store w) = Ok (Ok body) -> exists m, captured_during w0 w' m
    /\ key = S3ManifestKey m /\ body = json_indent (enc_manifest m)) as Hold.
  { intros H. destruct (Hb key body Hk H) as (m & Hc & ?). exists m. split; [|done].
    by eapply captured_during_later. }
  destruct Hm as [w w' [Hs _]|t w w' Hc]; [apply Hold; congruence|].
  destruct (capture_manifests t w w' key body Hc Hk Hget) as [?|(m & Ho & Ht & Hkey)]; [by apply Hold|].
  exists m. split; [|done]. exists w, w'. rewrite Ht. by split_and!.
Qed.

Lemma bucket_from_later w0 w w' :
  later w0 w -> later w w' -> bucket_from w0 w -> bucket_from w0 w'.
Proof.
  intros Hw Hl. revert Hw. induction Hl as [|w w1 w2 Hm Hl IH]; [done|]. intros Hw Hb.
  apply IH; [|by eapply bucket_from_move].
  transitivity w; [done|by apply rtc_once].
Qed.
End laws.
End moves.

#[export] Existing Instance later_preorder.
