(* ===== verification/SyncDurability.v ===== *)
(** * What was captured stays

    The sidecar writes and deletes only under the id of the capture it is in.  As
    long as no id is drawn twice, the data and the manifest of an earlier capture
    are neither changed nor deleted, whatever later captures do, and wherever the
    process dies. *)
From S2P Require Import Prelude GoString GoTime Json JsonText Storage Sha256 Postgres.
From S2P Require Import SnapshotVerifier SyncDelta SyncMetrics SyncWorld SyncSnapshot EndToEnd SyncPoller.
From S2P Require Import SyncPollerProperties SyncProvenance.

Open Scope Z_scope.

(** ** Keys *)
Lemma append_inj_r s t u : s +:+ u = t +:+ u -> s = t.
Proof.
  intros H%(f_equal rev_string). rewrite !rev_string_append in H. apply append_inj_l in H.
  by rewrite <- (rev_string_involutive s), H, rev_string_involutive.
Qed.

(** The last segment of a path. *)
Lemma last_segment a b x y :
  has_byte "/" x = false -> has_byte "/" y = false -> a +:+ "/" +:+ x = b +:+ "/" +:+ y -> x = y.
Proof.
  intros Hx Hy. revert b. induction a as [|c a IH]; intros [|d b].
  - apply (append_inj_l "/").
  - intros [= _ Hx']. change (x = b +:+ "/" +:+ y) in Hx'.
    rewrite Hx', !has_byte_append in Hx. cbn in Hx. by rewrite orb_true_r in Hx.
  - intros [= _ Hy']. change (a +:+ "/" +:+ x = y) in Hy'.
    rewrite <- Hy', !has_byte_append in Hy. cbn in Hy. by rewrite orb_true_r in Hy.
  - rewrite !append_cons. intros [= _ H]. by apply (IH b).
Qed.

Lemma hex_not_slash d : 0 <= d < 16 -> Ascii.eqb (hex_digit d) "/" = false.
Proof.
  intros Hd. assert (exists n, d = Z.of_nat n /\ (n < 16)%nat) as (n & -> & Hn)
    by (exists (Z.to_nat d); lia).
  do 16 (destruct n as [|n]; [reflexivity|]). lia.
Qed.

Lemma hex_encode_no_slash bs :
  Forall (fun b => 0 <= b < 256) bs -> has_byte "/" (hex_encode bs) = false.
Proof.
  induction 1 as [|b bs Hb _ IH]; [done|]. cbn [hex_encode has_byte].
  rewrite !hex_not_slash, IH; [done|..].
  - apply Z.mod_pos_bound. lia.
  - split; [apply Z.div_pos; lia|apply Z.div_lt_upper_bound; lia].
Qed.

Lemma hex_digits_no_slash fuel n acc :
  has_byte "/" acc = false -> has_byte "/" (hex_digits fuel n acc) = false.
Proof.
  revert n acc. induction fuel as [|fuel IH]; intros n acc Hacc; [done|]. cbn [hex_digits].
  assert (has_byte "/" (String (hex_char (n mod 16)) acc) = false) as H.
  { cbn [has_byte]. rewrite Hacc, orb_false_r. apply hex_not_slash, Z.mod_pos_bound. lia. }
  destruct (n <? 16); [done|by apply IH].
Qed.

Section durability.
Context `{env : SyncEnv}.
Variable cfg : SConfig.

(** The random source gives bytes, and the first [n] ids of a run differ. *)
Record fresh_until (n : nat) : Prop := {
  fresh_bytes : forall k bs, random_bytes k = Some bs -> Forall (fun b => 0 <= b < 256) bs;
  fresh_ids : forall w1 w2 : SWorld, (draws w1 < n)%nat -> (draws w2 < n)%nat ->
    (generateSnapshotID w1).1 = (generateSnapshotID w2).1 -> draws w1 = draws w2;
}.

Lemma fresh_until_le n n' : (n <= n')%nat -> fresh_until n' -> fresh_until n.
Proof. intros Hn [Hb Hi]. split; [done|]. intros w1 w2 ? ?. apply Hi; lia. Qed.

Lemma id_no_slash n (w : SWorld) : fresh_until n -> has_byte "/" (generateSnapshotID w).1 = false.
Proof.
  intros [Hb _]. unfold generateSnapshotID. cbn [fst].
  destruct (random_bytes (draws w)) as [bs|] eqn:Hbs.
  - rewrite has_byte_append. by rewrite hex_encode_no_slash by (by eapply Hb).
  - rewrite has_byte_append. unfold itoa_hex.
    destruct (wrap64 (now w) <? 0); cbn [has_byte]; by rewrite hex_digits_no_slash.
Qed.

Lemma base_key_id t t' sid sid' :
  has_byte "/" sid = false -> has_byte "/" sid' = false ->
  base_key cfg t sid = base_key cfg t' sid' -> sid = sid'.
Proof.
  intros H1 H2. unfold base_key. rewrite <- !append_assoc. rewrite !append_assoc.
  rewrite <- (append_assoc _ "/snapshots/"), <- (append_assoc _ (safeTableKey t)).
  rewrite <- (append_assoc _ "/snapshots/" (safeTableKey t' +:+ _)).
  rewrite <- (append_assoc _ (safeTableKey t')). by apply last_segment.
Qed.

(** ** Draws *)
Definition grows (w w' : SWorld) : Prop := (draws w <= draws w')%nat.
#[local] Instance grows_preorder : PreOrder grows.
Proof. split; unfold grows; [intros w|intros w1 w2 w3]; lia. Qed.

Lemma grows_query sql args : keeps grows (query sql args).
Proof. intros w. unfold run_state, query, grows. by destruct (sql_query _ _ _). Qed.
Lemma grows_put key body : keeps grows (put key body).
Proof. intros w. unfold run_state, put, grows. by destruct (PutObject _ _ _). Qed.
Lemma grows_cleanup key : keeps grows (cleanupOrphanedData key).
Proof. intros w. unfold grows. cbn. lia. Qed.
Lemma grows_set_latest g : keeps grows (modify (fun w => set_latest (g w) w)).
Proof. intros w. unfold grows. cbn. lia. Qed.
#[local] Hint Resolve grows_query grows_put grows_cleanup grows_set_latest : keeps.

Lemma capture_draws t w : (draws w < draws (run_state (CaptureTable cfg t) w))%nat.
Proof.
  unfold CaptureTable. rewrite run_state_bind.
  change (draws w < draws (run_state ?c (run_state generateSnapshotID w)))%nat
    with (grows (run_state generateSnapshotID w) (run_state c (run_state generateSnapshotID w))).
  match goal with |- grows ?w1 (run_state ?c ?w1) => assert (keeps grows c) as H; [|exact (H w1)] end.
  unfold tableDDL, primaryKeys, fkConstraints, checkConstraints, indexes, writeTableParquet,
    commit_capture, query_all. keep.
Qed.

Lemma capture_move_draws t w w' : capture_move cfg t w w' -> (draws w < draws w')%nat.
Proof. intros [|w1 _ ?]; [apply capture_draws|done]. Qed.

Lemma later_draws w w' : later cfg w w' -> (draws w <= draws w')%nat.
Proof.
  induction 1 as [|w w1 w2 Hm _ IH]; [done|].
  destruct Hm as [w w1 [_ ?]|t w w1 Hc%capture_move_draws]; lia.
Qed.

(** ** Old keys *)

(** The two keys a capture under [sid] writes. *)
Definition owned (sid key : string) : Prop :=
  exists t, key = dataKey cfg t sid \/ key = manifestKey cfg t sid.

Lemma owned_id sid sid' key :
  has_byte "/" sid = false -> has_byte "/" sid' = false ->
  owned sid key -> owned sid' key -> sid = sid'.
Proof.
  intros H1 H2 [t [->| ->]] [t' [Hk|Hk]].
  - apply append_inj_r in Hk. by eapply base_key_id.
  - exfalso. pose proof (dataKey_not_manifest cfg t sid) as Hd.
    by rewrite Hk, manifestKey_suffix in Hd.
  - exfalso. pose proof (dataKey_not_manifest cfg t' sid') as Hd.
    by rewrite <- Hk, manifestKey_suffix in Hd.
  - apply append_inj_r in Hk. by eapply base_key_id.
Qed.

Section laws.
Context {laws : BucketLaws env} {atomic : BucketAtomic env}.

(** A capture leaves other keys alone. *)
Lemma captured_other t sid w r w' key :
  captured cfg t sid w r w' -> key <> dataKey cfg t sid -> key <> manifestKey cfg t sid ->
  GetObject key (store w') = GetObject key (store w).
Proof.
  intros Hc Hd Hk. inversion Hc as [e w1 Hs Hl|e e' bytes w1 Hput Hl|e bytes s1 w1 Hput _ Hs Hl
    |e e' bytes b ddl fks checks idxs n s1 s2 w1 m Hput Hget Heq Hne Hputm Hs Hl
    |bytes b ddl fks checks idxs n s1 w1 m Hput Hget Heq Hne Hputm Hl]; subst.
  + by rewrite Hs.
  + exact (put_other _ _ _ _ _ _ Hd Hput).
  + rewrite Hs, delete_other by done. exact (put_other _ _ _ _ _ _ Hd Hput).
  + rewrite Hs, delete_other by done.
    rewrite (put_other _ _ _ _ _ _ Hk Hputm). exact (put_other _ _ _ _ _ _ Hd Hput).
  + rewrite (put_other _ _ _ _ _ _ Hk Hputm). exact (put_other _ _ _ _ _ _ Hd Hput).
Qed.

(** ... also one that is cut short. *)
Lemma capture_move_other t w w' key :
  capture_move cfg t w w' -> ~ owned (generateSnapshotID w).1 key ->
  GetObject key (store w') = GetObject key (store w).
Proof.
  intros Hm Hno. set (sid := (generateSnapshotID w).1) in *.
  assert (key <> dataKey cfg t sid) as Hd by (intros ->; apply Hno; exists t; by left).
  assert (key <> manifestKey cfg t sid) as Hk by (intros ->; apply Hno; exists t; by right).
  destruct Hm as [|w1 Hcut _].
  - eapply captured_other; [apply CaptureTable_captured|done..].
  - inversion Hcut as [bytes Hs|m s1 Hu Hs].
    + destruct (PutObject _ bytes _) as [r s1] eqn:Hput. cbn [snd] in Hs |- *. subst s1.
      exact (put_other _ _ _ _ _ _ Hd Hput).
    + destruct Hu as (bytes & b & ddl & fks & checks & idxs & n & -> & Hput & _).
      destruct (PutObject _ _ s1) as [r s2] eqn:Hputm. cbn [snd] in Hs |- *. subst s2.
      cbn [S3ManifestKey new_manifest] in Hputm.
      rewrite (put_other _ _ _ _ _ _ Hk Hputm). exact (put_other _ _ _ _ _ _ Hd Hput).
Qed.

(** What belongs to an earlier id is left alone. *)
Lemma old_key_kept w0 w w' key :
  fresh_until (draws w') -> (draws w0 < draws w)%nat -> later cfg w w' ->
  owned (generateSnapshotID w0).1 key -> GetObject key (store w') = GetObject key (store w).
Proof.
  intros Hf Hlt Hl Ho. revert Hlt. induction Hl as [|w w1 w2 Hm Hl IH]; [done|]. intros Hlt.
  pose proof (later_draws w1 w2 Hl) as Hd.
  destruct Hm as [w w1 [Hs Hw]|t w w1 Hc].
  - rewrite IH by (done || lia). by rewrite Hs.
  - pose proof (capture_move_draws _ _ _ Hc) as Hw. rewrite IH by (done || lia).
    eapply capture_move_other; [exact Hc|]. intros Ho'.
    assert ((generateSnapshotID w0).1 = (generateSnapshotID w).1) as Hid
      by (eapply owned_id; [by eapply id_no_slash..|exact Ho|exact Ho']).
    apply (fresh_ids _ Hf) in Hid; lia.
Qed.

(** The object under [key] has the hash [sha]. *)
Definition holds (w : SWorld) (key sha : string) : Prop :=
  exists b, GetObject key (store w) = Ok (Ok b) /\ EqualFold (sha256_hex b) sha = true.

(** The data the bucket has for an offered manifest stays. *)
Lemma captured_data_kept w0 w w' m sha :
  captured_during cfg w0 w m -> later cfg w w' -> fresh_until (draws w') ->
  holds w (S3DataKey m) sha -> holds w' (S3DataKey m) sha.
Proof.
  intros (w1 & w2 & _ & (s1 & bytes & b & ddl & fks & checks & idxs & n & Hm & _) & Hc & Hl) Hl' Hf
    (b' & Hb & Hsha).
  exists b'. split; [|done]. rewrite <- Hb.
  eapply (old_key_kept w1); [done| |done|].
  - pose proof (capture_move_draws _ _ _ Hc). pose proof (later_draws _ _ Hl). lia.
  - rewrite Hm. by eexists; left.
Qed.

(** What a capture of [t] under the id [sid] left when it failed: the points as they
    were; under the manifest's key nothing new, unless its put, behind the upload,
    reported an error and had stored it; and under the data's key what was there, what
    a refused upload left, or what the delete left behind the upload or the refused
    manifest. *)
Definition capture_failed (t sid : string) (w w' : SWorld) : Prop :=
  latest w' = latest w
  /\ (forall body, GetObject (manifestKey cfg t sid) (store w') = Ok (Ok body) ->
        GetObject (manifestKey cfg t sid) (store w) = Ok (Ok body)
        \/ exists m bytes e s1 s2, body = json_indent (enc_manifest m) /\ TableName m = t
             /\ SnapshotID m = sid
             /\ PutObject (dataKey cfg t sid) bytes (store w) = (Ok tt, s1)
             /\ PutObject (manifestKey cfg t sid) body s1 = (Err e, s2)
             /\ store w' = (DeleteObject (dataKey cfg t sid) s2).2)
  /\ (GetObject (dataKey cfg t sid) (store w') = GetObject (dataKey cfg t sid) (store w)
      \/ (exists bytes e, PutObject (dataKey cfg t sid) bytes (store w) = (Err e, store w'))
      \/ exists bytes s1 s2, PutObject (dataKey cfg t sid) bytes (store w) = (Ok tt, s1)
           /\ (s2 = s1 \/ exists body e, PutObject (manifestKey cfg t sid) body s1 = (Err e, s2))
           /\ store w' = (DeleteObject (dataKey cfg t sid) s2).2).

(** ... and when it succeeded with the manifest [m]: the data, of the recorded hash, and
    the manifest are in the bucket, and [m] is the table's point. *)
Definition capture_done (t sid : string) (w w' : SWorld) (m : SnapshotManifest) : Prop :=
  latest w' = <[t := m]> (latest w)
  /\ TableName m = t /\ SnapshotID m = sid /\ manifest_Status m = "valid"
  /\ S3DataKey m = dataKey cfg t sid /\ S3ManifestKey m = manifestKey cfg t sid
  /\ GetObject (manifestKey cfg t sid) (store w') = Ok (Ok (json_indent (enc_manifest m)))
  /\ holds w' (dataKey cfg t sid) (DataSHA256 m).

(** C19. A capture is all or nothing, as far as the bucket lets it.  Whatever fails in
    whatever phase, a capture touches its own two keys only.  When it succeeds, the
    manifest and the data with the hash the manifest records are in the bucket, and
    the manifest is the table's recovery point, and no other table's.  When it fails,
    the sidecar's recovery points are as before, and no manifest was added, unless the
    bucket reported an error for the put of the manifest itself and had stored it all
    the same; the uploaded data is deleted, as far as the delete succeeds, unless the
    upload itself was refused. *)
Theorem capture_all_or_nothing t w r w' :
  CaptureTable cfg t w = (r, w') ->
  let sid := (generateSnapshotID w).1 in
  (forall key, key <> dataKey cfg t sid -> key <> manifestKey cfg t sid ->
     GetObject key (store w') = GetObject key (store w))
  /\ match r with
     | Ok m => capture_done t sid w w' m
     | Err _ => capture_failed t sid w w'
     end.
Proof.
  intros Hcap sid. pose proof (CaptureTable_captured cfg t w) as Hc. fold sid in Hc.
  unfold run_value, run_state in Hc. rewrite Hcap in Hc. cbn [fst snd] in Hc. split.
  { intros key Hd Hk. by eapply captured_other. }
  assert (manifestKey cfg t sid <> dataKey cfg t sid) as Hne by apply not_dataKey, manifestKey_suffix.
  inversion Hc as [e w1 Hs Hl|e e' bytes w1 Hput Hl|e bytes s1 w1 Hput _ Hs Hl
    |e e' bytes b ddl fks checks idxs n s1 s2 w1 m Hput Hget Heq Htr Hputm Hs Hl
    |bytes b ddl fks checks idxs n s1 w1 m Hput Hget Heq Htr Hputm Hl]; subst.
  - split; [done|]. rewrite Hs. by split; left.
  - split; [done|]. split; [|right; left; by eexists _, _].
    intros body. rewrite (put_other _ _ _ _ _ _ Hne Hput). by left.
  - split; [done|]. split; [|right; right; exists bytes, s1, s1; by split_and!; [|left|]].
    intros body. rewrite Hs, delete_other by done. rewrite (put_other _ _ _ _ _ _ Hne Hput). by left.
  - split; [done|]. split; [|right; right; exists bytes, s1, s2; split_and!; [done|right; by eauto|done]].
    intros body. rewrite Hs, delete_other by done. intros Hb.
    destruct (put_atomic _ _ _ _ _ _ Hputm Hb) as [->|Hold]; [right|left].
    + by exists m, bytes, e', s1, s2.
    + by rewrite (put_other _ _ _ _ _ _ Hne Hput) in Hold.
  - split; [done|]. split_and!; try done; [by eapply put_get|].
    exists b. split; [|done]. rewrite <- Hget. eapply put_other; [|exact Hputm]. congruence.
Qed.

(** C20. Snapshots are immutable.  When a capture has succeeded, its manifest and the
    data with the hash that the manifest records are in the bucket in every later
    state, whatever the sidecar captures afterwards and wherever it dies, as long as
    the ids drawn so far all differ. *)
Theorem captured_snapshot_stays t w m w1 w' :
  CaptureTable cfg t w = (Ok m, w1) -> later cfg w1 w' -> fresh_until (draws w') ->
  GetObject (S3ManifestKey m) (store w') = Ok (Ok (json_indent (enc_manifest m)))
  /\ holds w' (S3DataKey m) (DataSHA256 m).
Proof.
  intros Hcap Hl Hf. destruct (capture_stored cfg t w m _ Hcap) as (Hman & b & Hdata & Hsha).
  pose proof (capture_draws t w) as Hd. unfold run_state in Hd. rewrite Hcap in Hd. cbn [snd] in Hd.
  apply capture_ok in Hcap as (bytes & ddl & fks & checks & idxs & n & Hm & _). split.
  - rewrite <- Hman. eapply (old_key_kept w); [done..|]. rewrite Hm. by eexists; right.
  - exists b. split; [|done]. rewrite <- Hdata. eapply (old_key_kept w); [done..|].
    rewrite Hm. by eexists; left.
Qed.
End laws.
End durability.

(** ** Two captures of a table *)
Section witness.

(** The concrete environment, with other random bytes. *)
Definition with_random (r : nat -> option (list Z)) (e : SyncEnv) : SyncEnv := {|
  SDB := @SDB e; sql_query := @sql_query e; Store := @Store e; PutObject := @PutObject e;
  GetObject := @GetObject e; DeleteObject := @DeleteObject e; parquet_write := @parquet_write e;
  parquet_file := @parquet_file e; random_bytes := r; open_temp := @open_temp e;
  webhook_post := @webhook_post e |}.
Definition numbered_env : SyncEnv := with_random (fun n => Some [Z.of_nat n mod 256]) memory_env.

#[local] Instance numbered_laws : BucketLaws numbered_env.
Proof. exact (Build_BucketLaws numbered_env (@put_get _ memory_laws) (@put_other _ memory_laws)). Qed.
#[local] Instance numbered_atomic : BucketAtomic numbered_env.
Proof.
  exact (Build_BucketAtomic numbered_env (@put_atomic _ memory_atomic) (@delete_other _ memory_atomic)).
Qed.

Definition numbered_world : @SWorld numbered_env := {|
  now := 0; metrics := NewSyncMetrics 0; metadata := None; tracker := NewDeltaTracker;
  failures := ∅; staleAlerted := ∅; fingerprints := ∅; stablePolls := ∅; latest := ∅;
  sdb := 1 : @SDB numbered_env; store := (∅ : gmap string string) : @Store numbered_env;
  draws := 0; files := ∅; posted := [] |}.

Lemma numbered_id (w : @SWorld numbered_env) :
  (generateSnapshotID w).1 = "snap_" +:+ hex_encode [Z.of_nat (draws w) mod 256].
Proof. reflexivity. Qed.

Lemma numbered_fresh : @fresh_until numbered_env 2.
Proof.
  split.
  - intros k bs [= <-]. apply Forall_singleton, Z.mod_pos_bound. lia.
  - intros w1 w2. rewrite !numbered_id. generalize (draws w1) as a, (draws w2) as b.
    intros [|[|a]] [|[|b]] Ha Hb; try lia; by vm_compute.
Qed.

Definition first_capture : result SnapshotManifest * @SWorld numbered_env :=
  CaptureTable memory_config "users" numbered_world.
Definition second_capture : @SWorld numbered_env :=
  run_state (CaptureTable memory_config "users") first_capture.2.

Lemma captured_snapshot_stays_witness :
  exists m, first_capture.1 = Ok m /\ SnapshotID m = "snap_00"
  /\ (SnapshotID <$> Latest "users" second_capture) = Some "snap_01"
  /\ GetObject (S3ManifestKey m) (store second_capture) = Ok (Ok (json_indent (enc_manifest m)))
  /\ holds second_capture (S3DataKey m) (DataSHA256 m).
Proof.
  assert (match first_capture.1 with Ok m => SnapshotID m = "snap_00" | _ => False end
    /\ draws second_capture = 2%nat
    /\ (SnapshotID <$> Latest "users" second_capture) = Some "snap_01")
    as (Hid & Hdraws & Hlatest) by (vm_compute; done).
  unfold second_capture in *.
  destruct first_capture as [[m|e] w1] eqn:Hc; [|destruct Hid]. cbn [fst snd] in *.
  exists m. split; [done|]. split; [done|]. split; [done|].
  apply (captured_snapshot_stays memory_config "users" numbered_world m w1 _ Hc).
  - apply rtc_once. eapply move_capture, capture_ends.
  - rewrite Hdraws. apply numbered_fresh.
Defined.
(** The same capture into a bucket that loses the answer to the put of the manifest. *)
Definition lossy (e : SyncEnv) : SyncEnv := {|
  SDB := @SDB e; sql_query := @sql_query e; Store := @Store e;
  PutObject := fun key body s =>
    let (r, s') := @PutObject e key body s in
    (if HasSuffix key manifest_suffix then Err "timeout" else r, s');
  GetObject := @GetObject e; DeleteObject := @DeleteObject e; parquet_write := @parquet_write e;
  parquet_file := @parquet_file e; random_bytes := @random_bytes e; open_temp := @open_temp e;
  webhook_post := @webhook_post e |}.

Lemma lossy_laws : BucketLaws (lossy numbered_env).
Proof.
  split; intros *; cbn.
  - destruct (HasSuffix _ _); intros [=]. subst. by rewrite lookup_insert_eq.
  - intros Hne [= _ <-]. by rewrite lookup_insert_ne.
Qed.
Lemma lossy_atomic : BucketAtomic (lossy numbered_env).
Proof.
  split; intros *; cbn.
  - intros [= _ <-]. rewrite lookup_insert_eq. intros [= <-]. by left.
  - intros Hne. by rewrite lookup_delete_ne.
Qed.

Definition lossy_world : @SWorld (lossy numbered_env) := {|
  now := 0; metrics := NewSyncMetrics 0; metadata := None; tracker := NewDeltaTracker;
  failures := ∅; staleAlerted := ∅; fingerprints := ∅; stablePolls := ∅; latest := ∅;
  sdb := 1 : @SDB (lossy numbered_env); store := (∅ : gmap string string) : @Store (lossy numbered_env);
  draws := 0; files := ∅; posted := [] |}.
Definition lossy_capture : result SnapshotManifest * @SWorld (lossy numbered_env) :=
  CaptureTable memory_config "users" lossy_world.

Lemma capture_all_or_nothing_witness :
  (exists m, first_capture.1 = Ok m
     /\ capture_done memory_config "users" "snap_00" numbered_world first_capture.2 m)
  /\ capture_failed memory_config "users" "snap_00" lossy_world lossy_capture.2
  /\ exists body, GetObject (manifestKey memory_config "users" "snap_00") (store lossy_capture.2)
       = Ok (Ok body).
Proof.
  assert (is_ok first_capture.1 = true /\ is_ok lossy_capture.1 = false) as [H1 H2]
    by (vm_compute; done).
  assert ((generateSnapshotID numbered_world).1 = "snap_00") as Hid1 by (vm_compute; reflexivity).
  assert ((generateSnapshotID lossy_world).1 = "snap_00") as Hid2 by (vm_compute; reflexivity).
  split; [|split].
  - destruct first_capture as [[m|e] w1] eqn:Hc; [|discriminate H1]. exists m. split; [done|].
    pose proof (capture_all_or_nothing (env := numbered_env) memory_config "users" numbered_world (Ok m) w1 Hc) as [_ H].
    rewrite Hid1 in H. exact H.
  - destruct lossy_capture as [[m|e] w1] eqn:Hc; [discriminate H2|].
    pose proof (capture_all_or_nothing (env := lossy numbered_env) (laws := lossy_laws)
      (atomic := lossy_atomic) memory_config "users" lossy_world (Err e) w1 Hc) as [_ H].
    rewrite Hid2 in H. exact H.
  - eexists. vm_compute. reflexivity.
Defined.
End witness.
