(* ===== verification/Startup.v ===== *)
(** * gateway/main.go: what the gateway starts with

    [gateway_main] is the gateway's main up to its listener: the configuration,
    the mux's options and the state its first request finds; [gateway_stop] is its
    end.  Reading files and opening the database, the listener and the object store
    are outside. *)
From S2P Require Import Prelude GoString GoTime Json JsonText Postgres PgAst SqlAnalyzer Policy.
From S2P Require Import GatewayMetrics AgentIdentity Approval Pause Auth GatewayMetadata.
From S2P Require Import GatewayWorld SnapshotVerifier McpServer Gateway GatewaySafety.
From S2P Require Import GatewayProperties Storage DbWait.
From S2P Require Impact Sqlite MetadataSchema.

Open Scope Z_scope.

(** ** The gateway *)
Record GatewayFlags := {
  flag_listen : string;
  approvalTimeout : duration;
  flag_alertWebhook : string;
  flag_dbURL : string;
  flag_storage : string;
  flag_snapshotBeforeCritical : bool;
  auditLog : string;
  authToken : string;
  authTokensFile : string;
  policyFile : string;
  metadataDB : string;
  allowInsecureNoAuth : bool;
  requireAuth : bool;
  flag_metricsPublic : bool;
  flag_maxConcurrentRequests : Z;
  flag_environment : string;
  flag_clusterID : string;
  flag_pauseFile : string;
  startPaused : bool;
  flag_pauseBlocksSafe : bool;
  tlsCert : string;
  tlsKey : string;
}.

(** The flags of a command line that gives none. *)
Definition default_flags (getenv : string -> string) : GatewayFlags := {|
  flag_listen := ":8080"; approvalTimeout := seconds 300; flag_alertWebhook := "";
  flag_dbURL := ""; flag_storage := ""; flag_snapshotBeforeCritical := true;
  auditLog := getenv "BACKSTOP_GATEWAY_AUDIT_LOG";
  authToken := getenv "BACKSTOP_GATEWAY_AUTH_TOKEN";
  authTokensFile := getenv "BACKSTOP_AUTH_TOKENS_FILE";
  policyFile := getenv "BACKSTOP_GATEWAY_POLICY_FILE";
  metadataDB := getenvDefault getenv "BACKSTOP_METADATA_DB" "backstop.db";
  allowInsecureNoAuth := false; requireAuth := true; flag_metricsPublic := false;
  flag_maxConcurrentRequests := 64;
  flag_environment := getenvDefault getenv "BACKSTOP_ENVIRONMENT" "local";
  flag_clusterID := getenvDefault getenv "BACKSTOP_CLUSTER_ID" "local";
  flag_pauseFile := getenv "BACKSTOP_PAUSE_FILE"; startPaused := false;
  flag_pauseBlocksSafe := false; tlsCert := ""; tlsKey := "" |}.

(** What the process finds outside: its clock, its files, what
    the AWS SDK makes of its configuration, the environment, the database (its pings and when
    they begin), the bucket and the metadata database. *)
Record Outside `{Postgres} `{Sqlite.Sqlite} := {
  out_now : time;
  tokens_file : result string;
  policy_file : result string;
  audit_log_file : option string;
  pause_file : pauseDisk;
  metadata_open : result Sqlite.File;
  load_aws : string -> option (string * string * string) -> result unit;
  environ : string -> string;
  pings : pinger;
  pings_from : time;
  out_database : DB;
  out_s3 : S3;
}.

Section main.
Context `{pg : Postgres, env : GatewayEnv, sq : Sqlite.Sqlite}.
Variable ParseRequestURI : string -> option error.

(** The rows an open file holds. *)
Variable rows_of : Sqlite.File -> MetadataStore.

Definition open_store (f : GatewayFlags) (o : Outside) : result (option MetadataStore) :=
  option_map rows_of <$>
    MetadataSchema.OpenMetadataStore (metadataDB f) (metadata_open o).

Definition open_database (f : GatewayFlags) (o : Outside) : result bool :=
  if String.eqb (flag_dbURL f) "" then Ok false
  else
    wrap_err "failed to open database: "
      (sql_Open (ensurePostgresApplicationName (flag_dbURL f) Impact.application_name));;
    wrap_err "failed to connect to database: "
      (gateway_waitForDB (pings o) (pings_from o));;
    mret true.

Definition open_verifier (f : GatewayFlags) (o : Outside) : result (option SnapshotVerifier) :=
  if String.eqb (flag_storage f) "" then Ok None
  else
    config ← wrap_err "invalid --storage: "
               (ParseStorage ParseRequestURI (flag_storage f) "" "backstop");
    wrap_err "failed to initialize S3 client: " (NewS3Client (load_aws o) (environ o) config);;
    mret (Some (S3_verifier {| v_Prefix := storage_Prefix config; has_metadata := true |})).

(** The health row of the start; a nil store takes none. *)
Definition record_start (f : GatewayFlags) (o : Outside) (metadata : option MetadataStore)
    : result (option MetadataStore) :=
  match metadata with
  | None => Ok None
  | Some m =>
      match RecordHealth (out_now o) "gateway" "starting"
              (json_map [("listen", JString (flag_listen f))]) m with
      | (Ok _, m') => Ok (Some m')
      | (Err e, _) => Err ("failed to record startup health: " +:+ e)
      end
  end.

(** The server's settings; its engines and counters are part of the state. *)
Definition NewMCPServer (has_db : bool) (storage : string) (snapshotBeforeCritical : bool)
    (verifier : option SnapshotVerifier) : Config := {|
  policy := DefaultGatewayPolicy; environment := "local"; clusterID := "local";
  GatewayWorld.has_db := has_db; GatewayWorld.storage := storage;
  GatewayWorld.snapshotBeforeCritical := snapshotBeforeCritical; snapshotVerifier := verifier;
  alert_webhook := None |}.

(** main's assignments to its fields. *)
Definition set_server (p : GatewayPolicy) (where_ cluster : string) (sink : option string)
    (c : Config) : Config := {|
  policy := p; environment := where_; clusterID := cluster; GatewayWorld.has_db := has_db c;
  storage := storage c; snapshotBeforeCritical := snapshotBeforeCritical c;
  snapshotVerifier := snapshotVerifier c; alert_webhook := sink |}.

Definition gateway_main (f : GatewayFlags) (o : Outside)
    : result (Config * ServerConfig * World) :=
  validateAuthConfig (requireAuth f) (allowInsecureNoAuth f) (authToken f) (authTokensFile f);;
  authenticator ← wrap_err "invalid auth config: "
    (NewTokenAuthenticator (authToken f) (authTokensFile f)
       (negb (requireAuth f) || allowInsecureNoAuth f) (tokens_file o));
  has_db ← open_database f o;
  verifier ← open_verifier f o;
  gatewayPolicy ← wrap_err "invalid --policy-file: "
                    (LoadGatewayPolicy (policyFile f) (policy_file o));
  store ← wrap_err "failed to open metadata DB: " (open_store f o);
  metadata ← record_start f o store;
  let '(controller, disk) := NewPauseController (out_now o) (flag_pauseFile f) (startPaused f)
                               (flag_pauseBlocksSafe f) (pause_file o) in
  controller ← wrap_err "invalid pause config: " controller;
  if negb (Bool.eqb (String.eqb (tlsCert f) "") (String.eqb (tlsKey f) "")) then
    Err "--tls-cert and --tls-key must be provided together"
  else
    mret (
      set_server gatewayPolicy (flag_environment f) (flag_clusterID f)
        (NewGatewayAlertSink (flag_alertWebhook f))
        (NewMCPServer has_db (flag_storage f) (flag_snapshotBeforeCritical f) verifier),
      {| auth := Some authenticator; metricsPublic := flag_metricsPublic f;
         maxConcurrentRequests := flag_maxConcurrentRequests f |},
      {| now := out_now o;
         metrics := SetPauseState (BlocksRisk (Some controller) RiskHigh) NewGatewayMetrics;
         registry := NewAgentRegistryWithStores (auditLog f) (audit_log_file o);
         GatewayWorld.metadata := metadata; approval := NewApprovalEngine (approvalTimeout f);
         pause := Some controller; pause_disk := disk; posted := []; statements := [];
         database := out_database o; s3 := out_s3 o |}).

(** What main does when it is told to stop, before the listener is shut down. *)
Definition gateway_stop (f : GatewayFlags) : ST World unit :=
  with_metadata (fun now => RecordHealth now "gateway" "stopping"
    (json_map [("listen", JString (flag_listen f))]));;
  mret tt.

(** What a gateway that starts looks like. *)
Lemma gateway_main_ok f o cfg s w :
  gateway_main f o = Ok (cfg, s, w) ->
  exists a v p d,
    NewTokenAuthenticator (authToken f) (authTokensFile f)
      (negb (requireAuth f) || allowInsecureNoAuth f) (tokens_file o) = Ok a
    /\ auth s = Some a
    /\ open_verifier f o = Ok v /\ snapshotVerifier cfg = v
    /\ NewPauseController (out_now o) (flag_pauseFile f) (startPaused f)
         (flag_pauseBlocksSafe f) (pause_file o) = (Ok p, d)
    /\ pause w = Some p
    /\ statements w = [] /\ approval w = NewApprovalEngine (approvalTimeout f).
Proof.
  unfold gateway_main. destruct (validateAuthConfig _ _ _ _) as [[]|]; [|done].
  cbn [mbind result_bind].
  destruct (NewTokenAuthenticator _ _ _ _) as [a|]; [|done]. cbn [mbind result_bind wrap_err].
  destruct (open_database f o); [|done]. cbn [mbind result_bind].
  destruct (open_verifier f o) as [v|]; [|done]. cbn [mbind result_bind].
  destruct (LoadGatewayPolicy _ _); [|done]. cbn [mbind result_bind wrap_err].
  destruct (open_store f o); [|done]. cbn [mbind result_bind wrap_err].
  destruct (record_start _ _ _); [|done]. cbn [mbind result_bind].
  destruct (NewPauseController _ _ _ _ _) as [[p|] d]; [|done]. cbn [mbind result_bind wrap_err].
  destruct (negb _); [done|]. intros [= <- <- <-]. by exists a, v, p, d.
Qed.

(** What the flags decide of a gateway that starts. *)
Lemma gateway_main_settings f o cfg s w :
  gateway_main f o = Ok (cfg, s, w) ->
  (requireAuth f = true -> allowInsecureNoAuth f = false -> Enabled (auth s) = true)
  /\ metricsPublic s = flag_metricsPublic f
  /\ maxConcurrentRequests s = flag_maxConcurrentRequests f
  /\ snapshotBeforeCritical cfg = flag_snapshotBeforeCritical f
  /\ (metadataDB f <> "" -> GatewayWorld.metadata w <> None).
Proof.
  intros Hmain. pose proof (gateway_main_ok _ _ _ _ _ Hmain) as (a & v & p & d & Ha & Hs & _).
  apply NewTokenAuthenticator_tokens in Ha as [Hd _].
  unfold gateway_main in Hmain.
  do 5 (apply bind_ok in Hmain as (? & _ & Hmain)).
  apply bind_ok in Hmain as (store & Hstore & Hmain).
  apply bind_ok in Hmain as (m & Hm & Hmain).
  destruct (NewPauseController _ _ _ _ _) as [controller disk].
  apply bind_ok in Hmain as (c & _ & Hmain). destruct (negb (Bool.eqb _ _)); [done|].
  injection Hmain as <- <- <-. split.
  { intros Hreq Hins. rewrite Hs. cbn [Enabled]. by rewrite Hd, Hreq, Hins. }
  split; [done|]. split; [done|]. split; [done|]. cbn [GatewayWorld.metadata].
  intros Hdb%String.eqb_neq. assert (store <> None) as Hne.
  { unfold open_store, MetadataSchema.OpenMetadataStore, MetadataSchema.open_store_with in Hstore.
    rewrite Hdb in Hstore. destruct (metadata_open o) as [db|]; [|done].
    cbn [mbind result_bind] in Hstore. destruct (MetadataSchema.gateway_init db) as [[]]; [|done].
    cbn in Hstore. by injection Hstore as <-. }
  unfold record_start in Hm. destruct store; [|done].
  destruct (RecordHealth _ _ _ _ _) as [[]]; [|done]. by injection Hm as <-.
Qed.

Lemma gateway_main_validated f o cfg s w :
  gateway_main f o = Ok (cfg, s, w) -> requireAuth f = true -> allowInsecureNoAuth f = false ->
  TrimSpace (authToken f) <> "" \/ TrimSpace (authTokensFile f) <> "".
Proof.
  intros Hmain Hreq Hins. unfold gateway_main, validateAuthConfig in Hmain.
  rewrite Hreq, Hins in Hmain.
  destruct (String.eqb_spec (TrimSpace (authToken f)) "") as [E|]; [|by left].
  destruct (String.eqb_spec (TrimSpace (authTokensFile f)) "") as [E'|]; [|by right].
  done.
Qed.

Lemma default_metadataDB getenv : metadataDB (default_flags getenv) <> "".
Proof.
  cbn [metadataDB default_flags]. unfold getenvDefault.
  destruct (String.eqb (TrimSpace _) "") eqn:E; [done|]. by apply String.eqb_neq.
Qed.

Lemma started_verifier_quiet f o cfg s w :
  gateway_main f o = Ok (cfg, s, w) ->
  forall v, snapshotVerifier cfg = Some v -> QuietVerifier v.
Proof.
  intros (a & v & p & d & _ & _ & Hv & Hcfg & _)%gateway_main_ok v' Hv'.
  rewrite Hcfg in Hv'. rewrite Hv' in Hv. unfold open_verifier in Hv.
  destruct (String.eqb _ ""); [done|]. destruct (ParseStorage _ _ _ _); [|done].
  cbn [mbind result_bind wrap_err] in Hv. destruct (NewS3Client _ _ _); [|done].
  injection Hv as <-. apply S3_verifier_quiet.
Qed.

(** [--start-paused] pauses, whatever the pause file says; without a pause file the
    flag alone decides. *)
Lemma NewPauseController_paused t path start safe d p d' :
  NewPauseController t path start safe d = (Ok p, d') ->
  pauseBlocksSafe p = safe /\ (start = true -> paused p = true)
  /\ (TrimSpace path = "" -> paused p = start).
Proof.
  unfold NewPauseController. cbn [file].
  destruct (String.eqb_spec (TrimSpace path) "") as [|Hpath]; [by intros [= <- <-]|].
  destruct (load _ d) as [loaded|] eqn:Hload; [|done].
  assert (pauseBlocksSafe (default {| paused := start; reason := ""; updatedAt := t;
    file := TrimSpace path; pauseBlocksSafe := safe |} loaded) = safe) as Hsafe.
  { unfold load in Hload. destruct (disk d); [by injection Hload as <-|done|].
    destruct (Unmarshal _ _ _); [|done]. by injection Hload as <-. }
  revert Hsafe. generalize (default {| paused := start; reason := ""; updatedAt := t;
    file := TrimSpace path; pauseBlocksSafe := safe |} loaded). intros p0 Hsafe.
  destruct start; [|by intros [= <- <-]].
  unfold SetPaused. destruct (save _ d) as [[] d1]; [|done]. by intros [= <- <-].
Qed.

(** C16. What a gateway that starts is.  When main reaches its listener, the state
    its first request finds is an initial state of the transition system the
    safety theorems are about, and its recovery verifier meets their hypothesis:
    every theorem on reachable states holds of the running process.  With
    --start-paused it is paused, and stays so over the pause file. *)
Theorem started_gateway_is_initial Parse f o cfg s w :
  gateway_main f o = Ok (cfg, s, w) ->
  reachable Parse cfg s {| gw := w; waiting := ∅ |} []
  /\ (forall v, snapshotVerifier cfg = Some v -> QuietVerifier v)
  /\ exists p, pause w = Some p /\ pauseBlocksSafe p = flag_pauseBlocksSafe f
       /\ (startPaused f = true -> paused p = true)
       /\ (TrimSpace (flag_pauseFile f) = "" -> paused p = startPaused f).
Proof.
  intros Hmain. split; [|split; [exact (started_verifier_quiet f o cfg s w Hmain)|]];
    apply gateway_main_ok in Hmain as (a & v & p & d & _ & _ & _ & _ & Hp & Hw & Hs & Ha).
  - by eapply reach_init.
  - exists p. split; [done|]. by apply NewPauseController_paused in Hp.
Qed.

(** A gateway started without flags is closed.  When the environment names no token
    and no file of tokens it does not start; when it starts, requests are
    authenticated, the metrics are not public, a destructive statement needs its
    recovery point, there is a metadata database, and at most 64 requests run at once. *)
Theorem default_gateway_is_closed getenv o :
  (TrimSpace (getenv "BACKSTOP_GATEWAY_AUTH_TOKEN") = "" ->
   TrimSpace (getenv "BACKSTOP_AUTH_TOKENS_FILE") = "" ->
   exists e, gateway_main (default_flags getenv) o = Err e)
  /\ forall cfg s w, gateway_main (default_flags getenv) o = Ok (cfg, s, w) ->
       Enabled (auth s) = true /\ metricsPublic s = false /\ maxConcurrentRequests s = 64
       /\ snapshotBeforeCritical cfg = true /\ GatewayWorld.metadata w <> None.
Proof.
  split.
  - intros Ht Hf. unfold gateway_main, validateAuthConfig, default_flags.
    cbn [requireAuth allowInsecureNoAuth authToken authTokensFile]. rewrite Ht, Hf. by eexists.
  - intros cfg s w Hmain.
    destruct (gateway_main_settings _ _ _ _ _ Hmain) as (Hen & -> & -> & -> & Hdb).
    split; [by apply Hen|]. split; [done|]. split; [done|]. split; [done|].
    apply Hdb, default_metadataDB.
Qed.

(** A gateway started to require authentication fails closed.  Unless
    --allow-insecure-no-auth was given, it starts only with a token
    or a file of tokens given, and a request that carries no configured token gets an error
    from every endpoint that has a scope, and executes, signals and pauses
    nothing. *)
Theorem started_gateway_fails_closed Parse f o cfg s w entropy active r e scope :
  gateway_main f o = Ok (cfg, s, w) ->
  requireAuth f = true -> allowInsecureNoAuth f = false ->
  route r = Some e -> endpoint_scope s e = Some scope ->
  (forall a t, auth s = Some a -> t ∈ tokens a -> bearerOrHeaderToken (http r) <> entry_Token t) ->
  (TrimSpace (authToken f) <> "" \/ TrimSpace (authTokensFile f) <> "")
  /\ exists resp w', serve Parse cfg s entropy active r w = (inl resp, w')
       /\ core w' = core w
       /\ http_status resp ∈ [StatusUnauthorized; StatusTooManyRequests].
Proof.
  intros Hmain Hreq Hins Hroute Hscope Hnone. split.
  { by eapply gateway_main_validated. }
  apply gateway_main_ok in Hmain as (a & v & p & d & Ha & Hauth & _).
  rewrite Hreq, Hins in Ha. cbn [negb orb] in Ha.
  apply NewTokenAuthenticator_tokens in Ha as [Hd Ht].
  assert (Authenticate (auth s) (http r) = None) as Hno.
  { rewrite Hauth. unfold Authenticate. rewrite Hd.
    destruct (String.eqb _ ""); [done|]. destruct (find_token _ _) eqn:Hf; [|done].
    apply find_token_some in Hf as (t & Hin & Htok & _). by destruct (Hnone a t Hauth Hin). }
  assert (forall next, exists resp w', requireScopedAuth (auth s) scope r next w = (inl resp, w')
    /\ core w' = core w /\ http_status resp = StatusUnauthorized) as Hdeny.
  { intros next. unfold requireScopedAuth. rewrite Hno.
    replace (Enabled (auth s)) with true by (by rewrite Hauth; cbn; rewrite Hd).
    cbn [negb]. unfold mbind, st_bind. pose proof (quiet_recordAuthDenied "unauthorized" scope "" w) as Hq.
    unfold run_state in Hq. destruct (recordAuthDenied _ _ _ w) as [[] w1]. by eexists _, _. }
  unfold serve. rewrite Hroute, Hscope.
  destruct (Hdeny (endpoint_handler Parse cfg entropy r e)) as (resp & w' & Hr & Hc & Hst).
  assert (http_status resp ∈ [StatusUnauthorized; StatusTooManyRequests]) as Hin
    by (rewrite Hst; set_solver).
  destruct e; try by exists resp, w'. unfold limitConcurrent.
  destruct (_ <=? 0); [by exists resp, w'|]. destruct (_ <? _); [by exists resp, w'|].
  eexists _, w. split; [done|]. split; [done|]. set_solver.
Qed.
End main.

(** A gateway on the environment without a database, started with one token and
    paused. *)
#[local] Existing Instance null_postgres.
#[local] Existing Instance offline_env.
#[local] Existing Instance Sqlite.small_sqlite.

Definition demo_flags : GatewayFlags := {|
  flag_listen := ":8080"; approvalTimeout := seconds 300; flag_alertWebhook := ""; flag_dbURL := "postgres://db";
  flag_storage := "s3://backups"; flag_snapshotBeforeCritical := true; auditLog := "";
  authToken := "t0ken"; authTokensFile := ""; policyFile := ""; metadataDB := "meta.db";
  allowInsecureNoAuth := false; requireAuth := true; flag_metricsPublic := false;
  flag_maxConcurrentRequests := 64; flag_environment := "prod"; flag_clusterID := "c1";
  flag_pauseFile := ""; startPaused := true; flag_pauseBlocksSafe := false; tlsCert := "";
  tlsKey := "" |}.

Definition demo_outside : Outside := {|
  out_now := 0; tokens_file := Err "no file"; policy_file := Err "no file";
  audit_log_file := Some EmptyString; pause_file := {| disk := Absent; writable := true; write_fault := None |};
  metadata_open := Ok (∅ : @Sqlite.File Sqlite.small_sqlite); 
  load_aws := fun _ _ => Ok tt; environ := fun _ => EmptyString; pings := late_database;
  pings_from := 0;
  out_database := tt : @DB null_postgres;
  out_s3 := {| ListObjectsV2 := fun _ => []; GetObject := fun _ => Err "NoSuchKey" |} |}.

Definition demo_start : result (Config * ServerConfig * World) :=
  gateway_main (fun _ => None) (fun _ => empty_store) demo_flags demo_outside.

Lemma started_gateway_is_initial_witness :
  exists cfg s w, demo_start = Ok (cfg, s, w)
  /\ reachable demo_parse cfg s {| gw := w; waiting := ∅ |} []
  /\ (forall v, snapshotVerifier cfg = Some v -> QuietVerifier v)
  /\ exists p, pause w = Some p /\ pauseBlocksSafe p = flag_pauseBlocksSafe demo_flags
       /\ (startPaused demo_flags = true -> paused p = true)
       /\ (TrimSpace (flag_pauseFile demo_flags) = "" -> paused p = startPaused demo_flags).
Proof.
  assert (match demo_start with Ok _ => True | Err _ => False end) as Hok
    by (vm_compute; exact I).
  destruct demo_start as [[[cfg s] w]|] eqn:Hstart; [|destruct Hok].
  exists cfg, s, w. split; [reflexivity|].
  exact (@started_gateway_is_initial null_postgres offline_env Sqlite.small_sqlite (fun _ => None)
    (fun _ => empty_store) demo_parse demo_flags demo_outside cfg s w Hstart).
Defined.

Definition anonymous : request := {| method := "POST"; path := "/admin/resume";
  http := {| headers := ∅ |}; query_params := ∅; req_body := Ok EmptyString |}.

Lemma started_gateway_fails_closed_witness :
  exists cfg s w, demo_start = Ok (cfg, s, w)
  /\ (TrimSpace (authToken demo_flags) <> "" \/ TrimSpace (authTokensFile demo_flags) <> "")
  /\ exists resp w', serve demo_parse cfg s None 0 anonymous w = (inl resp, w')
       /\ core w' = core w
       /\ http_status resp ∈ [StatusUnauthorized; StatusTooManyRequests].
Proof.
  assert (match demo_start with
          | Ok (_, s, _) => match auth s with
                            | Some a => map entry_Token (tokens a) = ["t0ken"]
                            | None => False end
          | Err _ => False end) as Hok by (vm_compute; reflexivity).
  destruct demo_start as [[[cfg s] w]|] eqn:Hstart; [|destruct Hok].
  exists cfg, s, w. split; [done|].
  apply (@started_gateway_fails_closed null_postgres offline_env Sqlite.small_sqlite
    (fun _ => None) (fun _ => empty_store) demo_parse demo_flags demo_outside
    cfg s w None 0 anonymous EResume "admin:*" Hstart); [done..|].
  intros a t Ha Hin. rewrite Ha in Hok.
  apply (list_elem_of_fmap_2 entry_Token) in Hin.
  change (entry_Token <$> tokens a) with (map entry_Token (tokens a)) in Hin.
  rewrite Hok in Hin. apply list_elem_of_singleton in Hin as ->. by vm_compute.
Defined.

(** The environment gives a token, the command line nothing. *)
Definition token_env (key : string) : string :=
  if String.eqb key "BACKSTOP_GATEWAY_AUTH_TOKEN" then "t0ken" else "".

Lemma default_gateway_is_closed_witness :
  exists cfg s w, gateway_main (fun _ => None) (fun _ => empty_store) (default_flags token_env)
    demo_outside = Ok (cfg, s, w)
  /\ Enabled (auth s) = true /\ metricsPublic s = false /\ maxConcurrentRequests s = 64
  /\ snapshotBeforeCritical cfg = true /\ GatewayWorld.metadata w <> None.
Proof.
  pose proof (proj2 (@default_gateway_is_closed null_postgres offline_env Sqlite.small_sqlite
    (fun _ => None) (fun _ => empty_store) token_env demo_outside)) as H.
  assert (match gateway_main (fun _ => None) (fun _ => empty_store) (default_flags token_env)
    demo_outside with Ok _ => True | Err _ => False end) as Hok by (vm_compute; exact I).
  destruct (gateway_main (fun _ => None) (fun _ => empty_store) (default_flags token_env)
    demo_outside) as [[[cfg s] w]|]; [|destruct Hok].
  exists cfg, s, w. split; [reflexivity|]. exact (H cfg s w eq_refl).
Defined.
