(* ===== verification/GatewayCommand.v ===== *)
(** * gateway/main.go: the command line

    [command_line] is what main makes of its arguments and its environment,
    [gateway] the whole of main: a health check, an exit with its code, or a gateway that
    serves. *)
From S2P Require Import Prelude GoString GoTime GoFlag Postgres Policy GatewayMetrics Auth.
From S2P Require Import GatewayMetadata GatewayWorld Gateway GatewaySafety GatewayProperties Storage DbWait.
From S2P Require Import Startup.
From S2P Require Sqlite.

Open Scope Z_scope.

(** The flags main declares, with the values of [f]. *)
Definition flag_values (f : GatewayFlags) : list (string * value) := [
  ("listen", VString (flag_listen f));
  ("approval-timeout", VDuration (approvalTimeout f));
  ("alert-webhook", VString (flag_alertWebhook f));
  ("db", VString (flag_dbURL f));
  ("storage", VString (flag_storage f));
  ("snapshot-before-critical", VBool (flag_snapshotBeforeCritical f));
  ("audit-log", VString (auditLog f));
  ("auth-token", VString (authToken f));
  ("auth-tokens-file", VString (authTokensFile f));
  ("policy-file", VString (policyFile f));
  ("metadata-db", VString (metadataDB f));
  ("allow-insecure-no-auth", VBool (allowInsecureNoAuth f));
  ("require-auth", VBool (requireAuth f));
  ("metrics-public", VBool (flag_metricsPublic f));
  ("max-concurrent-requests", VInt (flag_maxConcurrentRequests f));
  ("environment", VString (flag_environment f));
  ("cluster-id", VString (flag_clusterID f));
  ("pause-file", VString (flag_pauseFile f));
  ("start-paused", VBool (startPaused f));
  ("pause-blocks-safe", VBool (flag_pauseBlocksSafe f));
  ("tls-cert", VString (tlsCert f));
  ("tls-key", VString (tlsKey f))].

(** The variables the flags' values are in. *)
Definition string_flag (name : string) (m : FlagSet) : string :=
  match m !! name with Some (VString s) => s | _ => "" end.
Definition bool_flag (name : string) (m : FlagSet) : bool :=
  match m !! name with Some (VBool b) => b | _ => false end.
Definition int_flag (name : string) (m : FlagSet) : Z :=
  match m !! name with Some (VInt n) => n | _ => 0 end.
Definition duration_flag (name : string) (m : FlagSet) : duration :=
  match m !! name with Some (VDuration d) => d | _ => 0 end.

Definition read_flags (m : FlagSet) : GatewayFlags := {|
  flag_listen := string_flag "listen" m;
  approvalTimeout := duration_flag "approval-timeout" m;
  flag_alertWebhook := string_flag "alert-webhook" m;
  flag_dbURL := string_flag "db" m;
  flag_storage := string_flag "storage" m;
  flag_snapshotBeforeCritical := bool_flag "snapshot-before-critical" m;
  auditLog := string_flag "audit-log" m;
  authToken := string_flag "auth-token" m;
  authTokensFile := string_flag "auth-tokens-file" m;
  policyFile := string_flag "policy-file" m;
  metadataDB := string_flag "metadata-db" m;
  allowInsecureNoAuth := bool_flag "allow-insecure-no-auth" m;
  requireAuth := bool_flag "require-auth" m;
  flag_metricsPublic := bool_flag "metrics-public" m;
  flag_maxConcurrentRequests := int_flag "max-concurrent-requests" m;
  flag_environment := string_flag "environment" m;
  flag_clusterID := string_flag "cluster-id" m;
  flag_pauseFile := string_flag "pause-file" m;
  startPaused := bool_flag "start-paused" m;
  flag_pauseBlocksSafe := bool_flag "pause-blocks-safe" m;
  tlsCert := string_flag "tls-cert" m;
  tlsKey := string_flag "tls-key" m |}.

Definition declared (getenv : string -> string) : FlagSet :=
  list_to_map (flag_values (default_flags getenv)).

(** The flags, or the code the process exits with.  main does not look at the
    arguments the parser leaves. *)
Definition command_line (args : list string) (getenv : string -> string) : Z + GatewayFlags :=
  match Parse args (declared getenv) with
  | inl e => inl (exit_code e)
  | inr (m, _) => inr (read_flags m)
  end.

(** [len(os.Args) == 3 && os.Args[1] == --healthcheck]. *)
Definition healthcheck_url (args : list string) : option string :=
  match args with
  | [flag; url] => if String.eqb flag "--healthcheck" then Some url else None
  | _ => None
  end.

Inductive process `{Postgres} `{GatewayEnv} :=
  | Exit (code : Z)
  | Serving (cfg : Config) (s : ServerConfig) (w : World).

Section gateway.
Context `{pg : Postgres, env : GatewayEnv, sq : Sqlite.Sqlite}.
Variable ParseRequestURI : string -> option error.
Variable rows_of : Sqlite.File -> MetadataStore.

(** main, on the arguments behind the name of the program. *)
Definition gateway (args : list string) (answer : string -> httpOutcome) (o : Outside) : process :=
  match healthcheck_url args with
  | Some url =>
      match runHTTPHealthcheck (answer url) with Ok _ => Exit 0 | Err _ => Exit 1 end
  | None =>
      match command_line args (environ o) with
      | inl code => Exit code
      | inr f =>
          match gateway_main ParseRequestURI rows_of f o with
          | Ok (cfg, s, w) => Serving cfg s w
          | Err _ => Exit 1
          end
      end
  end.

Lemma gateway_serving args answer o cfg s w :
  gateway args answer o = Serving cfg s w ->
  exists m rest, Parse args (declared (environ o)) = inr (m, rest)
    /\ gateway_main ParseRequestURI rows_of (read_flags m) o = Ok (cfg, s, w).
Proof.
  unfold gateway. destruct (healthcheck_url args); [by destruct (runHTTPHealthcheck _)|]. intros Hs.
  unfold command_line in Hs. destruct (Parse _ _) as [e|[m rest]] eqn:Hp; [done|].
  exists m, rest. split; [done|].
  destruct (gateway_main _ _ _ _) as [[[cfg' s'] w']|]; [|done]. by injection Hs as -> -> ->.
Qed.
End gateway.

Lemma unnamed_flag name args getenv m rest :
  (forall a, a ∈ args -> names a name = false) -> Parse args (declared getenv) = inr (m, rest) ->
  m !! name = declared getenv !! name.
Proof. intros Hn Hp. by eapply Parse_keeps. Qed.

Lemma gateway_flags_read f : read_flags (list_to_map (flag_values f)) = f.
Proof. destruct f. reflexivity. Qed.

Lemma flag_names f f' : (flag_values f).*1 = (flag_values f').*1.
Proof. done. Qed.

Lemma gateway_flag_names f :
  Forall (fun n => plain n = true) (flag_values f).*1 /\ NoDup (flag_values f).*1.
Proof.
  rewrite (flag_names f (default_flags (fun _ => ""))).
  split; apply (bool_decide_unpack _); vm_compute; exact I.
Qed.

(** The settings of a gateway as an administrator writes them. *)
Definition command_of (f : GatewayFlags) : list string := setting <$> flag_values f.

(** ** Properties *)
Section properties.
Context `{pg : Postgres, env : GatewayEnv, sq : Sqlite.Sqlite}.
Variable ParseRequestURI : string -> option error.
Variable rows_of : Sqlite.File -> MetadataStore.

(** C17. Only the flags that say so open a gateway.  Whatever else its command line and
    its environment say, a gateway that serves authenticates, has a token or a file
    of tokens, and refuses a request without a configured token on every endpoint that has
    a scope, unless an argument names --allow-insecure-no-auth or --require-auth; its
    metrics are not public, its destructive statements need a recovery point, and it
    has a metadata database, unless an argument names the flag of that. *)
Theorem only_named_flags_open args answer o cfg s w :
  gateway ParseRequestURI rows_of args answer o = Serving cfg s w ->
  let unnamed name := forall a, a ∈ args -> names a name = false in
  (unnamed "allow-insecure-no-auth" -> unnamed "require-auth" ->
     Enabled (auth s) = true
     /\ (exists f, command_line args (environ o) = inr f
          /\ (TrimSpace (authToken f) <> "" \/ TrimSpace (authTokensFile f) <> ""))
     /\ forall Parse entropy active r e scope,
          route r = Some e -> endpoint_scope s e = Some scope ->
          (forall a t, auth s = Some a -> t ∈ tokens a -> bearerOrHeaderToken (http r) <> entry_Token t) ->
          exists resp w', serve Parse cfg s entropy active r w = (inl resp, w')
            /\ core w' = core w
            /\ http_status resp ∈ [StatusUnauthorized; StatusTooManyRequests])
  /\ (unnamed "metrics-public" -> metricsPublic s = false)
  /\ (unnamed "snapshot-before-critical" -> snapshotBeforeCritical cfg = true)
  /\ (unnamed "metadata-db" -> GatewayWorld.metadata w <> None).
Proof.
  intros (m & rest & Hp & Hmain)%gateway_serving unnamed.
  destruct (gateway_main_settings _ _ _ _ _ _ _ Hmain) as (Hen & Hpub & _ & Hsnap & Hdb).
  pose proof (fun name H => unnamed_flag name args (environ o) m rest H Hp) as Hun.
  split.
  { intros Hins%Hun Hreq%Hun.
    assert (requireAuth (read_flags m) = true) as Hr by (cbn; unfold bool_flag; by rewrite Hreq).
    assert (allowInsecureNoAuth (read_flags m) = false) as Hi
      by (cbn; unfold bool_flag; by rewrite Hins).
    split; [by apply Hen|]. split.
    - exists (read_flags m). unfold command_line. rewrite Hp. split; [done|].
      by eapply gateway_main_validated.
    - intros Parse entropy active r e scope Hroute Hscope Hnone.
      by eapply (started_gateway_fails_closed _ _ Parse _ _ _ _ _ entropy active r e scope Hmain). }
  split; [|split].
  - intros Hn%Hun. rewrite Hpub. cbn. unfold bool_flag. by rewrite Hn.
  - intros Hn%Hun. rewrite Hsnap. cbn. unfold bool_flag. by rewrite Hn.
  - intros Hn%Hun. apply Hdb. cbn. unfold string_flag. rewrite Hn. apply default_metadataDB.
Qed.

(** C18. Every configuration is a command line.  A line that gives each flag its value
    starts the gateway with these values, whatever the environment says; and a line
    ends at the first argument that is no flag: nothing behind a word, or
    behind the mark that ends the flags, changes anything. *)
Theorem command_line_roundtrip f getenv rest :
  int64_range (approvalTimeout f) -> int64_range (flag_maxConcurrentRequests f) ->
  (forall a rest', rest = a :: rest' -> read_argument a = Word \/ read_argument a = Terminator) ->
  command_line (command_of f ++ rest) getenv = inr f.
Proof.
  intros Ht Hm Hrest. unfold command_line, command_of, declared.
  destruct (gateway_flag_names f) as [Hplain Hnd].
  rewrite Parse_settings; [|done..| |].
  - assert (exists rest', Parse rest (list_to_map (flag_values f))
      = inr (list_to_map (flag_values f), rest')) as [rest' ->]; [|by rewrite gateway_flags_read].
    by apply Parse_ends.
  - repeat constructor.
  - repeat constructor; cbn; apply Ht || apply Hm.
Qed.

(** A value behind a flag that needs none is a word: the flag is on, and the rest of
    the line is not read. *)
Lemma separate_value_opens value rest answer o cfg s w :
  read_argument value = Word ->
  gateway ParseRequestURI rows_of ("--allow-insecure-no-auth" :: value :: rest) answer o
    = Serving cfg s w ->
  Enabled (auth s) = false.
Proof.
  intros Hword (m & rest' & Hp & Hmain)%gateway_serving.
  apply gateway_main_ok in Hmain as (a & v & p & d & Ha & -> & _).
  apply NewTokenAuthenticator_tokens in Ha as [Hd _]. cbn [Enabled]. rewrite Hd.
  cbn [Parse] in Hp.
  change (read_argument "--allow-insecure-no-auth") with (Flag "allow-insecure-no-auth" None) in Hp.
  cbv iota in Hp. assert (declared (environ o) !! "allow-insecure-no-auth" = Some (VBool false)) as Hf
    by done.
  revert Hf Hp. generalize (declared (environ o)). intros formal Hf Hp.
  rewrite Hf in Hp. cbn [is_bool Parse] in Hp. rewrite Hword in Hp. injection Hp as <- _.
  cbn [allowInsecureNoAuth read_flags]. unfold bool_flag. rewrite lookup_insert_eq.
  by rewrite orb_true_r.
Qed.
End properties.

Section witnesses.
#[local] Existing Instance null_postgres.
#[local] Existing Instance offline_env.
#[local] Existing Instance Sqlite.small_sqlite.

(** A token on the command line, and flags of both forms. *)
Definition demo_args : list string :=
  ["--auth-token"; "t0ken"; "-max-concurrent-requests=0x10"; "--start-paused"; "drill"].

Definition demo_gateway (args : list string) : process :=
  gateway (fun _ => None) (fun _ => empty_store) args (fun _ => NetworkError) demo_outside.

Lemma only_named_flags_open_witness :
  exists cfg s w, demo_gateway demo_args = Serving cfg s w
  /\ Enabled (auth s) = true
  /\ (exists resp w', serve demo_parse cfg s None 0 anonymous w = (inl resp, w')
       /\ core w' = core w /\ http_status resp ∈ [StatusUnauthorized; StatusTooManyRequests])
  /\ metricsPublic s = false /\ snapshotBeforeCritical cfg = true /\ GatewayWorld.metadata w <> None.
Proof.
  assert (match demo_gateway demo_args with
          | Serving _ s _ => match auth s with
                             | Some a => map entry_Token (tokens a) = ["t0ken"]
                             | None => False end
          | Exit _ => False end) as Hok by (vm_compute; reflexivity).
  destruct (demo_gateway demo_args) as [|cfg s w] eqn:Hserve; [destruct Hok|].
  exists cfg, s, w. split; [reflexivity|].
  destruct (@only_named_flags_open null_postgres offline_env Sqlite.small_sqlite
    (fun _ => None) (fun _ => empty_store) demo_args (fun _ => NetworkError) demo_outside cfg s w Hserve)
    as (Hauth & Hpub & Hsnap & Hdb).
  assert (forall name, existsb (fun a => names a name) demo_args = false ->
    forall a, a ∈ demo_args -> names a name = false) as Hun.
  { intros name Hb a Ha. destruct (names a name) eqn:Hn; [|done]. rewrite <- Hb. symmetry.
    apply existsb_exists. exists a. split; [by apply list_elem_of_In|done]. }
  destruct (Hauth (Hun "allow-insecure-no-auth" eq_refl) (Hun "require-auth" eq_refl)) as (Hen & _ & Hdeny).
  split; [exact Hen|]. split.
  - apply (Hdeny demo_parse None 0 anonymous EResume "admin:*"); [reflexivity|reflexivity|].
    intros a t Ha Hin. rewrite Ha in Hok.
    apply (list_elem_of_fmap_2 entry_Token) in Hin.
    change (entry_Token <$> tokens a) with (map entry_Token (tokens a)) in Hin.
    rewrite Hok in Hin. apply list_elem_of_singleton in Hin as ->. by vm_compute.
  - split; [|split]; [apply Hpub|apply Hsnap|apply Hdb]; apply Hun; reflexivity.
Defined.

Lemma command_line_roundtrip_witness :
  command_line (command_of demo_flags ++ ["false"; "--require-auth=false"]) (fun _ => "env")
    = inr demo_flags.
Proof.
  apply command_line_roundtrip.
  - vm_compute. split; discriminate.
  - vm_compute. split; discriminate.
  - intros a rest' [= <- _]. left. reflexivity.
Defined.

Example help_exits : demo_gateway ["-h"] = Exit 0.
Proof. vm_compute. reflexivity. Qed.
Example misspelt_exits : demo_gateway ["--auth-tokn=t"] = Exit 2.
Proof. vm_compute. reflexivity. Qed.
Example no_token_exits : demo_gateway [] = Exit 1.
Proof. vm_compute. reflexivity. Qed.
Example token_behind_a_word :
  match demo_gateway ["--allow-insecure-no-auth"; "false"; "--auth-token=t0ken"] with
  | Serving _ s _ => Enabled (auth s) = false
  | Exit _ => False
  end.
Proof. vm_compute. reflexivity. Qed.
End witnesses.
