(* ===== verification/SyncProgress.v ===== *)
(** * The sidecar's progress: a stable table gets its recovery point *)
From S2P Require Import Prelude GoString GoTime Json Storage Sha256 Postgres GatewayMetadata.
From S2P Require Import SyncDelta SyncBypass SyncMetrics SyncWorld SyncSnapshot SyncPoller.
From S2P Require Import SyncPollerProperties.

Open Scope Z_scope.

Section same.
Context `{env : SyncEnv}.
Variable cfg : SConfig.
Context {X : Type} (f : SWorld -> X).

(** [f] of the state does not change. *)
Definition same (w w' : SWorld) : Prop := f w' = f w.
#[local] Instance same_preorder : PreOrder same.
Proof. split; unfold same; [done|]. intros w1 w2 w3 ? ?. by etransitivity. Qed.

(** A part of the state that a capture has nothing to do with. *)
Hypothesis f_sdb : forall x w, f (set_sdb x w) = f w.
Hypothesis f_store : forall x w, f (set_store x w) = f w.
Hypothesis f_draws : forall x w, f (set_draws x w) = f w.
Hypothesis f_latest : forall x w, f (set_latest x w) = f w.

Lemma same_query sql args : keeps same (query sql args).
Proof. intros w. unfold run_state, query, same. destruct (sql_query _ _ _). apply f_sdb. Qed.
Lemma same_put key body : keeps same (put key body).
Proof. intros w. unfold run_state, put, same. destruct (PutObject _ _ _). apply f_store. Qed.
Lemma same_cleanup key : keeps same (cleanupOrphanedData key).
Proof. intros w. apply f_store. Qed.
Lemma same_id : keeps same generateSnapshotID.
Proof. intros w. apply f_draws. Qed.
Lemma same_set_latest g : keeps same (modify (fun w => set_latest (g w) w)).
Proof. intros w. apply f_latest. Qed.
#[local] Hint Resolve same_query same_put same_cleanup same_id same_set_latest : keeps.

Lemma same_query_all {A} sql table (scan : list sqlValue -> result A) :
  keeps same (query_all cfg sql table scan).
Proof. unfold query_all. keep. Qed.
#[local] Hint Resolve same_query_all : keeps.

Lemma same_tableDDL table : keeps same (tableDDL cfg table).
Proof. unfold tableDDL, primaryKeys. keep. Qed.
#[local] Hint Resolve same_tableDDL : keeps.

Lemma same_CaptureTable table : keeps same (CaptureTable cfg table).
Proof.
  unfold CaptureTable, fkConstraints, checkConstraints, indexes, writeTableParquet,
    commit_capture. keep.
Qed.

Lemma same_VerifyLatest table : keeps same (VerifyLatest table).
Proof.
  intros w. destruct (VerifyLatest_latest table w) as [->|(m & v & _ & ->)]; [reflexivity|].
  apply f_latest.
Qed.
End same.
#[export] Existing Instance same_preorder.

Section progress.
Context `{env : SyncEnv}.
Variable cfg : SConfig.
Variable t : string.

(** The number of polls the table's fingerprint has been the same for. *)
Definition polls_of (w : SWorld) : option Z := stablePolls w !! t.

Lemma polls_metrics g : keeps (same polls_of) (upd_metrics g).
Proof. done. Qed.
Lemma polls_health st d : keeps (same polls_of) (set_health_metric st d).
Proof. done. Qed.
Lemma polls_metadata g : keeps (same polls_of) (with_metadata g).
Proof.
  intros w. unfold run_state, with_metadata, same. destruct (metadata w); [|done].
  by destruct (g (now w) m).
Qed.
Lemma polls_sendPayload p : keeps (same polls_of) (sendPayload cfg p).
Proof.
  intros w. unfold run_state, sendPayload.
  assert (forall g w1 (r : result unit), same polls_of w w1 ->
    same polls_of w (let (_, w2) := with_metadata g w1 in (r, w2)).2) as Hrec.
  { intros g w1 r Hw. pose proof (polls_metadata g w1) as Hm. unfold run_state in Hm.
    destruct (with_metadata g w1) as [? w2]. by transitivity w1. }
  destruct (String.eqb _ ""); [by apply Hrec|].
  destruct (webhook_post _ _ _); [by apply Hrec|by apply Hrec|].
  destruct (_ || _); by apply Hrec.
Qed.
Lemma polls_failure t' n : keeps (same polls_of) (set_failure t' n).
Proof. done. Qed.
Lemma polls_count t' : keeps (same polls_of) (count_failure t').
Proof. done. Qed.
Lemma polls_stale t' b : keeps (same polls_of) (set_stale t' b).
Proof. done. Qed.
Lemma polls_capture t' : keeps (same polls_of) (CaptureTable cfg t').
Proof. by apply same_CaptureTable. Qed.
Lemma polls_verify t' : keeps (same polls_of) (VerifyLatest t').
Proof. by apply same_VerifyLatest. Qed.
#[local] Hint Resolve polls_metrics polls_health polls_metadata polls_sendPayload polls_failure
  polls_count polls_stale polls_capture polls_verify : keeps.

Lemma polls_snapshotTable t' : keeps (same polls_of) (snapshotTable cfg t').
Proof.
  unfold snapshotTable, metadata_failed, SendStorageFailureAlert, SendSnapshotFailureAlert. keep.
Qed.
Lemma polls_refresh t' : keeps (same polls_of) (refreshSnapshotVerification cfg t').
Proof. unfold refreshSnapshotVerification, metadata_failed. keep. Qed.
Lemma polls_stable t' fps : t <> t' -> keeps (same polls_of) (tableStableForSnapshot cfg t' fps).
Proof.
  intros Hne w. unfold run_state, tableStableForSnapshot, same, polls_of.
  repeat case_match; cbn; try done; by apply lookup_insert_ne.
Qed.
#[local] Hint Resolve polls_snapshotTable polls_refresh polls_stable : keeps.

#[local] Existing Instance spares_preorder.

(** What processing another table leaves of this one. *)
Definition untouched (w w' : SWorld) : Prop := spares t w w' /\ same polls_of w w'.

Lemma untouched_capture_if_stable t' fps :
  t <> t' -> keeps untouched (capture_if_stable cfg fps t').
Proof.
  intros Hne w. split; [by apply spares_capture_if_stable|].
  revert w. change (keeps (same polls_of) (capture_if_stable cfg fps t')).
  unfold capture_if_stable. keep.
Qed.

Lemma untouched_poll_known t' fps :
  t <> t' -> keeps untouched (poll_known_table cfg fps t').
Proof.
  intros Hne w. split; [by apply spares_poll_known|].
  revert w. change (keeps (same polls_of) (poll_known_table cfg fps t')).
  unfold poll_known_table. keep.
Qed.

#[local] Instance untouched_preorder : PreOrder untouched.
Proof.
  split; unfold untouched; [by split|]. intros w1 w2 w3 [? ?] [? ?].
  split; by etransitivity.
Qed.

(** ** The attempt *)

(** The table is tracked, unprotected, and as it was for the polls a capture needs. *)
Record due (fm : gmap string string) (n : Z) (w : SWorld) : Prop := {
  due_fingerprint : fingerprint_in (Ok fm) t <> "";
  due_unchanged : fingerprints w !! t = fm !! t;
  due_polls : default 0 (polls_of w) = n;
  due_enough : minStablePolls cfg <= n + 1;
  due_unprotected : latest w !! t = None;
}.

Lemma due_untouched fm n w w' : untouched w w' -> due fm n w -> due fm n w'.
Proof.
  intros [(Hl & _ & Hf) Hp] []. split; [done|by rewrite Hf|by rewrite Hp|done|by rewrite Hl].
Qed.

Definition attempted (before : Z) (w : SWorld) : Prop :=
  is_Some (latest w !! t) \/ failures_of t w = before + 1.

Lemma due_is_stable fm n w :
  due fm n w -> 0 <= n < int64_max ->
  run_value (tableStableForSnapshot cfg t (Ok fm)) w = true.
Proof.
  intros [Hfp Hsame Hn Hmin _] Hb. unfold run_value, tableStableForSnapshot.
  destruct (snapshotEveryPoll cfg); [done|]. cbn [orb is_ok negb].
  destruct (String.eqb_spec (fingerprint_in (Ok fm) t) ""); [done|].
  assert (default "" (fingerprints w !! t) = fingerprint_in (Ok fm) t) as -> by (by rewrite Hsame).
  rewrite String.eqb_refl.
  destruct (String.eqb_spec (fingerprint_in (Ok fm) t) ""); [done|]. cbn [negb andb fst].
  unfold polls_of in Hn. rewrite Hn, wrap64_id by (unfold int64_range, int64_min; lia).
  by apply Z.leb_le.
Qed.

Lemma count_failures w :
  failures_of t (run_state (count_failure t) w) = wrap64 (failures_of t w + 1).
Proof. unfold failures_of at 1. cbn. by rewrite lookup_insert_eq. Qed.

Lemma snapshotTable_attempts w :
  engine cfg = true -> 0 <= failures_of t w < int64_max ->
  attempted (failures_of t w) (run_state (snapshotTable cfg t) w).
Proof.
  intros He Hf. unfold snapshotTable. rewrite He. cbn [negb]. rewrite run_state_bind.
  pose proof (CaptureTable_captured cfg t w) as Hcap.
  pose proof (same_CaptureTable cfg failures ltac:(done) ltac:(done) ltac:(done) ltac:(done) t w)
    as Hfail. unfold same in Hfail.
  destruct (run_value (CaptureTable cfg t) w) as [m|e].
  - left. assert (latest (run_state (CaptureTable cfg t) w) !! t = Some m) as Hl.
    { inversion Hcap; subst. match goal with H : latest _ = _ |- _ => rewrite H end.
      apply lookup_insert_eq. }
    revert Hl. generalize (run_state (CaptureTable cfg t) w). intros w1 Hl.
    match goal with |- is_Some (latest (run_state ?c w1) !! t) =>
      assert (keeps (same latest) c) as Hk end.
    { assert (forall A (c : ST SWorld A), keeps minor c -> keeps (same latest) c) as Hminor
        by (intros A c; apply keeps_weaken; by intros ? ? []).
      apply (keeps_bind _); [done|intros _]. apply (keeps_bind _); [done|intros _].
      apply (keeps_bind _); [apply Hminor; keep|intros [[]|e]]; [apply Hminor; keep|].
      apply (keeps_bind _); [done|intros _]. apply Hminor. keep. }
    specialize (Hk w1). unfold same in Hk. rewrite Hk, Hl. by exists m.
  - right. do 2 rewrite run_state_bind.
    set (w2 := run_state (count_failure t) _).
    assert (failures_of t w2 = failures_of t w + 1) as Hw2.
    { unfold w2. rewrite count_failures. unfold failures_of in *.
      change (failures (run_state (upd_metrics (IncSnapshot "failed"))
        (run_state (CaptureTable cfg t) w))) with (failures (run_state (CaptureTable cfg t) w)).
      rewrite Hfail. apply wrap64_id. unfold int64_range, int64_min. lia. }
    match goal with |- failures_of t (run_state ?c w2) = _ => assert (keeps minor c) as Hk end.
    { unfold SendStorageFailureAlert, SendSnapshotFailureAlert. keep. }
    unfold failures_of in *. by destruct (Hk w2) as (_ & _ & _ & -> & _).
Qed.

Lemma attempted_spares before w w' : spares t w w' -> attempted before w -> attempted before w'.
Proof. unfold attempted, failures_of. by intros (-> & -> & _). Qed.

Lemma known_attempts fm n w :
  engine cfg = true -> due fm n w -> 0 <= n < int64_max -> 0 <= failures_of t w < int64_max ->
  attempted (failures_of t w) (run_state (poll_known_table cfg (Ok fm) t) w).
Proof.
  intros He Hdue Hn Hf. pose proof (due_is_stable fm n w Hdue Hn) as Hstable.
  unfold poll_known_table. do 2 rewrite run_state_bind. rewrite run_state_bind.
  change (run_state (gets _) (run_state (gets _) w)) with w.
  change (run_value (gets (recovery_point cfg t)) (run_state (gets _) w))
    with (recovery_point cfg t w).
  assert (recovery_point cfg t w = None) as ->
    by (unfold recovery_point, Latest; rewrite He; apply (due_unprotected _ _ _ Hdue)).
  pose proof (minor_stable cfg t (Ok fm) w) as (_ & _ & _ & Hfail & _).
  rewrite Hstable.
  rewrite run_state_bind. cbn [negb orb andb is_ok]. rewrite orb_true_r.
  assert (failures_of t w = failures_of t (run_state (tableStableForSnapshot cfg t (Ok fm)) w))
    as Heq by (unfold failures_of; by rewrite Hfail).
  rewrite Heq in Hf |- *. by apply snapshotTable_attempts.
Qed.

Lemma untouched_range {A} (xs : list A) body w :
  (forall x, x ∈ xs -> keeps untouched (body x)) ->
  untouched w (run_state (for_range xs body) w).
Proof. intros H. by apply (keeps_for_range _). Qed.

Lemma loop_attempts fm n added tables w :
  NoDup tables -> t ∈ tables -> contains added t = false ->
  engine cfg = true -> due fm n w -> 0 <= n < int64_max -> 0 <= failures_of t w < int64_max ->
  attempted (failures_of t w) (run_state (for_range tables (fun table =>
    if contains added table then mret tt else poll_known_table cfg (Ok fm) table)) w).
Proof.
  intros Hnd Hin Hadd He Hdue Hn Hf. set (body := fun table => _).
  assert (forall x, t <> x -> keeps untouched (body x)) as Hother.
  { intros x Hx. unfold body. destruct (contains added x); [by apply (keeps_ret _)|].
    by apply untouched_poll_known. }
  apply list_elem_of_split in Hin as (l1 & l2 & ->).
  apply NoDup_app in Hnd as (_ & Hdisj & Hnd2). apply NoDup_cons in Hnd2 as [Hl2 _].
  rewrite for_range_app.
  assert (untouched w (run_state (for_range l1 body) w)) as Hpre.
  { apply untouched_range. intros x Hx. apply Hother. intros ->. apply (Hdisj x Hx). by left. }
  set (w1 := run_state (for_range l1 body) w) in *.
  assert (failures_of t w = failures_of t w1) as Heq
    by (destruct Hpre as [(_ & Hfl & _) _]; unfold failures_of; by rewrite Hfl).
  apply (due_untouched _ _ _ _ Hpre) in Hdue. rewrite Heq in Hf |- *.
  cbn [for_range]. rewrite run_state_bind.
  apply (attempted_spares _ (run_state (body t) w1)).
  { destruct (untouched_range l2 body (run_state (body t) w1)) as [? _]; [|done].
    intros x Hx. apply Hother. by intros ->. }
  unfold body. rewrite Hadd. by eapply known_attempts.
Qed.

Lemma track_same tables w :
  contains (run_value (track tables) w).2 t = false \/ t ∉ known (tracker w).
Proof.
  destruct (decide (t ∈ known (tracker w))) as [Hk|]; [left|by right].
  apply not_true_iff_false. unfold contains. rewrite existsb_exists_iff.
  intros (x & Hx & ->%String.eqb_eq). by apply (track_added t tables w Hk).
Qed.

(** C24. A table that stays as it is gets protected.  When a table that was there at
    the last poll, and has no recovery point, has shown the same fingerprint for
    the polls a capture waits for, and shows it again, the poll captures it: after
    the poll it has a recovery point, or one more failure is counted against it,
    which alerts after -max-snapshot-failures and keeps the heartbeat from being
    healthy. *)
Theorem stable_table_is_captured fm n tables w :
  engine cfg = true -> NoDup tables -> t ∈ tables -> t ∈ known (tracker w) ->
  fingerprints_of (sql_query fingerprints_sql [schema cfg] (sdb w)).1 = Ok fm ->
  due fm n w -> 0 <= n < int64_max -> 0 <= failures_of t w < int64_max ->
  attempted (failures_of t w) (run_state (poll_tables cfg false tables) w).
Proof.
  intros He Hnd Hin Hk Hfps Hdue Hn Hf. unfold poll_tables. rewrite run_state_bind.
  destruct (track_same tables w) as [Hadd|]; [|done].
  pose proof (track_added t tables w Hk) as Hnew.
  assert (exists d, run_state (track tables) w = set_tracker d w) as [d ->].
  { unfold run_state, track. destruct (Update tables (tracker w)) as [[] d]. by exists d. }
  rewrite run_state_bind.
  assert (run_value (fetchTableFingerprints cfg) (set_tracker d w) = Ok fm
    /\ exists db, run_state (fetchTableFingerprints cfg) (set_tracker d w)
         = set_sdb db (set_tracker d w)) as [-> [db ->]].
  { unfold fetchTableFingerprints, run_value, run_state, mbind, st_bind, query.
    change (sdb (set_tracker d w)) with (sdb w).
    destruct (sql_query _ _ (sdb w)) as [r db]. cbn in *. split; [done|]. by exists db. }
  set (w1 := set_sdb db (set_tracker d w)).
  change (failures_of t w) with (failures_of t w1) in *.
  assert (due fm n w1) as Hdue1 by (by destruct Hdue).
  rewrite !run_state_bind. cbn zeta.
  set (w2 := run_state (for_range _ (capture_if_stable cfg (Ok fm))) w1).
  assert (untouched w1 w2) as Hu.
  { apply untouched_range. intros x Hx. apply untouched_capture_if_stable. by intros ->. }
  assert (failures_of t w1 = failures_of t w2) as Heq
    by (destruct Hu as [(_ & Hfl & _) _]; unfold failures_of; by rewrite Hfl).
  apply (due_untouched _ _ _ _ Hu) in Hdue1. rewrite Heq in Hf |- *.
  pose proof (loop_attempts fm n _ tables w2 Hnd Hin Hadd He Hdue1 Hn Hf) as Hloop.
  set (w3 := run_state (for_range tables _) w2) in *.
  destruct (minor_end_of_poll cfg (run_value (track tables) w).1 tables
    (run_state (modify (set_fingerprints fm)) w3)) as (Hl & _ & _ & Hfl & _).
  rewrite !run_state_bind in Hl, Hfl. unfold attempted, failures_of. rewrite Hl, Hfl.
  exact Hloop.
Qed.
End progress.

(** The table users, unchanged over two polls. *)
Section witness.
#[local] Existing Instance memory_env.

Definition demo_due : SWorld :=
  set_stablePolls {["users" := 1]} (set_fingerprints {["users" := "users:1:0:0:1:0"]}
    (set_tracker {| known := {["users"]}; seeded := true |} (memory_world 0))).

Lemma stable_table_is_captured_witness :
  attempted "users" (failures_of "users" demo_due)
    (run_state (poll_tables memory_config false ["users"]) demo_due).
Proof.
  apply (stable_table_is_captured memory_config "users" {["users" := "users:1:0:0:1:0"]} 1).
  - reflexivity.
  - apply NoDup_singleton.
  - by left.
  - cbn. set_solver.
  - reflexivity.
  - split; [vm_compute; discriminate|reflexivity..|vm_compute; discriminate|reflexivity].
  - unfold int64_max. lia.
  - vm_compute. split; [discriminate|reflexivity].
Defined.
End witness.
