(* ===== verification/SyncMain.v ===== *)
(** * sync/main.go: what the sidecar starts with, and its loop

    [sync_main] is the sidecar's main up to its loop, [sync_stop] what follows it; [running] are the states of
    [Poller.Run], whose polls are interleaved with changes of the world outside
    the process: the clock, the database, the bucket, the files, and the metadata
    database, which the gateway may share. *)
From S2P Require Import Prelude GoString GoTime GoFloat Json JsonText Storage Postgres GatewayMetrics.
From S2P Require Import GatewayMetadata GatewayWorld SyncDelta SyncBypass SyncMetrics SyncWorld.
From S2P Require Import SyncSnapshot SyncPoller SyncPollerProperties DbWait.
From S2P Require Sqlite MetadataSchema McpServer Gateway.

Open Scope Z_scope.

(** The command line. *)
Record SyncFlags := {
  flag_dbURL : string;
  flag_storage : string;
  intervalSec : Z;
  alertWebhook : string;
  flag_prefix : string;
  endpointURL : string;
  flag_schema : string;
  flag_snapshotOnStart : bool;
  flag_snapshotEveryPoll : bool;
  snapshotTables : string;
  snapshotStartupGrace : duration;
  snapshotStablePolls : Z;
  snapshotPauseFile : string;
  flag_maxTableRows : Z;
  metadataDB : string;
  metricsListen : string;
  flag_maxSnapshotAge : duration;
  maxSnapshotFailures : Z;
  bypassDetection : bool;
  allowedApplications : string;
  flag_allowedRoles : string;
  allowedClientAddresses : string;
  flag_agentRoles : string;
  flag_gatewayApplicationName : string;
  flag_mode : string;
}.

(** What the process finds outside: whether the database can be opened, its pings
    and its name, what the AWS SDK makes of its configuration, the
    environment, and the metadata file. *)
Record SyncOutside `{SyncEnv} `{Sqlite.Sqlite} := {
  open_db : result unit;
  sync_pings : pinger;
  sync_pings_from : time;
  current_database : result string;
  load_aws : string -> option (string * string * string) -> result unit;
  environ : string -> string;
  metadata_open : result Sqlite.File;
  out_now : time;
  out_sdb : SDB;
  out_store : Store;
  out_files : gset string;
}.

Definition bypass_config (f : SyncFlags) : BypassConfig := {|
  AllowedApplicationNames := parseCSV (allowedApplications f);
  AllowedRoles := parseCSV (flag_allowedRoles f);
  AllowedClientAddresses := parseCSV (allowedClientAddresses f);
  AgentRoles := parseCSV (flag_agentRoles f);
  GatewayApplicationName := flag_gatewayApplicationName f |}.

(** The poller main.go builds, its setters in their order. *)
Definition sync_config (f : SyncFlags) (config : StorageConfig) (dbName : string) : SConfig :=
  let c := NewPoller (flag_schema f) dbName config (flag_maxTableRows f) true
             (flag_snapshotOnStart f) (alertWebhook f) in
  let c := ConfigureSnapshotStrategy (flag_snapshotEveryPoll f) c in
  let c := ConfigureTableAllowlist (parseCSV (snapshotTables f)) c in
  let c := ConfigureStability (snapshotStablePolls f) (snapshotPauseFile f) c in
  let c := ConfigureLaunchReadiness (flag_maxSnapshotAge f) (maxSnapshotFailures f) c in
  if bypassDetection f then ConfigureBypassDetector (Some (bypass_config f)) c else c.

Section main.
Context `{env : SyncEnv} `{sq : Sqlite.Sqlite}.
Variable ParseRequestURI : string -> option error.

(** The rows an open file holds. *)
Variable rows_of : Sqlite.File -> MetadataStore.

(** A nil store takes no health row. *)
Definition open_metadata (f : SyncFlags) (o : SyncOutside) : result (option MetadataStore) :=
  store ← MetadataSchema.sync_OpenMetadataStore (metadataDB f) (metadata_open o);
  match rows_of <$> store with
  | None => Ok None
  | Some store =>
      match RecordHealth (out_now o) "sync" "starting"
              (json_map [("schema", JString (flag_schema f))]) store with
      | (Ok _, store) => Ok (Some store)
      | (Err e, _) => Err e
      end
  end.

Definition sync_main (f : SyncFlags) (o : SyncOutside) : result (SConfig * SWorld) :=
  if String.eqb (flag_dbURL f) "" then Err "--db flag is required"
  else if String.eqb (flag_storage f) "" then Err "--storage flag is required"
  else if negb (String.eqb (flag_mode f) "snapshot-and-detect") then
    Err "unsupported --mode value"
  else
    open_db o;;
    sync_waitForDB (sync_pings o) (sync_pings_from o);;
    dbName ← current_database o;
    config ← sync_ParseStorage ParseRequestURI (flag_storage f) (endpointURL f) (flag_prefix f);
    sync_NewS3Client (load_aws o) (environ o) config;;
    metadata ← open_metadata f o;
    mret (sync_config f config dbName,
      {| now := out_now o; metrics := NewSyncMetrics (out_now o); metadata := metadata;
         tracker := NewDeltaTracker; failures := ∅; staleAlerted := ∅; fingerprints := ∅;
         stablePolls := ∅; latest := ∅; sdb := out_sdb o; store := out_store o; draws := 0;
         files := out_files o; posted := [] |}).

(** The two endpoints of [startMetricsServer]. *)
Definition serve_metrics (path : string) (w : SWorld) : option (Z * string) :=
  if String.eqb path "/health" then Some (health_endpoint (metrics w))
  else if String.eqb path "/metrics" then
    Some (200, (Sync_Prometheus (now w) (metrics w)))
  else None.

(** [runHTTPHealthcheck], the same text as the gateway's. *)
Definition sync_runHTTPHealthcheck := Gateway.runHTTPHealthcheck.

(** What main does after [Run] has returned. *)
Definition sync_stop (f : SyncFlags) : ST SWorld unit :=
  with_metadata (fun now => RecordHealth now "sync" "stopped"
    (json_map [("schema", JString (flag_schema f))]));;
  mret tt.

(** The time between two polls. *)
Definition poll_interval (f : SyncFlags) : duration := seconds (intervalSec f).

(** [time.NewTicker] panics when it is not positive. *)
Definition NewTicker (interval : duration) : result unit :=
  if interval <=? 0 then Err "non-positive interval for NewTicker" else Ok tt.

(** ** The loop *)
Variable cfg : SConfig.
Variable interval : duration.

(** Nothing but the world outside the process changes. *)
Definition outside (w w' : SWorld) : Prop :=
  metrics w' = metrics w /\ tracker w' = tracker w /\ failures w' = failures w
  /\ staleAlerted w' = staleAlerted w /\ fingerprints w' = fingerprints w
  /\ stablePolls w' = stablePolls w /\ latest w' = latest w /\ draws w' = draws w
  /\ posted w' = posted w.

(** [Poller.Run] until the context ends: the states before the first poll ([false])
    and after it.  There is no second poll without a ticker: the process has panicked. *)
Inductive running (w0 : SWorld) : bool -> SWorld -> Prop :=
  | run_starts :
      running w0 false (run_state (set_health_metric "starting"
        [("reason", JString "startup_grace"); ("schema", JString (schema cfg))]) w0)
  | run_outside polled w w' : running w0 polled w -> outside w w' -> running w0 polled w'
  | run_first w : running w0 false w -> running w0 true (run_state (poll cfg true) w)
  | run_tick w :
      running w0 true w -> NewTicker interval = Ok tt ->
      running w0 true (run_state (poll cfg false) w).

(** ** The process

    SIGINT or SIGTERM ends the context: [Run] returns, also from its first wait, and
    main records the stop.  Without a ticker the process panics behind the first
    poll and records nothing. *)
Inductive sync_life := Looping | Stopped | Panicked.

Inductive sync_process (f : SyncFlags) (w0 : SWorld) : sync_life -> SWorld -> Prop :=
  | sync_loops polled w : running w0 polled w -> sync_process f w0 Looping w
  | sync_stops polled w :
      running w0 polled w -> (polled = true -> NewTicker interval = Ok tt) ->
      sync_process f w0 Stopped (run_state (sync_stop f) w)
  | sync_panics w e :
      running w0 true w -> NewTicker interval = Err e -> sync_process f w0 Panicked w.

(** The metrics endpoints are there while the process runs, if an address is given. *)
Definition startMetricsServer (f : SyncFlags) (l : sync_life) (path : string) (w : SWorld)
    : option (Z * string) :=
  match l with
  | Looping => if String.eqb (metricsListen f) "" then None else serve_metrics path w
  | _ => None
  end.
End main.

(** ** Lemmas *)
Section started.
Context `{env : SyncEnv} `{sq : Sqlite.Sqlite}.
Variable ParseRequestURI : string -> option error.
Variable rows_of : Sqlite.File -> MetadataStore.

Lemma sync_main_ok f o cfg w :
  sync_main ParseRequestURI rows_of f o = Ok (cfg, w) ->
  (exists config dbName, cfg = sync_config f config dbName) /\ latest w = ∅ /\ fingerprints w = ∅.
Proof.
  unfold sync_main. do 3 (case_match; [done|]).
  intros (_ & _ & H2)%bind_ok. apply bind_ok in H2 as (_ & _ & H2).
  apply bind_ok in H2 as (db & _ & H2). apply bind_ok in H2 as (config & _ & H2).
  apply bind_ok in H2 as (_ & _ & H2). apply bind_ok in H2 as (metadata & _ & [= <- <-]).
  split; [by exists config, db|]. split; reflexivity.
Qed.

Lemma sync_config_facts f config dbName :
  let c := sync_config f config dbName in
  engine c = true /\ 1 <= minStablePolls c /\ 1 <= maxFailures c
  /\ snapshotEveryPoll c = flag_snapshotEveryPoll f /\ storage c = config.
Proof.
  cbv zeta. unfold sync_config.
  destruct (bypassDetection f); cbn [ConfigureBypassDetector ConfigureLaunchReadiness
    ConfigureStability ConfigureTableAllowlist ConfigureSnapshotStrategy NewPoller engine
    minStablePolls maxFailures snapshotEveryPoll storage];
    destruct (Z.ltb_spec 0 (snapshotStablePolls f)), (Z.ltb_spec 0 (maxSnapshotFailures f));
    split_and!; (done || lia).
Qed.

Lemma points_valid_latest cfg w w' :
  latest w' = latest w -> points_valid cfg w -> points_valid cfg w'.
Proof. unfold points_valid. by intros ->. Qed.

Lemma points_valid_running cfg interval w0 polled w :
  points_valid cfg w0 -> running cfg interval w0 polled w -> points_valid cfg w.
Proof.
  intros H0. induction 1 as [|polled w w' _ IH Hout|w _ IH|w _ IH _].
  - by eapply points_valid_latest.
  - eapply points_valid_latest; [|exact IH]. apply Hout.
  - by apply points_valid_poll.
  - by apply points_valid_poll.
Qed.

Lemma sync_stop_latest f w : latest (run_state (sync_stop f) w) = latest w.
Proof.
  assert (keeps minor (sync_stop f)) as H by (unfold sync_stop; keep). apply H.
Qed.

(** C23. Whatever happens to it, a sidecar that starts only ever holds good recovery
    points: in every state of its process, whatever polls failed, whatever changed
    around it and however it ended, each table's point is a valid manifest of that
    table, in the bucket and under the keys the command line names; and it always has
    an engine, a positive number of polls before a capture and of failures before
    an alert, whatever numbers the flags give. *)
Theorem running_sidecar_points_valid f o cfg w0 l w :
  sync_main ParseRequestURI rows_of f o = Ok (cfg, w0) ->
  sync_process cfg (poll_interval f) f w0 l w ->
  points_valid cfg w
  /\ engine cfg = true /\ 1 <= minStablePolls cfg /\ 1 <= maxFailures cfg.
Proof.
  intros ((config & db & ->) & Hl & _)%sync_main_ok Hrun.
  pose proof (sync_config_facts f config db) as (He & Hp & Hf & _). split; [|done].
  assert (points_valid (sync_config f config db) w0) as Hstart.
  { intros t m. by rewrite Hl, lookup_empty. }
  destruct Hrun as [polled w Hr|polled w Hr _|w e Hr _];
    [|eapply points_valid_latest; [apply sync_stop_latest|]|]; by eapply points_valid_running.
Qed.
End started.

(** ** A sidecar that stops

    Once the stop is recorded, a gateway that requires the heartbeat has no ready
    recovery point, whatever was captured before. *)
Section stopped.
Context `{env : SyncEnv} `{pg : Postgres}.

Lemma stopped_sidecar_blocks f s db db' gcfg g store m :
  metadata s = Some db -> available db = true ->
  metadata (run_state (sync_stop f) s) = Some db' ->
  GatewayWorld.metadata g = Some store ->
  health_checks store !! "sync" = health_checks db' !! "sync" ->
  Policy.RequireSidecarHeartbeat (policy gcfg) = true ->
  exists e, McpServer.checkRecoveryReadiness gcfg m g = Err e.
Proof.
  intros Hdb Hav Hstop Hg Hrow Hreq.
  assert (forall h, GetHealth "sync" (Some store) = Some h -> h.1 = "stopped") as Hstatus.
  { revert Hstop Hrow. unfold run_state, sync_stop, with_metadata, mbind, st_bind, mret, st_ret.
    rewrite Hdb. unfold RecordHealth, withTx. rewrite Hav. cbn. intros [= <-]. cbn.
    rewrite lookup_insert_eq. intros Hrow h. unfold GetHealth. cbn.
    destruct (available store); [|done]. rewrite Hrow. cbn.
    destruct (Parse_RFC3339 _); [|done]. by intros [= <-]. }
  unfold McpServer.checkRecoveryReadiness. rewrite Hreq, Hg.
  match goal with |- context [mbind _ ?age] => destruct age as [[]|e] end; [|by exists e].
  cbn [mbind result_bind].
  destruct (wrap_err _ (ValidateSnapshotRecord m (Some store))) as [[]|e]; [|by exists e].
  destruct (GetHealth "sync" (Some store)) as [[status t]|]; [|by eexists].
  specialize (Hstatus _ eq_refl). cbn in Hstatus. subst status. by eexists.
Qed.
End stopped.

(** ** A sidecar that starts, and its first two polls *)
Section witnesses.
#[local] Existing Instance memory_env.
#[local] Existing Instance Sqlite.small_sqlite.

Definition demo_flags : SyncFlags := {|
  flag_dbURL := "postgres://db"; flag_storage := "s3://b"; intervalSec := 60;
  alertWebhook := ""; flag_prefix := "backstop"; endpointURL := ""; flag_schema := "public";
  flag_snapshotOnStart := true; flag_snapshotEveryPoll := false; snapshotTables := "";
  snapshotStartupGrace := seconds 15; snapshotStablePolls := -1; snapshotPauseFile := "";
  flag_maxTableRows := 1000000; metadataDB := "meta.db"; metricsListen := "";
  flag_maxSnapshotAge := 0; maxSnapshotFailures := 3; bypassDetection := false;
  allowedApplications := ""; flag_allowedRoles := ""; allowedClientAddresses := "";
  flag_agentRoles := ""; flag_gatewayApplicationName := "backstop-gateway";
  flag_mode := "snapshot-and-detect" |}.

Definition demo_outside : SyncOutside := {|
  open_db := Ok tt; sync_pings := late_database; sync_pings_from := 0;
  current_database := Ok "app"; load_aws := fun _ _ => Ok tt;
  environ := fun _ => EmptyString; 
  metadata_open := Ok (∅ : @Sqlite.File Sqlite.small_sqlite);
  out_now := 0; out_sdb := 1 : @SDB memory_env; out_store := ∅ : @Store memory_env;
  out_files := ∅ |}.

Lemma running_sidecar_points_valid_witness :
  exists cfg w0 w, sync_main (fun _ => None) (fun _ => empty_store) demo_flags demo_outside = Ok (cfg, w0)
    /\ sync_process cfg (poll_interval demo_flags) demo_flags w0 Stopped w
    /\ points_valid cfg w /\ engine cfg = true /\ 1 <= minStablePolls cfg /\ 1 <= maxFailures cfg.
Proof.
  assert (match sync_main (fun _ => None) (fun _ => empty_store) demo_flags demo_outside with
          | Ok _ => True | Err _ => False end) as Hok by (vm_compute; exact I).
  destruct (sync_main (fun _ => None) (fun _ => empty_store) demo_flags demo_outside)
    as [[cfg w0]|] eqn:Hm; [|destruct Hok].
  eexists cfg, w0, _. split; [done|].
  assert (running cfg (poll_interval demo_flags) w0 true (run_state (poll cfg true) (run_state (set_health_metric "starting"
    [("reason", JString "startup_grace"); ("schema", JString (schema cfg))]) w0))) as Hrun
    by apply run_first, run_starts.
  assert (NewTicker (poll_interval demo_flags) = Ok tt) as Htick by reflexivity.
  pose proof (sync_stops cfg (poll_interval demo_flags) demo_flags w0 true _ Hrun (fun _ => Htick))
    as Hstop.
  split; [exact Hstop|].
  exact (@running_sidecar_points_valid memory_env Sqlite.small_sqlite (fun _ => None)
    (fun _ => empty_store) demo_flags demo_outside cfg w0 Stopped _ Hm Hstop).
Defined.
End witnesses.
