(* ===== verification/SyncCommand.v ===== *)
(** * sync/main.go: the command line

    [command_line] is what main makes of its arguments and its environment,
    [sidecar] the whole of main up to its loop. *)
From S2P Require Import Prelude GoString GoTime GoFlag GatewayMetadata GatewayWorld Gateway.
From S2P Require Import SyncWorld SyncPoller SyncMain.
From S2P Require GatewayCommand Sqlite.
Import GatewayCommand (string_flag, bool_flag, int_flag, duration_flag, healthcheck_url).

Open Scope Z_scope.

(** The flags of a command line that gives none. *)
Definition default_flags (getenv : string -> string) : SyncFlags := {|
  flag_dbURL := ""; flag_storage := ""; intervalSec := 60; alertWebhook := "";
  flag_prefix := "backstop"; endpointURL := ""; flag_schema := "public";
  flag_snapshotOnStart := true; flag_snapshotEveryPoll := false; snapshotTables := "";
  snapshotStartupGrace := seconds 15; snapshotStablePolls := 2;
  snapshotPauseFile := getenv "BACKSTOP_SNAPSHOT_PAUSE_FILE"; flag_maxTableRows := 1000000;
  metadataDB := getenv "BACKSTOP_METADATA_DB"; metricsListen := ""; flag_maxSnapshotAge := 0;
  maxSnapshotFailures := 3; bypassDetection := false; allowedApplications := "";
  flag_allowedRoles := ""; allowedClientAddresses := ""; flag_agentRoles := "";
  flag_gatewayApplicationName := "backstop-gateway"; flag_mode := "snapshot-and-detect" |}.

(** The flags main declares, with the values of [f]. *)
Definition flag_values (f : SyncFlags) : list (string * value) := [
  ("db", VString (flag_dbURL f));
  ("storage", VString (flag_storage f));
  ("interval", VInt (intervalSec f));
  ("alert-webhook", VString (alertWebhook f));
  ("prefix", VString (flag_prefix f));
  ("endpoint-url", VString (endpointURL f));
  ("schema", VString (flag_schema f));
  ("snapshot-on-start", VBool (flag_snapshotOnStart f));
  ("snapshot-every-poll", VBool (flag_snapshotEveryPoll f));
  ("snapshot-tables", VString (snapshotTables f));
  ("snapshot-startup-grace", VDuration (snapshotStartupGrace f));
  ("snapshot-stable-polls", VInt (snapshotStablePolls f));
  ("snapshot-pause-file", VString (snapshotPauseFile f));
  ("max-table-rows", VInt (flag_maxTableRows f));
  ("metadata-db", VString (metadataDB f));
  ("metrics-listen", VString (metricsListen f));
  ("max-snapshot-age", VDuration (flag_maxSnapshotAge f));
  ("max-snapshot-failures", VInt (maxSnapshotFailures f));
  ("bypass-detection", VBool (bypassDetection f));
  ("allowed-application-names", VString (allowedApplications f));
  ("allowed-roles", VString (flag_allowedRoles f));
  ("allowed-client-addresses", VString (allowedClientAddresses f));
  ("agent-roles", VString (flag_agentRoles f));
  ("gateway-application-name", VString (flag_gatewayApplicationName f));
  ("mode", VString (flag_mode f))].

Definition read_flags (m : FlagSet) : SyncFlags := {|
  flag_dbURL := string_flag "db" m;
  flag_storage := string_flag "storage" m;
  intervalSec := int_flag "interval" m;
  alertWebhook := string_flag "alert-webhook" m;
  flag_prefix := string_flag "prefix" m;
  endpointURL := string_flag "endpoint-url" m;
  flag_schema := string_flag "schema" m;
  flag_snapshotOnStart := bool_flag "snapshot-on-start" m;
  flag_snapshotEveryPoll := bool_flag "snapshot-every-poll" m;
  snapshotTables := string_flag "snapshot-tables" m;
  snapshotStartupGrace := duration_flag "snapshot-startup-grace" m;
  snapshotStablePolls := int_flag "snapshot-stable-polls" m;
  snapshotPauseFile := string_flag "snapshot-pause-file" m;
  flag_maxTableRows := int_flag "max-table-rows" m;
  metadataDB := string_flag "metadata-db" m;
  metricsListen := string_flag "metrics-listen" m;
  flag_maxSnapshotAge := duration_flag "max-snapshot-age" m;
  maxSnapshotFailures := int_flag "max-snapshot-failures" m;
  bypassDetection := bool_flag "bypass-detection" m;
  allowedApplications := string_flag "allowed-application-names" m;
  flag_allowedRoles := string_flag "allowed-roles" m;
  allowedClientAddresses := string_flag "allowed-client-addresses" m;
  flag_agentRoles := string_flag "agent-roles" m;
  flag_gatewayApplicationName := string_flag "gateway-application-name" m;
  flag_mode := string_flag "mode" m |}.

Definition declared (getenv : string -> string) : FlagSet :=
  list_to_map (flag_values (default_flags getenv)).

(** The flags, or the code the process exits with. *)
Definition command_line (args : list string) (getenv : string -> string) : Z + SyncFlags :=
  match Parse args (declared getenv) with
  | inl e => inl (exit_code e)
  | inr (m, _) => inr (read_flags m)
  end.

(** The process exits, or its loop runs with an interval. *)
Inductive process `{SyncEnv} :=
  | Exit (code : Z)
  | Polling (cfg : SConfig) (interval : duration) (w : SWorld).

Section sidecar.
Context `{env : SyncEnv} `{sq : Sqlite.Sqlite}.
Variable ParseRequestURI : string -> option error.
Variable rows_of : Sqlite.File -> MetadataStore.

Definition sidecar (args : list string) (answer : string -> httpOutcome) (o : SyncOutside) : process :=
  match healthcheck_url args with
  | Some url =>
      match sync_runHTTPHealthcheck (answer url) with Ok _ => Exit 0 | Err _ => Exit 1 end
  | None =>
      match command_line args (environ o) with
      | inl code => Exit code
      | inr f =>
          match sync_main ParseRequestURI rows_of f o with
          | Ok (cfg, w) => Polling cfg (poll_interval f) w
          | Err _ => Exit 1
          end
      end
  end.
End sidecar.

(** ** Lemmas *)
Lemma sync_flags_read f : read_flags (list_to_map (flag_values f)) = f.
Proof. destruct f. reflexivity. Qed.

Lemma sync_flag_names f :
  Forall (fun n => plain n = true) (flag_values f).*1 /\ NoDup (flag_values f).*1.
Proof.
  change (flag_values f).*1 with (flag_values (default_flags (fun _ => ""))).*1.
  split; apply (bool_decide_unpack _); vm_compute; exact I.
Qed.

(** The settings of a sidecar as an administrator writes them. *)
Definition command_of (f : SyncFlags) : list string := setting <$> flag_values f.

Definition flags_in_width (f : SyncFlags) : Prop := Forall in_width (flag_values f).*2.

(** Every configuration of the sidecar is a command line; what stands behind a word or
    behind the end of the flags changes nothing. *)
Theorem sync_command_line_roundtrip f getenv rest :
  flags_in_width f ->
  (forall a rest', rest = a :: rest' -> read_argument a = Word \/ read_argument a = Terminator) ->
  command_line (command_of f ++ rest) getenv = inr f.
Proof.
  intros Hw Hrest. unfold command_line, command_of, declared.
  destruct (sync_flag_names f) as [Hplain Hnd].
  rewrite Parse_settings; [|done..| |exact Hw].
  - assert (exists rest', Parse rest (list_to_map (flag_values f))
      = inr (list_to_map (flag_values f), rest')) as [rest' ->]; [|by rewrite sync_flags_read].
    by apply Parse_ends.
  - repeat constructor.
Qed.

(** The interval is the number of seconds up to 292 years; from there on it wraps. *)
Lemma poll_interval_exact f :
  1 <= intervalSec f <= 9223372036 ->
  poll_interval f = intervalSec f * Second /\ NewTicker (poll_interval f) = Ok tt.
Proof.
  intros H. unfold poll_interval, NewTicker. rewrite seconds_small by lia. split; [done|].
  destruct (Z.leb_spec (intervalSec f * Second) 0); [unfold Second in *; lia|done].
Qed.

Example poll_interval_wraps :
  NewTicker (seconds 9223372037) = Err "non-positive interval for NewTicker"
  /\ seconds 18446744074 = 290448384.
Proof. by vm_compute. Qed.

(** A sidecar whose interval is not positive polls once: main does not look at the
    interval, and the ticker of the loop panics behind the first poll. *)
Theorem no_interval_polls_once `{env : SyncEnv} cfg interval w0 w :
  interval <= 0 -> running cfg interval w0 true w ->
  exists w1, running cfg interval w0 false w1 /\ rtc outside (run_state (poll cfg true) w1) w.
Proof.
  intros Hi. remember true as polled eqn:Hp. intros Hrun. revert Hp.
  induction Hrun as [|polled w w' _ IH Hout|w Hrun _|w _ _ Ht]; intros Hp.
  - done.
  - destruct (IH Hp) as (w1 & H1 & H2). exists w1. split; [done|]. by eapply rtc_r.
  - by exists w.
  - unfold NewTicker in Ht. destruct (Z.leb_spec interval 0); [done|lia].
Qed.
