(* ===== verification/System.v ===== *)
(** * The gateway and the sidecar together

    The two processes share one bucket and one metadata database.  [sys_step]
    interleaves the steps of the gateway ([gstep]) with the polls of the sidecar;
    only the sidecar writes to the bucket.  What the gateway relies on when it lets
    a destructive statement through was captured by the sidecar in the same run. *)
From S2P Require Import Prelude GoString GoTime Json JsonText Sha256 Postgres PgAst SqlAnalyzer Policy.
From S2P Require Import Manifest Approval Pause Auth GatewayMetadata GatewayWorld Impact SnapshotVerifier.
From S2P Require Import McpServer Gateway GatewaySafety GatewayProperties GatewayBucket.
From S2P Require SyncDelta SyncWorld SyncSnapshot SyncPoller SyncMain SyncProvenance.
From S2P Require SyncDurability EndToEnd.

Open Scope Z_scope.

Section system.
Context `{senv : SyncWorld.SyncEnv, pg : Postgres, env : GatewayEnv}.
Variable Parse : string -> result (list (option Node)).
Variable gcfg : Config.
Variable srv : ServerConfig.
Variable scfg : SyncWorld.SConfig.
Variable interval : duration.

(** [polled] is whether the sidecar has made its first poll. *)
Record System := { gateway : GState; polled : bool; sidecar : SyncWorld.SWorld }.

(** The processes see the same objects and the same database. *)
Record agree (w : World) (sw : SyncWorld.SWorld) : Prop := {
  same_bucket : forall key, GetObject (s3 w) key = SyncWorld.GetObject key (SyncWorld.store sw);
  same_metadata : GatewayWorld.metadata w = SyncWorld.metadata sw;
}.

(** The first thing [Run] does. *)
Definition sidecar_starts (sw : SyncWorld.SWorld) : SyncWorld.SWorld :=
  run_state (SyncWorld.set_health_metric "starting"
    [("reason", JString "startup_grace"); ("schema", JString (SyncWorld.schema scfg))]) sw.

(** While one process makes a step, the world outside the other one changes: its
    clock, the databases, and what the step did to the bucket and the metadata.
    The sidecar may die and start again: before it died it was some way into a
    poll, between two operations of a capture even. *)
Inductive sys_step : System -> list (time * event) -> System -> Prop :=
  | sys_gateway σ evs g' sw' :
      gstep Parse gcfg srv (gateway σ) evs g' ->
      SyncMain.outside (sidecar σ) sw' -> SyncWorld.store sw' = SyncWorld.store (sidecar σ) ->
      agree (gw g') sw' ->
      sys_step σ evs {| gateway := g'; polled := polled σ; sidecar := sw' |}
  | sys_poll σ w' :
      let sw' := run_state (SyncPoller.poll scfg (negb (polled σ))) (sidecar σ) in
      (polled σ = true -> SyncMain.NewTicker interval = Ok tt) ->
      core w' = core (gw (gateway σ)) -> agree w' sw' ->
      sys_step σ [] {| gateway := {| gw := w'; waiting := waiting (gateway σ) |};
                       polled := true; sidecar := sw' |}
  | sys_restart σ sw w' :
      SyncProvenance.later scfg (sidecar σ) sw -> SyncWorld.latest sw = ∅ ->
      SyncWorld.fingerprints sw = ∅ -> SyncWorld.tracker sw = SyncDelta.NewDeltaTracker ->
      core w' = core (gw (gateway σ)) -> agree w' (sidecar_starts sw) ->
      sys_step σ [] {| gateway := {| gw := w'; waiting := waiting (gateway σ) |};
                       polled := false; sidecar := sidecar_starts sw |}.

Inductive sys_run (σ0 : System) : list (time * event) -> System -> Prop :=
  | sys_start : sys_run σ0 [] σ0
  | sys_next tr σ evs σ' : sys_run σ0 tr σ -> sys_step σ evs σ' -> sys_run σ0 (tr ++ evs) σ'.

(** Both processes have just started, on a bucket without manifests. *)
Record started (σ0 : System) : Prop := {
  st_statements : statements (gw (gateway σ0)) = [];
  st_engine : exists t, approval (gw (gateway σ0)) = NewApprovalEngine t;
  st_waiting : waiting (gateway σ0) = ∅;
  st_agree : agree (gw (gateway σ0)) (sidecar σ0);
  st_polled : polled σ0 = false;
  st_sidecar : exists w0, sidecar σ0 = sidecar_starts w0;
  st_bucket : forall key body, HasSuffix key manifest_suffix = true ->
    SyncWorld.GetObject key (SyncWorld.store (sidecar σ0)) <> Ok (Ok body);
}.

(** What the gateway reads of a manifest the sidecar writes. *)
Definition reads_as (m : SyncWorld.SnapshotManifest) (r : SnapshotManifest) : Prop :=
  Unmarshal dec_manifest (json_first (json_indent (SyncWorld.enc_manifest m))) zero_manifest = Ok r.

Lemma reads_as_text m r :
  reads_as m r -> utf8_json (SyncWorld.enc_manifest m) = true ->
  int64_range (SyncWorld.ManifestVersion m) -> int64_range (SyncWorld.RowCount m) ->
  r = EndToEnd.gateway_manifest m.
Proof.
  unfold reads_as. intros Hr Hutf Hv Hn.
  rewrite json_indent_first, utf8_valid_json, EndToEnd.gateway_reads_manifest in Hr
    by (done || apply EndToEnd.manifest_depth). by injection Hr.
Qed.

(** The manifest is read back as it was written, and so is its data's key. *)
Definition readable (m : SyncWorld.SnapshotManifest) : Prop :=
  utf8_json (SyncWorld.enc_manifest m) = true /\ int64_range (SyncWorld.RowCount m)
  /\ TrimSpace (SyncWorld.S3DataKey m) = SyncWorld.S3DataKey m.

(** The recovery point [r], verified for the analysis [an], is one the sidecar
    captured between [w0] and [w], and its data is there in [w]. *)
Definition backed (w0 w : SyncWorld.SWorld) (an : sqlAnalysis) (r : SnapshotManifest) : Prop :=
  exists table m, criticalRecoveryTableFromAnalysis an = Ok table
    /\ SyncProvenance.captured_during scfg w0 w m /\ reads_as m r
    /\ TableName r = table /\ manifest_valid r table = true
    /\ (SyncDurability.fresh_until (SyncWorld.draws w) -> readable m ->
        SyncDurability.holds w (SyncWorld.S3DataKey m) (SyncWorld.DataSHA256 m)).

(** ** Invariants *)
Lemma sys_step_later σ evs σ' :
  sys_step σ evs σ' -> SyncProvenance.later scfg (sidecar σ) (sidecar σ').
Proof.
  intros [σ1 evs1 g' sw' _ Hout Hs _|σ1 w' sw' _ _ _|σ1 sw w' Hl _ _ _ _ _]; cbn [sidecar].
  - apply SyncProvenance.later_same; [done|]. apply Hout.
  - apply SyncProvenance.poll_moves.
  - transitivity sw; [done|]. by apply SyncProvenance.later_same.
Qed.

(** To the gateway, what the sidecar does is a change of the world outside. *)
Lemma sys_step_gateway σ evs σ' :
  sys_step σ evs σ' -> gstep Parse gcfg srv (gateway σ) evs (gateway σ').
Proof.
  intros [σ1 evs1 g' sw' H _ _ _|σ1 w' sw' _ Hc _|σ1 sw w' _ _ _ _ Hc _]; [exact H|..];
    by apply g_outside.
Qed.

Lemma sys_step_agree σ evs σ' : sys_step σ evs σ' -> agree (gw (gateway σ')) (sidecar σ').
Proof. by intros []. Qed.

Lemma sys_run_agree σ0 tr σ : started σ0 -> sys_run σ0 tr σ -> agree (gw (gateway σ)) (sidecar σ).
Proof. intros H0 [|? ? ? ? _ H%sys_step_agree]; [by apply st_agree|done]. Qed.

Lemma sys_run_later σ0 tr σ :
  sys_run σ0 tr σ -> SyncProvenance.later scfg (sidecar σ0) (sidecar σ).
Proof.
  induction 1 as [|tr σ evs σ' _ IH Hs]; [done|].
  transitivity (sidecar σ); [exact IH|by eapply sys_step_later].
Qed.

(** The gateway's part of a run is one of its runs, the sidecar's one of its. *)
Lemma sys_run_gateway σ0 tr σ :
  started σ0 -> sys_run σ0 tr σ -> reachable Parse gcfg srv (gateway σ) tr.
Proof.
  intros [Hst [t He] Hw _ _ _ _]. induction 1 as [|tr σ evs σ' _ IH Hs].
  - destruct σ0 as [[w wt] p sw]. cbn in *. subst wt. by eapply reach_init.
  - eapply reach_step; [exact IH|by apply sys_step_gateway].
Qed.

Lemma sys_run_sidecar σ0 tr σ :
  started σ0 -> sys_run σ0 tr σ ->
  exists w0, SyncMain.running scfg interval w0 (polled σ) (sidecar σ).
Proof.
  intros [_ _ _ _ Hp [w00 Hw0] _] Hrun.
  induction Hrun as [|tr σ evs σ' _ [w0 IH] Hs]; [exists w00; rewrite Hp, Hw0; constructor|].
  destruct Hs as [σ evs g' sw' _ Hout _ _|σ w' sw' Htick _ _|σ sw w' _ _ _ _ _ _];
    cbn [polled sidecar].
  - exists w0. by eapply SyncMain.run_outside.
  - exists w0. unfold sw'. destruct (polled σ); cbn [negb].
    + apply SyncMain.run_tick; [done|by apply Htick].
    + by apply SyncMain.run_first.
  - exists sw. constructor.
Qed.

Section laws.
Context {laws : SyncWorld.BucketLaws senv} {atomic : SyncWorld.BucketAtomic senv}.
Variable v : S3SnapshotVerifier.
Hypothesis verifier : snapshotVerifier gcfg = Some (S3_verifier v).

Lemma backed_later w0 w w' an r :
  backed w0 w an r -> SyncProvenance.later scfg w w' -> backed w0 w' an r.
Proof.
  intros (table & m & Ht & Hc & Hr & Htab & Hv & Hd) Hl. exists table, m.
  pose proof (SyncProvenance.captured_during_later _ _ _ _ _ Hc Hl). split_and!; try assumption.
  intros Hf Hm. apply (SyncDurability.captured_data_kept scfg w0 w w' m); [exact Hc|exact Hl|exact Hf|].
  apply Hd; [|exact Hm]. eapply SyncDurability.fresh_until_le; [|exact Hf].
  by eapply SyncDurability.later_draws.
Qed.

(** Where the gateway looks for the data of a manifest it could read. *)
Lemma gateway_data_key w0 w m r :
  SyncProvenance.captured_during scfg w0 w m -> reads_as m r -> readable m ->
  data_key r = SyncWorld.S3DataKey m /\ DataSHA256 r = SyncWorld.DataSHA256 m.
Proof.
  intros (w1 & w2 & _ & (s1 & Hu) & _) Hr (Hutf & Hn & Htrim).
  destruct Hu as (bytes & b & ddl & fks & checks & idxs & n & Hm & _).
  rewrite (reads_as_text m r Hr Hutf ltac:(by rewrite Hm) Hn). split; [|done].
  unfold data_key. change (S3DataKey (EndToEnd.gateway_manifest m)) with (SyncWorld.S3DataKey m).
  rewrite Htrim. destruct (String.eqb_spec (SyncWorld.S3DataKey m) "") as [H0|_]; [|done].
  rewrite Hm in H0. by apply EndToEnd.dataKey_not_empty in H0.
Qed.

Lemma verifier_quiet v' : snapshotVerifier gcfg = Some v' -> QuietVerifier v'.
Proof. rewrite verifier. intros [= <-]. apply S3_verifier_quiet. Qed.

(** What was verified in a bucket with the sidecar's manifests. *)
Lemma verified_backed w0 w sw args an r :
  agree w sw -> SyncProvenance.bucket_from scfg w0 sw -> recovery_verified gcfg w args an r ->
  backed w0 sw an r.
Proof.
  intros [Hb _] Hfrom (table & v' & w1 & w2 & Ht & Hv & Hs3 & Hver & _).
  rewrite verifier in Hv. injection Hv as <-. cbn [VerifyLatestSidecarSnapshot S3_verifier] in Hver.
  apply S3_VerifyLatest_facts in Hver
    as (_ & Hvalid & (keys & key & ts & _ & _ & (Hsuf & Hread & Hown & _) & _) & bytes & Hdata & Hsha).
  unfold getManifest in Hread. rewrite Hs3, Hb in Hread. rewrite Hs3, Hb in Hdata.
  destruct (SyncWorld.GetObject key (SyncWorld.store sw)) as [[body|]|] eqn:Hget; [|done..].
  cbn [mbind result_bind] in Hread.
  destruct (Hfrom key body Hsuf Hget) as (m & Hc & _ & ->).
  exists table, m. split; [exact Ht|]. split; [exact Hc|]. split; [exact Hread|].
  apply andb_true_iff in Hown as [_ Htab]. split; [by apply String.eqb_eq in Htab|].
  split; [exact Hvalid|]. intros _ Hm. destruct (gateway_data_key _ _ _ _ Hc Hread Hm) as [Hkey Hhash].
  exists bytes. rewrite <- Hkey, <- Hhash. by split.
Qed.

Definition needs_point (fl : inflight) : Prop :=
  RequiresRecovery (Decide (policy gcfg) (fl_analysis fl)) = true
  /\ snapshotBeforeCritical gcfg = true.

(** The request's point was captured, if it needs one. *)
Definition fl_backed (w0 w : SyncWorld.SWorld) (fl : inflight) : Prop :=
  needs_point fl -> backed w0 w (fl_analysis fl) (fl_recovery fl).

Record sys_inv (σ0 σ : System) : Prop := {
  si_bucket : SyncProvenance.bucket_from scfg (sidecar σ0) (sidecar σ);
  si_waiting : forall id fl, waiting (gateway σ) !! id = Some fl ->
    fl_backed (sidecar σ0) (sidecar σ) fl;
  si_executed : forall conn query, Executed conn query ∈ statements (gw (gateway σ)) ->
    policy_allows Parse gcfg query
    \/ exists id fl, fl_ok Parse gcfg id fl /\ args_Query (fl_args fl) = query
         /\ fl_backed (sidecar σ0) (sidecar σ) fl;
}.

Lemma fl_backed_later w0 w w' fl :
  fl_backed w0 w fl -> SyncProvenance.later scfg w w' -> fl_backed w0 w' fl.
Proof. intros H Hl Hn. eapply backed_later; [by apply H|done]. Qed.

(** A request that a step of the gateway makes wait was verified in its bucket. *)
Lemma gstep_new_waiting g evs g' id fl :
  gstep Parse gcfg srv g evs g' -> waiting g' !! id = Some fl ->
  waiting g !! id = Some fl \/ (needs_point fl ->
    recovery_verified gcfg (gw g) (fl_args fl) (fl_analysis fl) (fl_recovery fl)).
Proof.
  intros [g0 r entropy resp w' Hs|g0 r entropy fl0 w' Hfresh Hs|g0 id0 o fl0 e resp w' Hw Hst Hres
         |g0 t Ht|g0 w' Hc]; cbn [waiting gw]; try by left.
  - rewrite lookup_insert_Some. intros [[<- <-]|[_ ?]]; [right|by left].
    intros [Hr Hb]. by eapply serve_verified.
  - intros [_ ?]%lookup_delete_Some. by left.
Qed.

Lemma sys_inv_step σ0 tr σ evs σ' :
  started σ0 -> sys_run σ0 tr σ -> sys_step σ evs σ' -> sys_inv σ0 σ -> sys_inv σ0 σ'.
Proof.
  intros H0 Hrun Hstep [Hb Hw He].
  pose proof (sys_step_later _ _ _ Hstep) as Hl. pose proof (sys_step_gateway _ _ _ Hstep) as Hg.
  pose proof (sys_run_later _ _ _ Hrun) as Hl0. pose proof (sys_run_agree _ _ _ H0 Hrun) as Ha.
  pose proof (reachable_inv _ _ _ verifier_quiet _ _ (sys_run_gateway _ _ _ H0 Hrun)) as Hinv.
  assert (forall id fl, waiting (gateway σ) !! id = Some fl -> fl_ok Parse gcfg id fl) as Hok
    by (intros id fl H; by apply (inv_waiting _ _ _ _ Hinv) in H as [? _]).
  split.
  - by eapply SyncProvenance.bucket_from_later.
  - intros id fl Hfl. destruct (gstep_new_waiting _ _ _ _ _ Hg Hfl) as [Hold|Hnew].
    + eapply fl_backed_later; [by eapply Hw|done].
    + intros Hn. eapply backed_later; [|exact Hl]. by eapply verified_backed; [..|apply Hnew].
  - intros conn query.
    destruct (gstep_statements Parse gcfg srv verifier_quiet _ _ _ Hok Hg) as (ps & q & -> & Hps & Hq).
    rewrite !elem_of_app. intros [Hin|[Hin|Hin]].
    + destruct (He _ _ Hin) as [?|(id & fl & ? & ? & Hf)]; [by left|right].
      exists id, fl. split_and!; [done..|]. by eapply fl_backed_later.
    + by apply probes_not_executed in Hin.
    + destruct Hq as [->|[(c & q' & -> & impact & Hact & _)|(id & r & fl & c & _ & Hfl & _ & -> & _)]].
      * by apply elem_of_nil in Hin.
      * apply list_elem_of_singleton in Hin as [= _ ->]. left. by exists impact.
      * apply list_elem_of_singleton in Hin as [= _ ->]. right. exists id, fl.
        split_and!; [by apply Hok|done|]. eapply fl_backed_later; [by eapply Hw|done].
Qed.

Lemma sys_run_inv σ0 tr σ : started σ0 -> sys_run σ0 tr σ -> sys_inv σ0 σ.
Proof.
  intros H0. induction 1 as [|tr σ evs σ' Hrun IH Hs]; [|by eapply sys_inv_step].
  split.
  - intros key body Hk Hget. by destruct (st_bucket _ H0 key body Hk).
  - intros id fl. by rewrite (st_waiting _ H0), lookup_empty.
  - intros conn query. rewrite (st_statements _ H0). by intros ?%elem_of_nil.
Qed.

Lemma approved_critical_needs_point an :
  Action (Decide (policy gcfg) an) = PolicyActionApprove -> is_critical (RiskLevel an) = true ->
  RequireRecoveryForCritical (policy gcfg) = true ->
  RequiresRecovery (Decide (policy gcfg) an) = true.
Proof.
  unfold Decide. intros Ha Hc Hr. revert Ha. rewrite Hc, Hr.
  destruct (blocksOperation _ _); [done|]. destruct (BlockUnknownOrParseFailure _ && _); [done|].
  destruct (true && _ && _); [done|]. by destruct (requiresApproval _ _).
Qed.

Lemma impact_keeps_critical a impact :
  is_critical (RiskLevel a) = true -> is_critical (RiskLevel (applyImpactAnalysis a impact)) = true.
Proof. rewrite applyImpactAnalysis_level. intros Hc. destruct impact as [i|]; [by destruct (ImpactCritical i)|done]. Qed.

(** C3. The whole chain.  In every run of both processes from a bucket without
    manifests, a destructive statement that was sent to PostgreSQL was one that the
    policy lets run at once, or the first decision signalled for exactly this
    text was an approval and the recovery point it ran behind is a manifest of a
    capture that the sidecar made in this run: the manifest of the one table the
    statement destroys, valid, its data uploaded and read back with the
    manifest's hash before the manifest was written.  If no id was drawn twice and
    the manifest is UTF-8 text, the data is in the bucket still. *)
Theorem executed_behind_capture σ0 tr σ conn query :
  started σ0 -> sys_run σ0 tr σ -> Executed conn query ∈ statements (gw (gateway σ)) ->
  is_critical (RiskLevel (analyzeSQL Parse query)) = true ->
  RequireRecoveryForCritical (policy gcfg) = true -> snapshotBeforeCritical gcfg = true ->
  policy_allows Parse gcfg query
  \/ approved_in tr query /\ exists impact r,
       backed (sidecar σ0) (sidecar σ) (applyImpactAnalysis (analyzeSQL Parse query) impact) r.
Proof.
  intros H0 Hrun Hex Hcrit Hreq Hsnap.
  pose proof (reachable_inv _ _ _ verifier_quiet _ _ (sys_run_gateway _ _ _ H0 Hrun)) as Hinv.
  destruct (si_executed _ _ (sys_run_inv _ _ _ H0 Hrun) conn query Hex)
    as [?|(id & fl & Hok & <- & Hb)]; [by left|].
  destruct (inv_executed _ _ _ _ Hinv conn _ Hex) as [?|Happ]; [by left|right]. split; [done|].
  destruct (ok_analysis _ _ _ _ Hok) as [impact Han]. exists impact, (fl_recovery fl).
  rewrite <- Han. apply Hb. split; [|done].
  apply approved_critical_needs_point; [by eapply ok_action| |done].
  rewrite Han. by apply impact_keeps_critical.
Qed.
End laws.

(** ** Steps whose effect on the other process is known *)

(** The sidecar takes over what the gateway wrote to the metadata. *)
Definition gateway_to (g' : GState) (σ : System) : System := {|
  gateway := g'; polled := polled σ;
  sidecar := SyncWorld.set_metadata (GatewayWorld.metadata (gw g')) (sidecar σ) |}.

Lemma step_gateway_to evs g' σ :
  agree (gw (gateway σ)) (sidecar σ) -> gstep Parse gcfg srv (gateway σ) evs g' ->
  s3 (gw g') = s3 (gw (gateway σ)) -> sys_step σ evs (gateway_to g' σ).
Proof.
  intros [Hb _] Hg Hs. apply sys_gateway; [done|done|done|].
  split; [|done]. intros key. rewrite Hs. apply Hb.
Qed.

(** The gateway sees what a poll did, the bucket through [view]. *)
Definition poll_to (view : SyncWorld.Store -> S3) (σ : System) : System :=
  let sw := run_state (SyncPoller.poll scfg (negb (polled σ))) (sidecar σ) in
  {| gateway := {| gw := set_metadata (SyncWorld.metadata sw)
                           (set_s3 (view (SyncWorld.store sw)) (gw (gateway σ)));
                   waiting := waiting (gateway σ) |};
     polled := true; sidecar := sw |}.

Lemma step_poll_to view σ :
  (forall st key, GetObject (view st) key = SyncWorld.GetObject key st) ->
  SyncMain.NewTicker interval = Ok tt -> sys_step σ [] (poll_to view σ).
Proof.
  intros Hview Ht. unfold poll_to. apply sys_poll; [done|done|]. split; [|done].
  intros key. apply Hview.
Qed.
End system.

(** ** A run of both processes

    The sidecar polls until it has captured the table; then an agent asks for a
    TRUNCATE that names the snapshot, and an operator approves it. *)
Section witness.
#[local] Existing Instances SyncWorld.memory_env SyncWorld.memory_laws SyncWorld.memory_atomic
  null_postgres offline_env.

Notation demo_now := EndToEnd.demo_now.
Notation sys_config := EndToEnd.demo_gateway_config.

(** The bucket with its listing. *)
Definition bucket_view (st : gmap string string) : S3 := {|
  ListObjectsV2 := fun prefix =>
    [Ok (List.filter (fun key => HasPrefix key prefix) (map fst (map_to_list st)))];
  GetObject := fun key =>
    match st !! key with Some b => Ok (Ok b) | None => Err "NoSuchKey" end |}.

Definition sys0 : System := {|
  gateway := {| gw := set_metadata (Some empty_store) (set_s3 (bucket_view ∅) (fresh_world demo_now));
                waiting := ∅ |};
  polled := false;
  sidecar := sidecar_starts SyncWorld.memory_config (SyncWorld.memory_world demo_now) |}.

Notation sys_poll_to := (poll_to SyncWorld.memory_config bucket_view).
Definition sys3 : System := sys_poll_to (sys_poll_to (sys_poll_to sys0)).

Definition sys_query : request := {|
  method := "POST"; path := "/";
  http := {| headers := {["Content-Type" := "application/json"]} |}; query_params := ∅;
  req_body := Ok (json_text (JObject [("method", JString "tools/call");
    ("params", JObject [("name", JString "execute_query");
       ("arguments", GatewayProperties.demo_args "TRUNCATE users" "snap_abcd")])])) |}.

Definition sys_wait : reply * World :=
  serve demo_parse sys_config demo_server (Some [1; 2]) 0 sys_query (gw (gateway sys3)).
Definition inflight_of (rep : reply) : option inflight :=
  match rep with inr fl => Some fl | inl _ => None end.
Definition waiting_of (o : option inflight) : gmap string inflight :=
  match o with Some fl => {[fl_approvalID fl := fl]} | None => ∅ end.
Definition sys_fl : option inflight := inflight_of sys_wait.1.
Definition sys4 : System :=
  gateway_to {| gw := sys_wait.2; waiting := waiting_of sys_fl |} sys3.

Definition sys_approved : reply * World :=
  serve demo_parse sys_config demo_server None 1 demo_approve (gw (gateway sys4)).
Definition sys5 : System := gateway_to
  {| gw := sys_approved.2; waiting := waiting (gateway sys4) |} sys4.

Definition sys_engine : ApprovalEngine := request_end "appr_0102" (approval (gw (gateway sys5))).
Definition resume_of (o : option inflight) (e : ApprovalEngine) (w : World) : MCPResponse * World :=
  match o with
  | Some fl => resumeExecuteQuery sys_config fl demo_yes None (set_approval e w)
  | None => (errorResponse AnyNil 0 "", w)
  end.
Definition sys_resume : MCPResponse * World := resume_of sys_fl sys_engine (gw (gateway sys5)).
Definition sys6 : System := gateway_to
  {| gw := sys_resume.2; waiting := delete "appr_0102" (waiting (gateway sys5)) |} sys5.

Notation demo_step := (sys_step demo_parse sys_config demo_server SyncWorld.memory_config 1).
Notation demo_run := (sys_run demo_parse sys_config demo_server SyncWorld.memory_config 1 sys0).

Lemma sys_verifier_quiet v : snapshotVerifier sys_config = Some v -> QuietVerifier v.
Proof. intros [= <-]. apply S3_verifier_quiet. Qed.

Lemma resume_of_reads o e w : s3 (resume_of o e w).2 = s3 w.
Proof. destruct o as [fl|]; [|done]. exact (reads_resume sys_config fl demo_yes None (set_approval e w)). Qed.

Lemma sys0_started : started SyncWorld.memory_config sys0.
Proof.
  split; try done; [by eexists|by exists (SyncWorld.memory_world demo_now)].
Qed.

Lemma sys3_run : exists tr, demo_run tr sys3.
Proof.
  eexists. do 3 (eapply sys_next; [|apply step_poll_to; [intros; reflexivity|done]]).
  apply sys_start.
Qed.

Lemma sys_agree tr σ : demo_run tr σ -> agree (gw (gateway σ)) (sidecar σ).
Proof. apply sys_run_agree, sys0_started. Qed.

(** The request is answered with a wait, for its snapshot is ready. *)
Lemma sys4_step : exists evs, demo_step sys3 evs sys4.
Proof.
  destruct sys3_run as [tr Hrun]. unfold sys4, sys_fl.
  destruct sys_wait as [[resp|fl] w'] eqn:Hw; [by vm_compute in Hw|]. cbn [fst snd inflight_of waiting_of].
  eexists. apply step_gateway_to; [by eapply sys_agree| |].
  - rewrite <- insert_empty.
    change (∅ : gmap string inflight) with (waiting (gateway sys3)).
    eapply g_wait; [vm_compute; reflexivity|exact Hw].
  - pose proof (reads_serve demo_parse sys_config demo_server sys_verifier_quiet (Some [1; 2]) 0
      sys_query (gw (gateway sys3))) as H. unfold run_state in H. unfold sys_wait in Hw.
    by rewrite Hw in H.
Qed.

Lemma sys5_step : exists evs, demo_step sys4 evs sys5.
Proof.
  destruct sys3_run as [tr Hrun], sys4_step as [evs4 H4].
  apply sys_step_agree in H4.
  pose proof (reads_serve demo_parse sys_config demo_server sys_verifier_quiet None 1 demo_approve
    (gw (gateway sys4))) as H. unfold sys5, run_state in *. fold sys_approved in H |- *.
  assert (match sys_approved.1 with inl _ => True | inr _ => False end) as Hans
    by (vm_compute; exact I).
  destruct sys_approved as [[resp|fl] w'] eqn:Ha; [|destruct Hans].
  eexists. apply step_gateway_to; [exact H4| |exact H].
  apply (g_answer demo_parse sys_config demo_server (gateway sys4) demo_approve None resp).
  assert (Z.of_nat (size (waiting (gateway sys4))) = 1) as -> by (vm_compute; reflexivity).
  exact Ha.
Qed.

Lemma sys6_step : exists evs, demo_step sys5 evs sys6.
Proof.
  destruct sys5_step as [evs5 H5]. apply sys_step_agree in H5.
  destruct sys_fl as [fl|] eqn:Hfl; [|by vm_compute in Hfl].
  eexists. apply step_gateway_to; [exact H5| |].
  - apply (g_return demo_parse sys_config demo_server (gateway sys5) "appr_0102" (demo_yes, None) fl
      sys_engine sys_resume.1).
    + rewrite <- Hfl. vm_compute. reflexivity.
    + assert (exists pa, pending (approval (gw (gateway sys5))) !! "appr_0102" = Some pa
        /\ decision pa = Some demo_yes) as (pa & Hpa & Hd)
        by (eexists; split; [vm_compute; reflexivity|reflexivity]).
      exact (step_decided (now (gw (gateway sys5))) "appr_0102" pa demo_yes _ Hpa Hd).
    + unfold sys_resume. rewrite Hfl. cbn [fst snd]. apply surjective_pairing.
  - apply resume_of_reads.
Qed.

Lemma executed_behind_capture_witness :
  exists tr, demo_run tr sys6
  /\ Executed None "TRUNCATE users" ∈ statements (gw (gateway sys6))
  /\ (policy_allows demo_parse sys_config "TRUNCATE users"
      \/ approved_in tr "TRUNCATE users" /\ exists impact r,
         backed SyncWorld.memory_config (sidecar sys0) (sidecar sys6)
           (applyImpactAnalysis (analyzeSQL demo_parse "TRUNCATE users") impact) r).
Proof.
  destruct sys3_run as [tr Hrun], sys4_step as [e4 H4], sys5_step as [e5 H5], sys6_step as [e6 H6].
  assert (demo_run (((tr ++ e4) ++ e5) ++ e6) sys6) as H
    by (eapply sys_next; [eapply sys_next; [eapply sys_next; [exact Hrun|exact H4]|exact H5]|exact H6]).
  assert (Executed None "TRUNCATE users" ∈ statements (gw (gateway sys6))) as Hin.
  { apply executes_spec. vm_compute. reflexivity. }
  eexists. split; [exact H|]. split; [exact Hin|].
  apply (executed_behind_capture demo_parse sys_config demo_server SyncWorld.memory_config 1
    test_verifier eq_refl sys0 _ sys6 None "TRUNCATE users" sys0_started H Hin); reflexivity.
Defined.
End witness.
