(* ===== verification/GatewayLifecycle.v ===== *)
(** * gateway/main.go from its listener to its end

    [life] is what main is doing: serving, shutting down after the first SIGINT or
    SIGTERM, or gone.  From the signal on the listener and the idle connections are
    closed: a request, also an operator's decision, still comes in only over a
    connection that had been opened and not been used.  The handlers that run when
    the signal arrives go on, and the requests that wait, until their answers are out
    or ten seconds are over; then the process ends and what still waits is never
    answered.  Here a handler has its effects in one step, before the signal or behind
    it; GatewayShutdown takes the requests of agents apart. *)
From S2P Require Import Prelude GoString GoTime Json Postgres PgAst SqlAnalyzer Policy.
From S2P Require Import Approval Pause GatewayMetadata GatewayWorld SnapshotVerifier McpServer Gateway.
From S2P Require Import GatewaySafety GatewayProperties Startup GatewayCommand.
From S2P Require Sqlite.

Open Scope Z_scope.

(** [running] counts the handlers that have been started and have had no effect yet,
    [unused] the open connections without a request. *)
Inductive life :=
  | Accepting
  | Stopping (deadline : time) (running unused : nat)
  | Exited (code : Z).

(** The timeout of [srv.Shutdown]. *)
Definition shutdown_timeout : duration := seconds 10.

Section lifecycle.
Context `{pg : Postgres, env : GatewayEnv}.
Variable Parse : string -> result (list (option Node)).
Variable f : GatewayFlags.
Variable cfg : Config.
Variable s : ServerConfig.

(** What goes on without new requests. *)
Inductive drain : GState -> list (time * event) -> GState -> Prop :=
  | d_return g id outcome fl e resp w' :
      waiting g !! id = Some fl ->
      step (now (gw g)) (approval (gw g)) (Return id outcome) e ->
      resumeExecuteQuery cfg fl outcome.1 outcome.2 (set_approval e (gw g)) = (resp, w') ->
      drain g [(now (gw g), Return id outcome)]
        {| gw := w'; waiting := delete id (waiting g) |}
  | d_tick g t :
      now (gw g) <= t -> drain g [] {| gw := set_now t (gw g); waiting := waiting g |}
  | d_outside g w' :
      core w' = core (gw g) -> drain g [] {| gw := w'; waiting := waiting g |}.

Record Process := { doing : life; state : GState }.

(** The connections of a process that ends are gone. *)
Definition abandon (g : GState) : GState := {| gw := gw g; waiting := ∅ |}.

Inductive pstep : Process -> list (time * event) -> Process -> Prop :=
  | p_serves g evs g' :
      gstep Parse cfg s g evs g' ->
      pstep {| doing := Accepting; state := g |} evs {| doing := Accepting; state := g' |}
  | p_fails g : pstep {| doing := Accepting; state := g |} [] {| doing := Exited 1; state := abandon g |}
  | p_signal g running unused :
      pstep {| doing := Accepting; state := g |} []
        {| doing := Stopping (now (gw g) + shutdown_timeout) running unused;
           state := {| gw := run_state (gateway_stop f) (gw g); waiting := waiting g |} |}
  | p_drains deadline running unused g evs g' :
      now (gw g) < deadline -> drain g evs g' ->
      pstep {| doing := Stopping deadline running unused; state := g |} evs
            {| doing := Stopping deadline running unused; state := g' |}
  | p_runs deadline running unused g evs g' :
      now (gw g) < deadline -> gstep Parse cfg s g evs g' ->
      pstep {| doing := Stopping deadline (S running) unused; state := g |} evs
            {| doing := Stopping deadline running unused; state := g' |}
  | p_late deadline running unused g evs g' :
      now (gw g) < deadline -> gstep Parse cfg s g evs g' ->
      pstep {| doing := Stopping deadline running (S unused); state := g |} evs
            {| doing := Stopping deadline running unused; state := g' |}
  | p_exits deadline running unused g :
      (running = 0%nat /\ waiting g = ∅) \/ deadline <= now (gw g) ->
      pstep {| doing := Stopping deadline running unused; state := g |} []
            {| doing := Exited 0; state := abandon g |}.

Inductive prun (p0 : Process) : list (time * event) -> Process -> Prop :=
  | prun_start : prun p0 [] p0
  | prun_next tr p evs p' : prun p0 tr p -> pstep p evs p' -> prun p0 (tr ++ evs) p'.

(** A request the process answers. *)
Lemma prun_answers p r entropy resp w' :
  doing p = Accepting ->
  serve Parse cfg s entropy (Z.of_nat (size (waiting (state p)))) r (gw (state p)) = (inl resp, w') ->
  exists evs, prun p evs
    {| doing := Accepting; state := {| gw := w'; waiting := waiting (state p) |} |}.
Proof.
  destruct p as [d g]. cbn [doing state]. intros -> Hs. eexists. eapply prun_next; [apply prun_start|].
  apply p_serves. by eapply g_answer.
Qed.

(** ** Its states are states of the transition system *)
Hypothesis verifier_ok : forall v, snapshotVerifier cfg = Some v -> QuietVerifier v.

Lemma drain_gstep g evs g' : drain g evs g' -> gstep Parse cfg s g evs g'.
Proof.
  intros [g0 id o fl e resp w' ? ? ?|g0 t ?|g0 w' ?];
    [by eapply g_return|by apply g_tick|by apply g_outside].
Qed.

Lemma stop_core w : core (run_state (gateway_stop f) w) = core w.
Proof.
  apply (leaves_bind core); [apply (leaves_with_metadata core)|intros ?; apply leaves_ret].
Qed.

(** A process is in a state of the transition system, or died in one. *)
Lemma process_reachable p0 tr p :
  doing p0 = Accepting -> reachable Parse cfg s (state p0) [] -> prun p0 tr p ->
  exists g, reachable Parse cfg s g tr /\ gw (state p) = gw g
    /\ ((forall code, doing p <> Exited code) -> state p = g).
Proof.
  intros _ H0. induction 1 as [|tr p evs p' _ (g & Hg & Hgw & Hst) Hs]; [by exists (state p0)|].
  destruct Hs as [g1 evs g2 H|g1|g1 n u|dl n u g1 evs g2 _ H|dl n u g1 evs g2 _ H
    |dl n u g1 evs g2 _ H|dl n u g1 _];
    cbn [doing state] in *; specialize (Hst ltac:(done)); subst g; try rewrite app_nil_r.
  - exists g2. split; [by eapply reach_step|done].
  - exists g1. split; [done|]. split; [done|]. intros Hx. by destruct (Hx 1).
  - exists {| gw := run_state (gateway_stop f) (gw g1); waiting := waiting g1 |}.
    split; [|done]. rewrite <- (app_nil_r tr). eapply reach_step; [exact Hg|].
    by apply g_outside, stop_core.
  - exists g2. split; [by eapply reach_step, drain_gstep|done].
  - exists g2. split; [by eapply reach_step|done].
  - exists g2. split; [by eapply reach_step|done].
  - exists g1. split; [done|]. split; [done|]. intros Hx. by destruct (Hx 0).
Qed.
End lifecycle.

Section main.
Context `{pg : Postgres, env : GatewayEnv, sq : Sqlite.Sqlite}.
Variable ParseRequestURI : string -> option error.
Variable rows_of : Sqlite.File -> MetadataStore.

(** main on a command line: what it exits with, or the process that serves; [listen]
    is what [net.Listen] makes of the address. *)
Definition main_process (args : list string) (answer : string -> httpOutcome)
    (listen : string -> result unit) (o : Outside)
    : Z + GatewayFlags * Config * ServerConfig * Process :=
  match gateway ParseRequestURI rows_of args answer o, command_line args (environ o) with
  | Exit code, _ | _, inl code => inl code
  | Serving cfg s w, inr f =>
      match listen (flag_listen f) with
      | Err _ => inl 1
      | Ok _ => inr (f, cfg, s, {| doing := Accepting; state := {| gw := w; waiting := ∅ |} |})
      end
  end.

(** C4. From the command line to the end of the process, nothing runs without
    permission.  Whatever the arguments and the environment are, in every state of
    the process, while it serves, while it shuts down and when it is gone, each
    agent's statement sent to PostgreSQL was one the policy executes at once, or one
    whose text and hash an approval was requested for and whose first decision in
    the life of the process was an approval. *)
Theorem process_executes_allowed Parse args answer listen o f cfg s p0 tr p conn query :
  main_process args answer listen o = inr (f, cfg, s, p0) ->
  prun Parse f cfg s p0 tr p -> Executed conn query ∈ statements (gw (state p)) ->
  policy_allows Parse cfg query \/ approved_in tr query.
Proof.
  unfold main_process. intros Hmain Hrun Hex.
  destruct (gateway _ _ _ _ _) as [code|cfg' s' w] eqn:Hg; [done|].
  destruct (command_line _ _) as [code|f']; [done|]. destruct (listen _); [|done].
  injection Hmain as -> -> -> <-.
  apply gateway_serving in Hg as (m & rest & _ & Hmain).
  pose proof (started_verifier_quiet _ _ _ _ _ _ _ Hmain) as Hv.
  apply gateway_main_ok in Hmain as (au & v & c & d & _ & _ & _ & _ & _ & _ & Hst & Ha).
  assert (reachable Parse cfg s {| gw := w; waiting := ∅ |} []) as H0 by (by eapply reach_init).
  destruct (process_reachable Parse f cfg s
    {| doing := Accepting; state := {| gw := w; waiting := ∅ |} |} tr p eq_refl H0 Hrun) as (g & Hg & Hgw & _).
  rewrite Hgw in Hex. by apply (inv_executed _ _ _ _ (reachable_inv _ _ _ Hv g tr Hg) conn).
Qed.
End main.

(** ** A process *)
Section witnesses.
#[local] Existing Instances null_postgres offline_env.
#[local] Existing Instance Sqlite.small_sqlite.

Definition statements_of (p : Process) : list statement := statements (gw (state p)).

(** A gateway that serves a SELECT. *)
Definition demo_process : Z + GatewayFlags * Config * ServerConfig * Process :=
  main_process (fun _ => None) (fun _ => empty_store)
    ["--allow-insecure-no-auth"; "--db=postgres://db"] (fun _ => NetworkError) (fun _ => Ok tt)
    Startup.demo_outside.
Definition demo_reply (cfg : Config) (s : ServerConfig) (p : Process) : reply * World :=
  serve demo_parse cfg s None (Z.of_nat (size (waiting (state p)))) (demo_query "SELECT 1")
    (gw (state p)).
Definition demo_next (cfg : Config) (s : ServerConfig) (p : Process) : Process := {|
  doing := Accepting;
  state := {| gw := (demo_reply cfg s p).2; waiting := waiting (state p) |} |}.

Lemma process_executes_allowed_witness :
  exists f cfg s p0 tr, demo_process = inr (f, cfg, s, p0)
  /\ prun demo_parse f cfg s p0 tr (demo_next cfg s p0)
  /\ Executed None "SELECT 1" ∈ statements (gw (state (demo_next cfg s p0)))
  /\ (policy_allows demo_parse cfg "SELECT 1" \/ approved_in tr "SELECT 1").
Proof.
  assert (match demo_process with
          | inr (f, cfg, s, p0) =>
              doing p0 = Accepting
              /\ match (demo_reply cfg s p0).1 with inl _ => True | inr _ => False end
              /\ executes "SELECT 1" (statements_of (demo_next cfg s p0)) = true
          | inl _ => False
          end) as Hok by (vm_compute; done).
  destruct demo_process as [code|[[[f cfg] s] p0]] eqn:Hp; [destruct Hok|].
  destruct Hok as (Hd & Hr & Hex).
  destruct (demo_reply cfg s p0) as [[resp|fl] w'] eqn:Hreply; [|destruct Hr].
  destruct (prun_answers demo_parse f cfg s p0 (demo_query "SELECT 1") None resp w' Hd Hreply)
    as [tr Hrun].
  assert (demo_next cfg s p0 = {| doing := Accepting;
    state := {| gw := w'; waiting := waiting (state p0) |} |}) as Hn
    by (unfold demo_next; by rewrite Hreply).
  rewrite <- Hn in Hrun. apply executes_spec in Hex.
  exists f, cfg, s, p0, tr. split; [reflexivity|]. split; [exact Hrun|]. split; [exact Hex|].
  exact (@process_executes_allowed null_postgres offline_env Sqlite.small_sqlite (fun _ => None)
    (fun _ => empty_store) demo_parse _ _ _ _ f cfg s p0 tr _ None "SELECT 1" Hp Hrun Hex).
Defined.
End witnesses.
