(* ===== verification/GatewayShutdown.v ===== *)
(** * The shutdown of the gateway, action by action

    From the signal on, [srv.Shutdown] lets the requests go on that are in the middle
    of their handlers or wait for an operator, for ten seconds.  [sstep] is that, over
    the calls of GatewayConcurrent: the requests make their actions, waits end, the
    clock and the world go on; [spare] counts what still comes in: requests over open
    connections that had not been used, and the decisions of operators whose requests
    come in over these or were being handled when the signal arrived. *)
From S2P Require Import Prelude GoString GoTime Json Postgres PgAst SqlAnalyzer Policy.
From S2P Require Import Approval Pause GatewayMetadata GatewayWorld SnapshotVerifier McpServer.
From S2P Require Import GatewaySafety GatewayProperties Interleave GatewayCalls GatewayConcurrent.
From S2P Require Import Startup GatewayLifecycle.

Open Scope Z_scope.

Section shutdown.
Context `{pg : Postgres, env : GatewayEnv}.
Variable Parse : string -> result (list (option Node)).
Variable cfg : Config.

Abbreviation requests := (pool World (MCPResponse + inflight)).
Abbreviation log := (list (nat * option (World * World))).

(** A gateway that stops, or the world it leaves. *)
Inductive stopping :=
  | Drains (deadline : time) (spare : nat) (p : requests)
  | Ended (w : World).

Definition world_of (d : stopping) : World :=
  match d with Drains _ _ p => shared p | Ended w => w end.

(** The signal: the row of the health table, and then the shutdown begins. *)
Definition told_to_stop (f : GatewayFlags) (spare : nat) (p : requests) : stopping :=
  Drains (now (shared p) + shutdown_timeout) spare
    {| shared := run_state (gateway_stop f) (shared p); calls := calls p |}.

Definition is_signal (e : time * event) : bool :=
  match e.2 with Signal _ _ => true | _ => false end.

(** A request that has been answered. *)
Definition answered (c : call World (MCPResponse + inflight)) : Prop :=
  exists resp, c = Ret (inl resp).

Inductive sstep : stopping -> list (time * event) -> log -> stopping -> Prop :=
  | s_goes_on deadline spare p evs l p' :
      now (shared p) < deadline -> cstep Parse cfg p evs l p' ->
      length (calls p') = length (calls p) -> forallb (fun e => negb (is_signal e)) evs = true ->
      sstep (Drains deadline spare p) evs l (Drains deadline spare p')
  | s_comes_in deadline spare p evs l p' :
      now (shared p) < deadline -> cstep Parse cfg p evs l p' ->
      sstep (Drains deadline (S spare) p) evs l (Drains deadline spare p')
  | s_ends deadline spare p :
      (forall i c, calls p !! i = Some c -> answered c) \/ deadline <= now (shared p) ->
      sstep (Drains deadline spare p) [] [] (Ended (shared p)).

Inductive sruns (d0 : stopping) : list (time * event) -> log -> stopping -> Prop :=
  | sruns_start : sruns d0 [] [] d0
  | sruns_next evs l d evs' l' d' :
      sruns d0 evs l d -> sstep d evs' l' d' -> sruns d0 (evs ++ evs') (l ++ l') d'.

(** ** What the requests may still do *)

Lemma stop_outside f p :
  cstep Parse cfg p [] [] {| shared := run_state (gateway_stop f) (shared p); calls := calls p |}.
Proof.
  pose proof (stop_core f (shared p)) as Hc.
  unfold core in Hc. injection Hc as Hs Ha _ Hn. by apply c_outside.
Qed.

(** A step brings in one request at most. *)
Lemma cstep_calls p evs l p' :
  cstep Parse cfg p evs l p' -> (length (calls p') <= S (length (calls p)))%nat.
Proof.
  intros [| i q q' (? & ? & ? & _ & _ & ->)%move_inv _| | | |]; cbn [calls];
    rewrite ?length_app, ?length_insert; cbn; lia.
Qed.

(** When nothing comes in any more, a request that was [c] at the signal is answered
    already; or it waited and only executes its query if the first decision on it was
    an approval then; or it was being handled and executes nothing behind a wait. *)
Variable tr : list (time * event).

Definition decided (fl : inflight) (query : string) : Prop :=
  query = args_Query (fl_args fl)
  /\ exists r, first_signal (fl_approvalID fl) tr = Some r /\ res_Approved r = true.

(** A call that may execute [ok] only, and does not wait. *)
Definition finishes (ok : string -> Prop) (c : call World (MCPResponse + inflight)) : Prop :=
  exists h, acts (lawful (fun _ => ok)) (fun _ r => exists resp, r = inl resp) h c.

Definition since (evs : list (time * event)) (l : log) (i : nat)
    (c c' : call World (MCPResponse + inflight)) : Prop :=
  match c with
  | Ret (inl _) => c' = c
  | Ret (inr fl) =>
      (c' = c /\ first_signal (fl_approvalID fl) (tr ++ evs) = first_signal (fl_approvalID fl) tr)
      \/ finishes (decided fl) c'
  | Act _ _ _ =>
      ((i, None) ∉ l /\ forall fl, waits c' = Some fl ->
         first_signal (fl_approvalID fl) (tr ++ evs) = None)
      \/ finishes (fun _ => False) c'
  end.

Lemma finishes_waits ok c fl : finishes ok c -> waits c = Some fl -> False.
Proof. intros [h Hc] Hw. destruct c as [[|]|]; try done. by destruct Hc as [? [=]]. Qed.

Lemma finishes_move ok i (p p' : requests) c :
  finishes ok c -> calls p !! i = Some c -> move i p = Some p' ->
  (exists c', calls p' = <[i := c']> (calls p) /\ finishes ok c')
  /\ exists ss, statements (shared p') = statements (shared p) ++ ss
       /\ forall conn query, Executed conn query ∈ ss -> ok query.
Proof.
  intros [h Hc] Hi Hm. destruct (acts_move _ _ _ _ _ _ _ Hi Hc Hm) as ((Hs & _) & c' & Hc' & Hacts).
  split; [|exact Hs]. exists c'. split; [done|]. by eexists.
Qed.

(** The call behind a wait. *)
Lemma finishes_resume (ok : string -> Prop) fl r err :
  fl_ok Parse cfg (fl_approvalID fl) fl ->
  (err = None -> res_Approved r = true -> ok (args_Query (fl_args fl))) ->
  finishes ok (answer_call (resumeExecuteQuery_call cfg fl r err)).
Proof.
  intros Hfl Hok. exists []. unfold answer_call.
  eapply acts_bind; [apply (acts_resume Parse cfg (fun _ => ok)); [by intros ? ? ?|done|]|].
  - intros He Ha _ _. by apply Hok.
  - intros h resp _ _. by exists resp.
Qed.

Lemma since_kept evs l evs' l' j c c' :
  since evs l j c c' ->
  (forall fl, waits c' = Some fl ->
     first_signal (fl_approvalID fl) ((tr ++ evs) ++ evs') = first_signal (fl_approvalID fl) (tr ++ evs)) ->
  (j, None) ∉ l' -> since (evs ++ evs') (l ++ l') j c c'.
Proof.
  unfold since. rewrite (app_assoc tr). intros Hc Hkept Hl.
  destruct c as [[|fl]|]; [done| |].
  - destruct Hc as [[-> Hs]|?]; [left|by right]. split; [done|]. by rewrite Hkept.
  - destruct Hc as [[Hn Hs]|?]; [left|by right]. split; [set_solver|].
    intros fl Hw. rewrite Hkept by done. by apply Hs.
Qed.

(** A move requests nothing under the id of a request that waits. *)
Lemma move_requests_other t l i j p p' c fl :
  cinv Parse cfg p t l -> move i p = Some p' -> fresh_ids i p p' ->
  calls p !! j = Some c -> waits c = Some fl ->
  first_signal (fl_approvalID fl) (t ++ new_requests (shared p) (shared p'))
    = first_signal (fl_approvalID fl) t.
Proof.
  intros Hinv Hm Hfresh Hj Hw. destruct (ci_waiting _ _ _ _ _ Hinv j c fl Hj Hw) as (pa & Hpa & _).
  pose proof Hm as (ea & f & k & Hi & _ & _)%move_inv.
  destruct (acts_move _ _ _ _ _ _ _ Hi (ci_calls _ _ _ _ _ Hinv i _ Hi) Hm) as [Hlaw _].
  destruct (move_engine _ _ _ _ _ Hfresh Hlaw) as [[_ ->]|(d & _ & Hnone & ->)]; [by rewrite app_nil_r|].
  rewrite first_signal_snoc. destruct (String.eqb_spec (details_ID d) (fl_approvalID fl)) as [Heq|]; [|done].
  rewrite Heq, Hpa in Hnone. done.
Qed.

(** A request that begins to wait has no decision yet. *)
Lemma move_begins t l i p p' c fl :
  cinv Parse cfg p t l -> move i p = Some p' -> fresh_ids i p p' ->
  calls p' !! i = Some c -> waits c = Some fl ->
  first_signal (fl_approvalID fl) (t ++ new_requests (shared p) (shared p')) = None.
Proof.
  intros Hinv Hm Hfresh Hi' Hw. pose proof Hm as (ea & f & k & Hi & _ & _)%move_inv.
  destruct (acts_move _ _ _ _ _ _ _ Hi (ci_calls _ _ _ _ _ Hinv i _ Hi) Hm) as (_ & c' & Hc' & Hacts).
  assert (pending (approval (shared p)) !! fl_approvalID fl = None) as Hnone
    by (apply Hfresh; right; eauto).
  rewrite Hc', list_lookup_insert_eq in Hi' by (by eapply lookup_lt_Some). injection Hi' as ->.
  destruct c as [[|fl']|]; try done. injection Hw as ->.
  destruct Hacts as (Hfl & h0 & w & w' & [_ [= <- <-]]%app_inj_tail & Hb).
  pose proof (ok_details_id _ _ _ _ Hfl) as Hid.
  rewrite (new_requests_begin _ _ _ Hb), first_signal_snoc by by rewrite Hid.
  by rewrite Hid, String.eqb_refl.
Qed.

Lemma since_step evs t l l0 evs' l' (p p' : requests) j c c1 c2 :
  t = tr ++ evs -> cinv Parse cfg p t (l0 ++ l) ->
  cstep Parse cfg p evs' l' p' -> length (calls p') = length (calls p) ->
  forallb (fun e => negb (is_signal e)) evs' = true ->
  calls p !! j = Some c1 -> calls p' !! j = Some c2 ->
  since evs l j c c1 -> since (evs ++ evs') (l ++ l') j c c2.
Proof.
  intros -> Hinv Hstep Hlen Hsig Hj1 Hj2 Hc. revert Hj1 Hj2 Hlen Hsig.
  destruct Hstep as [p entropy id raw|i p p' Hm Hfresh|i p fl outcome e Hi Hst|p id r|p t0 Ht|p w' Hs Ha Hn];
    cbn [calls]; intros Hj1 Hj2 Hlen Hsig.
  - rewrite length_app in Hlen. cbn in Hlen. lia.
  - assert (forall fl, waits c1 = Some fl -> first_signal (fl_approvalID fl)
      ((tr ++ evs) ++ new_requests (shared p) (shared p')) = first_signal (fl_approvalID fl) (tr ++ evs))
      as Hother by (intros fl Hw; by eapply move_requests_other).
    pose proof Hm as (ea & f & k & Hi & _ & Hp')%move_inv.
    destruct (decide (j = i)) as [->|Hne].
    + rewrite Hi in Hj1. injection Hj1 as <-.
      assert (forall ok, finishes ok (Act ea f k) -> finishes ok c2) as Hfin.
      { intros ok Hok. destruct (finishes_move ok i p p' _ Hok Hi Hm) as [(c' & Hc' & ?) _].
        rewrite Hc', list_lookup_insert_eq in Hj2 by (by eapply lookup_lt_Some). congruence. }
      destruct c as [[|fl]|]; [done| |]; cbn [since] in *.
      * destruct Hc as [[[=] _]|?]. right. by apply Hfin.
      * destruct Hc as [[Hno _]|?]; [left|right; by apply Hfin]. split.
        { rewrite elem_of_app, list_elem_of_singleton. by intros [?|[=]]. }
        intros fl Hw. rewrite app_assoc. by eapply move_begins.
    + rewrite Hp' in Hj2. cbn [calls] in Hj2. rewrite list_lookup_insert_ne in Hj2 by done.
      assert (c2 = c1) as -> by congruence. apply since_kept; [done..|]. by intros [=]%list_elem_of_singleton.
  - destruct (decide (j = i)) as [->|Hne].
    + rewrite list_lookup_insert_eq in Hj2 by (by eapply lookup_lt_Some). injection Hj2 as <-.
      rewrite Hi in Hj1. injection Hj1 as <-.
      pose proof (ci_calls _ _ _ _ _ Hinv i _ Hi) as [Hfl _].
      destruct (ci_engine _ _ _ _ _ Hinv) as [t0 Hrun]. destruct outcome as [r err]. cbn [fst snd].
      assert (err = None -> first_signal (fl_approvalID fl) (tr ++ evs) = Some r) as Hfirst.
      { intros ->. by apply (return_first_signal _ _ _ _ _ _ _ Hrun Hst). }
      destruct c as [[|fl0]|]; [done| |]; cbn [since] in *; right.
      * destruct Hc as [[[= <-] Hs]|Hf]; [|by destruct (finishes_waits _ _ fl Hf)].
        apply finishes_resume; [done|]. intros He Hr. split; [done|]. exists r. split; [|done].
        rewrite <- Hs. by apply Hfirst.
      * destruct Hc as [[_ Hs]|Hf]; [|by destruct (finishes_waits _ _ fl Hf)].
        apply finishes_resume; [done|]. intros He _. rewrite Hs in Hfirst by done.
        by specialize (Hfirst He).
    + rewrite list_lookup_insert_ne in Hj2 by done. assert (c2 = c1) as -> by congruence.
      apply since_kept; [done| |by intros [= ->]%list_elem_of_singleton].
      intros fl' _. by rewrite first_signal_snoc.
  - done.
  - assert (c2 = c1) as -> by congruence. rewrite !app_nil_r. done.
  - assert (c2 = c1) as -> by congruence. rewrite !app_nil_r. done.
Qed.

(** ** The runs behind the signal *)
Section runs.
Variable p0 : requests.
Variable l0 : log.
Variable spare0 : nat.

(** Why the request [i], with the log [l1] since the signal, still executes [query] when
    nothing comes in. *)
Definition was_going (l1 : log) (i : nat) (query : string) : Prop :=
  exists c, calls p0 !! i = Some c /\
  match c with
  | Ret (inl _) => False
  | Ret (inr fl) => decided fl query
  | Act _ _ _ => (i, None) ∉ l1
  end.

Definition executed_since (evs : list (time * event)) (l : log) (query : string) : Prop :=
  exists l1 i w w' l2 conn, l = l1 ++ (i, Some (w, w')) :: l2
    /\ sent w w' (Executed conn query)
    /\ may_run Parse cfg (tr ++ evs) (waited i (l0 ++ l1)) (own i (l0 ++ l1)) query
    /\ (spare0 = 0%nat -> was_going l1 i query).

Record draining (evs : list (time * event)) (l : log) (spare : nat) (p : requests) : Prop := {
  dr_reach : creachable Parse cfg p (tr ++ evs) (l0 ++ l);
  dr_spare : (length (calls p) + spare <= length (calls p0) + spare0)%nat;
  dr_alone : spare0 = 0%nat -> length (calls p) = length (calls p0)
    /\ forall i c c', calls p0 !! i = Some c -> calls p !! i = Some c' -> since evs l i c c';
  dr_new : exists new, statements (shared p) = statements (shared p0) ++ new
    /\ forall conn query, Executed conn query ∈ new -> executed_since evs l query;
}.

Lemma may_run_app t t' b h query : may_run Parse cfg t b h query -> may_run Parse cfg (t ++ t') b h query.
Proof.
  destruct b; cbn [may_run]; [|done]. intros [? ?]. split; [by apply approved_for_app|done].
Qed.

Lemma executed_since_app evs l evs' l' query :
  executed_since evs l query -> executed_since (evs ++ evs') (l ++ l') query.
Proof.
  intros (l1 & i & w & w' & l2 & conn & -> & Hs & Hm & Hg).
  exists l1, i, w, w', (l2 ++ l'), conn. rewrite <- app_assoc, (app_assoc tr).
  split; [done|]. split; [done|]. split; [by apply may_run_app|done].
Qed.

(** What a step adds to the statements. *)
Lemma draining_new evs l spare p evs' l' p' :
  cinv Parse cfg p (tr ++ evs) (l0 ++ l) -> draining evs l spare p -> cstep Parse cfg p evs' l' p' ->
  exists new, statements (shared p') = statements (shared p) ++ new
    /\ forall conn query, Executed conn query ∈ new -> executed_since (evs ++ evs') (l ++ l') query.
Proof.
  intros Hinv Hd Hstep.
  assert (forall st, st = statements (shared p) -> exists new, st = statements (shared p) ++ new
    /\ forall conn query, Executed conn query ∈ new -> executed_since (evs ++ evs') (l ++ l') query)
    as Hsame by (intros st ->; exists []; rewrite app_nil_r; split; [done|]; by intros ? ? ?%elem_of_nil).
  destruct Hstep as [p entropy id raw|i p p' Hm Hfresh|i p fl outcome e Hi Hst|p id r|p t0 Ht|p w' Hs Ha Hn];
    cbn [shared]; try by apply Hsame.
  pose proof Hm as (ea & f & k & Hi & _ & _)%move_inv.
  destruct (acts_move _ _ _ _ _ _ _ Hi (ci_calls _ _ _ _ _ Hinv i _ Hi) Hm) as (((ss & Hs & Hrun) & _) & _).
  exists ss. split; [done|]. intros conn query Hin.
  exists l, i, (shared p), (shared p'), [], conn. split; [done|]. split; [by exists ss|].
  split; [by rewrite app_assoc; eapply may_run_app, Hrun|].
  intros H0. destruct (dr_alone _ _ _ _ Hd H0) as [Hlen Hsince].
  destruct (calls p0 !! i) as [c|] eqn:Hc.
  2: { apply lookup_ge_None in Hc. apply lookup_lt_Some in Hi. lia. }
  exists c. split; [done|]. specialize (Hsince i c _ Hc Hi).
  assert (forall ok, finishes ok (Act ea f k) -> ok query) as Hfin.
  { intros ok Hok. destruct (finishes_move ok i p p' _ Hok Hi Hm) as [_ (ss' & Hs' & Hok')].
    rewrite Hs in Hs'. apply app_inv_head in Hs' as <-. by eapply Hok'. }
  destruct c as [[|fl]|]; cbn [since] in Hsince; [done| |].
  - destruct Hsince as [[[=] _]|Hf]. by apply (Hfin _ Hf).
  - destruct Hsince as [[? _]|Hf]; [done|]. by destruct (Hfin _ Hf).
Qed.

Lemma draining_step evs l spare spare' p evs' l' p' :
  (forall v, snapshotVerifier cfg = Some v -> QuietVerifier v) ->
  draining evs l spare p -> cstep Parse cfg p evs' l' p' ->
  (length (calls p') + spare' <= length (calls p) + spare)%nat ->
  (spare0 = 0%nat -> length (calls p') = length (calls p)
     /\ forallb (fun e => negb (is_signal e)) evs' = true) ->
  draining (evs ++ evs') (l ++ l') spare' p'.
Proof.
  intros Hv Hd Hstep Hspare Hgoing. pose proof (creachable_inv _ _ Hv _ _ _ (dr_reach _ _ _ _ Hd)) as Hinv.
  split.
  - rewrite !app_assoc. eapply creach_step; [apply Hd|done].
  - pose proof (dr_spare _ _ _ _ Hd). lia.
  - intros H0. destruct (Hgoing H0) as [Hlen Hsig], (dr_alone _ _ _ _ Hd H0) as [Hlen0 Hsince].
    split; [congruence|]. intros i c c' Hc Hc'.
    destruct (calls p !! i) as [c1|] eqn:H1.
    2: { apply lookup_ge_None in H1. apply lookup_lt_Some in Hc'. lia. }
    eapply (since_step evs _ l l0 evs' l' p p'); eauto.
  - destruct (dr_new _ _ _ _ Hd) as (new & Hnew & Hex).
    destruct (draining_new _ _ _ _ _ _ _ Hinv Hd Hstep) as (new' & Hnew' & Hex').
    exists (new ++ new'). rewrite Hnew', Hnew, app_assoc. split; [done|].
    intros conn query [Hin|Hin]%elem_of_app; [|by eapply Hex'].
    eapply executed_since_app, Hex, Hin.
Qed.

(** Where a run behind the signal is. *)
Definition stop_inv (deadline : time) (evs : list (time * event)) (l : log) (d : stopping) : Prop :=
  exists spare p, draining evs l spare p
    /\ (d = Drains deadline spare p \/ d = Ended (shared p)).

Lemma sruns_inv f evs l d :
  (forall v, snapshotVerifier cfg = Some v -> QuietVerifier v) ->
  creachable Parse cfg p0 tr l0 -> sruns (told_to_stop f spare0 p0) evs l d ->
  stop_inv (now (shared p0) + shutdown_timeout) evs l d.
Proof.
  intros Hv Hreach. induction 1 as [|evs l d evs' l' d' _ IH Hs].
  - exists spare0, {| shared := run_state (gateway_stop f) (shared p0); calls := calls p0 |}.
    split; [|by left]. pose proof (stop_outside f p0) as Hstop. split; cbn [calls shared].
    + eapply creach_step; [exact Hreach|exact Hstop].
    + done.
    + intros _. split; [done|]. intros i c c' Hc Hc'. rewrite Hc in Hc'. injection Hc' as <-.
      destruct c as [[|fl]|]; cbn [since]; [done|left|left]; rewrite ?app_nil_r; [done|].
      split; [by intros ?%elem_of_nil|done].
    + exists []. rewrite app_nil_r. split; [|by intros ? ? ?%elem_of_nil].
      assert (core (run_state (gateway_stop f) (shared p0)) = core (shared p0)) as Hc
        by apply stop_core. by unfold core in Hc; injection Hc.
  - destruct IH as (spare & p & Hd & [->| ->]); [|by inversion Hs].
    inversion Hs as [dl sp q evs1 l1 p' Hnow Hstep Hlen Hsig|dl sp q evs1 l1 p' Hnow Hstep|dl sp q Hend];
      subst.
    + exists spare, p'. split; [|by left]. eapply draining_step; [done..|by rewrite Hlen|done].
    + exists sp, p'. split; [|by left]. eapply draining_step; [done..| |].
      * pose proof (cstep_calls _ _ _ _ Hstep). lia.
      * intros H0. pose proof (dr_spare _ _ _ _ Hd). destruct (dr_alone _ _ _ _ Hd H0). lia.
    + exists spare, p. rewrite !app_nil_r. split; [done|by right].
Qed.
End runs.

(** ** Property *)

(** C5. What a gateway that was told to stop still does.  The signal may arrive at any
    point of a run, with requests waiting for an operator and others in the middle of
    their handlers, and [spare] further requests or decisions may still come in.  Each
    statement sent for an agent until the end of the process is sent by a request that
    looked at the pause and is executed by the policy or approved, as before; and when
    nothing comes in any more, by one that waited when the signal arrived, had been
    decided then, and by an approval first, or by one that was being handled then and
    has not waited since: what begins to wait now, or waits without a decision,
    executes nothing.  From ten seconds after the signal on the process only ends,
    whatever its requests do. *)
Theorem stopping_gateway_finishes_decided f p0 l0 spare evs l d :
  (forall v, snapshotVerifier cfg = Some v -> QuietVerifier v) ->
  creachable Parse cfg p0 tr l0 -> sruns (told_to_stop f spare p0) evs l d ->
  (exists new, statements (world_of d) = statements (shared p0) ++ new
     /\ forall conn query, Executed conn query ∈ new -> executed_since p0 l0 spare evs l query)
  /\ match d with
     | Drains _ _ p => (length (calls p) <= length (calls p0) + spare)%nat
     | Ended _ => True
     end
  /\ forall evs' l' d', now (shared p0) + shutdown_timeout <= now (world_of d) ->
       sstep d evs' l' d' -> evs' = [] /\ l' = [] /\ d' = Ended (world_of d).
Proof.
  intros Hv Hreach Hrun. destruct (sruns_inv p0 l0 spare f evs l d Hv Hreach Hrun) as (sp & p & Hd & Heq).
  assert (world_of d = shared p) as Hw by (by destruct Heq as [->| ->]).
  rewrite Hw. split; [apply Hd|]. split.
  - destruct d as [dl sp' q|w]; [|done]. destruct Heq as [[= -> -> ->]|[=]].
    pose proof (dr_spare _ _ _ _ _ _ _ Hd). lia.
  - intros evs' l' d' Hover Hs. destruct Heq as [->| ->]; inversion Hs; subst; [lia|lia|done].
Qed.
End shutdown.

(** ** A SELECT in the middle of its handler when the signal arrives *)
Section demo.
#[local] Existing Instances null_postgres offline_env.

Abbreviation demo_pool := (pool World (MCPResponse + inflight)).
Abbreviation demo_log := (list (nat * option (World * World))).

Fixpoint drain_run (deadline : time) (js : list nat) (st : demo_pool * list (time * event) * demo_log)
    : option (demo_pool * list (time * event) * demo_log) :=
  match js with
  | [] => Some st
  | j :: js =>
      let '(p, evs, l) := st in
      p' ← move j p;
      let new := new_requests (shared p) (shared p') in
      if fresh_check j p p' && (now (shared p) <? deadline)
         && forallb (fun e => negb (is_signal e)) new then
        drain_run deadline js (p', evs ++ new, l ++ [(j, Some (shared p, shared p'))])
      else None
  end.

Lemma drain_run_sruns d0 deadline spare js p evs l p' evs' l' :
  sruns demo_parse demo_config d0 evs l (Drains deadline spare p) ->
  drain_run deadline js (p, evs, l) = Some (p', evs', l') ->
  sruns demo_parse demo_config d0 evs' l' (Drains deadline spare p').
Proof.
  revert p evs l. induction js as [|j js IH]; intros p evs l Hp; cbn [drain_run]; [by intros [= <- <- <-]|].
  destruct (move j p) as [p1|] eqn:Hm; [|done]. cbn [mbind option_bind].
  destruct (fresh_check j p p1 && _ && _) eqn:Hc; [|done].
  apply andb_true_iff in Hc as [[Hf Hn%Z.ltb_lt]%andb_true_iff Hs]. apply IH.
  eapply sruns_next; [exact Hp|]. apply s_goes_on; [done| |  |done].
  - apply c_move; [done|by apply fresh_check_ok].
  - apply move_inv in Hm as (? & ? & ? & _ & _ & ->). cbn [calls]. by rewrite length_insert.
Qed.

(** Behind its look at the pause, and told to stop. *)
Definition mid_handler : option (demo_pool * list (time * event) * demo_log) :=
  demo_run [0; 0]%nat (GatewayConcurrent.demo_start "SELECT 1").
Definition told (p : demo_pool) : demo_pool :=
  {| shared := run_state (gateway_stop Startup.demo_flags) (shared p); calls := calls p |}.
Definition drained (p : demo_pool) : option (demo_pool * list (time * event) * demo_log) :=
  drain_run (now (shared p) + shutdown_timeout) [0; 0; 0]%nat (told p, [], []).

Lemma stopping_gateway_finishes_decided_witness :
  exists p0 tr l0 p evs l, creachable demo_parse demo_config p0 tr l0
  /\ statements (shared p0) = []
  /\ sruns demo_parse demo_config (told_to_stop Startup.demo_flags 0 p0) evs l
       (Drains (now (shared p0) + shutdown_timeout) 0 p)
  /\ Executed None "SELECT 1" ∈ statements (shared p)
  /\ (exists new, statements (shared p) = statements (shared p0) ++ new
       /\ forall conn query, Executed conn query ∈ new ->
            executed_since demo_parse demo_config tr p0 l0 0 evs l query).
Proof.
  assert (match mid_handler with
    | Some (p0, _, _) => statements (shared p0) = []
        /\ match drained p0 with
           | Some (p, _, _) => statements (shared p) = [Executed None "SELECT 1"]
           | None => False
           end
    | None => False
    end) as Hfacts by (vm_compute; split; reflexivity).
  destruct mid_handler as [[[p0 tr] l0]|] eqn:Hmid; [|destruct Hfacts].
  destruct Hfacts as [H0 Hfacts]. destruct (drained p0) as [[[p evs] l]|] eqn:Hd; [|destruct Hfacts].
  assert (creachable demo_parse demo_config p0 tr l0) as Hreach
    by (eapply demo_run_reaches; [apply (GatewayConcurrent.demo_start_reached "SELECT 1")|exact Hmid]).
  assert (sruns demo_parse demo_config (told_to_stop Startup.demo_flags 0 p0) evs l
    (Drains (now (shared p0) + shutdown_timeout) 0 p)) as Hrun
    by (eapply drain_run_sruns; [apply sruns_start|exact Hd]).
  exists p0, tr, l0, p, evs, l. split; [exact Hreach|]. split; [exact H0|]. split; [exact Hrun|].
  split; [rewrite Hfacts; by left|].
  exact (proj1 (stopping_gateway_finishes_decided demo_parse demo_config tr Startup.demo_flags p0 l0 0
    evs l _ demo_verifier Hreach Hrun)).
Defined.
End demo.
